(* ===== verification/_CoqProject ===== *)
-Q . S2P
Prelude.v
NetIP.v
TrustFabric.v
TrustDecide.v
TrustCompile.v
TrustPolicy.v
Vuln.v
VulnProps.v
Terminal.v
TerminalRelay.v
TerminalInv.v
TerminalProps.v
TerminalLift.v
TerminalExamples.v
Canonical.v
CanonicalProps.v
RoutineKeys.v
Utf8.v
Response.v
ResponseInv.v
ResponseProps.v
Credentials.v
Window.v
Action.v
Platform.v
Encoding.v
AuthBooks.v
AuthStore.v
WebAuthn.v
Authority.v
AuthTrust.v
AuthorityProps.v
AuthorityTotp.v
AuthTrustProps.v
AuthExamples.v
Evidence.v
EvidenceInv.v
EvidenceProps.v
EvidenceChain.v
EvidenceTenants.v
EvidenceNames.v
EvidenceTerminal.v
EvidenceExamples.v
Json.v
Float64.v
Screen.v
ScreenProps.v
ScreenRelay.v
ScreenAudit.v
Jwt.v
Throttle.v
Operators.v
Devices.v
Enrolment.v
Access.v
Http.v
Gate.v
Handlers.v
EnrolHandlers.v
GateProps.v
GateExamples.v
