(* ===== verification/Prelude.v ===== *)
(** * A verification of the Ominull hub

    Ominull is a self-hosted endpoint manager. The hub ([hub/], in Go) decides
    which hosts may talk to which, matches installed software against
    vulnerability data, relays terminal and screen sessions to agents, and
    issues signed jobs that agents carry out. This library models the parts of
    the hub that decide something, and proves what they promise.

    ** The parts and where they are

    - Trust policy. [NetIP] is [netip.Addr] and [netip.Prefix] with the
      address classes of [netaddr/address.go]; [TrustFabric] is
      [trustfabric/resolver.go] ([Normalize], [Decide], [Compile],
      [mergePrefixes]). [TrustDecide], [TrustCompile] and [TrustPolicy] hold
      the proofs: the compiled allow list is sound (up to the connectivity
      floor) and complete for [Decide], [Decide] follows the precedence of
      [stronger] and [strongerLocked] (finer than the documented one, as
      [specificity_beyond_documentation] shows) and does not depend on the
      order of the rules, merging terminates and is exact.
    - Vulnerability matching. [Vuln] is [vuln/version.go], [cpe.go] and
      [match.go]; [VulnProps] proves where [CompareVersions] is an order and
      where it is not, what a range verdict and a correlation mean, and that
      splitting a CPE name inverts joining it.
    - Terminal sessions. [Terminal] is [terminal/session.go] and [store.go]
      (the manager with its sessions in memory, the rows of
      [terminal_sessions], recordings); [TerminalRelay] is [relay.go],
      [watch.go] and [policy.go] (the paired relay, its byte gates and queues,
      watchers). [TerminalInv] has the invariants by operation,
      [TerminalProps] the guarantees over every sequence of handlers and of
      changes of the limits: caps, finality, one-use tokens, exact sweeps,
      recordings, bounded queues.
      [TerminalExamples] runs them on concrete sessions.
    - Signed actions. [Canonical] is [response/canonical.go], the grant of
      [dto.go] and the profiles, manifests and statements of [trust.go];
      [CanonicalProps] proves the signed bytes injective, so a grant that
      verifies is one that was issued. [RoutineKeys] is [routine_keys.go].
    - Jobs. [Response] is [response/store.go], [session_jobs.go],
      [reservation.go] and [supervision.go]; [Utf8] is the cleaning of
      heartbeat text. [ResponseInv] has the invariant by operation;
      [ResponseProps] proves that the audit log is a run of the job state
      machine, that outcomes are final, that a report from anyone but the
      lease holder changes nothing, and that a job nobody takes is given up,
      whatever happens to other jobs meanwhile.
      Jobs carry the grants of [Canonical].
    - Screen credentials. [Credentials] is [screen/credentials.go]: launch
      codes redeem once, for their session, and failed attempts are limited.
    - Remote screens. [Screen] is [screen/frame.go], [policy.go], [audit.go]
      and [screen.go]; [Json] is the part of [encoding/json] it uses (scanner,
      unquoting, printing) and [Float64] the arithmetic of [float64].
      [ScreenProps] proves that a frame's canonical encoding reads back as the
      frame; [ScreenRelay] that nothing else is sent to an agent, and no input
      in a session opened to watch; [ScreenAudit] that the audit of input
      accounts for every input. [TerminalLift] carries what a session kind's
      policy promises of single messages to every message the manager's
      handlers and pumps send to an agent; the screen policy is its instance.
    - Maintenance windows. [Window] is [scripts/window.go] and the choice of a
      machine's window in [server/maintenance_window_settings.go]: the next
      start is the first open instant, and a window survives its parameter.

    - Response authority, the separate service that holds the signing keys.
      [Encoding] is base64 and base32; [AuthStore] the tables of
      [responseauth/store.go]; [AuthBooks] the issue times, trust epochs and
      isolation allowances of [trust.go]; [WebAuthn] is [webauthn.go];
      [Authority] is [authority.go], [totp.go] and the proofs of [dto.go];
      [AuthTrust] the manifests and automatic isolations of [trust.go] and the
      signing step of [authorize.go]. [AuthorityProps], [AuthorityTotp] and
      [AuthTrustProps] prove over every sequence of operations and restarts:
      grants come only from proofs a live session signed, nonces are used
      once, wrong codes are limited between two settings back of the counter,
      manifests are never raised. [AuthBooks] proves that issue times increase
      and keep to the clock, for clock readings and files away from the ends
      of an [int64] ([timely], [near]).
      [AuthExamples] runs them.
    - Evidence. [Evidence] is [evidence/store.go], [crypto.go] and [dto.go]:
      bundles, items, uploads in chunks, encrypted objects, receipts, holds,
      exports and pruning. [EvidenceInv] has the invariant of every reachable
      store, [EvidenceProps] what is read back and what a finalized manifest
      means, [EvidenceChain] the chain of receipts, [EvidenceTenants] the
      separation of tenants, [EvidenceNames] the names in an export.
      [EvidenceTerminal] shows that the store implements the interface the
      terminal manager uses, so a sealed recording is read back;
      [EvidenceExamples] runs them.

    - Request authentication, what stands in front of every route. [Http] is a
      request with its headers; [Jwt] the tokens of [auth/auth.go]; [Throttle]
      the throttle of [server/security.go]; [Operators] the operator list of
      [storage/storage.go] and [operator_identity.go]; [Devices] the
      credentials of [device_identity.go]; [Enrolment] the codes and windows of
      [enrollment_profile.go] and [enrolment_window.go]; [Access] is
      [server/access.go].
      [Gate] has the middleware of [server.go], [device_auth.go],
      [router_identity.go], [nightshift_feed.go], [approval_relay.go] and
      [setup.go] over one state, [Handlers] the handlers that sign in and hand
      out keys, and OIDC, [EnrolHandlers] the redeeming of a code
      ([enrollment_api.go]) and the portal ([enrol_portal.go]). [GateProps]
      proves over them: who gets through and as whom, which headers a client
      has no say in at each gate, how many wrong credentials are answered over
      all routes the throttle guards (the gates, the login, the console, codes
      and the passcode), that a lockout turns every visit away whose credential
      the throttle is asked about, that devices keep to their routes, and that
      a session follows the operator list. [Operators], [Devices] and [Access]
      prove their own: an administrator remains, a credential is accepted
      exactly while it lives, an identity was signed; [Throttle] has the
      counting the routes share.
      [GateExamples] runs them and shows behaviours worth knowing.

    [Action] is the state and error monad of the authority and the evidence
    store, with weakest preconditions and preserved relations; [Platform] the
    clock units, cryptography and row orders they share.

    This file holds what all share: the result type of fallible code, record
    updates, Go's string functions on byte strings, decimal numbers, sorting.

    ** How Go is modelled

    Strings are byte strings, times are nanoseconds in [Z], integers are [Z]
    with the wrap-around written out where the code can reach it. A pointer or
    a SQL NULL is an [option], an error is [Err] of its text, a panic is
    [None]. State is passed explicitly: an operation maps a store to a store
    and a result, and the guarantees quantify over sequences of operations
    with the clock readings they take. Operations run one at a time: the steps
    of two concurrent handlers are not interleaved, except for the pumps of
    the relay, whose rounds are operations of their own, the two halves of [SignGrant],
    between which a session can be locked, and the two halves of
    [auditInput], between which an auditor can be stopped. The check and the write
    of a change of the operator list are apart too, and [racing_demotions] shows
    what two of them do to each other. Where the code draws a
    random identifier or reads a clock, the value is an argument; where a
    write to a file can fail, or stop half way, an argument says so.

    What is not under the sources is a parameter: hashes and signatures
    ([Crypto], [ReleaseCrypto], [AuthCrypto]), public key formats
    ([WebAuthnLib]), JSON codecs ([JobCodec], [AuthJson], [EvidenceJson]), case
    mapping beyond ASCII ([Unicode]) and the order of SQL rows of equal rank
    ([RowOrder], [Rows]). [Hmac] and [Rsa] are the signatures of tokens, [TimeFormat]
    a format of times; the order Go visits a map in, the answers of Cloudflare
    and of an OIDC provider, and certificates issued are arguments. Interfaces of the code are classes too: the evidence
    store of the terminal ([EvidenceStore], implemented by
    [EvidenceTerminal.live_store]) and frame policies ([FramePolicy], implemented
    by [Screen.screen_policy]). [IntOverflow] is what Go makes of a number no
    [int64] holds. Each
    class states the documented behaviour the code relies on, and the examples
    give instances of it. Theorems that need SHA-256 to have no collisions say
    so in a hypothesis.

    ** Fuel

    Loops are structural except three. [tokenizeVersion] consumes at least one
    byte a round, so the length of the string is enough ([tokenize_fuel]).
    [mergePrefixes] repeats passes until one
    merges nothing; a pass that merges shortens the list, so one more than its
    length is enough, and the theorem on merging shows the last pass merges
    nothing. [walk] halves a range until it is one address; 129 levels cover a
    128-bit address.

    ** What is not modelled

    HTTP handlers other than the ones named above, SQL text and failing SQL statements, sockets with their
    deadlines and pings, certificates, feeds, the scanner, the detector, the
    agents and the web console. Of an enrolled endpoint only the tenant is
    kept, not its row and the asset made of it; the installer scripts and the
    handlers administrators manage codes and windows with are left out. Of the
    response authority: [Authorize] itself
    with its descriptions of actions, package runs, releases and the transport
    to the hub.
    *)

From Stdlib Require Import Ascii String.
From stdpp Require Export base list gmap strings pretty sorting.
From Stdlib Require Export ZArith Lia.

#[global] Open Scope Z_scope.

(** ** Results: the value and error pair of a Go function *)

Inductive result (E A : Type) : Type :=
| Ok (a : A)
| Err (e : E).

Arguments Ok {E A} a.
Arguments Err {E A} e.

#[export] Instance result_ret {E} : MRet (result E) := fun _ x => Ok x.

#[export] Instance result_bind {E} : MBind (result E) :=
  fun _ _ f m => match m with Ok x => f x | Err e => Err e end.

(** [guard_err b e] is the early return [if !b { return e }]. *)
Definition guard_err {E} (b : bool) (e : E) : result E unit :=
  if b then Ok tt else Err e.

Lemma result_bind_Ok {E A B} (m : result E A) (k : A -> result E B) b :
  (x ← m; k x) = Ok b -> exists x, m = Ok x /\ k x = Ok b.
Proof. destruct m as [x|e]; [|done]. by exists x. Qed.

Lemma guard_err_Ok {E} b (e : E) x : guard_err b e = Ok x -> b = true.
Proof. by destruct b. Qed.

(** Take apart a chain of binds that returned [Ok]. *)
Ltac inv_ok H :=
  repeat match type of H with
  | (_ ≫= _) = Ok _ =>
      let x := fresh "x" in let E := fresh "Hok" in
      apply result_bind_Ok in H; destruct H as (x & E & H);
      try (apply guard_err_Ok in E)
  end.

Definition is_ok {E A} (r : result E A) : bool :=
  match r with Ok _ => true | Err _ => false end.

(** ** Tactics and hints of the development *)

Create HintDb hub.

(** Splits the boolean conditions in the context into propositions. *)
Ltac bools :=
  repeat match goal with
  | H : (_ && _) = true |- _ => apply andb_prop in H; destruct H
  | H : (_ || _) = false |- _ => apply orb_false_iff in H; destruct H
  | H : negb _ = true |- _ => apply negb_true_iff in H
  | H : negb _ = false |- _ => apply negb_false_iff in H
  | H : (_ =? _)%Z = true |- _ => apply Z.eqb_eq in H
  | H : (_ =? _)%Z = false |- _ => apply Z.eqb_neq in H
  | H : (_ <? _)%Z = true |- _ => apply Z.ltb_lt in H
  | H : (_ <? _)%Z = false |- _ => apply Z.ltb_ge in H
  | H : (_ <=? _)%Z = true |- _ => apply Z.leb_le in H
  | H : (_ <=? _)%Z = false |- _ => apply Z.leb_gt in H
  | H : (_ =? _)%nat = true |- _ => apply Nat.eqb_eq in H
  | H : (_ =? _)%nat = false |- _ => apply Nat.eqb_neq in H
  | H : (_ <? _)%nat = true |- _ => apply Nat.ltb_lt in H
  | H : (_ <? _)%nat = false |- _ => apply Nat.ltb_ge in H
  | H : (_ <=? _)%nat = true |- _ => apply Nat.leb_le in H
  | H : (_ <=? _)%nat = false |- _ => apply Nat.leb_gt in H
  | H : (_ =? _)%string = true |- _ => apply String.eqb_eq in H
  | H : (_ =? _)%string = false |- _ => apply String.eqb_neq in H
  | H : bool_decide _ = true |- _ => apply bool_decide_eq_true in H
  | H : bool_decide _ = false |- _ => apply bool_decide_eq_false in H
  end.

(** ** Record update

    [x <| p := v |>] is the record [x] with field [p] replaced by [v]; a record
    type declares its eta-expansion as an instance of [Eta]. *)

Class Eta (R : Type) := eta : R -> R.

Class Update {R T : Type} (p : R -> T) := update : (T -> T) -> R -> R.
Arguments update {R T} p {_} f x /.

Ltac solve_update :=
  lazymatch goal with
  | |- @Update ?R ?T ?p =>
    let inst := constr:(_ : Eta R) in
    let expansion := eval hnf in inst in
    exact (fun (f : T -> T) (x : R) =>
      ltac:(let b := eval cbv beta in (expansion x) in
            lazymatch eval pattern (p x) in b with
            | ?g _ => let t := eval cbv beta in (g (f (p x))) in exact t
            end))
  end.

#[export] Hint Extern 1 (Update _) => solve_update : typeclass_instances.

Notation "x <| p := v |>" := (update p (fun _ => v) x) (at level 1, left associativity).
Notation "x <| p ::= f |>" := (update p f x) (at level 1, left associativity).

(** Case analysis on the scrutinee of a [match] or [if] of the context. *)
Ltac split_match :=
  match goal with
  | H : context [match ?x with _ => _ end] |- _ =>
      lazymatch x with context [match _ with _ => _ end] => fail | _ => destruct x eqn:? end
  | |- context [match ?x with _ => _ end] =>
      lazymatch x with context [match _ with _ => _ end] => fail | _ => destruct x eqn:? end
  end.

(** ** Bytes and strings, as Go's [strings] package treats them

    A Go string is a byte sequence, here a [string] of [ascii] bytes. *)

Definition byte_val (c : ascii) : Z := Z.of_N (N_of_ascii c).

Definition in_range (lo hi x : Z) : bool := (lo <=? x) && (x <=? hi).

Definition is_digit (c : ascii) : bool := in_range 48 57 (byte_val c).

Definition is_ascii_byte (c : ascii) : bool := byte_val c <? 128.

Fixpoint string_forallb (f : ascii -> bool) (s : string) : bool :=
  match s with
  | EmptyString => true
  | String c s' => f c && string_forallb f s'
  end.

Fixpoint string_map (f : ascii -> ascii) (s : string) : string :=
  match s with
  | EmptyString => EmptyString
  | String c s' => String (f c) (string_map f s')
  end.

Definition lower_byte (c : ascii) : ascii :=
  if in_range 65 90 (byte_val c) then ascii_of_N (N_of_ascii c + 32) else c.

(** Case mapping of strings that hold a non-ASCII byte needs the Unicode
    tables of Go's [unicode] package: they are a parameter of the model. *)
Class Unicode := {
  uni_lower : string -> string;
  uni_equal_fold : string -> string -> bool;
}.

(** A Unicode table that knows no case outside ASCII, for evaluation. *)
Definition ascii_only : Unicode :=
  {| uni_lower := string_map lower_byte;
     uni_equal_fold := fun s t => String.eqb (string_map lower_byte s) (string_map lower_byte t) |}.

Definition is_ascii (s : string) : bool := string_forallb is_ascii_byte s.

Definition ToLower `{Unicode} (s : string) : string :=
  if is_ascii s then string_map lower_byte s else uni_lower s.

Definition EqualFold `{Unicode} (s t : string) : bool :=
  if is_ascii s && is_ascii t
  then String.eqb (string_map lower_byte s) (string_map lower_byte t)
  else uni_equal_fold s t.

(** [unicode.IsSpace], by the UTF-8 encodings of its runes. *)
Definition is_space1 (c : ascii) : bool :=
  let v := byte_val c in in_range 9 13 v || (v =? 32).

Definition is_space2 (c d : ascii) : bool :=
  (byte_val c =? 194) && ((byte_val d =? 133) || (byte_val d =? 160)).

Definition is_space3 (c d e : ascii) : bool :=
  let '(a, b, x) := (byte_val c, byte_val d, byte_val e) in
  ((a =? 225) && (b =? 154) && (x =? 128))
  || ((a =? 226) && (b =? 128) && (in_range 128 138 x || (x =? 168) || (x =? 169) || (x =? 175)))
  || ((a =? 226) && (b =? 129) && (x =? 159))
  || ((a =? 227) && (b =? 128) && (x =? 128)).

Fixpoint trim_left_space (s : string) : string :=
  match s with
  | EmptyString => EmptyString
  | String c s1 =>
    if is_space1 c then trim_left_space s1 else
    match s1 with
    | EmptyString => s
    | String d s2 =>
      if is_space2 c d then trim_left_space s2 else
      match s2 with
      | EmptyString => s
      | String e s3 => if is_space3 c d e then trim_left_space s3 else s
      end
    end
  end.

(** The same on a reversed string, so the encodings are read backwards. *)
Fixpoint trim_left_space_rev (s : string) : string :=
  match s with
  | EmptyString => EmptyString
  | String c s1 =>
    if is_space1 c then trim_left_space_rev s1 else
    match s1 with
    | EmptyString => s
    | String d s2 =>
      if is_space2 d c then trim_left_space_rev s2 else
      match s2 with
      | EmptyString => s
      | String e s3 => if is_space3 e d c then trim_left_space_rev s3 else s
      end
    end
  end.

Definition string_rev (s : string) : string :=
  string_of_list_ascii (rev (list_ascii_of_string s)).

Definition TrimSpace (s : string) : string :=
  string_rev (trim_left_space_rev (string_rev (trim_left_space s))).

Definition HasPrefix (s p : string) : bool := String.prefix p s.

(** [s[n:]]. *)
Fixpoint string_drop (n : nat) (s : string) : string :=
  match n, s with
  | S n', String _ s' => string_drop n' s'
  | _, _ => s
  end.

(** [s[:n]]. *)
Fixpoint string_take (n : nat) (s : string) : string :=
  match n, s with
  | S n', String c s' => String c (string_take n' s')
  | _, _ => EmptyString
  end.

Definition HasSuffix (s t : string) : bool :=
  (String.length t <=? String.length s)%nat
  && String.eqb (string_drop (String.length s - String.length t) s) t.

Definition TrimPrefix (s p : string) : string :=
  if HasPrefix s p then string_drop (String.length p) s else s.

Definition TrimSuffix (s t : string) : string :=
  if HasSuffix s t then string_take (String.length s - String.length t) s else s.

(** [strings.Index(s, string(c))]: the first position of a byte. *)
Fixpoint index_byte (c : ascii) (s : string) : option nat :=
  match s with
  | EmptyString => None
  | String d s' => if Ascii.eqb c d then Some O else S <$> index_byte c s'
  end.

(** [strings.LastIndex(s, string(c))]. *)
Fixpoint last_index_byte (c : ascii) (s : string) : option nat :=
  match s with
  | EmptyString => None
  | String d s' =>
    match last_index_byte c s' with
    | Some n => Some (S n)
    | None => if Ascii.eqb c d then Some O else None
    end
  end.

(** [strings.Split(s, string(c))]: never the empty list. *)
Fixpoint split_byte (c : ascii) (s : string) : list string :=
  match s with
  | EmptyString => [EmptyString]
  | String d s' =>
    if Ascii.eqb c d then EmptyString :: split_byte c s' else
    match split_byte c s' with
    | [] => [String d EmptyString]
    | w :: ws => String d w :: ws
    end
  end.

(** [strings.Join(l, sep)]. *)
Fixpoint join (sep : string) (l : list string) : string :=
  match l with
  | [] => EmptyString
  | [s] => s
  | s :: l' => (s ++ sep ++ join sep l')%string
  end.

(** [strings.Contains(s, t)]. *)
Fixpoint contains_sub (s t : string) : bool :=
  HasPrefix s t ||
  match s with
  | EmptyString => false
  | String _ s' => contains_sub s' t
  end.

Definition replace_byte (c d : ascii) (s : string) : string :=
  string_map (fun x => if Ascii.eqb x c then d else x) s.

(** Go's [s < t] on strings: byte-wise lexicographic. *)
Definition string_lt (s t : string) : bool := String.ltb s t.

Lemma string_app_nil s : (s ++ EmptyString)%string = s.
Proof.
  induction s as [|c s IH]; [done|].
  change ((String c s ++ EmptyString)%string) with (String c (s ++ EmptyString)). by rewrite IH.
Qed.

Definition no_byte (c : ascii) (s : string) : bool := string_forallb (fun d => negb (Ascii.eqb c d)) s.

Lemma split_byte_line c b rest :
  no_byte c b = true -> split_byte c (b ++ String c rest)%string = b :: split_byte c rest.
Proof.
  induction b as [|d b IH]; intros Hb.
  - change ((EmptyString ++ String c rest)%string) with (String c rest). cbn [split_byte].
    by rewrite Ascii.eqb_refl.
  - change ((String d b ++ String c rest)%string) with (String d (b ++ String c rest)).
    unfold no_byte in Hb. cbn [string_forallb] in Hb. bools. cbn [split_byte].
    match goal with H : Ascii.eqb c d = false |- _ => rewrite H end. by rewrite IH.
Qed.

Lemma split_byte_single c b : no_byte c b = true -> split_byte c b = [b].
Proof.
  induction b as [|d b IH]; intros Hb; [done|]. unfold no_byte in Hb. cbn [string_forallb] in Hb. bools.
  cbn [split_byte]. match goal with H : Ascii.eqb c d = false |- _ => rewrite H end. by rewrite IH.
Qed.

Lemma split_byte_nonempty c s : split_byte c s <> [].
Proof. destruct s as [|d s]; simpl; [done|]. destruct (Ascii.eqb c d); [done|]. by destruct (split_byte c s). Qed.

Lemma split_join c (l : list string) :
  l <> [] -> Forall (fun s => no_byte c s = true) l -> split_byte c (join (String c EmptyString) l) = l.
Proof.
  intros Hne Hl. induction Hl as [|s l Hs Hl IH]; [done|]. destruct l as [|t l].
  - cbn [join]. by apply split_byte_single.
  - change (join (String c EmptyString) (s :: t :: l)) with (s ++ String c (join (String c EmptyString) (t :: l)))%string.
    rewrite split_byte_line by done. by rewrite IH.
Qed.

Lemma length_app_str s t : String.length (s ++ t) = (String.length s + String.length t)%nat.
Proof.
  induction s as [|c s IH]; [done|]. change ((String c s ++ t)%string) with (String c (s ++ t)).
  cbn [String.length]. by rewrite IH.
Qed.

Lemma string_drop_app s t : string_drop (String.length s) (s ++ t) = t.
Proof. induction s as [|c s IH]; [by destruct t|done]. Qed.

Lemma string_take_app s t : string_take (String.length s) (s ++ t) = s.
Proof.
  induction s as [|c s IH]; [by destruct t|]. change ((String c s ++ t)%string) with (String c (s ++ t)).
  cbn [String.length string_take]. by rewrite IH.
Qed.

Lemma suffix_eqb s t u : String.length t = String.length u -> HasSuffix (s ++ t) u = String.eqb t u.
Proof.
  intros L. unfold HasSuffix. rewrite length_app_str, L, (proj2 (Nat.leb_le _ _)) by lia.
  replace (String.length s + String.length u - String.length u)%nat with (String.length s) by lia.
  by rewrite string_drop_app.
Qed.

Lemma TrimSuffix_app s t : TrimSuffix (s ++ t) t = s.
Proof.
  unfold TrimSuffix. rewrite suffix_eqb by done. rewrite String.eqb_refl, length_app_str.
  replace (String.length s + String.length t - String.length t)%nat with (String.length s) by lia.
  apply string_take_app.
Qed.

Lemma app_assoc_str (s t u : string) : ((s ++ t) ++ u = s ++ (t ++ u))%string.
Proof.
  induction s as [|c s IH]; [done|].
  change (((String c s ++ t) ++ u)%string) with (String c ((s ++ t) ++ u)). by rewrite IH.
Qed.

(** What is joined ends with one of its parts. *)
Lemma join_last sep l : l <> [] -> exists p x, x ∈ l /\ join sep l = (p ++ x)%string.
Proof.
  induction l as [|a l IH]; [done|]. intros _. destruct l as [|b l]; [by exists "", a; split; [left|]|].
  destruct IH as (p & x & X & E); [done|]. exists (a ++ sep ++ p)%string, x. split; [by right|].
  change (join sep (a :: b :: l)) with (a ++ sep ++ join sep (b :: l))%string.
  by rewrite E, !app_assoc_str.
Qed.

(** ** Strings forwards, backwards and trimmed *)

Lemma list_ascii_app a b : list_ascii_of_string (a ++ b)%string = (list_ascii_of_string a ++ list_ascii_of_string b)%list.
Proof. induction a as [|c a IH]; [done|]. apply (f_equal (cons c)). exact IH. Qed.

Lemma string_of_list_app a b : string_of_list_ascii (a ++ b)%list = (string_of_list_ascii a ++ string_of_list_ascii b)%string.
Proof. induction a as [|c a IH]; [done|]. apply (f_equal (String c)). exact IH. Qed.

Lemma string_rev_app a b : string_rev (a ++ b) = (string_rev b ++ string_rev a)%string.
Proof. unfold string_rev. by rewrite list_ascii_app, rev_app_distr, string_of_list_app. Qed.

Lemma string_rev_rev a : string_rev (string_rev a) = a.
Proof.
  unfold string_rev. by rewrite list_ascii_of_string_of_list_ascii, rev_involutive, string_of_list_ascii_of_string.
Qed.

Lemma string_map_app f a b : string_map f (a ++ b) = (string_map f a ++ string_map f b)%string.
Proof. induction a as [|c a IH]; [done|]. apply (f_equal (String (f c))). exact IH. Qed.

Lemma string_forallb_app f a b : string_forallb f (a ++ b) = string_forallb f a && string_forallb f b.
Proof.
  induction a as [|c a IH]; [done|]. change (String c a ++ b)%string with (String c (a ++ b)%string). cbn [string_forallb].
  rewrite IH. apply andb_assoc.
Qed.

Lemma prefix_self a b : String.prefix a (a ++ b) = true.
Proof.
  induction a as [|c a IH]; [by destruct b|]. change (String c a ++ b)%string with (String c (a ++ b)%string). cbn [String.prefix].
  by destruct (ascii_dec c c).
Qed.

Lemma string_forallb_list f s : string_forallb f s = forallb f (list_ascii_of_string s).
Proof. induction s as [|c s IH]; [done|]. cbn. by rewrite IH. Qed.

Lemma string_forallb_rev f s : string_forallb f (string_rev s) = string_forallb f s.
Proof.
  rewrite !string_forallb_list. unfold string_rev. rewrite list_ascii_of_string_of_list_ascii.
  induction (list_ascii_of_string s) as [|c l IH]; [done|]. cbn. rewrite forallb_app, IH. cbn.
  destruct (forallb f l), (f c); done.
Qed.

(** A byte no trimming touches. *)
Definition plain_byte (c : ascii) : bool := is_ascii_byte c && negb (is_space1 c).

Lemma not_space2 c d : byte_val c < 128 \/ byte_val d < 128 -> is_space2 c d = false.
Proof.
  unfold is_space2. intros [H|H]; [destruct (Z.eqb_spec (byte_val c) 194); [lia|done]|].
  destruct (Z.eqb_spec (byte_val d) 133), (Z.eqb_spec (byte_val d) 160); try lia; apply andb_false_r.
Qed.

Lemma not_space3 c d e : byte_val c < 128 \/ byte_val e < 128 -> is_space3 c d e = false.
Proof.
  unfold is_space3, in_range. intros H. apply not_true_is_false; intros F;
    repeat match goal with
    | G : (_ || _) = true |- _ => apply orb_prop in G as [G|G]
    | G : (_ && _) = true |- _ => apply andb_prop in G as [? ?]
    end; bools; lia.
Qed.

Lemma trim_left_plain c s : plain_byte c = true ->
  trim_left_space (String c s) = String c s /\ trim_left_space_rev (String c s) = String c s.
Proof.
  intros P. unfold plain_byte, is_ascii_byte in P. bools.
  cbn [trim_left_space trim_left_space_rev]. rewrite H0. destruct s as [|d [|e s]]; [done|..].
  - by rewrite !not_space2 by auto.
  - by rewrite !not_space2, !not_space3 by auto.
Qed.

Lemma TrimSpace_plain s : string_forallb plain_byte s = true -> TrimSpace s = s.
Proof.
  intros P. unfold TrimSpace. assert (E : trim_left_space s = s).
  { destruct s as [|c s]; [done|]. cbn in P. bools. by apply trim_left_plain. }
  rewrite E. rewrite <- string_forallb_rev in P.
  rewrite <- (string_rev_rev s) at 2. f_equal. destruct (string_rev s) as [|c r]; [done|].
  cbn in P. bools. by apply trim_left_plain.
Qed.

(** ** Sliding windows of times *)

(** The times less than [span] before [now]. *)
Definition within (span now : Z) (ts : list Z) : list Z := filter (fun t => now - t < span) ts.

Lemma within_later span now now' ts : now <= now' -> within span now' (within span now ts) = within span now' ts.
Proof. intros L. unfold within. rewrite list_filter_filter. apply list_filter_iff. intros t. lia. Qed.

Lemma within_app span now ts us : within span now (ts ++ us) = (within span now ts ++ within span now us)%list.
Proof. apply filter_app. Qed.

Lemma within_length span now ts : (length (within span now ts) <= length ts)%nat.
Proof. apply length_filter. Qed.

(** ** Decimal numbers of [strconv] *)

Definition digit_val (c : ascii) : Z := byte_val c - 48.

Fixpoint digits_val (acc : Z) (s : string) : option Z :=
  match s with
  | EmptyString => Some acc
  | String c s' => if is_digit c then digits_val (acc * 10 + digit_val c) s' else None
  end.

Definition max_int64 : Z := 2 ^ 63 - 1.
Definition min_int64 : Z := - 2 ^ 63.
Definition max_uint64 : Z := 2 ^ 64 - 1.

(** [strconv.ParseUint(s, 10, 64)] on a non-empty string of digits: the value
    saturates at the largest [uint64], with a range error the callers here
    ignore. *)
Definition parse_uint_digits (s : string) : Z :=
  match digits_val 0 s with
  | Some v => Z.min v max_uint64
  | None => 0
  end.

(** [strconv.Atoi], [strconv.ParseInt(s, 10, 64)]: an optional sign, then
    digits, within [int64]. *)
Definition parse_int (s : string) : option Z :=
  let unsigned neg t :=
    match t with
    | EmptyString => None
    | _ => v ← digits_val 0 t;
           let v' := if (neg : bool) then - v else v in
           if in_range min_int64 max_int64 v' then Some v' else None
    end in
  match s with
  | String "+" t => unsigned false t
  | String "-" t => unsigned true t
  | _ => unsigned false s
  end.

(** [strconv.FormatInt(n, 10)]. *)
Definition format_int (n : Z) : string := pretty n.

(** ** Lists *)

(** [sort.Slice(_, less)]: the list in the order of [less]. The hub sorts by
    strict total orders only, so the sorted list does not depend on the
    sorting algorithm. *)
Definition sort_slice {A} (less : A -> A -> bool) (l : list A) : list A :=
  merge_sort (fun x y => negb (less y x)) l.

Lemma sort_slice_perm {A} (less : A -> A -> bool) l : sort_slice less l ≡ₚ l.
Proof. apply merge_sort_Permutation. Qed.

(** [pick better l] is the loop that keeps the best element seen so far,
    replacing it only when the next one is [better]. *)
Definition pick {A} (better : A -> A -> bool) (l : list A) : option A :=
  fold_left (fun best x =>
    match best with
    | None => Some x
    | Some b => if better x b then Some x else best
    end) l None.

(** [pick] returns an element of the list that no other one beats, when
    [better] is a strict weak order on the elements. *)
Section Pick.
Context {A : Type} (better : A -> A -> bool) (P : A -> Prop).
Hypothesis better_asym : forall x y, P x -> P y -> better x y = true -> better y x = false.
Hypothesis better_negtrans : forall x y z, P x -> P y -> P z ->
  better x y = false -> better y z = false -> better x z = false.

Definition unbeaten (b : A) (l : list A) : Prop :=
  b ∈ l /\ forall x, x ∈ l -> better x b = false.

Lemma pick_snoc l x :
  pick better (l ++ [x]) =
    match pick better l with
    | None => Some x
    | Some b => if better x b then Some x else Some b
    end.
Proof. unfold pick. rewrite fold_left_app. simpl. by destruct (fold_left _ l None). Qed.

Lemma pick_irrefl x : P x -> better x x = false.
Proof. intros Hx. destruct (better x x) eqn:E; [|done]. by rewrite <- (better_asym x x) by done. Qed.

Lemma pick_unbeaten l :
  Forall P l ->
  match pick better l with
  | Some b => unbeaten b l
  | None => l = []
  end.
Proof.
  induction l as [|x l IH] using rev_ind; intros HP; [done|].
  apply Forall_app in HP as [HP [Hx _]%Forall_cons]. specialize (IH HP).
  rewrite Forall_forall in HP. rewrite pick_snoc.
  destruct (pick better l) as [b|] eqn:E.
  - destruct IH as [Hb Hmax].
    destruct (better x b) eqn:Hxb; split.
    + apply elem_of_app. right. by apply list_elem_of_singleton.
    + intros y Hy. apply elem_of_app in Hy as [Hy|Hy].
      * apply (better_asym x b) in Hxb; auto. apply (better_negtrans y b x); auto.
      * apply list_elem_of_singleton in Hy as ->. by apply pick_irrefl.
    + apply elem_of_app. by left.
    + intros y Hy. apply elem_of_app in Hy as [Hy|Hy]; [auto|].
      by apply list_elem_of_singleton in Hy as ->.
  - subst l. split; [by apply list_elem_of_singleton|].
    intros y Hy. apply list_elem_of_singleton in Hy as ->. by apply pick_irrefl.
Qed.
End Pick.

Lemma pick_none {A} (better : A -> A -> bool) l : pick better l = None -> l = [].
Proof.
  destruct l as [|x l _] using rev_ind; [done|].
  rewrite pick_snoc. destruct (pick better l); [destruct (better x a)|]; done.
Qed.

Lemma pick_elem {A} (better : A -> A -> bool) l b : pick better l = Some b -> b ∈ l.
Proof.
  revert b. induction l as [|x l IH] using rev_ind; intros b; [done|].
  rewrite pick_snoc. destruct (pick better l) as [c|]; [destruct (better x c)|];
    intros [= <-]; set_solver.
Qed.

(** ** Integers *)

(** A value below [2^k] has no bit in common with one shifted by [k]. *)
Lemma land_shiftl_low a b k : 0 <= k -> 0 <= b < 2 ^ k -> Z.land (Z.shiftl a k) b = 0.
Proof.
  intros Hk Hb. apply Z.bits_inj'. intros i Hi. rewrite Z.land_spec, Z.bits_0.
  destruct (Z.lt_ge_cases i k); [by rewrite Z.shiftl_spec_low|].
  destruct (Z.eq_dec b 0) as [->|]; [by rewrite Z.bits_0, andb_false_r|].
  rewrite (Z.bits_above_log2 b), andb_false_r; [done|lia|].
  assert (Z.log2 b < k) by (apply Z.log2_lt_pow2; lia). lia.
Qed.

(** Disjoint bits add up. *)
Lemma lor_shiftl_add a b k : 0 <= k -> 0 <= b < 2 ^ k -> Z.lor (Z.shiftl a k) b = a * 2 ^ k + b.
Proof.
  intros Hk Hb. pose proof (land_shiftl_low a b k Hk Hb) as H0.
  rewrite <- Z.shiftl_mul_pow2 by done. by rewrite <- Z.lxor_lor, Z.add_nocarry_lxor.
Qed.

(** Values that agree above bit [k] agree above any higher bit. *)
Lemma shiftr_agree_le a b k k' :
  0 <= k <= k' -> Z.shiftr a k = Z.shiftr b k -> Z.shiftr a k' = Z.shiftr b k'.
Proof.
  intros Hk H. replace k' with (k + (k' - k)) by lia.
  rewrite <- !Z.shiftr_shiftr by lia. by rewrite H.
Qed.
