(* ===== verification/NetIP.v ===== *)
(** * IP addresses and prefixes

    Go's [net/netip] as the hub uses it (addresses, prefixes, their text
    forms), and the package [hub/pkg/netaddr] built on it. An IPv4 address is
    a 32-bit integer, an IPv6 address a 128-bit one with its zone. *)

From Stdlib Require Import Ascii String.
From S2P Require Import Prelude.

(** ** Addresses *)

Inductive Addr : Type :=
| AddrZero
| V4 (v : Z)
| V6 (v : Z) (zone : string).

#[export] Instance Addr_eq_dec : EqDecision Addr.
Proof. solve_decision. Defined.

Definition addr_eqb (a b : Addr) : bool := bool_decide (a = b).

Definition BitLen (a : Addr) : Z :=
  match a with AddrZero => 0 | V4 _ => 32 | V6 _ _ => 128 end.

Definition Is4 (a : Addr) : bool := match a with V4 _ => true | _ => false end.

Definition Is4In6 (a : Addr) : bool :=
  match a with V6 v _ => Z.shiftr v 32 =? 65535 | _ => false end.

Definition Unmap (a : Addr) : Addr :=
  match a with
  | V6 v _ => if Is4In6 a then V4 (Z.land v (Z.ones 32)) else a
  | _ => a
  end.

Definition Zone (a : Addr) : string :=
  match a with V6 _ z => z | _ => EmptyString end.

Definition withoutZone (a : Addr) : Addr :=
  match a with V6 v _ => V6 v EmptyString | _ => a end.

(** The address as an integer. *)
Definition addr_val (a : Addr) : Z :=
  match a with AddrZero => 0 | V4 v => v | V6 v _ => v end.

Definition addr_ok (a : Addr) : Prop := 0 <= addr_val a < 2 ^ BitLen a.

(** [Addr.Less]: by family, then value, then zone. *)
Definition addr_less (a b : Addr) : bool :=
  if BitLen a =? BitLen b then
    if addr_val a =? addr_val b then string_lt (Zone a) (Zone b)
    else addr_val a <? addr_val b
  else BitLen a <? BitLen b.

(** The top [n] bits of a [w]-bit value are those of [pat]. *)
Definition under (w n pat v : Z) : bool := Z.shiftr v (w - n) =? Z.shiftr pat (w - n).

(** The address classes look through an IPv4-mapped address. *)
Definition IsLoopback (a : Addr) : bool :=
  match Unmap a with
  | V4 v => Z.shiftr v 24 =? 127
  | V6 v _ => v =? 1
  | AddrZero => false
  end.

Definition IsPrivate (a : Addr) : bool :=
  match Unmap a with
  | V4 v => (Z.shiftr v 24 =? 10) || (Z.shiftr v 20 =? 0xac1) || (Z.shiftr v 16 =? 0xc0a8)
  | V6 v _ => Z.shiftr v 121 =? 0x7e
  | AddrZero => false
  end.

Definition IsLinkLocalUnicast (a : Addr) : bool :=
  match Unmap a with
  | V4 v => Z.shiftr v 16 =? 0xa9fe
  | V6 v _ => Z.shiftr v 118 =? 0x3fa
  | AddrZero => false
  end.

Definition IsMulticast (a : Addr) : bool :=
  match Unmap a with
  | V4 v => Z.shiftr v 28 =? 0xe
  | V6 v _ => Z.shiftr v 120 =? 0xff
  | AddrZero => false
  end.

(** [a == IPv4Unspecified() || a == IPv6Unspecified()]. *)
Definition IsUnspecified (a : Addr) : bool :=
  addr_eqb a (V4 0) || addr_eqb a (V6 0 EmptyString).

(** ** Big-endian bytes: [AsSlice] and [AddrFromSlice] *)

Fixpoint bytes_be (n : nat) (v : Z) : list Z :=
  match n with
  | O => []
  | S n' => Z.shiftr v (8 * Z.of_nat n') mod 256 :: bytes_be n' v
  end.

Fixpoint from_be (l : list Z) : Z :=
  match l with
  | [] => 0
  | b :: l' => Z.lor (Z.shiftl b (8 * Z.of_nat (length l'))) (from_be l')
  end.

Definition AsSlice (a : Addr) : list Z := bytes_be (Z.to_nat (BitLen a / 8)) (addr_val a).

Definition AddrFromSlice (l : list Z) : Addr :=
  if (length l =? 4)%nat then V4 (from_be l)
  else if (length l =? 16)%nat then V6 (from_be l) EmptyString
  else AddrZero.

(** ** Prefixes *)

(** [pbits] is [Bits()]: -1 for an invalid prefix. *)
Record Prefix : Type := mkPrefix { pip : Addr; pbits : Z }.

#[export] Instance Prefix_eq_dec : EqDecision Prefix.
Proof. solve_decision. Defined.

Definition PrefixZero : Prefix := mkPrefix AddrZero (-1).

Definition prefix_eqb (p q : Prefix) : bool := bool_decide (p = q).

Definition PrefixFrom (a : Addr) (bits : Z) : Prefix :=
  let ok := negb (addr_eqb a AddrZero) && in_range 0 (BitLen a) bits in
  mkPrefix (withoutZone a) (if ok then bits else -1).

Definition IsValid (p : Prefix) : bool := 0 <=? pbits p.

Definition IsSingleIP (p : Prefix) : bool := IsValid p && (pbits p =? BitLen (pip p)).

Definition has_zone (a : Addr) : bool := negb (String.eqb (Zone a) EmptyString).

Definition Contains (p : Prefix) (a : Addr) : bool :=
  IsValid p && negb (has_zone a)
  && negb (BitLen (pip p) =? 0) && (BitLen (pip p) =? BitLen a)
  && (Z.shiftr (Z.lxor (addr_val a) (addr_val (pip p))) (BitLen a - pbits p) =? 0).

Definition clear_low (w n v : Z) : Z := Z.shiftl (Z.shiftr v (w - n)) (w - n).

(** [Addr.Prefix(b)]: the masked prefix, or the zero prefix on an error. *)
Definition addr_prefix (a : Addr) (b : Z) : Prefix :=
  if in_range 0 (BitLen a) b then
    match a with
    | AddrZero => PrefixZero
    | V4 v => PrefixFrom (V4 (clear_low 32 b v)) b
    | V6 v _ => PrefixFrom (V6 (clear_low 128 b v) EmptyString) b
    end
  else PrefixZero.

Definition Masked (p : Prefix) : Prefix := addr_prefix (pip p) (pbits p).

(** ** Text forms: [ParseAddr], [ParsePrefix] and [String] *)

(** [parseIPv4Fields]: [fields] holds the octets read so far. *)
Fixpoint parse_v4_loop (first prev_dot : bool) (val diglen : Z) (fields : list Z) (s : string)
  : option (list Z) :=
  match s with
  | EmptyString => if (length fields <? 3)%nat then None else Some (fields ++ [val])
  | String c s' =>
    if is_digit c then
      if (diglen =? 1) && (val =? 0) then None else
      let val' := val * 10 + digit_val c in
      if 255 <? val' then None else parse_v4_loop false false val' (diglen + 1) fields s'
    else if Ascii.eqb c "." then
      if first || String.eqb s' EmptyString || prev_dot then None
      else if (length fields =? 3)%nat then None
      else parse_v4_loop false true 0 0 (fields ++ [val]) s'
    else None
  end.

Definition parse_v4_fields (s : string) : option (list Z) := parse_v4_loop true false 0 0 [] s.

Definition parseIPv4 (s : string) : option Addr := V4 ∘ from_be <$> parse_v4_fields s.

Definition hex_val (c : ascii) : option Z :=
  let v := byte_val c in
  if in_range 48 57 v then Some (v - 48)
  else if in_range 97 102 v then Some (v - 87)
  else if in_range 65 70 v then Some (v - 55)
  else None.

(** One hexadecimal group: at most four digits, below [2^16]. *)
Fixpoint hex_scan (off : nat) (acc : Z) (s : string) : option (nat * Z * string) :=
  match s with
  | EmptyString => Some (off, acc, s)
  | String c s' =>
    match hex_val c with
    | None => Some (off, acc, s)
    | Some d =>
      let acc' := acc * 16 + d in
      if (3 <? off)%nat || (65535 <? acc') then None else hex_scan (S off) acc' s'
    end
  end.

(** The group loop of [parseIPv6]; [bytes] is what was read, [ell] where the
    ellipsis stood. Eight groups fill an address, so eight rounds are enough. *)
Fixpoint parse_v6_loop (rounds : nat) (bytes : list Z) (ell : option nat) (s : string)
  : option (list Z * option nat * string) :=
  match rounds with
  | O => Some (bytes, ell, s)
  | S rounds' =>
    '(off, acc, rest) ← hex_scan 0 0 s;
    if (off =? 0)%nat then None else
    let bytes' := bytes ++ [acc / 256; acc mod 256] in
    match rest with
    | EmptyString => Some (bytes', ell, EmptyString)
    | String "." _ =>
      if bool_decide (ell = None) && negb (length bytes =? 12)%nat then None
      else if (16 <? length bytes + 4)%nat then None
      else f4 ← parse_v4_fields s; Some (bytes ++ f4, ell, EmptyString)
    | String ":" (String ":" r) =>
      match ell with
      | Some _ => None
      | None =>
        let ell' := Some (length bytes') in
        match r with
        | EmptyString => Some (bytes', ell', EmptyString)
        | _ => parse_v6_loop rounds' bytes' ell' r
        end
      end
    | String ":" EmptyString => None
    | String ":" r => parse_v6_loop rounds' bytes' ell r
    | _ => None
    end
  end.

Definition expand_ellipsis (bytes : list Z) (ell : option nat) : option (list Z) :=
  let n := length bytes in
  match ell with
  | Some e => if (n <? 16)%nat then Some (take e bytes ++ replicate (16 - n) 0 ++ drop e bytes) else None
  | None => if (n <? 16)%nat then None else Some bytes
  end.

Definition parseIPv6 (s : string) : option Addr :=
  '(s, zone) ←
    match index_byte "%" s with
    | None => Some (s, EmptyString)
    | Some i =>
      let zone := string_drop (S i) s in
      if String.eqb zone EmptyString then None else Some (string_take i s, zone)
    end;
  let lead := HasPrefix s "::" in
  let s := if lead then string_drop 2 s else s in
  if lead && String.eqb s EmptyString then Some (V6 0 zone) else
  '(bytes, ell, rest) ← parse_v6_loop 8 [] (if lead then Some O else None) s;
  if negb (String.eqb rest EmptyString) then None else
  full ← expand_ellipsis bytes ell;
  Some (V6 (from_be full) zone).

(** The first of [.], [:] and [%] in [s] tells the family; [t] is what is left to scan. *)
Fixpoint addr_scan (s t : string) : option Addr :=
  match t with
  | EmptyString => None
  | String "." _ => parseIPv4 s
  | String ":" _ => parseIPv6 s
  | String "%" _ => None
  | String _ t' => addr_scan s t'
  end.

Definition ParseAddr (s : string) : option Addr := addr_scan s s.

Definition ParsePrefix (s : string) : option Prefix :=
  i ← last_index_byte "/" s;
  a ← ParseAddr (string_take i s);
  if has_zone a then None else
  let bits_str := string_drop (S i) s in
  let bad_lead :=
    match bits_str with
    | String c (String _ _) => negb (in_range 49 57 (byte_val c))
    | _ => false
    end in
  if bad_lead then None else
  bits ← parse_int bits_str;
  if in_range 0 (BitLen a) bits then Some (PrefixFrom a bits) else None.

Definition v4_string (v : Z) : string :=
  join "." (format_int <$> bytes_be 4 v).

Definition hex_digit (d : Z) : ascii :=
  ascii_of_N (Z.to_N (if d <? 10 then d + 48 else d + 87)).

(** [appendHex]: a 16-bit group without leading zeros. *)
Definition group_string (g : Z) : string :=
  let d k := String (hex_digit (Z.shiftr g (4 * k) mod 16)) EmptyString in
  ((if (4096 <=? g)%Z then d 3 else EmptyString) ++ (if (256 <=? g)%Z then d 2 else EmptyString)
   ++ (if (16 <=? g)%Z then d 1 else EmptyString) ++ d 0)%string.

Definition groups_of (v : Z) : list Z :=
  (fun i => Z.shiftr v (16 * (7 - i)) mod 65536) <$> seqZ 0 8.

(** How many groups from the head are zero. *)
Fixpoint zero_run (l : list Z) : nat :=
  match l with
  | 0 :: l' => S (zero_run l')
  | _ => O
  end.

(** The first longest run of at least two zero groups, as (start, end). *)
Definition longest_zero_run (l : list Z) : option (nat * nat) :=
  fold_left (fun best i =>
    let n := zero_run (drop i l) in
    let cur := match best with Some (s, e) => (e - s)%nat | None => O end in
    if (2 <=? n)%nat && (cur <? n)%nat then Some (i, i + n)%nat else best) (seq 0 8) None.

Definition v6_string (v : Z) : string :=
  let l := groups_of v in
  let txt gs := join ":" (group_string <$> gs) in
  match longest_zero_run l with
  | None => txt l
  | Some (s, e) => (txt (take s l) ++ "::" ++ txt (drop e l))%string
  end.

Definition zone_string (z : string) : string :=
  if String.eqb z EmptyString then EmptyString else ("%" ++ z)%string.

Definition addr_string (a : Addr) : string :=
  match a with
  | AddrZero => "invalid IP"
  | V4 v => v4_string v
  | V6 v z =>
    if Is4In6 a then ("::ffff:" ++ v4_string (Z.land v (Z.ones 32)) ++ zone_string z)%string
    else (v6_string v ++ zone_string z)%string
  end.

Definition prefix_string (p : Prefix) : string :=
  if IsValid p then (addr_string (pip p) ++ "/" ++ format_int (pbits p))%string
  else "invalid Prefix".

(** ** Package netaddr: address semantics shared by ingestion and analysis *)

Module netaddr.

Definition sharedSpace : Prefix := mkPrefix (V4 0x64400000) 10.

Definition Parse (raw : string) : option Addr := Unmap <$> ParseAddr (TrimSpace raw).

Definition IsLocal (raw : string) : bool :=
  match Parse raw with
  | None => false
  | Some a =>
    IsPrivate a || NetIP.IsLoopback a || IsLinkLocalUnicast a || IsMulticast a
    || IsUnspecified a || Contains sharedSpace a
  end.

Definition IsLoopback (raw : string) : bool :=
  match Parse raw with
  | None => false
  | Some a => NetIP.IsLoopback a
  end.

Definition Scope (raw : string) : string :=
  match Parse raw with
  | None => "invalid"
  | Some a =>
    if IsUnspecified a then "unspecified"
    else if NetIP.IsLoopback a then "loopback"
    else if IsMulticast a then "multicast"
    else if IsLinkLocalUnicast a then "link-local"
    else if IsPrivate a then "private"
    else if Contains sharedSpace a then "shared"
    else "public"
  end.

End netaddr.

(** ** Containment *)

Lemma Contains_spec p a :
  Contains p a = true <->
  IsValid p = true /\ has_zone a = false /\ BitLen (pip p) <> 0 /\ BitLen (pip p) = BitLen a /\
  Z.shiftr (addr_val a) (BitLen a - pbits p) = Z.shiftr (addr_val (pip p)) (BitLen a - pbits p).
Proof.
  unfold Contains. rewrite !andb_true_iff, !negb_true_iff, Z.eqb_neq, !Z.eqb_eq.
  rewrite Z.shiftr_lxor, Z.lxor_eq_0_iff. tauto.
Qed.

(** Every address inside [p] and [p]'s own address are on the same side of a
    wider or equal prefix [q]. *)
Lemma Contains_wider p q a :
  pbits q <= pbits p -> pbits p <= BitLen (pip p) -> has_zone (pip p) = false ->
  Contains p a = true -> Contains q a = Contains q (pip p).
Proof.
  intros Hle Hlen Hz Hp. apply Contains_spec in Hp as (Hv & Hza & Hnz & Hlen' & Hsh).
  apply eq_true_iff_eq. rewrite !Contains_spec.
  apply (shiftr_agree_le _ _ _ (BitLen a - pbits q)) in Hsh; [|lia].
  rewrite <- Hlen', Hz, Hza in *. rewrite Hsh. naive_solver.
Qed.

(** A prefix narrower than [p] whose own address is outside [p] is disjoint
    from [p]. *)
Lemma Contains_disjoint p q a :
  pbits p <= pbits q -> pbits q <= BitLen (pip q) -> has_zone (pip q) = false ->
  Contains p (pip q) = false -> Contains p a = true -> Contains q a = false.
Proof.
  intros Hle Hlen Hz Hpq Hpa. destruct (Contains q a) eqn:Hqa; [|done].
  rewrite <- Hpa, <- Hpq. by apply Contains_wider with (p := q).
Qed.

(** ** Bytes *)

Lemma length_bytes_be n v : length (bytes_be n v) = n.
Proof. induction n; simpl; auto. Qed.

Lemma from_bytes_be n v : from_be (bytes_be n v) = v mod 2 ^ (8 * Z.of_nat n).
Proof.
  induction n as [|n IH]; [by rewrite Z.mod_1_r|].
  cbn [bytes_be from_be]. rewrite IH, length_bytes_be.
  rewrite lor_shiftl_add by (try apply Z.mod_pos_bound; lia).
  rewrite Z.shiftr_div_pow2 by lia.
  replace (8 * Z.of_nat (S n)) with (8 * Z.of_nat n + 8) by lia.
  rewrite Z.pow_add_r by lia. rewrite Z.rem_mul_r by (try apply Z.pow_nonzero; lia).
  change (2 ^ 8) with 256. lia.
Qed.

(** Setting bits of one byte sets them in the value. *)
Lemma from_be_alter_lor l i m :
  (i < length l)%nat ->
  from_be (alter (fun b => Z.lor b m) i l)
  = Z.lor (from_be l) (Z.shiftl m (8 * Z.of_nat (length l - 1 - i))).
Proof.
  revert i. induction l as [|b l IH]; intros i Hi; [simpl in Hi; lia|].
  destruct i as [|i]; cbn [alter list_alter from_be length].
  - rewrite Z.shiftl_lor. replace (S (length l) - 1 - 0)%nat with (length l) by lia.
    rewrite <- !Z.lor_assoc. f_equal. apply Z.lor_comm.
  - change (list_alter ?f i l) with (alter f i l). simpl in Hi.
    rewrite length_alter, IH by lia.
    replace (S (length l) - 1 - S i)%nat with (length l - 1 - i)%nat by lia.
    by rewrite Z.lor_assoc.
Qed.

Lemma AddrFromSlice_AsSlice a :
  addr_ok a -> has_zone a = false -> AddrFromSlice (AsSlice a) = a.
Proof.
  unfold addr_ok, AddrFromSlice, AsSlice. intros Ha Hz.
  rewrite length_bytes_be, from_bytes_be. destruct a as [|v|v z]; simpl in *; [done|..].
  - by rewrite Z.mod_small.
  - unfold has_zone in Hz. simpl in Hz. bools. subst. by rewrite Z.mod_small.
Qed.

(** ** The parsers return values in range *)

Definition is_byte (b : Z) : Prop := 0 <= b < 256.

Lemma from_be_bound l : Forall is_byte l -> 0 <= from_be l < 2 ^ (8 * Z.of_nat (length l)).
Proof.
  induction 1 as [|b l Hb Hl IH]; [done|]. cbn [from_be length].
  rewrite lor_shiftl_add by (try done; lia).
  replace (8 * Z.of_nat (S (length l))) with (8 * Z.of_nat (length l) + 8) by lia.
  rewrite Z.pow_add_r by lia. change (2 ^ 8) with 256. unfold is_byte in Hb. nia.
Qed.

Lemma is_digit_val c : is_digit c = true -> 0 <= digit_val c <= 9.
Proof. unfold is_digit, in_range, digit_val. intros. bools. lia. Qed.

Lemma parse_v4_loop_ok first prev val diglen fields s l :
  parse_v4_loop first prev val diglen fields s = Some l ->
  is_byte val -> Forall is_byte fields -> (length fields <= 3)%nat ->
  Forall is_byte l /\ length l = 4%nat.
Proof.
  revert first prev val diglen fields.
  induction s as [|c s IH]; intros first prev val diglen fields; cbn [parse_v4_loop]; intros Hp Hv Hf Hl.
  - case_match eqn:E; simplify_eq. apply Nat.ltb_ge in E.
    rewrite Forall_app, length_app, Forall_singleton. simpl. split; [done|lia].
  - destruct (is_digit c) eqn:Hc.
    + repeat case_match; simplify_eq. apply is_digit_val in Hc. bools. unfold is_byte in *.
      eapply IH; eauto. lia.
    + repeat case_match; simplify_eq. bools.
      eapply IH; [done|by unfold is_byte|by apply Forall_app; split; [|constructor]|].
      rewrite length_app. simpl. lia.
Qed.

Lemma parse_v4_fields_ok s l : parse_v4_fields s = Some l -> Forall is_byte l /\ length l = 4%nat.
Proof. intros H. eapply parse_v4_loop_ok; [done|by unfold is_byte|done|simpl; lia]. Qed.

Lemma hex_val_range c d : hex_val c = Some d -> 0 <= d < 16.
Proof. unfold hex_val, in_range. intros. repeat case_match; simplify_eq; bools; lia. Qed.

Lemma hex_scan_range off acc s off' acc' rest :
  hex_scan off acc s = Some (off', acc', rest) -> 0 <= acc < 65536 -> 0 <= acc' < 65536.
Proof.
  revert off acc. induction s as [|c s IH]; intros off acc; cbn [hex_scan]; intros Hs Ha; [by simplify_eq|].
  destruct (hex_val c) as [d|] eqn:Hd; [|by simplify_eq]. apply hex_val_range in Hd.
  case_match eqn:E; [done|]. apply orb_false_iff in E as [_ E]. bools. eapply IH; [done|lia].
Qed.

Lemma group_bytes acc : 0 <= acc < 65536 -> Forall is_byte [acc / 256; acc mod 256].
Proof.
  intros. repeat constructor; unfold is_byte; try (apply Z.div_pos; lia);
    try (apply Z.div_lt_upper_bound; lia); try (apply Z.mod_pos_bound; lia).
Qed.

Lemma parse_v6_loop_ok rounds bytes ell s l ell' rest :
  parse_v6_loop rounds bytes ell s = Some (l, ell', rest) ->
  Forall is_byte bytes -> (length bytes + 2 * rounds = 16)%nat ->
  Forall is_byte l /\ (length l <= 16)%nat.
Proof.
  revert bytes ell s. induction rounds as [|rounds IH]; intros bytes ell s; cbn [parse_v6_loop].
  { intros Hp Hb Hl. simplify_eq. split; [done|lia]. }
  intros Hp Hb Hl. apply bind_Some in Hp as ([[off acc] r] & Hs & Hp).
  apply hex_scan_range in Hs as Hacc; [|lia]. apply group_bytes in Hacc.
  assert (Forall is_byte (bytes ++ [acc / 256; acc mod 256])) as Hb' by by apply Forall_app.
  assert (length (bytes ++ [acc / 256; acc mod 256]) = (length bytes + 2)%nat) as Hl'
    by by rewrite length_app.
  remember (bytes ++ [acc / 256; acc mod 256]) as bytes'.
  repeat (case_match; simplify_eq); try (split; [done|lia]); try (eapply IH; [done|done|lia]).
  all: apply bind_Some in Hp as (f4 & [H4 L4]%parse_v4_fields_ok & ?); simplify_eq.
  all: rewrite Forall_app, length_app, L4; bools; split; [done|lia].
Qed.

Lemma parseIPv6_ok s a : parseIPv6 s = Some a -> addr_ok a /\ BitLen a = 128.
Proof.
  unfold parseIPv6. intros ([s0 zone] & _ & Hp)%bind_Some. case_match; simplify_eq.
  { split; [|done]. by split. }
  apply bind_Some in Hp as ([[bytes ell] rest] & Hl & Hp).
  apply parse_v6_loop_ok in Hl as [Hb Hlen]; [|by constructor|done].
  destruct (negb _) in Hp; [done|].
  apply bind_Some in Hp as (full & He & ?). simplify_eq. split; [|done].
  assert (Forall is_byte full /\ length full = 16%nat) as [Hf Lf].
  { unfold expand_ellipsis in He. destruct ell as [e|], (_ <? _)%nat eqn:E; simplify_eq; bools;
      [|split; [done|lia]].
    rewrite !Forall_app, !length_app, length_replicate, length_take, length_drop. split; [|lia].
    split; [by apply Forall_take|]. split; [by apply Forall_replicate; unfold is_byte|by apply Forall_drop]. }
  pose proof (from_be_bound full Hf) as Hfb. rewrite Lf in Hfb. exact Hfb.
Qed.

Lemma parseIPv4_ok s a : parseIPv4 s = Some a -> addr_ok a /\ BitLen a = 32.
Proof.
  unfold parseIPv4. intros (l & [Hl Ll]%parse_v4_fields_ok & ->)%fmap_Some. split; [|done].
  pose proof (from_be_bound l Hl) as Hb. rewrite Ll in Hb. exact Hb.
Qed.

(** A parsed address is in range and has a family. *)
Lemma ParseAddr_ok s a : ParseAddr s = Some a -> addr_ok a /\ BitLen a <> 0.
Proof.
  unfold ParseAddr. generalize s at 2 as t. induction t as [|c t IH]; [done|]. cbn [addr_scan].
  intros Hp. repeat (case_match; simplify_eq); auto.
  all: first [apply parseIPv4_ok in Hp | apply parseIPv6_ok in Hp]; destruct Hp as [? E]; rewrite E; done.
Qed.
