(* ===== verification/TrustFabric.v ===== *)
(** * Trust fabric: which destinations an isolated endpoint may still reach

    [hub/pkg/trustfabric/resolver.go]: rules written at five scopes, the
    decision for one target ([Decide]) and the compilation of the rules into
    an address allow list ([Compile]). *)

From Stdlib Require Import Ascii String.
From S2P Require Import Prelude NetIP.

Module trustfabric.

(** ** Data *)

Definition ScopeProvider : string := "provider".
Definition ScopeClient : string := "client".
Definition ScopeSite : string := "site".
Definition ScopeGroup : string := "group".
Definition ScopeEndpoint : string := "endpoint".

Definition scopeLevel (s : string) : option Z :=
  if String.eqb s ScopeProvider then Some 0
  else if String.eqb s ScopeClient then Some 1
  else if String.eqb s ScopeSite then Some 2
  else if String.eqb s ScopeGroup then Some 3
  else if String.eqb s ScopeEndpoint then Some 4
  else None.

(** [scopeLevel[s]] on a missing key is the zero value. *)
Definition level (s : string) : Z := default 0 (scopeLevel s).

Definition Allow : string := "allow".
Definition Deny : string := "deny".
Definition DirBoth : string := "both".
Definition DirIn : string := "in".
Definition DirOut : string := "out".
Definition ProtoAny : string := "any".
Definition ProtoTCP : string := "tcp".
Definition ProtoUDP : string := "udp".
Definition BasisFloor : string := "floor".
Definition BasisLocked : string := "locked".
Definition BasisSpecific : string := "most_specific".
Definition BasisDefault : string := "default".

Record Rule : Type := mkRule {
  r_ID : string;
  r_ScopeType : string;
  r_ScopeID : string;
  r_Kind : string;
  r_Value : string;
  r_Action : string;
  r_Direction : string;
  r_Port : Z;
  r_Proto : string;
  r_Locked : bool;
  r_ExpiresAt : option Z;
  r_Justification : string;
  r_CreatedBy : string;
  r_Source : string;
  r_CreatedAt : Z;
  r_prefix : Prefix;
}.

Record Endpoint : Type := mkEndpoint {
  ep_ID : string;
  ep_TenantID : string;
  ep_LocationID : string;
  ep_Role : string;
  ep_HubAddrs : list Addr;
}.

Record Target : Type := mkTarget {
  t_Addr : Addr;
  t_Port : Z;
  t_Proto : string;
  t_Direction : string;
}.

Record Decision : Type := mkDecision {
  d_Action : string;
  d_Basis : string;
  d_RuleID : string;
  d_Scope : string;
}.

(** [Target{Addr: a}]: the question about an address as a whole. *)
Definition whole (a : Addr) : Target := mkTarget a 0 EmptyString EmptyString.

(** ** Normalize *)

Definition bad {A} (msg : string) : result string A := Err ("invalid trust rule: " ++ msg)%string.

(** The value and prefix a rule's kind and value text stand for. *)
Definition normalize_value (kind value action : string) : result string (string * Prefix) :=
  if String.eqb kind "ip" then
    match ParseAddr value with
    | None => bad "value is not an IP address"
    | Some a =>
      if negb (String.eqb (Zone a) EmptyString) then bad "value is not an IP address" else
      let a := Unmap a in
      Ok (addr_string a, PrefixFrom a (BitLen a))
    end
  else if String.eqb kind "cidr" then
    match ParsePrefix value with
    | None => bad "value is not a CIDR prefix"
    | Some p =>
      if Is4In6 (pip p) && (pbits p <? 96)
      then bad "an IPv4-mapped prefix must be /96 or longer" else
      let p := if Is4In6 (pip p) then PrefixFrom (Unmap (pip p)) (pbits p - 96) else p in
      let p := Masked p in
      if (pbits p =? 0) && String.eqb action Allow
      then bad "an allow rule may not cover a whole address family" else
      Ok (prefix_string p, p)
    end
  else bad "kind must be ip or cidr".

Definition Normalize `{Unicode} (r : Rule) : result string Rule :=
  let scopeType := ToLower (TrimSpace (r_ScopeType r)) in
  let scopeID := TrimSpace (r_ScopeID r) in
  _ ← guard_err (bool_decide (is_Some (scopeLevel scopeType)))
        "invalid trust rule: scope_type must be provider, client, site, group or endpoint";
  scopeID ←
    (if String.eqb scopeType ScopeProvider then Ok EmptyString
     else if String.eqb scopeID EmptyString || (128 <? String.length scopeID)%nat
     then bad ("scope_id is required for a " ++ scopeType ++ " rule")%string
     else Ok scopeID);
  let action := ToLower (TrimSpace (r_Action r)) in
  _ ← guard_err (String.eqb action Allow || String.eqb action Deny)
        "invalid trust rule: action must be allow or deny";
  let direction := ToLower (TrimSpace (r_Direction r)) in
  let direction := if String.eqb direction EmptyString then DirBoth else direction in
  _ ← guard_err (String.eqb direction DirBoth || String.eqb direction DirIn || String.eqb direction DirOut)
        "invalid trust rule: direction must be both, in or out";
  let proto := ToLower (TrimSpace (r_Proto r)) in
  let proto := if String.eqb proto EmptyString then ProtoAny else proto in
  _ ← guard_err (String.eqb proto ProtoAny || String.eqb proto ProtoTCP || String.eqb proto ProtoUDP)
        "invalid trust rule: proto must be any, tcp or udp";
  _ ← guard_err (in_range 0 65535 (r_Port r))
        "invalid trust rule: port must be 0 (any) to 65535";
  _ ← guard_err (negb (negb (r_Port r =? 0) && String.eqb proto ProtoAny))
        "invalid trust rule: a port needs a protocol";
  let kind := ToLower (TrimSpace (r_Kind r)) in
  '(value, prefix) ← normalize_value kind (TrimSpace (r_Value r)) action;
  _ ← guard_err (String.length (r_Justification r) <=? 512)%nat
        "invalid trust rule: justification is longer than 512 characters";
  Ok (mkRule (r_ID r) scopeType scopeID kind value action direction (r_Port r) proto
        (r_Locked r) (r_ExpiresAt r) (r_Justification r) (r_CreatedBy r) (r_Source r)
        (r_CreatedAt r) prefix).

(** ** Matching *)

Section Resolver.
Context `{Unicode}.

Definition rule_Prefix (r : Rule) : Prefix :=
  if IsValid (r_prefix r) then r_prefix r else
  match Normalize r with
  | Ok n => r_prefix n
  | Err _ => r_prefix r
  end.

Definition Active (r : Rule) (now : Z) : bool :=
  match r_ExpiresAt r with
  | None => true
  | Some e => now <? e
  end.

Definition AppliesTo (r : Rule) (ep : Endpoint) : bool :=
  let s := r_ScopeType r in
  if String.eqb s ScopeProvider then true
  else if String.eqb s ScopeClient then String.eqb (r_ScopeID r) (ep_TenantID ep)
  else if String.eqb s ScopeSite then String.eqb (r_ScopeID r) (ep_LocationID ep)
  else if String.eqb s ScopeGroup then String.eqb (r_ScopeID r) (ep_Role ep)
  else if String.eqb s ScopeEndpoint then String.eqb (r_ScopeID r) (ep_ID ep)
  else false.

Definition matches (r : Rule) (t : Target) : bool :=
  if negb (Contains (rule_Prefix r) (Unmap (t_Addr t))) then false
  else if negb (t_Port t =? 0) && negb (r_Port r =? 0) && negb (r_Port r =? t_Port t) then false
  else if (t_Port t =? 0) && negb (r_Port r =? 0) then false
  else if negb (String.eqb (t_Proto t) EmptyString) && negb (String.eqb (t_Proto t) ProtoAny)
          && negb (String.eqb (r_Proto r) ProtoAny) && negb (String.eqb (r_Proto r) (t_Proto t)) then false
  else if (String.eqb (t_Proto t) EmptyString || String.eqb (t_Proto t) ProtoAny)
          && negb (String.eqb (r_Proto r) ProtoAny) then false
  else if negb (String.eqb (t_Direction t) EmptyString) && negb (String.eqb (t_Direction t) DirBoth)
          && negb (String.eqb (r_Direction r) DirBoth)
          && negb (String.eqb (r_Direction r) (t_Direction t)) then false
  else if (String.eqb (t_Direction t) EmptyString || String.eqb (t_Direction t) DirBoth)
          && negb (String.eqb (r_Direction r) DirBoth) then false
  else true.

Definition IsFloor (ep : Endpoint) (t : Target) : bool :=
  let a := Unmap (t_Addr t) in
  IsLoopback a
  || existsb (fun h => addr_eqb (Unmap h) a) (ep_HubAddrs ep)
  || (String.eqb (t_Proto t) ProtoUDP && ((t_Port t =? 67) || (t_Port t =? 68))).

(** ** Precedence *)

Definition stronger (a b : Rule) : bool :=
  let la := level (r_ScopeType a) in
  let lb := level (r_ScopeType b) in
  if negb (la =? lb) then lb <? la else
  let pa := pbits (rule_Prefix a) in
  let pb := pbits (rule_Prefix b) in
  if negb (pa =? pb) then pb <? pa else
  if negb (Bool.eqb (negb (r_Port a =? 0)) (negb (r_Port b =? 0))) then negb (r_Port a =? 0) else
  if negb (Bool.eqb (negb (String.eqb (r_Proto a) ProtoAny)) (negb (String.eqb (r_Proto b) ProtoAny)))
  then negb (String.eqb (r_Proto a) ProtoAny) else
  if negb (Bool.eqb (negb (String.eqb (r_Direction a) DirBoth)) (negb (String.eqb (r_Direction b) DirBoth)))
  then negb (String.eqb (r_Direction a) DirBoth) else
  String.eqb (r_Action a) Deny && String.eqb (r_Action b) Allow.

Definition strongerLocked (a b : Rule) : bool :=
  let la := level (r_ScopeType a) in
  let lb := level (r_ScopeType b) in
  if negb (la =? lb) then la <? lb else
  String.eqb (r_Action a) Deny && String.eqb (r_Action b) Allow.

(** One round of [Decide]'s loop over the pair (best, bestLocked). *)
Definition decide_step (ep : Endpoint) (t : Target) (now : Z)
    (st : option Rule * option Rule) (r : Rule) : option Rule * option Rule :=
  let '(best, bestLocked) := st in
  if negb (Active r now) || negb (AppliesTo r ep) || negb (matches r t) then st
  else if r_Locked r then
    match bestLocked with
    | None => (best, Some r)
    | Some b => if strongerLocked r b then (best, Some r) else st
    end
  else
    match best with
    | None => (Some r, bestLocked)
    | Some b => if stronger r b then (Some r, bestLocked) else st
    end.

Definition Decide (ep : Endpoint) (rules : list Rule) (t : Target) (now : Z) : Decision :=
  if IsFloor ep t then mkDecision Allow BasisFloor EmptyString EmptyString else
  let '(best, bestLocked) := fold_left (decide_step ep t now) rules (None, None) in
  match bestLocked with
  | Some r => mkDecision (r_Action r) BasisLocked (r_ID r) (r_ScopeType r)
  | None =>
    match best with
    | Some r => mkDecision (r_Action r) BasisSpecific (r_ID r) (r_ScopeType r)
    | None => mkDecision Deny BasisDefault EmptyString EmptyString
    end
  end.

(** ** The address allow list *)

Record Entry : Type := mkEntry { e_Prefix : Prefix; e_Decision : Decision }.

Record Withheld : Type := mkWithheld { w_RuleID : string; w_Reason : string }.

Record Policy : Type := mkPolicy {
  p_Allow : list Prefix;
  p_Entries : list Entry;
  p_Withheld : list Withheld;
  p_Addresses : list Addr;
}.

Definition lessPrefix (a b : Prefix) : bool :=
  if negb (addr_eqb (pip a) (pip b)) then addr_less (pip a) (pip b)
  else pbits a <? pbits b.

Definition halves (p : Prefix) : Prefix * Prefix :=
  let bits := pbits p + 1 in
  let lo := PrefixFrom (pip p) bits in
  let idx := Z.to_nat (pbits p / 8) in
  let b := alter (fun x => Z.lor x (Z.shiftr 128 (pbits p mod 8))) idx (AsSlice (pip p)) in
  (lo, PrefixFrom (AddrFromSlice b) bits).

(** The loop keeps [in[i-1]] as it was: what is written never passes [i-1]. *)
Fixpoint dedupe_after (prev : option Prefix) (l : list Entry) : list Entry :=
  match l with
  | [] => []
  | e :: l' =>
    if bool_decide (prev = Some (e_Prefix e)) then dedupe_after (Some (e_Prefix e)) l'
    else e :: dedupe_after (Some (e_Prefix e)) l'
  end.

Definition dedupeEntries (l : list Entry) : list Entry := dedupe_after None l.

(** One prefix of a merge pass; [out] is the output so far, last first. *)
Definition merge_step (st : list Prefix * bool) (p : Prefix) : list Prefix * bool :=
  let '(out, changed) := st in
  match out with
  | [] => ([p], changed)
  | last :: rest =>
    if Bool.eqb (Is4 (pip last)) (Is4 (pip p)) && (pbits last <=? pbits p) && Contains last (pip p)
    then (out, changed || negb (prefix_eqb last p))
    else
      let parent := addr_prefix (pip last) (pbits last - 1) in
      if (pbits last =? pbits p) && (0 <? pbits last) && Bool.eqb (Is4 (pip last)) (Is4 (pip p))
         && (Contains parent (pip p) && addr_eqb (pip parent) (pip last))
      then (parent :: rest, true)
      else (p :: out, changed)
  end.

Definition merge_pass (set : list Prefix) : list Prefix * bool :=
  let '(out, changed) := fold_left merge_step (sort_slice lessPrefix set) ([], false) in
  (rev out, changed).

(** [for changed := true; changed; ]: a pass that changes something shortens
    the list, so [S (length in)] passes are enough. *)
Fixpoint merge_loop (fuel : nat) (set : list Prefix) : list Prefix :=
  match fuel with
  | O => set
  | S fuel' =>
    let '(out, changed) := merge_pass set in
    if changed then merge_loop fuel' out else out
  end.

Definition mergePrefixes (l : list Prefix) : list Prefix :=
  match l with
  | [] => []
  | _ => merge_loop (S (length l)) l
  end.

(** A rule whose range lies strictly inside [p]. *)
Definition strictly_inside (p : Prefix) (r : Rule) : bool :=
  let q := rule_Prefix r in
  Bool.eqb (Is4 (pip q)) (Is4 (pip p)) && (pbits p <? pbits q) && Contains p (pip q).

(** The recursive [walk]; the pair is (policy.Entries, policy.Allow). A
    prefix of at most 128 bits splits at most 128 times. *)
Fixpoint walk (fuel : nat) (ep : Endpoint) (applicable : list Rule) (now : Z) (p : Prefix)
    (st : list Entry * list Prefix) : list Entry * list Prefix :=
  match fuel with
  | O => st
  | S fuel' =>
    if existsb (strictly_inside p) applicable then
      let '(lo, hi) := halves p in
      walk fuel' ep applicable now hi (walk fuel' ep applicable now lo st)
    else
      let d := Decide ep applicable (whole (pip p)) now in
      let '(entries, allow) := st in
      if String.eqb (d_Basis d) BasisDefault then st
      else (entries ++ [mkEntry p d],
            if String.eqb (d_Action d) Allow then allow ++ [p] else allow)
  end.

Definition walk_fuel : nat := 129.

(** A narrow deny counts as a deny of the whole address. *)
Definition widen (r : Rule) : Rule :=
  mkRule (r_ID r) (r_ScopeType r) (r_ScopeID r) (r_Kind r) (r_Value r) (r_Action r)
    DirBoth 0 ProtoAny (r_Locked r) (r_ExpiresAt r) (r_Justification r) (r_CreatedBy r)
    (r_Source r) (r_CreatedAt r) (r_prefix r).

Definition narrow (r : Rule) : bool :=
  negb (r_Port r =? 0) || negb (String.eqb (r_Proto r) ProtoAny)
  || negb (String.eqb (r_Direction r) DirBoth).

Definition withheld_reason : string := "port, protocol or direction scoped: not expressible as an address".

(** The first loop of [Compile]: the applicable rules and the withheld ones. *)
Definition collect_step (ep : Endpoint) (now : Z) (st : list Rule * list Withheld) (r : Rule)
    : list Rule * list Withheld :=
  let '(applicable, held) := st in
  if negb (Active r now) || negb (AppliesTo r ep) then st
  else if String.eqb (r_Action r) Allow && narrow r
  then (applicable, held ++ [mkWithheld (r_ID r) withheld_reason])
  else (applicable ++ [widen r], held).

Definition collect (ep : Endpoint) (rules : list Rule) (now : Z) : list Rule * list Withheld :=
  fold_left (collect_step ep now) rules ([], []).

(** The second loop: walk each distinct range an allow rule names. *)
Definition walk_step (ep : Endpoint) (applicable : list Rule) (now : Z)
    (st : list Prefix * (list Entry * list Prefix)) (r : Rule)
    : list Prefix * (list Entry * list Prefix) :=
  let '(seen, acc) := st in
  let p := rule_Prefix r in
  if negb (String.eqb (r_Action r) Allow) || bool_decide (p ∈ seen) then st
  else (p :: seen, walk walk_fuel ep applicable now p acc).

(** The third loop: single addresses an allow rule names and the list allows. *)
Definition address_step (allow : list Prefix) (st : list Addr * list Addr) (r : Rule)
    : list Addr * list Addr :=
  let '(named, addrs) := st in
  let p := rule_Prefix r in
  if String.eqb (r_Action r) Allow && IsSingleIP p && negb (bool_decide (pip p ∈ named)) then
    (pip p :: named,
     if existsb (fun a => Contains a (pip p)) allow then addrs ++ [pip p] else addrs)
  else st.

Definition Compile (ep : Endpoint) (rules : list Rule) (now : Z) : Policy :=
  let '(applicable, held) := collect ep rules now in
  let '(_, (entries, allow)) :=
    fold_left (walk_step ep applicable now) applicable ([], ([], [])) in
  let allow := mergePrefixes allow in
  let '(_, addrs) := fold_left (address_step allow) applicable ([], []) in
  mkPolicy allow
    (dedupeEntries (sort_slice (fun x y => lessPrefix (e_Prefix x) (e_Prefix y)) entries))
    held
    (sort_slice addr_less addrs).

End Resolver.

End trustfabric.
