(* ===== verification/TrustDecide.v ===== *)
(** * Trust decisions: the precedence promised by the package, and that
    [Decide] implements it *)

From Stdlib Require Import Ascii String.
From S2P Require Import Prelude NetIP TrustFabric.
Import trustfabric.

(** ** Lexicographic rank *)

Fixpoint lexgt (a b : list Z) : bool :=
  match a, b with
  | x :: a', y :: b' => if x =? y then lexgt a' b' else y <? x
  | _, _ => false
  end.

Lemma lexgt_asym a b : lexgt a b = true -> lexgt b a = false.
Proof.
  revert b. induction a as [|x a IH]; intros [|y b]; simpl; try done.
  rewrite (Z.eqb_sym y x). destruct (x =? y) eqn:E; [apply IH|].
  intros. bools. apply Z.ltb_ge. lia.
Qed.

Lemma lexgt_negtrans a b c :
  length a = length b -> length b = length c ->
  lexgt a b = false -> lexgt b c = false -> lexgt a c = false.
Proof.
  revert b c. induction a as [|x a IH]; intros [|y b] [|z c]; simpl; try done.
  intros [= H1] [= H2].
  destruct (Z.eqb_spec x y), (Z.eqb_spec y z), (Z.eqb_spec x z); subst; try lia; eauto.
Qed.

Lemma lexgt_same a b : length a = length b -> lexgt a b = false -> lexgt b a = false -> a = b.
Proof.
  revert b. induction a as [|x a IH]; intros [|y b]; simpl; try done.
  intros [= H1]. rewrite (Z.eqb_sym y x).
  destruct (Z.eqb_spec x y); subst; [intros; f_equal; eauto|]. lia.
Qed.

Lemma lexgt_app a b c d :
  length a = length b -> lexgt (a ++ c) (b ++ d) = if bool_decide (a = b) then lexgt c d else lexgt a b.
Proof.
  revert b. induction a as [|x a IH]; intros [|y b]; simpl; try done.
  intros [= H1]. destruct (Z.eqb_spec x y) as [->|Hne].
  - rewrite IH by done. repeat case_bool_decide; naive_solver.
  - case_bool_decide; naive_solver.
Qed.

(** ** Well-formed rules: what [Normalize] returns *)

(** A valid prefix in canonical form: no host bit below its length. *)
Definition prefix_ok (p : Prefix) : Prop :=
  0 <= pbits p <= BitLen (pip p) /\ BitLen (pip p) <> 0 /\ has_zone (pip p) = false /\
  addr_ok (pip p) /\ addr_val (pip p) mod 2 ^ (BitLen (pip p) - pbits p) = 0.

Record wf_rule (r : Rule) : Prop := {
  wf_action : r_Action r = Allow \/ r_Action r = Deny;
  wf_scope : is_Some (scopeLevel (r_ScopeType r));
  wf_prefix : prefix_ok (r_prefix r);
}.

Section Decide.
Context `{Unicode}.

Lemma wf_rule_Prefix r : wf_rule r -> rule_Prefix r = r_prefix r.
Proof.
  intros [_ _ [Hb _]]. unfold rule_Prefix, IsValid.
  by rewrite (proj2 (Z.leb_le 0 _)) by lia.
Qed.

Definition zb (b : bool) : Z := if b then 1 else 0.

(** How specific a rule is: scope, prefix length, then whether it names a
    port, a protocol, a direction. *)
Definition specificity (r : Rule) : list Z :=
  [level (r_ScopeType r); pbits (rule_Prefix r); zb (negb (r_Port r =? 0));
   zb (negb (String.eqb (r_Proto r) ProtoAny)); zb (negb (String.eqb (r_Direction r) DirBoth))].

Definition deny_rank (r : Rule) : Z := zb (String.eqb (r_Action r) Deny).

Definition rank (r : Rule) : list Z := specificity r ++ [deny_rank r].

Definition locked_rank (r : Rule) : list Z := [- level (r_ScopeType r); deny_rank r].

Lemma zb_eqb a b : (zb a =? zb b) = Bool.eqb a b.
Proof. by destruct a, b. Qed.

Lemma deny_allow_rank a b :
  wf_rule a -> wf_rule b ->
  lexgt [deny_rank a] [deny_rank b] = String.eqb (r_Action a) Deny && String.eqb (r_Action b) Allow.
Proof.
  intros [Ha _ _] [Hb _ _]. unfold deny_rank.
  destruct Ha as [-> | ->], Hb as [-> | ->]; reflexivity.
Qed.

Lemma stronger_rank a b : wf_rule a -> wf_rule b -> stronger a b = lexgt (rank a) (rank b).
Proof.
  intros Ha Hb. pose proof (deny_allow_rank a b Ha Hb) as Hd. simpl in Hd.
  unfold stronger, rank, specificity. simpl.
  rewrite !zb_eqb, Hd. clear Hd.
  destruct (_ =? _); simpl; [|done]. destruct (_ =? _); simpl; [|done].
  repeat match goal with |- context [Bool.eqb ?x ?y] => destruct x, y; simpl; try done end.
Qed.

Lemma strongerLocked_rank a b :
  wf_rule a -> wf_rule b -> strongerLocked a b = lexgt (locked_rank a) (locked_rank b).
Proof.
  intros Ha Hb. pose proof (deny_allow_rank a b Ha Hb) as Hd. simpl in Hd.
  unfold strongerLocked, locked_rank. simpl. rewrite Hd.
  destruct (Z.eqb_spec (level (r_ScopeType a)) (level (r_ScopeType b))) as [->|Hne].
  - by rewrite Z.eqb_refl.
  - rewrite (proj2 (Z.eqb_neq (- _) _)) by lia. simpl.
    apply eq_true_iff_eq. rewrite !Z.ltb_lt. lia.
Qed.

(** ** The candidates of a decision *)

Definition hit (ep : Endpoint) (t : Target) (now : Z) (r : Rule) : bool :=
  Active r now && AppliesTo r ep && matches r t.

Definition hits (ep : Endpoint) (rules : list Rule) (t : Target) (now : Z) : list Rule :=
  List.filter (hit ep t now) rules.

Definition locked_hits ep rules t now : list Rule := List.filter r_Locked (hits ep rules t now).

Definition open_hits ep rules t now : list Rule :=
  List.filter (fun r => negb (r_Locked r)) (hits ep rules t now).

Lemma decide_loop ep rules t now :
  fold_left (decide_step ep t now) rules (None, None)
  = (pick stronger (open_hits ep rules t now), pick strongerLocked (locked_hits ep rules t now)).
Proof.
  induction rules as [|r rules IH] using rev_ind; [done|].
  rewrite fold_left_app, IH. unfold open_hits, locked_hits, hits.
  rewrite !List.filter_app. cbn [fold_left List.filter]. unfold decide_step.
  replace (negb (Active r now) || negb (AppliesTo r ep) || negb (matches r t))
    with (negb (hit ep t now r))
    by (unfold hit; by destruct (Active r now), (AppliesTo r ep), (matches r t)).
  destruct (hit ep t now r); simpl; rewrite ?app_nil_r; [|done].
  destruct (r_Locked r); simpl; rewrite ?app_nil_r, ?pick_snoc.
  - destruct (pick strongerLocked _); [|done]. by destruct (strongerLocked r _).
  - destruct (pick stronger _); [|done]. by destruct (stronger r _).
Qed.

Lemma filter_wf (f : Rule -> bool) l : Forall wf_rule l -> Forall wf_rule (List.filter f l).
Proof. rewrite !Forall_forall. intros H0 x [Hx _]%list_elem_of_In%filter_In. by apply H0, list_elem_of_In. Qed.

Lemma pick_stronger l :
  Forall wf_rule l ->
  match pick stronger l with
  | Some b => b ∈ l /\ forall x, x ∈ l -> lexgt (rank x) (rank b) = false
  | None => l = []
  end.
Proof.
  intros Hl.
  assert (match pick stronger l with Some b => unbeaten stronger b l | None => l = [] end) as Hp.
  { apply (pick_unbeaten stronger wf_rule); [| |done].
    - intros x y Hx Hy. rewrite !stronger_rank by done. apply lexgt_asym.
    - intros x y z Hx Hy Hz. rewrite !stronger_rank by done. by apply lexgt_negtrans. }
  destruct (pick stronger l) as [b|]; [|done]. destruct Hp as [Hb Hmax]. split; [done|].
  intros x Hx. rewrite Forall_forall in Hl. rewrite <- stronger_rank; auto.
Qed.

Lemma pick_strongerLocked l :
  Forall wf_rule l ->
  match pick strongerLocked l with
  | Some b => b ∈ l /\ forall x, x ∈ l -> lexgt (locked_rank x) (locked_rank b) = false
  | None => l = []
  end.
Proof.
  intros Hl.
  assert (match pick strongerLocked l with Some b => unbeaten strongerLocked b l | None => l = [] end) as Hp.
  { apply (pick_unbeaten strongerLocked wf_rule); [| |done].
    - intros x y Hx Hy. rewrite !strongerLocked_rank by done. apply lexgt_asym.
    - intros x y z Hx Hy Hz. rewrite !strongerLocked_rank by done. by apply lexgt_negtrans. }
  destruct (pick strongerLocked l) as [b|]; [|done]. destruct Hp as [Hb Hmax]. split; [done|].
  intros x Hx. rewrite Forall_forall in Hl. rewrite <- strongerLocked_rank; auto.
Qed.

(** ** The promise: the precedence of the package documentation *)

(** [r] decides among [l]: no rule of [l] ranks higher under [key], and a deny
    of equal key is only overruled by a deny. *)
Definition decides (key : Rule -> list Z) (l : list Rule) (r : Rule) : Prop :=
  r ∈ l /\ forall x, x ∈ l ->
    lexgt (key x) (key r) = false /\ (key x = key r -> r_Action x = Deny -> r_Action r = Deny).

Inductive Verdict (ep : Endpoint) (rules : list Rule) (t : Target) (now : Z) : Decision -> Prop :=
| verdict_floor :
    IsFloor ep t = true ->
    Verdict ep rules t now (mkDecision Allow BasisFloor EmptyString EmptyString)
| verdict_locked r :
    IsFloor ep t = false ->
    decides (fun x => [- level (r_ScopeType x)]) (locked_hits ep rules t now) r ->
    Verdict ep rules t now (mkDecision (r_Action r) BasisLocked (r_ID r) (r_ScopeType r))
| verdict_specific r :
    IsFloor ep t = false ->
    locked_hits ep rules t now = [] ->
    decides specificity (open_hits ep rules t now) r ->
    Verdict ep rules t now (mkDecision (r_Action r) BasisSpecific (r_ID r) (r_ScopeType r))
| verdict_default :
    IsFloor ep t = false ->
    hits ep rules t now = [] ->
    Verdict ep rules t now (mkDecision Deny BasisDefault EmptyString EmptyString).

Lemma deny_rank_eq a b :
  wf_rule a -> wf_rule b -> (deny_rank a =? deny_rank b) = true -> r_Action a = r_Action b.
Proof.
  intros [Ha _ _] [Hb _ _]. unfold deny_rank.
  destruct Ha as [-> | ->], Hb as [-> | ->]; done.
Qed.

(** An unbeaten rule under [key ++ [deny]] decides under [key]. *)
Lemma unbeaten_decides (key : Rule -> list Z) n l b :
  (forall x, length (key x) = n) -> Forall wf_rule l -> b ∈ l ->
  (forall x, x ∈ l -> lexgt (key x ++ [deny_rank x]) (key b ++ [deny_rank b]) = false) ->
  decides key l b.
Proof.
  intros Hn Hl Hb Hmax. split; [done|]. intros x Hx. specialize (Hmax x Hx).
  rewrite lexgt_app in Hmax by (by rewrite !Hn). rewrite Forall_forall in Hl.
  case_bool_decide as Hk.
  - rewrite Hk. split; [destruct (lexgt (key b) (key b)) eqn:E; [|done]; by rewrite <- (lexgt_asym _ _ E)|].
    intros _ Hd. pose proof (deny_allow_rank x b (Hl _ Hx) (Hl _ Hb)) as Hr. rewrite Hmax, Hd in Hr.
    destruct (wf_action _ (Hl _ Hb)) as [Ha|]; [|done]. by rewrite Ha in Hr.
  - by split.
Qed.

Lemma hits_split ep rules t now :
  locked_hits ep rules t now = [] -> open_hits ep rules t now = [] -> hits ep rules t now = [].
Proof.
  unfold locked_hits, open_hits. destruct (hits ep rules t now) as [|r l]; [done|].
  simpl. by destruct (r_Locked r).
Qed.

Lemma decide_meets_verdict ep rules t now :
  Forall wf_rule rules -> Verdict ep rules t now (Decide ep rules t now).
Proof.
  intros Hwf. unfold Decide. destruct (IsFloor ep t) eqn:Hf; [by constructor|].
  rewrite decide_loop.
  assert (Forall wf_rule (hits ep rules t now)) as Hh by by apply filter_wf.
  pose proof (pick_strongerLocked (locked_hits ep rules t now) (filter_wf _ _ Hh)) as HL.
  pose proof (pick_stronger (open_hits ep rules t now) (filter_wf _ _ Hh)) as HO.
  destruct (pick strongerLocked _) as [r|].
  - apply verdict_locked; [done|]. destruct HL as [Hr HL].
    apply (unbeaten_decides _ 1); [done|by apply filter_wf|done|done].
  - destruct (pick stronger _) as [r|].
    + apply verdict_specific; [done..|]. destruct HO as [Hr HO].
      apply (unbeaten_decides _ 5); [done|by apply filter_wf|done|done].
    + apply verdict_default; [done|]. by apply hits_split.
Qed.

(** Two rules that decide among the same rules have the same action. *)
Lemma decides_action key n l r r' :
  (forall x, length (key x) = n) -> Forall wf_rule l ->
  decides key l r -> decides key l r' -> r_Action r = r_Action r'.
Proof.
  intros Hn Hl [Hr H1] [Hr' H2]. rewrite Forall_forall in Hl.
  destruct (H1 _ Hr') as [G1 D1], (H2 _ Hr) as [G2 D2].
  assert (key r = key r') as Hk by (apply lexgt_same; [by rewrite !Hn|done..]).
  destruct (wf_action _ (Hl _ Hr)) as [E|E], (wf_action _ (Hl _ Hr')) as [E'|E'];
    rewrite E, E'; try done.
  - rewrite <- E, <- E'. rewrite D1; done.
  - rewrite <- E, <- E'. rewrite D2; done.
Qed.

Lemma decides_perm key l l' r : l ≡ₚ l' -> decides key l r -> decides key l' r.
Proof.
  intros Hp [Hr H1]. split; [by rewrite <- Hp|]. intros x Hx. apply H1. by rewrite Hp.
Qed.

Lemma filter_perm {A} (f : A -> bool) l l' : l ≡ₚ l' -> List.filter f l ≡ₚ List.filter f l'.
Proof.
  induction 1 as [|x l l' _ IH|x y l|]; simpl; [done|by destruct (f x); rewrite IH| |by etrans].
  destruct (f x), (f y); try done. apply Permutation_swap.
Qed.

Lemma verdict_perm ep rules rules' t now d :
  rules ≡ₚ rules' -> Verdict ep rules t now d -> Verdict ep rules' t now d.
Proof.
  intros Hp. assert (hits ep rules t now ≡ₚ hits ep rules' t now) as Hh by by apply filter_perm.
  destruct 1 as [Hf|r Hf Hd|r Hf Hl Hd|Hf Hn].
  - by apply verdict_floor.
  - apply verdict_locked; [done|]. eapply decides_perm, Hd. by apply filter_perm.
  - apply verdict_specific; [done| |eapply decides_perm, Hd; by apply filter_perm].
    apply Permutation_nil_r. rewrite <- Hl. symmetry. by apply filter_perm.
  - apply verdict_default; [done|]. apply Permutation_nil_r. by rewrite <- Hh, Hn.
Qed.

(** The promise leaves no freedom in the action and its basis. *)
Lemma verdict_deterministic ep rules t now d d' :
  Forall wf_rule rules -> Verdict ep rules t now d -> Verdict ep rules t now d' ->
  d_Action d = d_Action d' /\ d_Basis d = d_Basis d'.
Proof.
  intros Hwf. assert (Forall wf_rule (hits ep rules t now)) as Hh by by apply filter_wf.
  assert (forall (key : Rule -> list Z) r, decides key [] r -> False) as Hnil.
  { by intros key r [Hd%elem_of_nil _]. }
  intros V V'. unfold locked_hits, open_hits in *.
  destruct V as [Hf|r Hf Hd|r Hf Hl Hd|Hf Hn], V' as [Hf'|r' Hf' Hd'|r' Hf' Hl' Hd'|Hf' Hn'];
    try congruence; simpl; split; try done;
    unfold locked_hits, open_hits in *; rewrite ?Hn, ?Hn', ?Hl, ?Hl' in *;
    try (exfalso; naive_solver).
  - eapply (decides_action _ 1); [|by apply filter_wf|done|done]. done.
  - eapply (decides_action _ 5); [|by apply filter_wf|done|done]. done.
Qed.

End Decide.
