(* ===== verification/TrustCompile.v ===== *)
(** * The compiled allow list against the decisions it stands for *)

From Stdlib Require Import Ascii String.
From S2P Require Import Prelude NetIP TrustFabric TrustDecide.
Import trustfabric.

(** ** Splitting a prefix *)

Lemma prefix_ok_valid p : prefix_ok p -> IsValid p = true.
Proof. intros [H _]. apply Z.leb_le. lia. Qed.

(** The address with one more bit set, as [halves] computes it on bytes. *)
Lemma halves_hi_val a n :
  addr_ok a -> (BitLen a = 32 \/ BitLen a = 128) -> 0 <= n < BitLen a ->
  AddrFromSlice (alter (fun x => Z.lor x (Z.shiftr 128 (n mod 8))) (Z.to_nat (n / 8)) (AsSlice a))
  = match a with
    | V4 v => V4 (Z.lor v (2 ^ (31 - n)))
    | V6 v _ => V6 (Z.lor v (2 ^ (127 - n))) EmptyString
    | AddrZero => AddrZero
    end.
Proof.
  intros Ha Hlen Hn. unfold addr_ok in Ha.
  assert (Z.shiftr 128 (n mod 8) = 2 ^ (7 - n mod 8)) as Hm.
  { pose proof (Z.mod_pos_bound n 8). rewrite Z.shiftr_div_pow2 by lia.
    change 128 with (2 ^ 7). by rewrite Z.pow_sub_r by lia. }
  pose proof (Z.mod_pos_bound n 8) as Hb. pose proof (Z.div_mod n 8) as Hd.
  assert (0 <= n / 8) by (apply Z.div_pos; lia).
  assert (n / 8 < BitLen a / 8).
  { apply Z.div_lt_upper_bound; [lia|]. destruct Hlen as [E|E]; rewrite E in Hn |- *; change (n < 8 * 4) || change (n < 8 * 16); lia. }
  assert (forall m : nat, (Z.to_nat (n / 8) < m)%nat -> Z.of_nat m = BitLen a / 8 ->
    from_be (alter (fun x => Z.lor x (Z.shiftr 128 (n mod 8))) (Z.to_nat (n / 8)) (bytes_be m (addr_val a)))
    = Z.lor (addr_val a) (2 ^ (BitLen a - 1 - n))) as Hgen.
  { intros m Hlt Hm'. rewrite from_be_alter_lor by (by rewrite length_bytes_be).
    rewrite from_bytes_be, length_bytes_be.
    assert (8 * Z.of_nat m = BitLen a) as H8.
    { rewrite Hm'. by destruct Hlen as [-> | ->]. }
    rewrite H8, Z.mod_small by done. f_equal. rewrite Hm, Z.shiftl_mul_pow2 by lia.
    rewrite <- Z.pow_add_r by lia. f_equal. lia. }
  unfold AddrFromSlice, AsSlice. rewrite length_alter, length_bytes_be.
  destruct a as [|v|v z]; cbn [BitLen addr_val] in *; [lia|..].
  - change (Z.to_nat (32 / 8)) with 4%nat. rewrite (Hgen 4%nat); [done|lia|done].
  - change (Z.to_nat (128 / 8)) with 16%nat. rewrite (Hgen 16%nat); [done|lia|done].
Qed.

(** What a bit set below a canonical prefix does to its value. *)
Lemma lor_next_bit v k : 0 <= k -> v mod 2 ^ (k + 1) = 0 -> Z.lor v (2 ^ k) = v + 2 ^ k.
Proof.
  intros Hk Hv. assert (v = Z.shiftl (v / 2 ^ (k + 1)) (k + 1)) as Hs.
  { rewrite Z.shiftl_mul_pow2 by lia.
    pose proof (Z.div_mod v (2 ^ (k + 1)) ltac:(apply Z.pow_nonzero; lia)). lia. }
  rewrite Hs at 1. rewrite lor_shiftl_add; [|lia|].
  - rewrite <- Z.shiftl_mul_pow2 by lia. by rewrite <- Hs.
  - split; [apply Z.pow_nonneg; lia|apply Z.pow_lt_mono_r; lia].
Qed.

(** The two halves of a block of [2^(k+1)] values. *)
Lemma half_blocks v x k :
  0 <= k -> v mod 2 ^ (k + 1) = 0 ->
  (Z.shiftr x (k + 1) = Z.shiftr v (k + 1)
   <-> Z.shiftr x k = Z.shiftr v k \/ Z.shiftr x k = Z.shiftr (v + 2 ^ k) k).
Proof.
  intros Hk Hv. assert (2 ^ (k + 1) = 2 ^ k * 2) as Hp by (rewrite Z.pow_add_r by lia; done).
  assert (0 < 2 ^ k) by (apply Z.pow_pos_nonneg; lia).
  rewrite !Z.shiftr_div_pow2 by lia. rewrite Hp in *.
  assert (v = 2 ^ k * 2 * (v / (2 ^ k * 2))) as Hv' by (apply Z.div_exact; lia).
  remember (v / (2 ^ k * 2)) as q eqn:Hq.
  assert (v / 2 ^ k = 2 * q) as ->.
  { rewrite Hv'. replace (2 ^ k * 2 * q) with (2 * q * 2 ^ k) by lia. apply Z.div_mul. lia. }
  assert ((v + 2 ^ k) / 2 ^ k = 2 * q + 1) as ->.
  { rewrite Hv'. replace (2 ^ k * 2 * q + 2 ^ k) with ((2 * q + 1) * 2 ^ k) by lia. apply Z.div_mul. lia. }
  rewrite <- (Z.div_div x (2 ^ k) 2) by lia.
  pose proof (Z.div_mod (x / 2 ^ k) 2). pose proof (Z.mod_pos_bound (x / 2 ^ k) 2). lia.
Qed.

(** Multiples of [2^(k+1)] below [2^w] leave room for bit [k]. *)
Lemma next_bit_bounds v k w :
  0 <= k -> k < w -> 0 <= v < 2 ^ w -> v mod 2 ^ (k + 1) = 0 ->
  0 <= v + 2 ^ k < 2 ^ w /\ v mod 2 ^ k = 0 /\ (v + 2 ^ k) mod 2 ^ k = 0.
Proof.
  intros Hk Hw Hv Hm. assert (2 ^ (k + 1) = 2 * 2 ^ k) as Hp by (rewrite Z.pow_add_r by lia; lia).
  assert (0 < 2 ^ k) by (apply Z.pow_pos_nonneg; lia).
  assert (2 ^ w = 2 ^ (w - (k + 1)) * 2 ^ (k + 1)) as Hw' by (rewrite <- Z.pow_add_r by lia; f_equal; lia).
  apply Z.div_exact in Hm; [|lia]. rewrite Hp in *.
  remember (v / (2 * 2 ^ k)) as q. assert (v = (2 * q) * 2 ^ k) as Hvq by lia.
  assert (q < 2 ^ (w - (k + 1))) by nia.
  repeat split; [lia|nia|by rewrite Hvq; apply Z.mod_mul; lia|].
  rewrite Hvq. replace (2 * q * 2 ^ k + 2 ^ k) with ((2 * q + 1) * 2 ^ k) by lia. apply Z.mod_mul. lia.
Qed.

Lemma prefix_ok_from a n :
  addr_ok a -> has_zone a = false -> BitLen a <> 0 -> 0 <= n <= BitLen a ->
  addr_val a mod 2 ^ (BitLen a - n) = 0 ->
  prefix_ok (PrefixFrom a n) /\ PrefixFrom a n = mkPrefix a n.
Proof.
  intros Ha Hz Hl Hn Hm. assert (withoutZone a = a) as Hw.
  { destruct a as [| |v z]; try done. unfold has_zone in Hz. simpl in Hz. bools. by subst. }
  assert (PrefixFrom a n = mkPrefix a n) as ->; [|done].
  unfold PrefixFrom, in_range, addr_eqb. rewrite Hw.
  rewrite bool_decide_eq_false_2 by (by intros ->).
  by rewrite (proj2 (Z.leb_le 0 n)), (proj2 (Z.leb_le n _)) by lia.
Qed.

Lemma Contains_mk a n x :
  0 <= n -> BitLen a <> 0 -> BitLen a = BitLen x -> has_zone x = false ->
  Contains (mkPrefix a n) x = true <->
  Z.shiftr (addr_val x) (BitLen a - n) = Z.shiftr (addr_val a) (BitLen a - n).
Proof.
  intros Hn Hl Hx Hz. rewrite Contains_spec. unfold IsValid. cbn [pip pbits].
  rewrite Z.leb_le, <- Hx. tauto.
Qed.

Definition is_halves (p lo hi : Prefix) : Prop :=
  prefix_ok lo /\ prefix_ok hi /\ pbits lo = pbits p + 1 /\ pbits hi = pbits p + 1 /\
  BitLen (pip lo) = BitLen (pip p) /\ BitLen (pip hi) = BitLen (pip p) /\
  forall x, Contains p x = true <-> Contains lo x = true \/ Contains hi x = true.

(** Two prefixes one bit longer, at [v] and at [v + 2^k], are the halves. *)
Lemma halves_of_val a b n :
  prefix_ok (mkPrefix a n) -> n < BitLen a -> BitLen b = BitLen a -> has_zone b = false ->
  addr_val b = Z.lor (addr_val a) (2 ^ (BitLen a - 1 - n)) ->
  is_halves (mkPrefix a n) (PrefixFrom a (n + 1)) (PrefixFrom b (n + 1)).
Proof.
  intros (Hn & Hl & Hz & Ha & Hm) Hlt Hlb Hzb Hvb. simpl in *. unfold addr_ok in Ha.
  set (k := BitLen a - 1 - n) in *. replace (BitLen a - n) with (k + 1) in Hm by lia.
  rewrite lor_next_bit in Hvb by (lia || done).
  destruct (next_bit_bounds (addr_val a) k (BitLen a)) as (Hb & H1 & H2); [lia|lia|done|done|].
  assert (BitLen a - (n + 1) = k) as Hk by lia.
  destruct (prefix_ok_from a (n + 1)) as [Hlo Elo]; [done..|lia|by rewrite Hk|].
  destruct (prefix_ok_from b (n + 1)) as [Hhi Ehi];
    [unfold addr_ok; by rewrite Hlb, Hvb|done|lia|lia|by rewrite Hlb, Hvb, Hk|].
  unfold is_halves. rewrite Elo, Ehi in *. do 6 (split; [done|]).
  intros x. destruct (Z.eq_dec (BitLen a) (BitLen x)) as [E|E].
  2: { rewrite !Contains_spec. simpl. intuition congruence. }
  destruct (has_zone x) eqn:Hx.
  1: { rewrite !Contains_spec. intuition congruence. }
  rewrite !Contains_mk by (lia || congruence). rewrite Hlb, Hvb.
  replace (BitLen a - n) with (k + 1) by lia. rewrite Hk.
  apply half_blocks; [lia|done].
Qed.

Lemma halves_spec p :
  prefix_ok p -> pbits p < BitLen (pip p) -> is_halves p (fst (halves p)) (snd (halves p)).
Proof.
  destruct p as [a n]. intros Hp Hlt. pose proof Hp as (Hn & Hl & Hz & Ha & _). simpl in *.
  unfold halves. simpl. rewrite halves_hi_val by (try done; destruct a; simpl in *; lia).
  apply halves_of_val; try done; destruct a; simpl in *; try done; try lia.
Qed.

(** ** Ranges no rule divides *)

(** A canonical prefix whose own address is IPv4-mapped holds only
    IPv4-mapped addresses. *)
Lemma shiftr_mapped v n :
  0 <= n -> 32 < 128 - n -> v mod 2 ^ (128 - n) = 0 -> Z.shiftr v 32 <> 65535.
Proof.
  intros Hn Hgt Hm E. rewrite Z.shiftr_div_pow2 in E by lia.
  apply Z.div_exact in Hm; [|apply Z.pow_nonzero; lia].
  replace (128 - n) with (33 + (95 - n)) in Hm by lia. rewrite Z.pow_add_r in Hm by lia.
  set (q := v / _) in Hm. rewrite Hm in E.
  replace (2 ^ 33 * 2 ^ (95 - n) * q) with ((2 * (2 ^ (95 - n) * q)) * 2 ^ 32) in E by ring.
  rewrite Z.div_mul in E by (apply Z.pow_nonzero; lia).
  generalize dependent (2 ^ (95 - n) * q). clear. intros. lia.
Qed.

Lemma Unmap_fix v z : Unmap (V6 v z) = V6 v z <-> Z.shiftr v 32 <> 65535.
Proof.
  unfold Unmap, Is4In6. destruct (Z.eqb_spec (Z.shiftr v 32) 65535); by split.
Qed.

Lemma Unmap_inside p x :
  prefix_ok p -> Contains p x = true -> Unmap x = x -> Unmap (pip p) = pip p.
Proof.
  destruct p as [a n]. intros (Hn & Hl & _ & _ & Hm) Hc Hx. cbn [pip pbits] in *.
  destruct a as [| |v z]; [done|done|]. apply Unmap_fix. cbn [BitLen addr_val] in *.
  apply Contains_spec in Hc as (_ & _ & _ & Hlen & Hsh). cbn [pip pbits BitLen addr_val] in *.
  destruct x as [| |u zx]; [done|done|]. apply Unmap_fix in Hx. cbn [BitLen addr_val] in Hsh.
  destruct (Z.le_gt_cases (128 - n) 32) as [Hle|Hgt].
  - apply (shiftr_agree_le _ _ _ 32) in Hsh; [|lia]. congruence.
  - by apply (shiftr_mapped v n); [lia..|].
Qed.

Lemma Contains_self p : prefix_ok p -> Contains p (pip p) = true.
Proof.
  intros Hp. pose proof Hp as (Hn & Hl & Hz & _). apply Contains_spec.
  rewrite prefix_ok_valid by done. done.
Qed.

Lemma Is4_BitLen a b : BitLen a <> 0 -> BitLen b <> 0 -> Is4 a = Is4 b <-> BitLen a = BitLen b.
Proof. destruct a, b; simpl; try done; lia. Qed.

Section Compile.
Context `{Unicode}.

Lemma undivided_range p r x :
  prefix_ok p -> prefix_ok (rule_Prefix r) -> strictly_inside p r = false -> Contains p x = true ->
  Contains (rule_Prefix r) x = Contains (rule_Prefix r) (pip p).
Proof.
  intros Hp Hq Hin Hx. set (q := rule_Prefix r) in *.
  pose proof Hp as (Hn & Hl & Hz & _). pose proof Hq as (Hn' & Hl' & Hz' & _).
  unfold strictly_inside in Hin. fold q in Hin.
  destruct (Z.le_gt_cases (pbits q) (pbits p)); [apply Contains_wider; auto; lia|].
  rewrite (proj2 (Z.ltb_lt _ _)), andb_true_r in Hin by done.
  assert (Contains p (pip q) = false) as Hd.
  { destruct (Bool.eqb _ _) eqn:E; [done|]. destruct (Contains p (pip q)) eqn:E'; [|done].
    apply Contains_spec in E' as (_ & _ & _ & E' & _). apply Bool.eqb_false_iff in E.
    destruct E. by apply Is4_BitLen. }
  rewrite !(Contains_disjoint p q); auto; try lia. by apply Contains_self.
Qed.

(** A rule asked about whole addresses: it must name no port, protocol or
    direction. *)
Lemma matches_whole r a :
  matches r (whole a) = Contains (rule_Prefix r) (Unmap a) && negb (narrow r).
Proof.
  unfold matches, narrow. simpl. destruct (Contains _ _); simpl; [|done].
  destruct (r_Port r =? 0), (r_Proto r =? ProtoAny)%string, (r_Direction r =? DirBoth)%string; done.
Qed.

Lemma matches_not_narrow r t :
  narrow r = false -> matches r t = Contains (rule_Prefix r) (Unmap (t_Addr t)).
Proof.
  unfold matches, narrow. intros Hn. bools. rewrite H0, H1, H2. rewrite !Z.eqb_refl, !String.eqb_refl. simpl.
  rewrite !andb_false_r. simpl. by destruct (Contains _ _).
Qed.

Lemma matches_Contains r t :
  matches r t = true -> Contains (rule_Prefix r) (Unmap (t_Addr t)) = true.
Proof. unfold matches. by destruct (Contains _ _). Qed.

(** Two addresses with the same candidates and no floor are decided alike. *)
Lemma decide_same_hits ep l t t' now :
  IsFloor ep t = false -> IsFloor ep t' = false ->
  (forall r, r ∈ l -> matches r t = matches r t') ->
  Decide ep l t now = Decide ep l t' now.
Proof.
  intros Hf Hf' Hm. unfold Decide. rewrite Hf, Hf', !decide_loop.
  assert (hits ep l t now = hits ep l t' now) as Hh.
  { apply List.filter_ext_in. intros r Hr%list_elem_of_In. unfold hit. by rewrite Hm. }
  unfold open_hits, locked_hits. by rewrite Hh.
Qed.

Lemma decide_undivided ep l p x now :
  prefix_ok p -> Forall (fun r => prefix_ok (rule_Prefix r)) l ->
  existsb (strictly_inside p) l = false ->
  Contains p x = true -> Unmap x = x ->
  IsFloor ep (whole x) = false -> IsFloor ep (whole (pip p)) = false ->
  Decide ep l (whole x) now = Decide ep l (whole (pip p)) now.
Proof.
  intros Hp Hl Hin Hx Hu Hf Hf'. apply decide_same_hits; [done..|].
  intros r Hr. rewrite !matches_whole, Hu, (Unmap_inside p x) by done. f_equal.
  apply undivided_range; [done|by eapply Forall_forall in Hl| |done].
  destruct (strictly_inside p r) eqn:E; [|done]. rewrite <- Hin. symmetry.
  apply existsb_exists. exists r. by rewrite <- list_elem_of_In.
Qed.

(** ** The walk: the undivided pieces of a range *)

Fixpoint leaves (fuel : nat) (l : list Rule) (p : Prefix) : list Prefix :=
  match fuel with
  | O => []
  | S fuel' =>
    if existsb (strictly_inside p) l
    then leaves fuel' l (fst (halves p)) ++ leaves fuel' l (snd (halves p))
    else [p]
  end.

(** What [walk] records for one piece. *)
Definition piece_entry (ep : Endpoint) (l : list Rule) (now : Z) (p : Prefix) : option Entry :=
  let d := Decide ep l (whole (pip p)) now in
  if String.eqb (d_Basis d) BasisDefault then None else Some (mkEntry p d).

Definition entry_allow (e : Entry) : option Prefix :=
  if String.eqb (d_Action (e_Decision e)) Allow then Some (e_Prefix e) else None.

Lemma walk_leaves fuel ep l now p entries allow :
  walk fuel ep l now p (entries, allow) =
  (entries ++ omap (piece_entry ep l now) (leaves fuel l p),
   allow ++ omap entry_allow (omap (piece_entry ep l now) (leaves fuel l p))).
Proof.
  revert p entries allow. induction fuel as [|fuel IH]; intros p entries allow.
  - simpl. by rewrite !app_nil_r.
  - cbn [walk leaves]. destruct (existsb _ l).
    + destruct (halves p) as [lo hi]. rewrite !IH. simpl. rewrite !omap_app.
      by rewrite !app_assoc.
    + simpl. unfold piece_entry, entry_allow.
      destruct (d_Basis _ =? _)%string; simpl; [by rewrite !app_nil_r|].
      destruct (d_Action _ =? _)%string; simpl; by rewrite ?app_nil_r.
Qed.

(** A prefix some rule divides is not a single address. *)
Lemma divided_room l p :
  Forall (fun r => prefix_ok (rule_Prefix r)) l ->
  existsb (strictly_inside p) l = true -> pbits p < BitLen (pip p).
Proof.
  intros Hl (r & Hr%list_elem_of_In & Hin)%existsb_exists.
  rewrite Forall_forall in Hl. destruct (Hl _ Hr) as (Hn & _).
  unfold strictly_inside in Hin. bools.
  match goal with Hc : Contains p _ = true |- _ => apply Contains_spec in Hc as (_ & _ & _ & E & _) end.
  lia.
Qed.

(** With one round per remaining bit the pieces cover the range, and no rule
    divides any of them. *)
Lemma leaves_spec fuel l p :
  Forall (fun r => prefix_ok (rule_Prefix r)) l -> prefix_ok p ->
  BitLen (pip p) - pbits p < Z.of_nat fuel ->
  Forall (fun q => prefix_ok q /\ existsb (strictly_inside q) l = false) (leaves fuel l p) /\
  forall x, Contains p x = true <-> Exists (fun q => Contains q x = true) (leaves fuel l p).
Proof.
  intros Hl. revert p. induction fuel as [|fuel IH]; intros p Hp Hf.
  - destruct Hp as (Hn & _). lia.
  - cbn [leaves]. destruct (existsb _ l) eqn:E.
    + pose proof (divided_room l p Hl E) as Hroom.
      destruct (halves_spec p Hp Hroom) as (Hlo & Hhi & B1 & B2 & L1 & L2 & Hc).
      destruct (IH _ Hlo) as [F1 C1]; [lia|]. destruct (IH _ Hhi) as [F2 C2]; [lia|].
      split; [by apply Forall_app|]. intros x. by rewrite Hc, Exists_app, C1, C2.
    + split; [by apply Forall_singleton|]. intros x. rewrite Exists_cons, Exists_nil. tauto.
Qed.

Lemma walk_fuel_enough p : prefix_ok p -> BitLen (pip p) - pbits p < Z.of_nat walk_fuel.
Proof. intros (Hn & _). change (Z.of_nat walk_fuel) with 129. destruct (pip p); simpl in *; lia. Qed.

(** ** The second loop of [Compile] *)

Definition is_allow (r : Rule) : bool := String.eqb (r_Action r) Allow.

(** The pieces of every range an allow rule names, each range once. *)
Definition all_leaves (l : list Rule) (ranges : list Prefix) : list Prefix :=
  ranges ≫= leaves walk_fuel l.

#[local] Opaque walk_fuel.

Lemma walk_loop ep l now rules seen entries allow :
  exists ranges,
    fold_left (walk_step ep l now) rules (seen, (entries, allow)) =
      (rev ranges ++ seen,
       (entries ++ omap (piece_entry ep l now) (all_leaves l ranges),
        allow ++ omap entry_allow (omap (piece_entry ep l now) (all_leaves l ranges)))) /\
    (forall p, p ∈ ranges -> exists r, r ∈ rules /\ is_allow r = true /\ rule_Prefix r = p) /\
    (forall r, r ∈ rules -> is_allow r = true -> rule_Prefix r ∈ ranges \/ rule_Prefix r ∈ seen).
Proof.
  revert seen entries allow. induction rules as [|r rules IH]; intros seen entries allow.
  - exists []. cbn. rewrite !app_nil_r. split; [done|]. split; intros ? []%not_elem_of_nil.
  - cbn [fold_left]. unfold walk_step at 2. fold (is_allow r).
    destruct (is_allow r) eqn:Ha; cbn [negb orb]; [case_bool_decide as Hs|].
    + destruct (IH seen entries allow) as (ranges & E & H1 & H2). exists ranges.
      split; [done|]. split.
      * intros p Hp. destruct (H1 p Hp) as (r' & ? & ?). exists r'. by split; [right|].
      * intros r' [-> | Hr']%elem_of_cons Ha'; auto.
    + rewrite walk_leaves. set (es := omap _ _).
      destruct (IH (rule_Prefix r :: seen) (entries ++ es) (allow ++ omap entry_allow es))
        as (ranges & E & H1 & H2).
      exists (rule_Prefix r :: ranges). split; [|split].
      * rewrite E. unfold all_leaves. rewrite bind_cons, !omap_app. cbn [rev].
        by rewrite <- !app_assoc.
      * intros p [-> | Hp]%elem_of_cons; [exists r; repeat split; auto; left|].
        destruct (H1 p Hp) as (r' & ? & ?). exists r'. by split; [right|].
      * intros r' [-> | Hr']%elem_of_cons Ha'; [left; left|].
        destruct (H2 r' Hr' Ha') as [?|[->|?]%elem_of_cons]; [left; by right|left; left|by right].
    + destruct (IH seen entries allow) as (ranges & E & H1 & H2). exists ranges.
      split; [done|]. split.
      * intros p Hp. destruct (H1 p Hp) as (r' & ? & ?). exists r'. by split; [right|].
      * intros r' [-> | Hr']%elem_of_cons Ha'; [congruence|]. auto.
Qed.

End Compile.

(** ** Merging prefixes keeps what they cover *)

Definition covers (l : list Prefix) (x : Addr) : Prop := Exists (fun q => Contains q x = true) l.

Lemma covers_perm l l' x : l ≡ₚ l' -> covers l x <-> covers l' x.
Proof. intros E. unfold covers. rewrite !Exists_exists. by setoid_rewrite E. Qed.

Lemma covers_cons p l x : covers (p :: l) x <-> Contains p x = true \/ covers l x.
Proof. apply Exists_cons. Qed.

Lemma clear_low_mod w n v : n <= w -> clear_low w n v mod 2 ^ (w - n) = 0.
Proof.
  intros. unfold clear_low. rewrite Z.shiftl_mul_pow2 by lia. apply Z.mod_mul, Z.pow_nonzero; lia.
Qed.

Lemma clear_low_bounds w n v : n <= w -> 0 <= v < 2 ^ w -> 0 <= clear_low w n v < 2 ^ w.
Proof.
  intros Hn Hv. unfold clear_low. rewrite Z.shiftl_mul_pow2, Z.shiftr_div_pow2 by lia.
  assert (0 < 2 ^ (w - n)) by (apply Z.pow_pos_nonneg; lia).
  pose proof (Z.div_mod v (2 ^ (w - n))). pose proof (Z.mod_pos_bound v (2 ^ (w - n))).
  pose proof (Z.div_pos v (2 ^ (w - n))). nia.
Qed.

(** [Addr.Prefix] of a zoneless address is canonical. *)
Lemma addr_prefix_ok a n :
  addr_ok a -> BitLen a <> 0 -> 0 <= n <= BitLen a ->
  prefix_ok (addr_prefix a n) /\ pbits (addr_prefix a n) = n /\ BitLen (pip (addr_prefix a n)) = BitLen a.
Proof.
  intros Ha Hl Hn. unfold addr_prefix, in_range.
  rewrite (proj2 (Z.leb_le 0 n)), (proj2 (Z.leb_le n _)) by lia. unfold addr_ok in Ha.
  destruct a as [|v|v z]; cbn [BitLen addr_val andb] in *; [done|..].
  - destruct (prefix_ok_from (V4 (clear_low 32 n v)) n) as [Hok E]; try done;
      [by apply (clear_low_bounds 32); [lia|]|by apply (clear_low_mod 32); lia|by rewrite E in *].
  - destruct (prefix_ok_from (V6 (clear_low 128 n v) "") n) as [Hok E]; try done;
      [by apply (clear_low_bounds 128); [lia|]|by apply (clear_low_mod 128); lia|by rewrite E in *].
Qed.

Lemma Contains_sym p q :
  prefix_ok p -> prefix_ok q -> pbits p = pbits q ->
  Contains p (pip q) = true -> Contains q (pip p) = true.
Proof.
  intros Hp Hq Hb Hc. pose proof Hp as (_ & Hl & Hz & _).
  apply Contains_spec in Hc as (_ & _ & _ & Hlen & Hs). apply Contains_spec.
  rewrite prefix_ok_valid by done. rewrite <- Hb, Hlen in *. done.
Qed.

Lemma Contains_sub p q x :
  prefix_ok p -> pbits q <= pbits p -> Contains q (pip p) = true ->
  Contains p x = true -> Contains q x = true.
Proof.
  intros (Hn & _ & Hz & _) Hle Hq Hx. rewrite <- Hq. apply Contains_wider; auto; lia.
Qed.

(** Two sibling prefixes are together their parent. *)
Lemma sibling_parent last p x :
  let parent := addr_prefix (pip last) (pbits last - 1) in
  prefix_ok last -> prefix_ok p -> pbits last = pbits p -> 0 < pbits last ->
  Contains last (pip p) = false -> Contains parent (pip p) = true -> pip parent = pip last ->
  prefix_ok parent /\ (Contains parent x = true <-> Contains p x = true \/ Contains last x = true).
Proof.
  intros parent Hlast Hp Hb Hpos Hno Hc Hip.
  pose proof Hlast as (Hn & Hl & Hz & Ha & _).
  destruct (addr_prefix_ok (pip last) (pbits last - 1)) as (Hok & Hbits & Hlen); [done..|lia|].
  fold parent in Hok, Hbits, Hlen. split; [done|].
  destruct (halves_spec parent Hok) as (Hlo & Hhi & B1 & B2 & L1 & L2 & Hsplit); [lia|].
  assert (fst (halves parent) = last) as E.
  { unfold halves. simpl. rewrite Hip, Hbits. destruct last as [a n]. simpl in *.
    replace (n - 1 + 1) with n by lia. by apply prefix_ok_from; try apply Hlast. }
  rewrite E in Hsplit. rewrite Hsplit. set (hi := snd (halves parent)) in *.
  assert (Contains hi (pip p) = true) as Hhip.
  { apply Hsplit in Hc as [Hc|Hc]; [congruence|done]. }
  assert (Contains p (pip hi) = true) by (apply Contains_sym; auto; lia).
  split; intros [Hx|Hx]; auto; [left|right].
  - apply (Contains_sub hi p); auto; lia.
  - apply (Contains_sub p hi); auto; lia.
Qed.

Lemma merge_step_covers out changed p x :
  Forall prefix_ok out -> prefix_ok p ->
  Forall prefix_ok (fst (merge_step (out, changed) p)) /\
  (covers (fst (merge_step (out, changed) p)) x <-> covers (p :: out) x).
Proof.
  intros Hout Hp. unfold merge_step. destruct out as [|last rest]; [by split; [apply Forall_singleton|]|].
  apply Forall_cons in Hout as [Hlast Hrest].
  destruct (Bool.eqb (Is4 (pip last)) (Is4 (pip p)) && (pbits last <=? pbits p) && Contains last (pip p)) eqn:E1.
  - bools. split; [by constructor|]. simpl. rewrite !covers_cons. split; [naive_solver|].
    intros [Hx|?]; [|done]. left. apply (Contains_sub p last); auto.
  - destruct (_ && (Contains _ _ && _)) eqn:E2.
    + bools. unfold addr_eqb in *. bools.
      assert (Contains last (pip p) = false) as Hno.
      { destruct (Contains last (pip p)) eqn:Ec; [|done]. rewrite andb_true_r in E1.
        apply andb_false_iff in E1 as [E1|E1]; [congruence|]. bools. lia. }
      destruct (sibling_parent last p x) as [Hok Hx]; auto.
      split; [by constructor|]. simpl. rewrite !covers_cons, Hx. tauto.
    + split; [|done]. by repeat apply Forall_cons_2.
Qed.

Lemma merge_fold_covers l out changed x :
  Forall prefix_ok out -> Forall prefix_ok l ->
  Forall prefix_ok (fst (fold_left merge_step l (out, changed))) /\
  (covers (fst (fold_left merge_step l (out, changed))) x <-> covers (l ++ out) x).
Proof.
  revert out changed. induction l as [|p l IH]; intros out changed Hout Hl; [done|].
  apply Forall_cons in Hl as [Hp Hl]. cbn [fold_left].
  destruct (merge_step_covers out changed p x Hout Hp) as [Ho Hc].
  destruct (merge_step (out, changed) p) as [out' changed']. simpl in Ho, Hc.
  destruct (IH out' changed' Ho Hl) as [H1 H2]. split; [done|]. rewrite H2.
  unfold covers in *. rewrite Exists_app, Hc. simpl. rewrite !Exists_cons, Exists_app. tauto.
Qed.

Lemma merge_pass_covers l x :
  Forall prefix_ok l ->
  Forall prefix_ok (fst (merge_pass l)) /\ (covers (fst (merge_pass l)) x <-> covers l x).
Proof.
  intros Hl. unfold merge_pass.
  destruct (merge_fold_covers (sort_slice lessPrefix l) [] false x) as [H1 H2];
    [done|by rewrite sort_slice_perm|].
  destruct (fold_left _ _ _) as [out changed]. simpl in *. rewrite app_nil_r in H2.
  rewrite <- (covers_perm _ _ x (sort_slice_perm lessPrefix l)), <- H2.
  split; [by apply Forall_rev|]. apply covers_perm. symmetry. apply Permutation_rev.
Qed.

(** Each pass that merges anything returns a shorter list, so the loop ends. *)
Lemma merge_fold_length l out changed m :
  (length out + (if changed : bool then 1 else 0) <= m)%nat ->
  let '(out', changed') := fold_left merge_step l (out, changed) in
  (length out' + (if changed' then 1 else 0) <= m + length l)%nat.
Proof.
  revert out changed m. induction l as [|p l IH]; intros out changed m Hm; cbn [fold_left length]; [by rewrite Nat.add_0_r|].
  assert (let '(out', changed') := merge_step (out, changed) p in
          (length out' + (if changed' then 1 else 0) <= S m)%nat) as Hs.
  { unfold merge_step. destruct out as [|last rest], changed; cbn [length] in *; repeat case_match; simplify_eq; cbn [length] in *;
      repeat case_match; lia. }
  destruct (merge_step (out, changed) p) as [out' changed'].
  specialize (IH out' changed' (S m) Hs). destruct (fold_left _ _ _). lia.
Qed.

Lemma merge_pass_length l :
  (length (fst (merge_pass l)) + (if snd (merge_pass l) then 1 else 0) <= length l)%nat.
Proof.
  unfold merge_pass. pose proof (merge_fold_length (sort_slice lessPrefix l) [] false 0) as Hl.
  destruct (fold_left _ _ _) as [out changed]. simpl in *.
  rewrite length_rev. rewrite (Permutation_length (sort_slice_perm lessPrefix l)) in Hl. lia.
Qed.

(** The bound on the rounds in [mergePrefixes] is never reached: more of them
    change nothing, and the last pass it makes found nothing to merge. *)
Lemma merge_loop_stops fuel l :
  (length l < fuel)%nat ->
  exists l', merge_loop fuel l = fst (merge_pass l') /\ snd (merge_pass l') = false /\
    forall more, merge_loop (fuel + more) l = merge_loop fuel l.
Proof.
  revert l. induction fuel as [|fuel IH]; intros l Hf; [lia|].
  pose proof (merge_pass_length l) as Hlen. cbn [merge_loop Nat.add].
  destruct (merge_pass l) as [out changed] eqn:E. destruct changed; simpl in *.
  - destruct (IH out) as (l' & ?); [lia|]. by exists l'.
  - exists l. by rewrite E.
Qed.

Lemma merge_loop_covers fuel l x :
  Forall prefix_ok l ->
  Forall prefix_ok (merge_loop fuel l) /\ (covers (merge_loop fuel l) x <-> covers l x).
Proof.
  revert l. induction fuel as [|fuel IH]; intros l Hl; [done|]. cbn [merge_loop].
  destruct (merge_pass_covers l x Hl) as [H1 H2].
  destruct (merge_pass l) as [out changed]. destruct changed; simpl in *; [|done].
  destruct (IH out H1) as [H3 H4]. by rewrite H4.
Qed.

(** ** The rules [Compile] decides with *)

Section Policy.
Context `{Unicode}.

Definition in_force (ep : Endpoint) (now : Z) (r : Rule) : bool := Active r now && AppliesTo r ep.

Definition withheld (r : Rule) : bool := String.eqb (r_Action r) Allow && narrow r.

Lemma collect_spec ep rules now :
  collect ep rules now =
  (map widen (List.filter (fun r => in_force ep now r && negb (withheld r)) rules),
   map (fun r => mkWithheld (r_ID r) withheld_reason)
     (List.filter (fun r => in_force ep now r && withheld r) rules)).
Proof.
  unfold collect. induction rules as [|r rules IH] using rev_ind; [done|].
  rewrite fold_left_app, IH, !List.filter_app, !map_app. cbn [fold_left]. unfold collect_step.
  rewrite <- negb_andb. fold (in_force ep now r) (withheld r). cbn [List.filter].
  destruct (in_force ep now r), (withheld r); cbn [negb andb map]; by rewrite ?app_nil_r.
Qed.

Lemma elem_of_collect ep rules now w :
  w ∈ fst (collect ep rules now) <->
  exists r, w = widen r /\ r ∈ rules /\ in_force ep now r = true /\ withheld r = false.
Proof.
  rewrite collect_spec. cbn [fst]. rewrite list_elem_of_In, in_map_iff.
  setoid_rewrite filter_In. setoid_rewrite <- list_elem_of_In.
  split; intros (r & E).
  - destruct E as (<- & Hr & Hb). bools. exists r. repeat split; auto.
  - destruct E as (-> & Hr & Hf & Hw). exists r. by rewrite Hf, Hw.
Qed.

Lemma widen_wf r : wf_rule r -> wf_rule (widen r).
Proof. by intros [? ? ?]. Qed.

Lemma widen_Prefix r : wf_rule r -> rule_Prefix (widen r) = rule_Prefix r.
Proof. intros Hr. by rewrite !wf_rule_Prefix by auto using widen_wf. Qed.

Lemma collect_wf ep rules now : Forall wf_rule rules -> Forall wf_rule (fst (collect ep rules now)).
Proof.
  rewrite !Forall_forall. intros Hwf w (r & -> & Hr & _)%elem_of_collect. by apply widen_wf, Hwf.
Qed.

Lemma wf_prefixes l : Forall wf_rule l -> Forall (fun r => prefix_ok (rule_Prefix r)) l.
Proof.
  rewrite !Forall_forall. intros Hl r Hr. rewrite wf_rule_Prefix by auto. by apply wf_prefix, Hl.
Qed.

(** A rule that names no port, protocol or direction matches every target at
    the addresses of its prefix. *)
Lemma matches_broad r t :
  narrow r = false -> Contains (rule_Prefix r) (Unmap (t_Addr t)) = true -> matches r t = true.
Proof.
  unfold narrow. intros Hn Hc. apply orb_false_iff in Hn as [[Hp Hq]%orb_false_iff Hd].
  unfold matches. apply negb_false_iff in Hp, Hq, Hd. rewrite Hc, Hp, Hq, Hd. simpl.
  by rewrite ?andb_false_r.
Qed.

Lemma matches_widen r t t' :
  wf_rule r -> Unmap (t_Addr t) = Unmap (t_Addr t') ->
  matches r t = true -> matches (widen r) t' = true.
Proof.
  intros Hr Ht Hm. apply matches_broad; [done|]. rewrite widen_Prefix, <- Ht by done.
  by apply matches_Contains.
Qed.

(** A deny that hits a target is a deny of the whole address in the list. *)
Lemma deny_collected ep rules now t t' r :
  Forall wf_rule rules -> r ∈ hits ep rules t now -> r_Action r = Deny ->
  Unmap (t_Addr t) = Unmap (t_Addr t') ->
  widen r ∈ hits ep (fst (collect ep rules now)) t' now.
Proof.
  intros Hwf Hr Hd Ht. unfold hits in *. apply list_elem_of_In, filter_In in Hr as [Hr Hh].
  apply list_elem_of_In in Hr. rewrite Forall_forall in Hwf. unfold hit in *. bools.
  apply list_elem_of_In, filter_In. split.
  - apply list_elem_of_In, elem_of_collect. exists r. unfold in_force, withheld. rewrite Hd. bools.
    repeat split; auto. by apply andb_true_iff.
  - rewrite !andb_true_iff. repeat split; auto. by apply (matches_widen r t); auto.
Qed.

(** An allow of the list comes from an allow that matches every target there. *)
Lemma allow_collected ep rules now t t' w :
  Forall wf_rule rules -> w ∈ hits ep (fst (collect ep rules now)) t' now -> r_Action w = Allow ->
  Unmap (t_Addr t) = Unmap (t_Addr t') ->
  exists r, r ∈ hits ep rules t now /\ w = widen r /\ narrow r = false.
Proof.
  intros Hwf Hw Ha Ht. unfold hits in *. apply list_elem_of_In, filter_In in Hw as [Hw Hh].
  apply list_elem_of_In, elem_of_collect in Hw as (r & -> & Hr & Hf & Hn).
  rewrite Forall_forall in Hwf. unfold withheld in Hn. change (r_Action r = Allow) in Ha.
  rewrite Ha in Hn. change (narrow r = false) in Hn. exists r. split; [|done].
  apply list_elem_of_In, filter_In. split; [by apply list_elem_of_In|].
  unfold hit, in_force in *. bools. rewrite !andb_true_iff. repeat split; auto.
  apply matches_broad; [done|]. rewrite Ht, <- (widen_Prefix r) by auto. by apply matches_Contains.
Qed.

Lemma elem_of_locked ep rules t now r :
  r ∈ locked_hits ep rules t now <-> r ∈ hits ep rules t now /\ r_Locked r = true.
Proof. unfold locked_hits. by rewrite !list_elem_of_In, filter_In. Qed.

Lemma elem_of_open ep rules t now r :
  r ∈ open_hits ep rules t now <-> r ∈ hits ep rules t now /\ r_Locked r = false.
Proof. unfold open_hits. by rewrite !list_elem_of_In, filter_In, negb_true_iff. Qed.

Lemma elem_of_hits ep rules t now r : r ∈ hits ep rules t now -> r ∈ rules.
Proof. unfold hits. rewrite !list_elem_of_In, filter_In. tauto. Qed.

Lemma not_deny r : wf_rule r -> (r_Action r = Deny -> False) -> r_Action r = Allow.
Proof. intros [[?|?] _ _]; naive_solver. Qed.

(** The two widened rules compare as the full ones do on scope and length. *)
Lemma widen_beats r0 r1 :
  wf_rule r0 -> wf_rule r1 -> narrow r0 = false ->
  lexgt (specificity (widen r1)) (specificity (widen r0)) = false ->
  lexgt (specificity r0) (specificity r1) = false ->
  specificity (widen r1) = specificity (widen r0).
Proof.
  intros H0 H1 Hn Hw. unfold narrow in Hn.
  apply orb_false_iff in Hn as [[Hp Hq]%orb_false_iff Hd].
  unfold specificity in *. rewrite !widen_Prefix in * by done. rewrite Hp, Hq, Hd. simpl in *.
  rewrite (Z.eqb_sym (level (r_ScopeType r1))), (Z.eqb_sym (pbits (rule_Prefix r1))) in Hw.
  destruct (Z.eqb_spec (level (r_ScopeType r0)) (level (r_ScopeType r1))) as [->|]; [|bools; lia].
  destruct (Z.eqb_spec (pbits (rule_Prefix r0)) (pbits (rule_Prefix r1))) as [->|]; [done|bools; lia].
Qed.

(** What the list decides for an address outside the floor holds for every
    target there: the list never allows more than the rules do. *)
Lemma decide_collected ep rules now t a :
  Forall wf_rule rules -> Unmap a = Unmap (t_Addr t) -> IsFloor ep (whole a) = false ->
  d_Action (Decide ep (fst (collect ep rules now)) (whole a) now) = Allow ->
  d_Action (Decide ep rules t now) = Allow.
Proof.
  intros Hwf Ht Hf.
  pose proof (decide_meets_verdict ep _ (whole a) now (collect_wf ep rules now Hwf)) as VA.
  pose proof (decide_meets_verdict ep rules t now Hwf) as V.
  assert (forall r, r ∈ hits ep rules t now -> wf_rule r) as Hwr.
  { intros r ?%elem_of_hits. rewrite Forall_forall in Hwf. auto. }
  assert (forall r, r ∈ hits ep rules t now -> r_Action r = Deny ->
    widen r ∈ hits ep (fst (collect ep rules now)) (whole a) now) as Hdeny
    by (intros; by apply (deny_collected ep rules now t)).
  destruct VA as [Hfl|w _ [Hw DA]|w _ HA [Hw DA]|]; simpl; try congruence; intros Ha.
  - apply elem_of_locked in Hw as [Hw Hk].
    destruct (allow_collected ep rules now t (whole a) w) as (r0 & Hr0 & -> & Hn0); auto.
    destruct V as [|r1 _ [Hr1 D1]|r1 _ Hl _|_ Hh]; simpl; try done.
    + apply elem_of_locked in Hr1 as [Hr1 Hk1]. apply not_deny; auto. intros Hd.
      destruct (DA (widen r1)) as [G E]; [by apply elem_of_locked; auto|].
      destruct (D1 r0) as [G1 _]; [by apply elem_of_locked|]. simpl in *.
      assert (level (r_ScopeType r1) = level (r_ScopeType r0)) as El.
      { repeat case_match; bools; lia. }
      rewrite El in E. specialize (E eq_refl Hd). by rewrite E in Ha.
    + assert (r0 ∈ locked_hits ep rules t now) as Hin by by apply elem_of_locked.
      rewrite Hl in Hin. by apply elem_of_nil in Hin.
    + rewrite Hh in Hr0. by apply elem_of_nil in Hr0.
  - apply elem_of_open in Hw as [Hw Hk].
    destruct (allow_collected ep rules now t (whole a) w) as (r0 & Hr0 & -> & Hn0); auto.
    destruct V as [|r1 _ [Hr1 D1]|r1 _ _ [Hr1 D1]|_ Hh]; simpl; try done.
    + apply elem_of_locked in Hr1 as [Hr1 Hk1]. apply not_deny; auto. intros Hd.
      assert (widen r1 ∈ locked_hits ep (fst (collect ep rules now)) (whole a) now) as Hin
        by (apply elem_of_locked; auto).
      rewrite HA in Hin. by apply elem_of_nil in Hin.
    + apply elem_of_open in Hr1 as [Hr1 Hk1]. apply not_deny; auto. intros Hd.
      destruct (DA (widen r1)) as [G E]; [by apply elem_of_open; auto|].
      destruct (D1 r0) as [G1 _]; [by apply elem_of_open|].
      rewrite (E (widen_beats r0 r1 (Hwr _ Hr0) (Hwr _ Hr1) Hn0 G G1) Hd) in Ha. done.
    + rewrite Hh in Hr0. by apply elem_of_nil in Hr0.
  - done.
Qed.

Lemma dedupe_after_elem prev l e :
  (forall x y, x ∈ l -> y ∈ l -> e_Prefix x = e_Prefix y -> x = y) ->
  e ∈ l -> e ∈ dedupe_after prev l \/ prev = Some (e_Prefix e).
Proof.
  revert prev. induction l as [|e0 l IH]; intros prev Hfun He; [by apply elem_of_nil in He|].
  assert (e ∈ l -> e ∈ dedupe_after (Some (e_Prefix e0)) l \/ Some (e_Prefix e0) = Some (e_Prefix e)) as IH'.
  { apply IH. intros x y Hx Hy. apply Hfun; by right. }
  simpl. case_bool_decide as Hp; apply elem_of_cons in He as [-> | He]; auto.
  - destruct (IH' He) as [|E]; [by left|right; congruence].
  - left. left.
  - left. destruct (IH' He) as [|[= E]]; [by right|].
    rewrite (Hfun e0 e); [left|left|by right|done].
Qed.

Lemma dedupeEntries_elem l e :
  (forall x y, x ∈ l -> y ∈ l -> e_Prefix x = e_Prefix y -> x = y) ->
  e ∈ l -> e ∈ dedupeEntries l.
Proof. intros Hfun He. by destruct (dedupe_after_elem None l e Hfun He). Qed.

Lemma piece_entry_Prefix ep l now p e : piece_entry ep l now p = Some e -> e_Prefix e = p.
Proof. unfold piece_entry. intros. by case_match; simplify_eq. Qed.

Lemma pieces_functional ep l now (ps : list Prefix) x y :
  x ∈ omap (piece_entry ep l now) ps -> y ∈ omap (piece_entry ep l now) ps ->
  e_Prefix x = e_Prefix y -> x = y.
Proof.
  rewrite !list_elem_of_omap. intros (p & _ & Hx) (q & _ & Hy) E.
  pose proof (piece_entry_Prefix _ _ _ _ _ Hx). pose proof (piece_entry_Prefix _ _ _ _ _ Hy).
  congruence.
Qed.

Lemma mergePrefixes_covers l x :
  Forall prefix_ok l -> covers (mergePrefixes l) x <-> covers l x.
Proof.
  intros Hl. destruct l as [|p l]; [done|]. unfold mergePrefixes. by apply merge_loop_covers.
Qed.

(** What [Compile] returns, in terms of the pieces. *)
Lemma Compile_eq ep rules now :
  let A := fst (collect ep rules now) in
  exists ranges,
    let es := omap (piece_entry ep A now) (all_leaves A ranges) in
    p_Allow (Compile ep rules now) = mergePrefixes (omap entry_allow es) /\
    p_Entries (Compile ep rules now)
      = dedupeEntries (sort_slice (fun x y => lessPrefix (e_Prefix x) (e_Prefix y)) es) /\
    (forall p, p ∈ ranges -> exists r, r ∈ A /\ is_allow r = true /\ rule_Prefix r = p) /\
    (forall r, r ∈ A -> is_allow r = true -> rule_Prefix r ∈ ranges).
Proof.
  intros A. destruct (walk_loop ep A now A [] [] []) as (ranges & E & H1 & H2).
  exists ranges. unfold Compile. subst A. destruct (collect ep rules now) as [A held].
  cbn [fst] in *. rewrite E. clear E. destruct (fold_left _ _ _) as [named addrs]. cbn [p_Allow p_Entries].
  split; [done|]. split; [done|]. split; [done|].
  intros r Hr Ha. by destruct (H2 r Hr Ha) as [|[]%not_elem_of_nil].
Qed.

Lemma entry_allow_Some e p :
  entry_allow e = Some p <-> d_Action (e_Decision e) = Allow /\ e_Prefix e = p.
Proof.
  unfold entry_allow. destruct (String.eqb_spec (d_Action (e_Decision e)) Allow); naive_solver.
Qed.

Lemma covers_pieces ep A now (ps : list Prefix) x :
  Forall prefix_ok ps ->
  covers (mergePrefixes (omap entry_allow (omap (piece_entry ep A now) ps))) x <->
  exists q e, q ∈ ps /\ piece_entry ep A now q = Some e /\
    d_Action (e_Decision e) = Allow /\ Contains q x = true.
Proof.
  intros Hps. assert (forall p, p ∈ omap entry_allow (omap (piece_entry ep A now) ps) <->
    exists e, p ∈ ps /\ piece_entry ep A now p = Some e /\ d_Action (e_Decision e) = Allow) as Hel.
  { intros p. rewrite list_elem_of_omap. split.
    - intros (e & (q & Hq & He)%list_elem_of_omap & [Ha <-]%entry_allow_Some).
      exists e. by rewrite (piece_entry_Prefix _ _ _ _ _ He).
    - intros (e & Hp & He & Ha). exists e. rewrite list_elem_of_omap, entry_allow_Some.
      split; [by exists p|]. split; [done|]. by apply piece_entry_Prefix in He. }
  rewrite mergePrefixes_covers.
  - unfold covers. rewrite Exists_exists. setoid_rewrite Hel. naive_solver.
  - rewrite Forall_forall in *. intros p (e & Hp & _)%Hel. auto.
Qed.

#[local] Opaque walk_fuel.

(** The pieces behind a compiled policy. *)
Lemma compile_pieces ep rules now :
  let A := fst (collect ep rules now) in
  Forall wf_rule rules ->
  exists pieces,
    Forall (fun q => prefix_ok q /\ existsb (strictly_inside q) A = false) pieces /\
    (forall x, covers pieces x <-> exists r, r ∈ A /\ is_allow r = true /\ Contains (rule_Prefix r) x = true) /\
    (forall x, covers (p_Allow (Compile ep rules now)) x <->
       exists q e, q ∈ pieces /\ piece_entry ep A now q = Some e /\
         d_Action (e_Decision e) = Allow /\ Contains q x = true) /\
    (forall q e, q ∈ pieces -> piece_entry ep A now q = Some e -> e ∈ p_Entries (Compile ep rules now)).
Proof.
  intros A Hwf. pose proof (wf_prefixes A (collect_wf ep rules now Hwf)) as HA.
  destruct (Compile_eq ep rules now) as (ranges & EA & EE & H1 & H2). fold A in EA, EE, H1, H2.
  exists (all_leaves A ranges). rewrite EA, EE. clearbody A. clear EA EE.
  assert (forall p, p ∈ ranges -> prefix_ok p) as Hr.
  { intros p (r & Hr & _ & <-)%H1. rewrite Forall_forall in HA. auto. }
  assert (forall p, p ∈ ranges -> Forall (fun q => prefix_ok q /\ existsb (strictly_inside q) A = false)
    (leaves walk_fuel A p) /\ forall x, Contains p x = true <-> covers (leaves walk_fuel A p) x) as HL.
  { intros p Hp. exact (leaves_spec walk_fuel A p HA (Hr p Hp) (walk_fuel_enough p (Hr p Hp))). }
  assert (Forall (fun q => prefix_ok q /\ existsb (strictly_inside q) A = false) (all_leaves A ranges)) as Hps.
  { apply Forall_bind, Forall_forall. intros p Hp. by apply HL. }
  split; [done|]. split; [|split].
  - intros x. unfold covers, all_leaves. rewrite Exists_exists. setoid_rewrite list_elem_of_bind. split.
    + intros (q & (p & Hq & Hp) & Hx). destruct (H1 p Hp) as (r & Hin & Ha & <-). exists r.
      repeat split; auto. apply HL; [done|]. apply Exists_exists. eauto.
    + intros (r & Hin & Ha & Hx). pose proof (H2 r Hin Ha) as Hp.
      apply HL in Hx as (q & Hq & Hx)%Exists_exists; eauto.
  - intros x. apply covers_pieces. eapply Forall_impl; [exact Hps|]. by intros q [? _].
  - intros q e Hq He. apply dedupeEntries_elem; setoid_rewrite sort_slice_perm.
    + by apply pieces_functional.
    + apply list_elem_of_omap. eauto.
Qed.

Lemma Unmap_idem a : Unmap (Unmap a) = Unmap a.
Proof.
  destruct a as [|v|v z]; [reflexivity..|]. destruct (Z.eq_dec (Z.shiftr v 32) 65535) as [E|E].
  - unfold Unmap at 2 3, Is4In6. by rewrite (proj2 (Z.eqb_eq _ _) E).
  - by rewrite (proj2 (Unmap_fix v z) E), (proj2 (Unmap_fix v z) E).
Qed.

Lemma piece_entry_Decision ep l now p e :
  piece_entry ep l now p = Some e -> e_Decision e = Decide ep l (whole (pip p)) now.
Proof. unfold piece_entry. intros. by case_match; simplify_eq. Qed.

Lemma decide_floor_basis ep l t now :
  IsFloor ep t = true -> Decide ep l t now = mkDecision Allow BasisFloor EmptyString EmptyString.
Proof. unfold Decide. by intros ->. Qed.

Lemma IsFloor_whole ep t :
  IsFloor ep (whole (Unmap (t_Addr t))) = true -> IsFloor ep t = true.
Proof.
  unfold IsFloor. cbn [t_Addr whole t_Proto t_Port]. rewrite Unmap_idem.
  intros [->|?]%orb_true_iff; [done|done].
Qed.

(** The promise of the compiled list: a destination it admits is one the
    rules allow, whatever the port, protocol and direction; or it lies in a
    range entered on the strength of the connectivity floor. *)
Definition honours (ep : Endpoint) (rules : list Rule) (now : Z) (pol : Policy) : Prop :=
  forall t, covers (p_Allow pol) (Unmap (t_Addr t)) ->
    d_Action (Decide ep rules t now) = Allow \/
    exists e, e ∈ p_Entries pol /\ d_Basis (e_Decision e) = BasisFloor /\
      Contains (e_Prefix e) (Unmap (t_Addr t)) = true.

Lemma compile_honours ep rules now :
  Forall wf_rule rules -> honours ep rules now (Compile ep rules now).
Proof.
  intros Hwf t. set (x := Unmap (t_Addr t)). pose proof (Unmap_idem (t_Addr t)) as Hu. fold x in Hu.
  destruct (compile_pieces ep rules now Hwf) as (ps & Hps & _ & Hc & He).
  intros (q & e & Hq & Hqe & Ha & Hx)%Hc.
  pose proof (piece_entry_Prefix _ _ _ _ _ Hqe) as Ep.
  pose proof (piece_entry_Decision _ _ _ _ _ Hqe) as Ed.
  destruct (IsFloor ep (whole (pip q))) eqn:Fq.
  - right. exists e. split; [eauto|]. rewrite Ed, decide_floor_basis, Ep by done. done.
  - left. destruct (IsFloor ep (whole x)) eqn:Fx.
    + by rewrite decide_floor_basis by by apply IsFloor_whole.
    + rewrite Forall_forall in Hps. destruct (Hps q Hq) as [Hok Hin].
      apply (decide_collected ep rules now t x); [done|by rewrite Hu|done|].
      rewrite (decide_undivided ep _ q x now); [by rewrite <- Ed|done| |done..].
      by apply wf_prefixes, collect_wf.
Qed.

(** The addresses the collected rules allow, outside the floor, are all in the list. *)
Lemma compile_covers ep rules now x :
  Forall wf_rule rules -> Unmap x = x -> IsFloor ep (whole x) = false ->
  d_Action (Decide ep (fst (collect ep rules now)) (whole x) now) = Allow ->
  covers (p_Allow (Compile ep rules now)) x.
Proof.
  intros Hwf Hu Hf Ha. set (A := fst (collect ep rules now)) in *.
  pose proof (collect_wf ep rules now Hwf) as HA. fold A in HA.
  destruct (compile_pieces ep rules now Hwf) as (ps & Hps & Hcov & Hc & _). fold A in Hps, Hcov, Hc.
  assert (exists r, r ∈ hits ep A (whole x) now /\ r_Action r = Allow) as (r & Hr & Hra).
  { pose proof (decide_meets_verdict ep A (whole x) now HA) as V. revert Ha.
    destruct V as [|r _ [Hr _]|r _ _ [Hr _]|]; simpl; [congruence|..|done]; intros Ha; exists r.
    - by apply elem_of_locked in Hr as [Hr _].
    - by apply elem_of_open in Hr as [Hr _]. }
  assert (covers ps x) as (q & Hq & Hx)%Exists_exists.
  { apply Hcov. exists r. pose proof (elem_of_hits _ _ _ _ _ Hr).
    unfold hits, hit in Hr. apply list_elem_of_In, filter_In in Hr as [_ Hr]. bools.
    split; [done|]. split; [unfold is_allow; by rewrite Hra|].
    rewrite <- Hu. by apply (matches_Contains r (whole x)). }
  rewrite Forall_forall in Hps. destruct (Hps q Hq) as [Hok Hin]. apply Hc.
  exists q. unfold piece_entry. fold A.
  destruct (IsFloor ep (whole (pip q))) eqn:Fq.
  - rewrite decide_floor_basis by done. by eexists.
  - rewrite <- (decide_undivided ep A q x now); auto using wf_prefixes.
    pose proof (decide_meets_verdict ep A (whole x) now HA) as V. revert Ha.
    destruct V; simpl; intros Ha; try done; by eexists.
Qed.

End Policy.
