(* ===== verification/TrustPolicy.v ===== *)
(** * What the trust fabric guarantees

    The theorems on [Normalize], [Decide] and [Compile] of
    src/hub/pkg/trustfabric/resolver.go and on the address scopes of
    src/hub/pkg/netaddr/address.go, from the lemmas of TrustDecide and
    TrustCompile. *)

From Stdlib Require Import Ascii String.
From S2P Require Import Prelude NetIP TrustFabric TrustDecide TrustCompile.
Import trustfabric.

(** ** Normalize returns well-formed rules *)

Lemma Unmap_ok a : addr_ok a -> BitLen a <> 0 -> addr_ok (Unmap a) /\ BitLen (Unmap a) <> 0.
Proof.
  intros Ha Hl. destruct a as [|v|v z]; [done..|]. unfold Unmap. destruct (Is4In6 _); [|done].
  split; [|done]. unfold addr_ok. cbn [addr_val BitLen].
  rewrite Z.land_ones by lia. apply Z.mod_pos_bound. lia.
Qed.

Lemma Masked_ok a n :
  addr_ok a -> BitLen a <> 0 -> 0 <= n <= BitLen a -> prefix_ok (Masked (mkPrefix a n)).
Proof. intros. unfold Masked. by apply addr_prefix_ok. Qed.

Lemma PrefixFrom_valid a n :
  BitLen a <> 0 -> 0 <= n <= BitLen a -> PrefixFrom a n = mkPrefix (withoutZone a) n.
Proof.
  intros Hl Hn. unfold PrefixFrom, in_range, addr_eqb.
  rewrite bool_decide_eq_false_2 by (by intros ->).
  by rewrite (proj2 (Z.leb_le 0 n)), (proj2 (Z.leb_le n _)) by lia.
Qed.

Lemma withoutZone_ok a :
  addr_ok a -> addr_ok (withoutZone a) /\ BitLen (withoutZone a) = BitLen a.
Proof. by destruct a. Qed.

Lemma ParsePrefix_ok s p :
  ParsePrefix s = Some p ->
  addr_ok (pip p) /\ BitLen (pip p) <> 0 /\ 0 <= pbits p <= BitLen (pip p).
Proof.
  unfold ParsePrefix. intros (i & _ & Hp)%bind_Some.
  apply bind_Some in Hp as (a & Ha%ParseAddr_ok & Hp). destruct Ha as [Ha Hl].
  case_match; [done|]. case_match; [done|]. apply bind_Some in Hp as (bits & _ & Hp).
  unfold in_range in Hp. case_match; simplify_eq. bools.
  rewrite PrefixFrom_valid by (done || lia). cbn [pip pbits].
  destruct (withoutZone_ok a Ha) as [? E]. by rewrite E.
Qed.

Lemma single_ok a :
  addr_ok a -> BitLen a <> 0 -> has_zone a = false -> prefix_ok (PrefixFrom a (BitLen a)).
Proof.
  intros Ha Hl Hz. assert (0 <= BitLen a) by (destruct a; simpl; lia).
  apply prefix_ok_from; [done..|lia|]. by rewrite Z.sub_diag, Z.mod_1_r.
Qed.

Lemma has_zone_Unmap a : Zone a = EmptyString -> has_zone (Unmap a) = false.
Proof.
  unfold has_zone, Unmap. intros Hz. destruct a as [|v|v z]; [reflexivity..|].
  destruct (Is4In6 _); [reflexivity|]. by rewrite Hz.
Qed.

Lemma Is4In6_BitLen a : Is4In6 a = true -> BitLen a = 128 /\ BitLen (Unmap a) = 32.
Proof. destruct a as [|v|v z]; [discriminate..|]. intros E. unfold Unmap. by rewrite E. Qed.

Lemma normalize_value_ok kind value action v p :
  normalize_value kind value action = Ok (v, p) -> prefix_ok p.
Proof.
  unfold normalize_value, bad. intros Hn. destruct (String.eqb kind "ip").
  - destruct (ParseAddr value) as [a|] eqn:Ha; [|done]. apply ParseAddr_ok in Ha as [Ha Hl].
    destruct (negb _) eqn:Hz in Hn; simplify_eq. destruct (Unmap_ok a Ha Hl) as [Hu Hul].
    bools. apply single_ok; [exact Hu|exact Hul|by apply has_zone_Unmap].
  - destruct (String.eqb kind "cidr"); [|done].
    destruct (ParsePrefix value) as [q|] eqn:Hq; [|done].
    apply ParsePrefix_ok in Hq as (Hq & Hl & Hb). destruct (Is4In6 (pip q)) eqn:H46; cbn [andb] in Hn.
    + destruct (pbits q <? 96) eqn:H96; [done|]. bools.
      destruct (Is4In6_BitLen _ H46) as [H128 H32]. destruct (Unmap_ok (pip q) Hq Hl) as [Hu Hul].
      rewrite PrefixFrom_valid in Hn by lia. destruct (withoutZone_ok _ Hu) as [Hw E].
      set (m := Masked _) in Hn. assert (prefix_ok m) by (apply Masked_ok; rewrite ?E; (exact Hw || lia)).
      clearbody m. case_match; simplify_eq. assumption.
    + set (m := Masked q) in Hn. assert (prefix_ok m) by (destruct q; by apply Masked_ok).
      clearbody m. case_match; simplify_eq. assumption.
Qed.

Lemma normalize_value_cidr value v p :
  normalize_value "cidr" value Allow = Ok (v, p) -> pbits p <> 0.
Proof.
  unfold normalize_value, bad. cbn [String.eqb Ascii.eqb Bool.eqb].
  destruct (ParsePrefix value) as [q|]; [|done]. destruct (_ && _) eqn:E1; [done|].
  set (m := Masked _). clearbody m. destruct (pbits m =? 0) eqn:E; [done|].
  intros [= _ <-]. by apply Z.eqb_neq.
Qed.

(** ** The third loop of [Compile]: the single addresses *)

Section Addresses.
Context `{Unicode}.

Definition names (l : list Rule) (a : Addr) : Prop :=
  exists r, r ∈ l /\ is_allow r = true /\ IsSingleIP (rule_Prefix r) = true /\ pip (rule_Prefix r) = a.

Lemma names_nil a : ~ names [] a.
Proof. intros (r & []%not_elem_of_nil & _). Qed.

Lemma names_cons r l a :
  names (r :: l) a <->
  (is_allow r = true /\ IsSingleIP (rule_Prefix r) = true /\ pip (rule_Prefix r) = a) \/ names l a.
Proof. unfold names. setoid_rewrite elem_of_cons. naive_solver. Qed.

Lemma existsb_covers allow a : existsb (fun p => Contains p a) allow = true <-> covers allow a.
Proof.
  unfold covers. rewrite existsb_exists, Exists_exists. by setoid_rewrite list_elem_of_In.
Qed.

Lemma address_loop allow l named addrs a :
  (a ∈ addrs <-> a ∈ named /\ covers allow a) ->
  let '(named', addrs') := fold_left (address_step allow) l (named, addrs) in
  (a ∈ addrs' <-> (a ∈ named \/ names l a) /\ covers allow a).
Proof.
  revert named addrs. induction l as [|r l IH]; intros named addrs Hinv; cbn [fold_left].
  - rewrite Hinv. pose proof (names_nil a). tauto.
  - unfold address_step at 2. fold (is_allow r).
    destruct (is_allow r && IsSingleIP (rule_Prefix r) && _) eqn:E.
    + bools. set (b := pip (rule_Prefix r)) in *.
      match goal with |- context [fold_left _ l (?n, ?x)] => specialize (IH n x) end.
      destruct (fold_left _ _ _) as [named' addrs']. rewrite IH.
      * rewrite names_cons, elem_of_cons. naive_solver.
      * rewrite elem_of_cons. pose proof (existsb_covers allow b).
        destruct (existsb _ allow); rewrite ?elem_of_app, ?list_elem_of_singleton; naive_solver.
    + specialize (IH named addrs Hinv). destruct (fold_left _ _ _) as [named' addrs'].
      rewrite IH, names_cons. split; [tauto|]. intros [[?|[(Ha & Hs & <-)|?]] ?]; try tauto.
      rewrite Ha, Hs in E. simpl in E. bools. tauto.
Qed.

Lemma Compile_addresses ep rules now a :
  a ∈ p_Addresses (Compile ep rules now) <->
  names (fst (collect ep rules now)) a /\ covers (p_Allow (Compile ep rules now)) a.
Proof.
  unfold Compile. destruct (collect ep rules now) as [A held]. cbn [fst].
  destruct (fold_left _ A ([], ([], []))) as [seen [entries allow]].
  pose proof (address_loop (mergePrefixes allow) A [] [] a) as HL.
  destruct (fold_left _ A _) as [named addrs]. cbn [p_Addresses p_Allow].
  rewrite sort_slice_perm, HL by (by rewrite !elem_of_nil; tauto).
  rewrite elem_of_nil. tauto.
Qed.

End Addresses.

(** ** The guarantees *)

Section Guarantees.
Context `{Unicode}.

(** C1: soundness of the compiled allow list. Whatever destination the list
    admits (port, protocol and direction included), the rules allow it; the
    only other way into the list is a range entered on the strength of the
    connectivity floor. *)
Theorem compile_sound ep rules now t :
  Forall wf_rule rules ->
  covers (p_Allow (Compile ep rules now)) (Unmap (t_Addr t)) ->
  d_Action (Decide ep rules t now) = Allow \/
  exists e, e ∈ p_Entries (Compile ep rules now) /\ d_Basis (e_Decision e) = BasisFloor /\
    Contains (e_Prefix e) (Unmap (t_Addr t)) = true.
Proof. intros Hwf. by apply compile_honours. Qed.

(** C2: completeness of the compiled allow list. Every address the rules
    allow as a whole, once the narrow allows are withheld and the narrow
    denies widened, is in the list. *)
Theorem compile_complete ep rules now a :
  Forall wf_rule rules -> Unmap a = a -> IsFloor ep (whole a) = false ->
  d_Action (Decide ep (fst (collect ep rules now)) (whole a) now) = Allow ->
  covers (p_Allow (Compile ep rules now)) a.
Proof. apply compile_covers. Qed.

(** C6: [Decide] follows the precedence the code compares by: the floor; then,
    among the locked rules that match, one of the least specific scope; then the
    most specific rule that matches, by scope, then the longer prefix, then
    naming a port, then naming a protocol, then naming a direction; then default
    deny. A deny wins where all of these are equal. *)
Theorem decide_precedence ep rules t now :
  Forall wf_rule rules -> Verdict ep rules t now (Decide ep rules t now).
Proof. apply decide_meets_verdict. Qed.

(** C28: the order in which the rules are read changes neither the action nor
    its basis. *)
Theorem decide_order_independent ep rules rules' t now :
  Forall wf_rule rules -> rules ≡ₚ rules' ->
  d_Action (Decide ep rules t now) = d_Action (Decide ep rules' t now) /\
  d_Basis (Decide ep rules t now) = d_Basis (Decide ep rules' t now).
Proof.
  intros Hwf Hp. apply (verdict_deterministic ep rules t now); [done|by apply decide_meets_verdict|].
  apply (verdict_perm ep rules'); [done|]. apply decide_meets_verdict. by rewrite <- Hp.
Qed.

(** C29: [Normalize] accepts a rule only in canonical form: the action is allow
    or deny, the scope is one of the five levels and names an id exactly when
    it is not the provider, the prefix is valid with no bit below its length,
    a port is a 16-bit number and comes with a protocol, and no allow rule
    covers a whole address family by CIDR. *)
Theorem normalize_canonical r r' :
  Normalize r = Ok r' ->
  wf_rule r' /\
  (r_ScopeID r' = EmptyString <-> r_ScopeType r' = ScopeProvider) /\
  0 <= r_Port r' <= 65535 /\
  (r_Port r' <> 0 -> r_Proto r' = ProtoTCP \/ r_Proto r' = ProtoUDP) /\
  (r_Kind r' = "cidr" -> r_Action r' = Allow -> pbits (r_prefix r') <> 0).
Proof.
  unfold Normalize. intros Hn. inv_ok Hn. destruct x6 as [value prefix].
  inv_ok Hn. simplify_eq. cbn [r_ScopeID r_ScopeType r_Port r_Proto r_Kind r_Action r_prefix].
  bools. set (action := ToLower (TrimSpace (r_Action r))) in *.
  set (scope := ToLower (TrimSpace (r_ScopeType r))) in *.
  set (proto := if String.eqb _ _ then ProtoAny else _) in *. clearbody action scope proto.
  repeat match goal with Ho : (_ || _) = true |- _ => apply orb_true_iff in Ho end.
  split; [|split; [|split; [|split]]].
  - split; cbn [r_Action r_ScopeType r_prefix];
      [naive_solver (by apply String.eqb_eq)|done|by eapply normalize_value_ok].
  - unfold bad in *. destruct (String.eqb_spec scope ScopeProvider) as [->|Hne]; simplify_eq; [done|].
    destruct (String.eqb (TrimSpace (r_ScopeID r)) EmptyString || _) eqn:Es; simplify_eq.
    bools. tauto.
  - unfold in_range in *. bools. lia.
  - intros Hp%Z.eqb_neq. rewrite Hp in *. cbn [negb andb] in *.
    rewrite orb_true_iff, !String.eqb_eq in *. bools. tauto.
  - intros Hk Ha. rewrite Hk, Ha in *. by eapply normalize_value_cidr.
Qed.

(** [Policy.Addresses] lists exactly the single addresses an applicable
    allow rule names and the allow list admits. *)
Theorem compile_addresses ep rules now a :
  a ∈ p_Addresses (Compile ep rules now) <->
  (exists r, r ∈ fst (collect ep rules now) /\ r_Action r = Allow /\
     IsSingleIP (rule_Prefix r) = true /\ pip (rule_Prefix r) = a) /\
  covers (p_Allow (Compile ep rules now)) a.
Proof.
  rewrite Compile_addresses. unfold names, is_allow. by setoid_rewrite String.eqb_eq.
Qed.

(** C30: merging the list neither adds nor loses an address, and it runs until
    a pass finds nothing to merge: the bound on the rounds is never reached. *)
Theorem merge_exact l x :
  Forall prefix_ok l ->
  (covers (mergePrefixes l) x <-> covers l x) /\
  (l = [] \/ exists l', mergePrefixes l = fst (merge_pass l') /\ snd (merge_pass l') = false).
Proof.
  intros Hl. split; [by apply mergePrefixes_covers|]. destruct l as [|p l]; [by left|right].
  destruct (merge_loop_stops (S (length (p :: l))) (p :: l)) as (l' & E1 & E2 & _); [lia|].
  by exists l'.
Qed.

(** [IsLocal] and [Scope] agree: an address is local exactly when its
    scope is neither public nor invalid. *)
Theorem scope_local raw :
  netaddr.IsLocal raw = true <->
  netaddr.Scope raw <> "public"%string /\ netaddr.Scope raw <> "invalid"%string.
Proof.
  unfold netaddr.IsLocal, netaddr.Scope. destruct (netaddr.Parse raw) as [a|]; [|naive_solver].
  destruct (IsUnspecified a), (IsLoopback a), (IsMulticast a), (IsLinkLocalUnicast a),
    (IsPrivate a), (Contains netaddr.sharedSpace a); simpl; naive_solver.
Qed.

End Guarantees.

(** ** A client's rules, and the guarantees at them *)

Module example.

#[local] Existing Instance ascii_only.

Definition rule (id scopeType scopeID value action : string) (p : Prefix) : Rule :=
  mkRule id scopeType scopeID "cidr" value action DirBoth 0 ProtoAny false None
    EmptyString EmptyString EmptyString 0 p.

(** 10.0.0.4/30 *)
Definition range : Prefix := mkPrefix (V4 0x0a000004) 30.

Definition hub : Addr := V4 0x0a000004.

Definition rules : list Rule :=
  [rule "r1" ScopeClient "acme" "10.0.0.4/30" Allow range;
   rule "r2" ScopeEndpoint "pc-1" "10.0.0.4/30" Deny range].

Definition endpoint (hubs : list Addr) : Endpoint :=
  mkEndpoint "pc-1" "acme" "hq" "workstation" hubs.

Lemma range_ok : prefix_ok range.
Proof. unfold prefix_ok, addr_ok. vm_compute. repeat split; congruence. Qed.

Lemma rule_wf id s sid v act p :
  act = Allow \/ act = Deny -> is_Some (scopeLevel s) -> prefix_ok p -> wf_rule (rule id s sid v act p).
Proof. intros. by split. Qed.

Lemma rules_wf : Forall wf_rule rules.
Proof.
  unfold rules. rewrite !Forall_cons. repeat split; try (by constructor);
    apply rule_wf; auto using range_ok; by eexists.
Qed.

(** The client's rule alone, as an operator may type it. *)
Definition allowed : list Rule :=
  [mkRule "r1" "client" "acme" "cidr" "10.0.0.4/30" Allow DirBoth 0 ProtoAny false None
     EmptyString EmptyString EmptyString 0 range].

Definition typed : Rule :=
  mkRule "r1" " Client" "acme" "CIDR" "10.0.0.7/30 " "ALLOW" "" 0 "" false None
     EmptyString EmptyString EmptyString 0 PrefixZero.

Lemma allowed_wf : Forall wf_rule allowed.
Proof. unfold allowed. rewrite Forall_cons. split; [|by constructor]. apply rule_wf; auto using range_ok. Qed.

Definition inside : Target := mkTarget (V4 0x0a000005) 443 ProtoTCP DirOut.

Lemma compile_sound_witness :
  covers (p_Allow (Compile (endpoint []) allowed 0)) (Unmap (t_Addr inside)) /\
  (d_Action (Decide (endpoint []) allowed inside 0) = Allow \/
   exists e, e ∈ p_Entries (Compile (endpoint []) allowed 0) /\
     d_Basis (e_Decision e) = BasisFloor /\ Contains (e_Prefix e) (Unmap (t_Addr inside)) = true).
Proof.
  assert (covers (p_Allow (Compile (endpoint []) allowed 0)) (Unmap (t_Addr inside))) as Hc
    by (apply existsb_covers; by vm_compute).
  split; [exact Hc|]. exact (compile_sound _ _ _ _ allowed_wf Hc).
Defined.

Lemma compile_complete_witness : covers (p_Allow (Compile (endpoint []) allowed 0)) (V4 0x0a000006).
Proof. apply (compile_complete (endpoint []) allowed 0 (V4 0x0a000006) allowed_wf); by vm_compute. Defined.

Lemma decide_precedence_witness :
  Verdict (endpoint [hub]) rules inside 0 (Decide (endpoint [hub]) rules inside 0).
Proof. exact (decide_precedence _ _ _ _ rules_wf). Defined.

Lemma decide_order_independent_witness :
  d_Action (Decide (endpoint []) rules inside 0) = d_Action (Decide (endpoint []) (rev rules) inside 0) /\
  d_Basis (Decide (endpoint []) rules inside 0) = d_Basis (Decide (endpoint []) (rev rules) inside 0).
Proof. apply (decide_order_independent _ _ _ _ _ rules_wf). apply Permutation_rev. Defined.

Lemma normalize_canonical_witness :
  Normalize typed = Ok (nth 0 allowed typed) /\ wf_rule (nth 0 allowed typed).
Proof.
  assert (Normalize typed = Ok (nth 0 allowed typed)) as E by (vm_compute; reflexivity).
  split; [exact E|]. exact (proj1 (normalize_canonical _ _ E)).
Defined.

Lemma merge_exact_witness :
  covers (mergePrefixes [range; range]) (V4 0x0a000005) <-> covers [range; range] (V4 0x0a000005).
Proof. apply (merge_exact [range; range]). repeat apply Forall_cons_2; auto using range_ok, Forall_nil_2. Defined.

End example.

(** The package comment and the documentation of the fabric stop at "a rule
    naming a port or protocol over one that does not", with deny on a tie. The
    code ranks further: an allow that names a direction overrides a deny of the
    same scope and prefix for both directions, and an allow that names a port
    overrides a deny that names the protocol. *)
Lemma specificity_beyond_documentation :
  let r id action direction port proto :=
    mkRule id ScopeClient "acme" "cidr" "10.0.0.4/30" action direction port proto false None
      EmptyString EmptyString EmptyString 0 example.range in
  let decide l t := d_Action (@Decide ascii_only (example.endpoint []) l t 0) in
  decide [r "a" Allow DirOut 0 ProtoAny; r "b" Deny DirBoth 0 ProtoAny] example.inside = Allow /\
  decide [r "a" Allow DirBoth 443 ProtoTCP; r "b" Deny DirBoth 0 ProtoTCP] example.inside = Allow /\
  decide [r "a" Allow DirBoth 0 ProtoAny; r "b" Deny DirBoth 0 ProtoAny] example.inside = Deny.
Proof. by vm_compute. Qed.

(** The floor escape of C1 is real. With the hub at the network address
    of a range the rules deny, the whole range enters the allow list, though
    the rules deny every other address in it. *)
Theorem compile_floor_opens_range :
  exists (U : Unicode) ep rules now t,
    Forall wf_rule rules /\
    covers (p_Allow (Compile ep rules now)) (Unmap (t_Addr t)) /\
    IsFloor ep t = false /\ d_Action (Decide ep rules t now) = Deny.
Proof.
  exists ascii_only, (example.endpoint [example.hub]), example.rules, 0, (whole (V4 0x0a000005)).
  split; [exact example.rules_wf|]. split; [|by split; vm_compute].
  apply existsb_covers. by vm_compute.
Qed.
