(* ===== verification/Vuln.v ===== *)
(** * Vulnerability correlation: versions, CPE names and matches

    Package vuln: src/hub/pkg/vuln/version.go, cpe.go, match.go and the
    records of dto.go and feed.go. Numbers of type [float64] are the binary64
    values of the Standard Library's [SpecFloat], with its rounding
    operations. The JSON encoding of records ([encoding/json]), the fresh
    identifiers ([uuid.New]) and the clock are parameters. *)

From Stdlib Require Import Ascii String SpecFloat.
From S2P Require Import Prelude.

Module vuln.

(** ** float64 *)

Definition float64 : Type := spec_float.

Definition f_of_Z (z : Z) : float64 := binary_normalize 53 1024 z 0 false.
Definition fmul (x y : float64) : float64 := SFmul 53 1024 x y.
Definition fadd (x y : float64) : float64 := SFadd 53 1024 x y.
Definition fdiv (x y : float64) : float64 := SFdiv 53 1024 x y.
Definition flt (x y : float64) : bool := SFltb x y.

(** The literal [p/100]: the binary64 value nearest to it. *)
Definition hundredths (p : Z) : float64 := fdiv (f_of_Z p) (f_of_Z 100).

(** [math.Round]: to the nearest integer, halves away from zero. *)
Definition Round (x : float64) : float64 :=
  match x with
  | S754_finite s m e =>
    if 0 <=? e then x else
    let n := (Z.pos m + 2 ^ (- e - 1)) / 2 ^ (- e) in
    if n =? 0 then S754_zero s
    else binary_normalize 53 1024 (if s then - n else n) 0 s
  | _ => x
  end.

(** ** Versions *)

Inductive tokenType : Type := tokenNum | tokenStr | tokenTilde | tokenPrerelease | tokenPatch.

#[export] Instance tokenType_eq_dec : EqDecision tokenType.
Proof. solve_decision. Defined.

Definition typ_eqb (a b : tokenType) : bool := bool_decide (a = b).

Record versionToken : Type := mkToken { typ : tokenType; strVal : string; numVal : Z }.

Record ParsedVersion : Type := mkParsed {
  pv_Raw : string;
  pv_Epoch : Z;
  pv_Upstream : string;
  pv_Revision : string;
  pv_HasEpoch : bool;
  pv_Tokens : list versionToken;
}.

(** The longest prefix whose bytes satisfy [f], and the rest. *)
Fixpoint span (f : ascii -> bool) (s : string) : string * string :=
  match s with
  | EmptyString => (EmptyString, EmptyString)
  | String c s' =>
    if f c then let '(a, b) := span f s' in (String c a, b) else (EmptyString, s)
  end.

(** [strings.Trim(s, ".-_+")]. *)
Definition is_sep (c : ascii) : bool :=
  Ascii.eqb c "." || Ascii.eqb c "-" || Ascii.eqb c "_" || Ascii.eqb c "+".

Definition trim_seps (s : string) : string :=
  string_rev (snd (span is_sep (string_rev (snd (span is_sep s))))).

Definition one_of (l : list string) (s : string) : bool := existsb (String.eqb s) l.

Section Vuln.
Context `{Unicode}.

(** The token of a run of letters and punctuation. *)
Definition word_token (run : string) : versionToken :=
  let clean := trim_seps (ToLower run) in
  if one_of ["alpha"; "a"; "beta"; "b"; "rc"; "pre"; "dev"] clean then mkToken tokenPrerelease clean 0
  else if one_of ["p"; "patch"; "pl"; "sp"] clean then mkToken tokenPatch clean 0
  else mkToken tokenStr clean 0.

(** The scan, one token per round. *)
Fixpoint tokenize_loop (fuel : nat) (s : string) : list versionToken :=
  match fuel, s with
  | S fuel', String c s' =>
    if Ascii.eqb c "~" then mkToken tokenTilde "~" 0 :: tokenize_loop fuel' s'
    else if is_digit c then
      let '(numStr, rest) := span is_digit s in
      mkToken tokenNum numStr (parse_uint_digits numStr) :: tokenize_loop fuel' rest
    else
      let '(run, rest) := span (fun d => negb (is_digit d) && negb (Ascii.eqb d "~")) s in
      word_token run :: tokenize_loop fuel' rest
  | _, _ => []
  end.

(** Each round consumes at least one byte. *)
Definition tokenizeVersion (s : string) : list versionToken := tokenize_loop (String.length s) s.

Definition ParseVersion (v : string) : ParsedVersion :=
  let raw := v in
  let v := TrimSpace v in
  if String.eqb v EmptyString then mkParsed raw 0 EmptyString EmptyString false [] else
  let '(epoch, hasEpoch, v) :=
    match index_byte ":" v with
    | Some i =>
      if (0 <? i)%nat then
        match parse_int (string_take i v) with
        | Some n => (n, true, string_drop (S i) v)
        | None => (0, false, v)
        end
      else (0, false, v)
    | None => (0, false, v)
    end in
  let '(upstream, revision) :=
    match last_index_byte "-" v with
    | Some i =>
      if (0 <? i)%nat && (S i <? String.length v)%nat then
        match string_drop (S i) v with
        | String c _ => if is_digit c then (string_take i v, string_drop (S i) v) else (v, EmptyString)
        | EmptyString => (v, EmptyString)
        end
      else (v, EmptyString)
    | None => (v, EmptyString)
    end in
  mkParsed raw epoch upstream revision hasEpoch (tokenizeVersion upstream).

(** Go's [<] and [>] as a three-way result. *)
Definition cmp_Z (a b : Z) : Z := if a <? b then -1 else if b <? a then 1 else 0.

Definition cmp_string (a b : string) : Z :=
  if negb (String.eqb a b) then if string_lt a b then -1 else 1 else 0.

(** One round of the upstream loop; 0 is [continue]. *)
Definition cmp_token (tok1 tok2 : versionToken) : Z :=
  if typ_eqb (typ tok1) tokenTilde && negb (typ_eqb (typ tok2) tokenTilde) then -1 else
  if typ_eqb (typ tok2) tokenTilde && negb (typ_eqb (typ tok1) tokenTilde) then 1 else
  if typ_eqb (typ tok1) tokenPrerelease && negb (typ_eqb (typ tok2) tokenPrerelease) then -1 else
  if typ_eqb (typ tok2) tokenPrerelease && negb (typ_eqb (typ tok1) tokenPrerelease) then 1 else
  if typ_eqb (typ tok1) tokenNum && typ_eqb (typ tok2) tokenNum then cmp_Z (numVal tok1) (numVal tok2) else
  if typ_eqb (typ tok1) tokenNum && negb (typ_eqb (typ tok2) tokenNum) then 1 else
  if negb (typ_eqb (typ tok1) tokenNum) && typ_eqb (typ tok2) tokenNum then -1 else
  cmp_string (strVal tok1) (strVal tok2).

(** A next token that marks its version as earlier than the bare one. *)
Definition before_release (t : versionToken) : bool :=
  typ_eqb (typ t) tokenPrerelease || typ_eqb (typ t) tokenTilde.

(** The upstream loop and the examination of trailing tokens. *)
Fixpoint cmp_tokens (t1 t2 : list versionToken) : Z :=
  match t1, t2 with
  | [], [] => 0
  | [], t :: _ => if before_release t then 1 else -1
  | t :: _, [] => if before_release t then -1 else 1
  | a :: t1', b :: t2' => let c := cmp_token a b in if c =? 0 then cmp_tokens t1' t2' else c
  end.

Definition cmp_rev_token (rt1 rt2 : versionToken) : Z :=
  if typ_eqb (typ rt1) tokenNum && typ_eqb (typ rt2) tokenNum then cmp_Z (numVal rt1) (numVal rt2)
  else cmp_string (strVal rt1) (strVal rt2).

Fixpoint cmp_revision (t1 t2 : list versionToken) : Z :=
  match t1, t2 with
  | [], [] => 0
  | [], _ :: _ => -1
  | _ :: _, [] => 1
  | a :: t1', b :: t2' => let c := cmp_rev_token a b in if c =? 0 then cmp_revision t1' t2' else c
  end.

Definition CompareVersions (v1 v2 : string) : Z :=
  let pv1 := ParseVersion v1 in
  let pv2 := ParseVersion v2 in
  let e := if pv_HasEpoch pv1 && pv_HasEpoch pv2 then cmp_Z (pv_Epoch pv1) (pv_Epoch pv2) else 0 in
  if negb (e =? 0) then e else
  let c := cmp_tokens (pv_Tokens pv1) (pv_Tokens pv2) in
  if negb (c =? 0) then c else
  if negb (String.eqb (pv_Revision pv1) EmptyString) && negb (String.eqb (pv_Revision pv2) EmptyString)
  then cmp_revision (tokenizeVersion (pv_Revision pv1)) (tokenizeVersion (pv_Revision pv2))
  else 0.

(** ** CPE names *)

Record CPE23 : Type := mkCPE {
  Part : string;
  Vendor : string;
  Product : string;
  Version : string;
  Update : string;
  Edition : string;
  Language : string;
  SoftwareEdition : string;
  TargetSoftware : string;
  TargetHardware : string;
  Other : string;
}.

(** The loop of [splitCPEEscaped]; [cur] is the token so far, last byte first. *)
Fixpoint split_loop (escaped : bool) (cur : list ascii) (s : string) : list string :=
  match s with
  | EmptyString => [string_of_list_ascii (rev cur)]
  | String ch s' =>
    if escaped then split_loop false (ch :: cur) s'
    else if Ascii.eqb ch "\" then split_loop true cur s'
    else if Ascii.eqb ch ":" then string_of_list_ascii (rev cur) :: split_loop false [] s'
    else split_loop false (ch :: cur) s'
  end.

Definition splitCPEEscaped (s : string) : list string := split_loop false [] s.

Fixpoint unescape_loop (escaped : bool) (s : string) : string :=
  match s with
  | EmptyString => EmptyString
  | String ch s' =>
    if escaped then String ch (unescape_loop false s')
    else if Ascii.eqb ch "\" then unescape_loop true s'
    else String ch (unescape_loop false s')
  end.

Definition unescapeCPEComponent (s : string) : string :=
  let s := TrimSpace s in
  if String.eqb s EmptyString || String.eqb s "*" || String.eqb s "-" then s
  else ToLower (unescape_loop false s).

Definition any_cpe : CPE23 := mkCPE "*" "*" "*" "*" "*" "*" "*" "*" "*" "*" "*".

(** [*fields[i] = val]. *)
Definition set_field (i : nat) (v : string) (c : CPE23) : CPE23 :=
  let '(mkCPE a b d e f g h k l m n) := c in
  match i with
  | 0 => mkCPE v b d e f g h k l m n
  | 1 => mkCPE a v d e f g h k l m n
  | 2 => mkCPE a b v e f g h k l m n
  | 3 => mkCPE a b d v f g h k l m n
  | 4 => mkCPE a b d e v g h k l m n
  | 5 => mkCPE a b d e f v h k l m n
  | 6 => mkCPE a b d e f g v k l m n
  | 7 => mkCPE a b d e f g h v l m n
  | 8 => mkCPE a b d e f g h k v m n
  | 9 => mkCPE a b d e f g h k l v n
  | 10 => mkCPE a b d e f g h k l m v
  | _ => c
  end%nat.

(** The loop over the tokens; [nfields] is [len(fields)]. *)
Fixpoint fill_fields (nfields i : nat) (tokens : list string) (c : CPE23) : CPE23 :=
  match tokens with
  | [] => c
  | token :: tokens' =>
    let c' :=
      if (i <? nfields)%nat then
        let val := unescapeCPEComponent token in
        set_field i (if String.eqb val EmptyString then "*"%string else val) c
      else c in
    fill_fields nfields (S i) tokens' c'
  end.

Definition parseCPE23Formatted (raw : string) : result string CPE23 :=
  Ok (fill_fields 11 0 (splitCPEEscaped (TrimPrefix raw "cpe:2.3:")) any_cpe).

Definition parseCPE22URI (raw : string) : result string CPE23 :=
  Ok (fill_fields 7 0 (splitCPEEscaped (TrimPrefix raw "cpe:/")) any_cpe).

Definition ParseCPE (raw : string) : result string CPE23 :=
  let raw := TrimSpace raw in
  if String.eqb raw EmptyString then Err "empty cpe string"%string
  else if HasPrefix raw "cpe:2.3:" then parseCPE23Formatted raw
  else if HasPrefix raw "cpe:/" then parseCPE22URI raw
  else Ok (mkCPE "a" "*" (unescapeCPEComponent raw) "*" EmptyString EmptyString EmptyString
             EmptyString EmptyString EmptyString EmptyString).

Definition aliases : list (string * list string) :=
  [("openssh", ["openssh-server"; "openssh-client"; "openssh-sftp-server"]);
   ("http_server", ["apache2"; "httpd"; "apache"]);
   ("apache2", ["http_server"; "httpd"]);
   ("nginx", ["nginx-core"; "nginx-full"; "nginx-light"; "nginx-extras"]);
   ("sudo", ["sudo-ldap"]);
   ("curl", ["libcurl4"; "libcurl3"; "libcurl"]);
   ("xz", ["xz-utils"; "liblzma5"; "xz_utils"]);
   ("xz_utils", ["xz-utils"; "liblzma5"; "xz"]);
   ("coreutils", ["coreutils"]);
   ("libwebp", ["libwebp7"; "libwebp-dev"; "libwebp-tools"])]%string.

Fixpoint map_get {V} (k : string) (l : list (string * V)) : option V :=
  match l with
  | [] => None
  | (k', v) :: l' => if String.eqb k k' then Some v else map_get k l'
  end.

(** [strings.ReplaceAll(s, "_", "-")]. *)
Definition dashes (s : string) : string := replace_byte "_" "-" s.

Definition first_is_digit (s : string) : bool :=
  match s with String c _ => is_digit c | EmptyString => false end.

(** The name tests of [MatchesProduct], on the normalised names; the
    confidence is in hundredths. *)
Definition product_match (target cpeProd : string) : option Z :=
  if String.eqb target cpeProd then Some 100 else
  let targetNorm := dashes target in
  let cpeProdNorm := dashes cpeProd in
  if String.eqb targetNorm cpeProdNorm then Some 100 else
  if HasPrefix targetNorm (cpeProdNorm ++ "-")%string then Some 95 else
  if HasPrefix targetNorm cpeProdNorm && (String.length cpeProdNorm <? String.length targetNorm)%nat
     && first_is_digit (string_drop (String.length cpeProdNorm) targetNorm) then Some 95 else
  if HasPrefix targetNorm "lib" && String.eqb (string_drop 3 targetNorm) cpeProdNorm then Some 92 else
  if HasPrefix cpeProdNorm "lib" && String.eqb (string_drop 3 cpeProdNorm) targetNorm then Some 92 else
  match map_get cpeProdNorm aliases with
  | Some l =>
    if existsb (fun a => String.eqb targetNorm a || HasPrefix targetNorm (a ++ "-")%string) l
    then Some 90 else None
  | None => None
  end.

Definition MatchesProduct (c : CPE23) (vendor product : string) : bool * float64 :=
  if String.eqb (Product c) "*" then (true, hundredths 50) else
  match product_match (ToLower (TrimSpace product)) (ToLower (TrimSpace (Product c))) with
  | Some p => (true, hundredths p)
  | None => (false, f_of_Z 0)
  end.

(** ** Version ranges *)

Inductive MatchStatus : Type :=
| MatchStatusMatched
| MatchStatusPossible
| MatchStatusNotAffected
| MatchStatusInsufficientData.

Record CPEMatchCriteria : Type := mkCriteria {
  cr_Vulnerable : bool;
  cr_Criteria : string;
  VersionStartIncluding : string;
  VersionStartExcluding : string;
  VersionEndIncluding : string;
  VersionEndExcluding : string;
  cr_MatchCriteriaID : string;
}.

Definition nonempty (s : string) : bool := negb (String.eqb s EmptyString).

(** [rangeStr]: the range in interval notation. *)
Definition range_string (c : CPEMatchCriteria) : string :=
  let start :=
    if nonempty (VersionStartExcluding c) then ("(" ++ VersionStartExcluding c)%string
    else if nonempty (VersionStartIncluding c) then ("[" ++ VersionStartIncluding c)%string
    else "(*"%string in
  let end_ :=
    if nonempty (VersionEndExcluding c) then (VersionEndExcluding c ++ ")")%string
    else if nonempty (VersionEndIncluding c) then (VersionEndIncluding c ++ "]")%string
    else "*)"%string in
  join ", " [start; end_].

Definition EvaluateVersionRange (installedVer : string) (c : CPEMatchCriteria)
    : MatchStatus * string * string :=
  let v := TrimSpace installedVer in
  if String.eqb v EmptyString || String.eqb v "-"
  then (MatchStatusInsufficientData, "Installed software missing version", "unknown")%string else
  let rangeStr := range_string c in
  if nonempty (VersionStartIncluding c) && (CompareVersions v (VersionStartIncluding c) <? 0)
  then (MatchStatusNotAffected,
        "Installed version " ++ v ++ " is older than affected start boundary "
          ++ VersionStartIncluding c, rangeStr)%string else
  if nonempty (VersionStartExcluding c) && (CompareVersions v (VersionStartExcluding c) <=? 0)
  then (MatchStatusNotAffected,
        "Installed version " ++ v ++ " is at or below excluded start boundary "
          ++ VersionStartExcluding c, rangeStr)%string else
  if nonempty (VersionEndIncluding c) && (0 <? CompareVersions v (VersionEndIncluding c))
  then (MatchStatusNotAffected,
        "Installed version " ++ v ++ " is newer than affected end boundary "
          ++ VersionEndIncluding c ++ " (patched)", rangeStr)%string else
  if nonempty (VersionEndExcluding c) && (0 <=? CompareVersions v (VersionEndExcluding c))
  then (MatchStatusNotAffected,
        "Installed version " ++ v ++ " is at or above excluded end boundary "
          ++ VersionEndExcluding c ++ " (patched)", rangeStr)%string else
  let within := (MatchStatusMatched,
    "Installed version " ++ v ++ " falls within vulnerable range " ++ rangeStr, rangeStr)%string in
  if String.eqb (VersionStartIncluding c) EmptyString && String.eqb (VersionStartExcluding c) EmptyString
     && String.eqb (VersionEndIncluding c) EmptyString && String.eqb (VersionEndExcluding c) EmptyString
  then
    match ParseCPE (cr_Criteria c) with
    | Ok cpe =>
      if negb (String.eqb (Version cpe) "*") && negb (String.eqb (Version cpe) "-") then
        if negb (CompareVersions v (Version cpe) =? 0)
        then (MatchStatusNotAffected,
              "Installed version " ++ v ++ " does not match exact CPE version " ++ Version cpe,
              Version cpe)%string
        else (MatchStatusMatched,
              "Installed version " ++ v ++ " exactly matches CPE version " ++ Version cpe,
              Version cpe)%string
      else within
    | Err _ => within
    end
  else within.

(** ** Matches *)

Definition CalculatePriorityScore (cvss : float64) (isKEV : bool) (epss : float64)
    (severity : string) (confidence : float64) : float64 :=
  let score := fmul cvss (f_of_Z 6) in
  let score := if isKEV then fadd score (f_of_Z 25) else score in
  let score := if flt (f_of_Z 0) epss then fadd score (fmul epss (f_of_Z 15)) else score in
  let score := if flt (f_of_Z 0) confidence && flt confidence (f_of_Z 1)
               then fmul score confidence else score in
  let score := if flt (f_of_Z 100) score then f_of_Z 100
               else if flt score (f_of_Z 0) then f_of_Z 0 else score in
  fdiv (Round (fmul score (f_of_Z 10))) (f_of_Z 10).

Inductive SoftwareConfidence : Type := ConfidenceAuthoritative | ConfidenceInferred | OtherConfidence (s : string).

Definition is_inferred (c : SoftwareConfidence) : bool :=
  match c with ConfidenceInferred => true | _ => false end.

Record InstalledSoftware : Type := mkSoftware {
  sw_ID : string;
  sw_TenantID : string;
  sw_EndpointID : string;
  sw_Source : string;
  sw_Vendor : string;
  sw_Product : string;
  sw_Version : string;
  sw_Architecture : string;
  sw_InstallScope : string;
  sw_Confidence : SoftwareConfidence;
  sw_RawVendor : string;
  sw_RawProduct : string;
  sw_RawVersion : string;
  sw_ObservedAt : Z;
}.

Record Vulnerability : Type := mkVulnerability {
  v_CVEID : string;
  v_Title : string;
  v_Description : string;
  v_Severity : string;
  v_CVSS : float64;
  v_IsKEV : bool;
  v_EPSS : float64;
  v_CPEPattern : string;
  v_PublishedAt : Z;
}.

Record VulnerabilityMatchEvidence : Type := mkEvidence {
  ev_SoftwareID : string;
  ev_Vendor : string;
  ev_Product : string;
  ev_Version : string;
  ev_RawVersion : string;
  ev_Source : string;
  ev_CPE : string;
  ev_VulnerableRange : string;
  ev_VersionComparison : string;
  ev_SnapshotID : string;
}.

Record VulnerabilityMatch : Type := mkMatch {
  m_ID : string;
  m_TenantID : string;
  m_EndpointID : string;
  m_SoftwareID : string;
  m_ProductName : string;
  m_Version : string;
  m_CVEID : string;
  m_Severity : string;
  m_CVSS : float64;
  m_IsKEV : bool;
  m_EPSS : float64;
  m_PriorityScore : float64;
  m_Status : MatchStatus;
  m_Confidence : float64;
  m_MatchReason : string;
  m_FeedSnapshotID : string;
  m_Evidence : string;
  m_DetectedAt : Z;
}.

(** [json.Unmarshal] into the criteria (what was decoded, and whether it
    failed), [json.Marshal] of the evidence, and the identifiers and times
    handed out for the [k]-th candidate. *)
Context (json_criteria : string -> list CPEMatchCriteria * bool)
        (json_evidence : VulnerabilityMatchEvidence -> string)
        (new_uuid : nat -> string) (clock : nat -> Z).

Definition criteria_of (v : Vulnerability) : list CPEMatchCriteria :=
  let '(l, failed) := json_criteria (v_CPEPattern v) in
  if (failed : bool) || (length l =? 0)%nat then
    if HasPrefix (v_CPEPattern v) "cpe:2.3:" || HasPrefix (v_CPEPattern v) "cpe:/"
    then [mkCriteria false (v_CPEPattern v) EmptyString EmptyString EmptyString EmptyString EmptyString]
    else l
  else l.

(** The match record built from a verdict. *)
Definition candidate (k : nat) (sw : InstalledSoftware) (v : Vulnerability) (snapshotID cpe : string)
    (status : MatchStatus) (reason comparison rangeStr : string) (conf : float64) : VulnerabilityMatch :=
  mkMatch (new_uuid k) (sw_TenantID sw) (sw_EndpointID sw) (sw_ID sw) (sw_Product sw) (sw_Version sw)
    (v_CVEID v) (v_Severity v) (v_CVSS v) (v_IsKEV v) (v_EPSS v)
    (CalculatePriorityScore (v_CVSS v) (v_IsKEV v) (v_EPSS v) (v_Severity v) conf)
    status conf reason snapshotID
    (json_evidence (mkEvidence (sw_ID sw) (sw_Vendor sw) (sw_Product sw) (sw_Version sw)
       (sw_RawVersion sw) (sw_Source sw) cpe rangeStr comparison snapshotID))
    (clock k).

(** The loop over the criteria: the first match, else the first candidate
    that is not affected. *)
Fixpoint correlate_loop (k : nat) (sw : InstalledSoftware) (v : Vulnerability) (snapshotID : string)
    (notAffected : option VulnerabilityMatch) (l : list CPEMatchCriteria) : option VulnerabilityMatch :=
  match l with
  | [] => notAffected
  | crit :: l' =>
    match ParseCPE (cr_Criteria crit) with
    | Err _ => correlate_loop k sw v snapshotID notAffected l'
    | Ok cpe =>
      let '(prodMatched, prodConf) := MatchesProduct cpe (sw_Vendor sw) (sw_Product sw) in
      if negb prodMatched then correlate_loop k sw v snapshotID notAffected l' else
      let '(status, reason, rangeStr) := EvaluateVersionRange (sw_Version sw) crit in
      let conf := if is_inferred (sw_Confidence sw) then fmul prodConf (hundredths 85) else prodConf in
      let m := candidate k sw v snapshotID (cr_Criteria crit) status reason reason rangeStr conf in
      match status with
      | MatchStatusMatched => Some m
      | MatchStatusNotAffected =>
        correlate_loop (S k) sw v snapshotID
          (match notAffected with None => Some m | _ => notAffected end) l'
      | _ => correlate_loop (S k) sw v snapshotID notAffected l'
      end
    end
  end.

Definition CorrelateSoftwareItem (sw : InstalledSoftware) (v : Vulnerability) (snapshotID : string)
    : option VulnerabilityMatch :=
  match correlate_loop 0 sw v snapshotID None (criteria_of v) with
  | Some m => Some m
  | None =>
    if nonempty (v_CPEPattern v) && contains_sub (ToLower (sw_Product sw)) (ToLower (v_CPEPattern v)) then
      let conf := if EqualFold (sw_Product sw) (v_CPEPattern v) then hundredths 95 else hundredths 80 in
      Some (candidate (length (criteria_of v)) sw v snapshotID (v_CPEPattern v) MatchStatusMatched
              ("Installed package '" ++ sw_Product sw ++ "' v" ++ sw_Version sw
                 ++ " matched CPE pattern '" ++ v_CPEPattern v ++ "'")%string
              ("Pattern '" ++ v_CPEPattern v ++ "' matched installed product '" ++ sw_Product sw ++ "'")%string
              "unspecified"%string conf)
    else None
  end.

End Vuln.

End vuln.
