(* ===== verification/VulnProps.v ===== *)
(** * Vulnerability correlation: what the comparison, the ranges and the
    matches guarantee *)

From Stdlib Require Import Ascii String SpecFloat.
From S2P Require Import Prelude Vuln.
Import vuln.

(** ** Three-way comparisons *)

(** A comparison that is antisymmetric and transitive. *)
Class Cmp {A} (f : A -> A -> Z) : Prop := {
  cmp_anti : forall x y, f y x = - f x y;
  cmp_trans : forall x y z, f x y <= 0 -> f y z <= 0 -> f x z <= 0;
}.

Lemma cmp_refl {A} (f : A -> A -> Z) `{!Cmp f} x : f x x = 0.
Proof. pose proof (cmp_anti x x). lia. Qed.

Lemma cmp_strict {A} (f : A -> A -> Z) `{!Cmp f} x y z :
  f x y <= 0 -> f y z <= 0 -> f x z = 0 -> f x y = 0 /\ f y z = 0.
Proof.
  intros H1 H2 H3. pose proof (cmp_anti (f := f) x z). pose proof (cmp_anti (f := f) x y).
  pose proof (cmp_anti (f := f) y z).
  pose proof (cmp_trans (f := f) y z x). pose proof (cmp_trans (f := f) z x y). lia.
Qed.

(** First [f], then [g] on a tie. *)
Definition lex {A} (f g : A -> A -> Z) (x y : A) : Z := let c := f x y in if c =? 0 then g x y else c.

#[export] Instance lex_Cmp {A} (f g : A -> A -> Z) `{!Cmp f} `{!Cmp g} : Cmp (lex f g).
Proof.
  split; unfold lex.
  - intros x y. rewrite (cmp_anti (f := f) x y), (cmp_anti (f := g) x y).
    destruct (Z.eqb_spec (f x y) 0), (Z.eqb_spec (- f x y) 0); lia.
  - intros x y z Hxy Hyz. pose proof (cmp_trans (f := f) x y z). pose proof (cmp_trans (f := g) x y z).
    pose proof (cmp_strict f x y z).
    destruct (Z.eqb_spec (f x y) 0), (Z.eqb_spec (f y z) 0), (Z.eqb_spec (f x z) 0); lia.
Qed.

#[export] Instance proj_Cmp {A B} (h : A -> B) (f : B -> B -> Z) `{!Cmp f} : Cmp (fun x y => f (h x) (h y)).
Proof. split; intros; [apply cmp_anti|by eapply cmp_trans]. Qed.

#[export] Instance cmp_Z_Cmp : Cmp cmp_Z.
Proof.
  split; unfold cmp_Z; intros.
  - destruct (Z.ltb_spec x y), (Z.ltb_spec y x); lia.
  - destruct (Z.ltb_spec x y), (Z.ltb_spec y x), (Z.ltb_spec y z), (Z.ltb_spec z y),
      (Z.ltb_spec x z), (Z.ltb_spec z x); lia.
Qed.

(** Strings compare as the lists of their bytes. *)
Fixpoint cmp_list {A} (f : A -> A -> Z) (l1 l2 : list A) : Z :=
  match l1, l2 with
  | [], [] => 0
  | [], _ :: _ => -1
  | _ :: _, [] => 1
  | a :: l1', b :: l2' => let c := f a b in if c =? 0 then cmp_list f l1' l2' else c
  end.

#[export] Instance cmp_list_Cmp {A} (f : A -> A -> Z) `{!Cmp f} : Cmp (cmp_list f).
Proof.
  split.
  - induction x as [|a x IH]; intros [|b y]; simpl; try done.
    rewrite (cmp_anti (f := f) a b). destruct (Z.eqb_spec (f a b) 0), (Z.eqb_spec (- f a b) 0); try lia. apply IH.
  - induction x as [|a x IH]; intros [|b y] [|c z]; simpl; try lia. specialize (IH y z).
    pose proof (cmp_trans (f := f) a b c). pose proof (cmp_strict f a b c).
    destruct (Z.eqb_spec (f a b) 0), (Z.eqb_spec (f b c) 0), (Z.eqb_spec (f a c) 0); lia.
Qed.

Definition cmp_N (a b : N) : Z := cmp_Z (Z.of_N a) (Z.of_N b).

#[export] Instance cmp_N_Cmp : Cmp cmp_N.
Proof. apply (proj_Cmp Z.of_N cmp_Z). Qed.

Definition string_Ns (s : string) : list N := map N_of_ascii (list_ascii_of_string s).

Lemma compare_bytes a b :
  (a ?= b)%string = Z.compare (cmp_list cmp_N (string_Ns a) (string_Ns b)) 0.
Proof.
  revert b. induction a as [|x a IH]; intros [|y b]; try done. simpl.
  unfold Ascii.compare, cmp_N at 1 3, cmp_Z. rewrite <- N2Z.inj_compare.
  destruct (Z.compare_spec (Z.of_N (N_of_ascii x)) (Z.of_N (N_of_ascii y))) as [E|E|E].
  - rewrite E, !Z.ltb_irrefl. apply IH.
  - by rewrite (proj2 (Z.ltb_lt _ _)) by lia.
  - rewrite (proj2 (Z.ltb_ge _ _)) by lia. by rewrite (proj2 (Z.ltb_lt _ _)) by lia.
Qed.

Lemma cmp_list_unit {A} (f : A -> A -> Z) l1 l2 :
  (forall x y, -1 <= f x y <= 1) -> -1 <= cmp_list f l1 l2 <= 1.
Proof.
  intros Hf. revert l2. induction l1 as [|a l1 IH]; intros [|b l2]; simpl; try lia.
  specialize (Hf a b). destruct (_ =? _); auto; lia.
Qed.

Lemma cmp_string_bytes a b : cmp_string a b = cmp_list cmp_N (string_Ns a) (string_Ns b).
Proof.
  pose proof (compare_bytes a b) as Hc.
  assert (-1 <= cmp_list cmp_N (string_Ns a) (string_Ns b) <= 1).
  { apply cmp_list_unit. intros x y. unfold cmp_N, cmp_Z. repeat case_match; lia. }
  unfold cmp_string, string_lt, String.ltb. rewrite Hc.
  destruct (String.eqb_spec a b) as [->|Hne]; simpl.
  - by rewrite (cmp_refl (cmp_list cmp_N)).
  - destruct (Z.compare_spec (cmp_list cmp_N (string_Ns a) (string_Ns b)) 0) as [E|E|E]; try lia.
    exfalso. apply Hne, String.compare_eq_iff. done.
Qed.

#[export] Instance cmp_string_Cmp : Cmp cmp_string.
Proof.
  split; intros *; rewrite !cmp_string_bytes; [apply cmp_anti|apply cmp_trans].
Qed.

(** ** Tokens compare by a key *)

Section Versions.
Context `{Unicode}.

(** Where a token's class stands; 2 is the end of the version. *)
Definition class_rank (t : tokenType) : Z :=
  match t with tokenTilde => 0 | tokenPrerelease => 1 | tokenStr | tokenPatch => 3 | tokenNum => 4 end.

Record key : Type := mkKey { k_rank : Z; k_num : Z; k_str : string }.

Definition token_key (t : versionToken) : key :=
  match typ t with
  | tokenNum => mkKey 4 (numVal t) EmptyString
  | c => mkKey (class_rank c) 0 (strVal t)
  end.

Definition end_key : key := mkKey 2 0 EmptyString.

Definition cmp_key : key -> key -> Z :=
  lex (fun x y => cmp_Z (k_rank x) (k_rank y))
    (lex (fun x y => cmp_Z (k_num x) (k_num y)) (fun x y => cmp_string (k_str x) (k_str y))).

#[local] Instance cmp_key_Cmp : Cmp cmp_key.
Proof. apply _. Qed.

Lemma cmp_token_key a b : cmp_token a b = cmp_key (token_key a) (token_key b).
Proof.
  destruct a as [ta sa na], b as [tb sb nb].
  destruct ta, tb; unfold cmp_token, cmp_key, lex, typ_eqb; simpl; try done.
  unfold cmp_Z. repeat case_match; done.
Qed.

(** The keys of a version, closed by the end marker. *)
Definition version_keys (l : list versionToken) : list key := map token_key l ++ [end_key].

Lemma cmp_end t : cmp_key end_key (token_key t) = if before_release t then 1 else -1.
Proof. destruct t as [[] ? ?]; done. Qed.

Lemma cmp_tokens_keys l1 l2 : cmp_tokens l1 l2 = cmp_list cmp_key (version_keys l1) (version_keys l2).
Proof.
  revert l2. induction l1 as [|a l1 IH]; intros [|b l2]; unfold version_keys in *;
    cbn [map app cmp_tokens cmp_list].
  - done.
  - rewrite cmp_end. by destruct (before_release b).
  - rewrite (cmp_anti (f := cmp_key) end_key (token_key a)), cmp_end. by destruct (before_release a).
  - rewrite cmp_token_key. by rewrite IH.
Qed.

#[local] Instance cmp_tokens_Cmp : Cmp cmp_tokens.
Proof. split; intros *; rewrite !cmp_tokens_keys; [apply cmp_anti|apply cmp_trans]. Qed.

Lemma cmp_rev_token_anti a b : cmp_rev_token b a = - cmp_rev_token a b.
Proof.
  unfold cmp_rev_token. rewrite (cmp_anti (f := cmp_Z) (numVal a)), (cmp_anti (f := cmp_string) (strVal a)).
  destruct (typ_eqb (typ a) tokenNum), (typ_eqb (typ b) tokenNum); done.
Qed.

Lemma cmp_revision_anti l1 l2 : cmp_revision l2 l1 = - cmp_revision l1 l2.
Proof.
  revert l2. induction l1 as [|a l1 IH]; intros [|b l2]; simpl; try done.
  rewrite (cmp_rev_token_anti a b).
  destruct (Z.eqb_spec (cmp_rev_token a b) 0), (Z.eqb_spec (- cmp_rev_token a b) 0); try lia. apply IH.
Qed.

(** Comparison is antisymmetric, so it is 0 on equal strings and the two
    directions never disagree. *)
Theorem compare_antisymmetric v1 v2 : CompareVersions v2 v1 = - CompareVersions v1 v2.
Proof.
  unfold CompareVersions. set (p := ParseVersion v1). set (q := ParseVersion v2). clearbody p q.
  rewrite (andb_comm (pv_HasEpoch q)), (andb_comm (negb (pv_Revision q =? "")%string)).
  rewrite (cmp_anti (f := cmp_Z) (pv_Epoch p)), (cmp_anti (f := cmp_tokens) (pv_Tokens p)).
  rewrite (cmp_revision_anti (tokenizeVersion (pv_Revision p))).
  destruct (pv_HasEpoch p && pv_HasEpoch q), (negb (pv_Revision p =? "")%string && _);
    repeat match goal with |- context [negb (?x =? 0)] => destruct (Z.eqb_spec x 0); cbn [negb] end; lia.
Qed.

(** On versions that agree on having an epoch and carry no revision,
    comparison is transitive: a total preorder. *)
Theorem compare_transitive v1 v2 v3 :
  pv_HasEpoch (ParseVersion v1) = pv_HasEpoch (ParseVersion v2) ->
  pv_HasEpoch (ParseVersion v2) = pv_HasEpoch (ParseVersion v3) ->
  pv_Revision (ParseVersion v1) = EmptyString -> pv_Revision (ParseVersion v2) = EmptyString ->
  pv_Revision (ParseVersion v3) = EmptyString ->
  CompareVersions v1 v2 <= 0 -> CompareVersions v2 v3 <= 0 -> CompareVersions v1 v3 <= 0.
Proof.
  unfold CompareVersions. set (p := ParseVersion v1). set (q := ParseVersion v2).
  set (r := ParseVersion v3). clearbody p q r.
  intros -> -> -> -> ->. cbn [String.eqb negb andb]. rewrite andb_diag.
  pose proof (cmp_trans (f := lex (fun x y => cmp_Z (pv_Epoch x) (pv_Epoch y))
                              (fun x y => cmp_tokens (pv_Tokens x) (pv_Tokens y))) p q r) as Ht.
  pose proof (cmp_trans (f := cmp_tokens) (pv_Tokens p) (pv_Tokens q) (pv_Tokens r)) as Ht'.
  unfold lex in Ht. revert Ht Ht'.
  generalize (cmp_Z (pv_Epoch p) (pv_Epoch q)), (cmp_Z (pv_Epoch q) (pv_Epoch r)),
    (cmp_Z (pv_Epoch p) (pv_Epoch r)), (cmp_tokens (pv_Tokens p) (pv_Tokens q)),
    (cmp_tokens (pv_Tokens q) (pv_Tokens r)), (cmp_tokens (pv_Tokens p) (pv_Tokens r)).
  intros a b c d e f. destruct (pv_HasEpoch r);
    destruct (Z.eqb_spec a 0), (Z.eqb_spec b 0), (Z.eqb_spec c 0); cbn [negb Z.eqb];
    destruct (Z.eqb_spec d 0), (Z.eqb_spec e 0), (Z.eqb_spec f 0); cbn [negb]; lia.
Qed.

(** In general it is not: an epoch counts only when both sides have one,
    so a version can be older than one that is itself older than it. *)
Theorem compare_not_transitive :
  exists v1 v2 v3,
    CompareVersions v1 v2 < 0 /\ CompareVersions v2 v3 < 0 /\ CompareVersions v3 v1 < 0.
Proof. exists "2:0.5"%string, "1.0"%string, "1:2.0"%string. by vm_compute. Qed.

(** ** The scan of a version *)

Lemma span_length f s : (String.length (snd (span f s)) <= String.length s)%nat.
Proof.
  induction s as [|c s IH]; simpl; [done|]. destruct (f c); [|simpl; lia].
  destruct (span f s) as [a b]. simpl in *. lia.
Qed.

Lemma span_shorter f c s :
  f c = true -> (String.length (snd (span f (String c s))) <= String.length s)%nat.
Proof.
  intros Hc. simpl. rewrite Hc. pose proof (span_length f s). by destruct (span f s).
Qed.

(** The rounds of the scan are enough: more of them change nothing. *)
Lemma tokenize_fuel fuel1 fuel2 s :
  (String.length s <= fuel1)%nat -> (String.length s <= fuel2)%nat ->
  tokenize_loop fuel1 s = tokenize_loop fuel2 s.
Proof.
  revert fuel2 s. induction fuel1 as [|fuel1 IH]; intros [|fuel2] [|c s] H1 H2; simpl in H1, H2;
    try done; try lia.
  cbn [tokenize_loop]. destruct (Ascii.eqb c "~") eqn:Ht; [f_equal; apply IH; lia|].
  destruct (is_digit c) eqn:Hd.
  - pose proof (span_shorter is_digit c s Hd). destruct (span is_digit (String c s)) as [a b].
    simpl in *. f_equal. apply IH; lia.
  - set (f := fun d => negb (is_digit d) && negb (Ascii.eqb d "~")).
    assert (f c = true) as Hf by (unfold f; by rewrite Hd, Ht).
    pose proof (span_shorter f c s Hf). destruct (span f (String c s)) as [a b].
    simpl in *. f_equal. apply IH; lia.
Qed.

(** ** Ranges *)

(** Inside the bounds that are set. *)
Definition in_bounds (v : string) (c : CPEMatchCriteria) : Prop :=
  (VersionStartIncluding c <> EmptyString -> 0 <= CompareVersions v (VersionStartIncluding c)) /\
  (VersionStartExcluding c <> EmptyString -> 0 < CompareVersions v (VersionStartExcluding c)) /\
  (VersionEndIncluding c <> EmptyString -> CompareVersions v (VersionEndIncluding c) <= 0) /\
  (VersionEndExcluding c <> EmptyString -> CompareVersions v (VersionEndExcluding c) < 0).

Definition unbounded (c : CPEMatchCriteria) : Prop :=
  VersionStartIncluding c = EmptyString /\ VersionStartExcluding c = EmptyString /\
  VersionEndIncluding c = EmptyString /\ VersionEndExcluding c = EmptyString.

(** The exact version a criterion without bounds names, when it names one. *)
Definition exact_ok (v : string) (c : CPEMatchCriteria) : Prop :=
  forall cpe, ParseCPE (cr_Criteria c) = Ok cpe -> Version cpe <> "*"%string -> Version cpe <> "-"%string ->
    CompareVersions v (Version cpe) = 0.

Lemma nonempty_spec s : nonempty s = true <-> s <> EmptyString.
Proof. unfold nonempty. rewrite negb_true_iff, String.eqb_neq. done. Qed.

Lemma unbounded_dec c :
  String.eqb (VersionStartIncluding c) EmptyString && String.eqb (VersionStartExcluding c) EmptyString
  && String.eqb (VersionEndIncluding c) EmptyString && String.eqb (VersionEndExcluding c) EmptyString = true
  <-> unbounded c.
Proof. unfold unbounded. rewrite !andb_true_iff, !String.eqb_eq. tauto. Qed.

Definition in_boundsb (v : string) (c : CPEMatchCriteria) : bool :=
  negb (nonempty (VersionStartIncluding c) && (CompareVersions v (VersionStartIncluding c) <? 0)) &&
  negb (nonempty (VersionStartExcluding c) && (CompareVersions v (VersionStartExcluding c) <=? 0)) &&
  negb (nonempty (VersionEndIncluding c) && (0 <? CompareVersions v (VersionEndIncluding c))) &&
  negb (nonempty (VersionEndExcluding c) && (0 <=? CompareVersions v (VersionEndExcluding c))).

Definition exact_okb (v : string) (c : CPEMatchCriteria) : bool :=
  match ParseCPE (cr_Criteria c) with
  | Ok cpe =>
    String.eqb (Version cpe) "*" || String.eqb (Version cpe) "-" || (CompareVersions v (Version cpe) =? 0)
  | Err _ => true
  end.

Lemma bound_dec s (b : bool) (P : Prop) :
  (b = false <-> P) -> negb (nonempty s && b) = true <-> (s <> EmptyString -> P).
Proof.
  intros Hb. rewrite negb_true_iff. pose proof (nonempty_spec s) as Hs.
  destruct (nonempty s), b; simpl; naive_solver.
Qed.

Lemma in_bounds_dec v c : in_boundsb v c = true <-> in_bounds v c.
Proof.
  unfold in_boundsb, in_bounds. rewrite !andb_true_iff.
  rewrite (bound_dec _ _ _ (Z.ltb_ge _ _)), (bound_dec _ _ _ (Z.leb_gt _ _)),
    (bound_dec _ _ _ (Z.ltb_ge _ _)), (bound_dec _ _ _ (Z.leb_gt _ _)). tauto.
Qed.

Lemma exact_ok_dec v c : exact_okb v c = true <-> exact_ok v c.
Proof.
  unfold exact_okb, exact_ok. destruct (ParseCPE (cr_Criteria c)) as [cpe|e]; [|naive_solver].
  rewrite !orb_true_iff, !String.eqb_eq, Z.eqb_eq. split.
  - intros Hc cpe' [= <-]. naive_solver.
  - intros Hc. destruct (String.eqb_spec (Version cpe) "*"), (String.eqb_spec (Version cpe) "-"); auto.
Qed.

Lemma evaluate_status installed c :
  let v := TrimSpace installed in
  fst (fst (EvaluateVersionRange installed c)) =
  if String.eqb v EmptyString || String.eqb v "-" then MatchStatusInsufficientData
  else if in_boundsb v c &&
    negb (String.eqb (VersionStartIncluding c) EmptyString && String.eqb (VersionStartExcluding c) EmptyString
      && String.eqb (VersionEndIncluding c) EmptyString && String.eqb (VersionEndExcluding c) EmptyString
      && negb (exact_okb v c))
  then MatchStatusMatched else MatchStatusNotAffected.
Proof.
  intros v. unfold EvaluateVersionRange, in_boundsb, exact_okb. fold v.
  destruct (String.eqb v EmptyString || String.eqb v "-"); [done|].
  destruct (nonempty (VersionStartIncluding c) && _); [done|].
  destruct (nonempty (VersionStartExcluding c) && _); [done|].
  destruct (nonempty (VersionEndIncluding c) && _); [done|].
  destruct (nonempty (VersionEndExcluding c) && _); [done|]. cbn [negb andb].
  destruct (String.eqb (VersionStartIncluding c) EmptyString && _ && _ && _); [|done]. cbn [andb].
  destruct (ParseCPE (cr_Criteria c)) as [cpe|e]; [|done].
  destruct (String.eqb (Version cpe) "*"), (String.eqb (Version cpe) "-"),
    (CompareVersions v (Version cpe) =? 0); done.
Qed.

(** An installed version is reported as affected exactly when it has a
    version text, lies within every bound the criterion sets and, where it
    sets none, equals the version its CPE names; otherwise it is reported as
    not affected, or as lacking data exactly when the version text is missing. *)
Theorem range_verdict installed c :
  let v := TrimSpace installed in
  let missing := v = EmptyString \/ v = "-"%string in
  let status := fst (fst (EvaluateVersionRange installed c)) in
  (status = MatchStatusInsufficientData <-> missing) /\
  (status = MatchStatusMatched <-> ~ missing /\ in_bounds v c /\ (unbounded c -> exact_ok v c)) /\
  status <> MatchStatusPossible.
Proof.
  intros v missing status. unfold status. rewrite evaluate_status. fold v.
  assert (String.eqb v EmptyString || String.eqb v "-" = true <-> missing) as Hm
    by (unfold missing; by rewrite orb_true_iff, !String.eqb_eq).
  rewrite <- Hm, <- in_bounds_dec, <- exact_ok_dec, <- unbounded_dec.
  generalize (String.eqb v EmptyString || String.eqb v "-"), (in_boundsb v c), (exact_okb v c),
    (String.eqb (VersionStartIncluding c) EmptyString && String.eqb (VersionStartExcluding c) EmptyString
     && String.eqb (VersionEndIncluding c) EmptyString && String.eqb (VersionEndExcluding c) EmptyString).
  clear. intros [] [] [] []; simpl; intuition congruence.
Qed.

(** ** CPE names *)

(** The escaped form of a component: a backslash before [:] and [\ ]. *)
Fixpoint escape (s : string) : string :=
  match s with
  | EmptyString => EmptyString
  | String c s' =>
    if Ascii.eqb c ":" || Ascii.eqb c "\" then String "\" (String c (escape s')) else String c (escape s')
  end.

Lemma split_escape t cur rest :
  split_loop false cur (escape t ++ rest) = split_loop false (rev (list_ascii_of_string t) ++ cur) rest.
Proof.
  revert cur. induction t as [|c t IH]; intros cur; [done|].
  cbn [escape list_ascii_of_string rev]. rewrite <- app_assoc. cbn [app].
  destruct (Ascii.eqb c ":" || Ascii.eqb c "\") eqn:E.
  - simpl. apply IH.
  - apply orb_false_iff in E as [E1 E2].
    change ((String c (escape t) ++ rest)%string) with (String c (escape t ++ rest)).
    cbn [split_loop]. rewrite E2, E1. apply IH.
Qed.

(** Splitting a CPE name undoes joining its escaped components, whatever
    colons and backslashes they hold. *)
Theorem split_join_escaped (l : list string) :
  l <> [] -> splitCPEEscaped (join ":" (map escape l)) = l.
Proof.
  intros Hl. unfold splitCPEEscaped. induction l as [|t [|u l] IH]; [done| |].
  - cbn [map join]. pose proof (split_escape t [] EmptyString) as Hs.
    rewrite string_app_nil in Hs. rewrite Hs, app_nil_r. simpl. f_equal.
    rewrite rev_involutive. apply string_of_list_ascii_of_string.
  - change (join ":" (map escape (t :: u :: l)))
      with (escape t ++ String ":" (join ":" (map escape (u :: l))))%string.
    rewrite split_escape, app_nil_r. cbn [split_loop Ascii.eqb Bool.eqb]. rewrite IH by done.
    rewrite rev_involutive, string_of_list_ascii_of_string. done.
Qed.

(** Two entries of the alias table can never be used: the table is read
    with underscores already replaced by dashes, so a CPE for http_server is
    not matched by the package apache2 its entry lists. *)
Theorem alias_unreachable vendor c :
  Product c = "http_server"%string ->
  map_get "http_server" aliases = Some ["apache2"; "httpd"; "apache"]%string /\
  fst (MatchesProduct c vendor "apache2") = false.
Proof. intros E. unfold MatchesProduct. rewrite E. by vm_compute. Qed.

(** Escapes in a CPE name are removed twice, so an escaped backslash is
    lost from the product it names. *)
Theorem escaped_backslash_lost :
  splitCPEEscaped (join ":" (map escape ["a"; "v"; "ab\c"]))%string = ["a"; "v"; "ab\c"]%string /\
  exists cpe, ParseCPE ("cpe:2.3:" ++ join ":" (map escape ["a"; "v"; "ab\c"]))%string = Ok cpe /\
    Product cpe = "abc"%string.
Proof. split; [by vm_compute|]. eexists. by vm_compute. Qed.

(** ** Matches *)

Section Correlate.
Context (json_criteria : string -> list CPEMatchCriteria * bool)
        (json_evidence : VulnerabilityMatchEvidence -> string)
        (new_uuid : nat -> string) (clock : nat -> Z).

(** The product of the criterion is installed. *)
Definition names_product (sw : InstalledSoftware) (c : CPEMatchCriteria) : Prop :=
  exists cpe, ParseCPE (cr_Criteria c) = Ok cpe /\
    fst (MatchesProduct cpe (sw_Vendor sw) (sw_Product sw)) = true.

(** The criterion finds the installed version affected. *)
Definition affects (sw : InstalledSoftware) (c : CPEMatchCriteria) : Prop :=
  names_product sw c /\ fst (fst (EvaluateVersionRange (sw_Version sw) c)) = MatchStatusMatched.

Definition clears (sw : InstalledSoftware) (c : CPEMatchCriteria) : Prop :=
  names_product sw c /\ fst (fst (EvaluateVersionRange (sw_Version sw) c)) = MatchStatusNotAffected.

Definition loop_post (sw : InstalledSoftware) (na : option VulnerabilityMatch)
    (l : list CPEMatchCriteria) (r : option VulnerabilityMatch) : Prop :=
  (Exists (affects sw) l -> exists m, r = Some m /\ m_Status m = MatchStatusMatched) /\
  (~ Exists (affects sw) l ->
    (is_Some r <-> is_Some na \/ Exists (clears sw) l) /\
    forall m, r = Some m -> m_Status m = MatchStatusNotAffected).

(** What one criterion says of the software. *)
Lemma correlate_step sw c :
  (~ names_product sw c /\ ~ affects sw c /\ ~ clears sw c) \/
  exists cpe conf st reason rng,
    ParseCPE (cr_Criteria c) = Ok cpe /\
    MatchesProduct cpe (sw_Vendor sw) (sw_Product sw) = (true, conf) /\
    EvaluateVersionRange (sw_Version sw) c = (st, reason, rng) /\
    (affects sw c <-> st = MatchStatusMatched) /\ (clears sw c <-> st = MatchStatusNotAffected).
Proof.
  assert (~ names_product sw c -> ~ names_product sw c /\ ~ affects sw c /\ ~ clears sw c) as Hno.
  { intros Hn. split; [done|]. split; by intros [? _]. }
  destruct (ParseCPE (cr_Criteria c)) as [cpe|e] eqn:Ep.
  2: { left. apply Hno. intros (cpe & E & _). congruence. }
  destruct (MatchesProduct cpe (sw_Vendor sw) (sw_Product sw)) as [[] conf] eqn:Em.
  2: { left. apply Hno. intros (cpe' & E & Ht). assert (cpe' = cpe) as -> by congruence. by rewrite Em in Ht. }
  assert (names_product sw c) by (exists cpe; by rewrite Em).
  unfold affects, clears.
  destruct (EvaluateVersionRange (sw_Version sw) c) as [[st reason] rng]. right.
  exists cpe, conf, st, reason, rng. simpl. tauto.
Qed.

Lemma correlate_skip k sw v snap na c l :
  ~ names_product sw c ->
  correlate_loop json_evidence new_uuid clock k sw v snap na (c :: l)
  = correlate_loop json_evidence new_uuid clock k sw v snap na l.
Proof.
  intros Hn. cbn [correlate_loop]. unfold names_product in Hn.
  destruct (ParseCPE (cr_Criteria c)) as [cpe|e]; [|done].
  destruct (MatchesProduct cpe (sw_Vendor sw) (sw_Product sw)) as [[] conf] eqn:Em; [|done].
  exfalso. apply Hn. exists cpe. by rewrite Em.
Qed.

Lemma correlate_loop_spec sw v snap l k na :
  (forall m, na = Some m -> m_Status m = MatchStatusNotAffected) ->
  loop_post sw na l (correlate_loop json_evidence new_uuid clock k sw v snap na l).
Proof.
  revert k na. induction l as [|c l IH]; intros k na Hna; unfold loop_post in *.
  { rewrite !Exists_nil. cbn [correlate_loop]. split; [done|]. intros _. split; [tauto|done]. }
  rewrite !Exists_cons. destruct (correlate_step sw c) as [(Hn & Ha & Hc)|Hs].
  - rewrite correlate_skip by done. specialize (IH k na Hna). intuition.
  - destruct Hs as (cpe & conf & st & reason & rng & E1 & E2 & E3 & Ha & Hc). cbn [correlate_loop].
    rewrite E1, E2, E3, Ha, Hc. cbn [negb].
    set (m := candidate _ _ _ _ _ _ _ _ _ _ _ _ _). destruct st; cbn iota.
    + split; [by exists m|]. intros []; by left.
    + specialize (IH (S k) na Hna). assert (MatchStatusPossible <> MatchStatusMatched) by done.
      assert (MatchStatusPossible <> MatchStatusNotAffected) by done. tauto.
    + specialize (IH (S k) (match na with None => Some m | _ => na end)). destruct IH as [I1 I2].
      { intros m'. destruct na as [m0|]; [by intros [= <-]; apply Hna|by intros [= <-]]. }
      split; [intros [?|?]; [done|auto]|]. intros Hno. destruct I2 as [I2 I3]; [tauto|]. split; [|done].
      rewrite I2. split; [tauto|]. intros _. left. by destruct na.
    + specialize (IH (S k) na Hna). assert (MatchStatusInsufficientData <> MatchStatusMatched) by done.
      assert (MatchStatusInsufficientData <> MatchStatusNotAffected) by done. tauto.
Qed.

(** C31: software is reported as affected whenever one of the criteria finds
    it so; a verdict of not affected is given only when a criterion clears it
    and none affects it. *)
Theorem correlate_verdict sw v snap :
  let l := criteria_of json_criteria v in
  let r := CorrelateSoftwareItem json_criteria json_evidence new_uuid clock sw v snap in
  (Exists (affects sw) l -> exists m, r = Some m /\ m_Status m = MatchStatusMatched) /\
  (forall m, r = Some m -> m_Status m = MatchStatusNotAffected ->
     Exists (clears sw) l /\ ~ Exists (affects sw) l) /\
  (~ Exists (affects sw) l -> Exists (clears sw) l ->
     exists m, r = Some m /\ m_Status m = MatchStatusNotAffected).
Proof.
  intros l r. destruct (correlate_loop_spec sw v snap l 0 None) as [H1 H2]; [done|].
  unfold r, CorrelateSoftwareItem. fold l.
  destruct (correlate_loop _ _ _ _ _ _ _ _ _) as [m|] eqn:El.
  - split; [done|]. split.
    + intros m' [= <-] Hs. assert (~ Exists (affects sw) l) as Hno.
      { intros (m' & [= <-] & Hm)%H1. congruence. }
      split; [|done]. destruct (H2 Hno) as [[[[? ?]|?] _] _]; done.
    + intros Hno _. exists m. split; [done|]. by apply H2.
  - split; [intros (m & ? & _)%H1; done|]. split.
    + intros m. case_match; [|done]. by intros [= <-].
    + intros Hno Hc. destruct (H2 Hno) as [[_ Hs] _]. by destruct Hs as [? ?]; [right|].
Qed.

End Correlate.

End Versions.

(** ** The theorems at concrete inputs *)

Module vuln_examples.

#[local] Existing Instance ascii_only.

Lemma compare_transitive_witness : CompareVersions "2.0-rc1" "2.0" <= 0 /\ CompareVersions "2.0-rc1" "2.0p1" <= 0.
Proof.
  split; [by vm_compute|]. apply (compare_transitive "2.0-rc1" "2.0" "2.0p1"); by vm_compute.
Defined.

Lemma split_join_escaped_witness :
  splitCPEEscaped (join ":" (map escape ["a:b"; "c\d"; ""]%string)) = ["a:b"; "c\d"; ""]%string.
Proof. apply (split_join_escaped ["a:b"; "c\d"; ""]%string). discriminate. Defined.

Lemma alias_unreachable_witness :
  fst (MatchesProduct (mkCPE "a" "apache" "http_server" "*" "*" "*" "*" "*" "*" "*" "*")
         "apache" "apache2") = false.
Proof. exact (proj2 (alias_unreachable "apache" (mkCPE "a" "apache" "http_server" "*" "*" "*" "*" "*" "*" "*" "*") eq_refl)). Defined.

End vuln_examples.
