(* ===== verification/Terminal.v ===== *)
(** * Terminal sessions: the session manager and its table

    Package terminal: src/hub/pkg/terminal/session.go, store.go and policy.go.
    The manager's state is the record [Manager]: the [terminal_sessions] table
    and the sessions in memory, both keyed by session id. A handler holds the
    manager's and the session's locks while it changes them, so each one is a
    function on that state; times are nanoseconds and [now] is the reading of
    the clock the handler takes. The database accepts every statement but an
    insert of an existing primary key. SHA-256, the JSON codecs, the fresh
    identifiers and the evidence store are parameters. *)

From Stdlib Require Import Ascii String.
From stdpp Require Import gmap strings.
From S2P Require Import Prelude.

Module terminal.

(** ** Data *)

Inductive SessionState : Type :=
| StateClosed
| StateWaiting
| StateConnecting
| StateActive
| StateClosing
| StateFailed
| StateExpired
| StateDetached.

#[export] Instance SessionState_eq_dec : EqDecision SessionState.
Proof. solve_decision. Defined.

Definition LiveStates : list SessionState := [StateWaiting; StateConnecting; StateActive; StateDetached].

Definition live (st : SessionState) : bool := bool_decide (st ∈ LiveStates).

(** The states a session does not leave. *)
Definition ended (st : SessionState) : bool := bool_decide (st ∈ [StateClosed; StateFailed; StateExpired]).

Inductive FrameType : Type :=
| FrameStdin
| FrameStdout
| FrameResize
| FrameClose
| FrameOther (t : string).

#[export] Instance FrameType_eq_dec : EqDecision FrameType.
Proof. solve_decision. Defined.

Record TerminalFrame : Type := mkFrame {
  f_Type : FrameType;
  f_Timestamp : Z;
  f_Data : string;
  f_Rows : Z;
  f_Cols : Z;
}.

#[export] Instance eta_TerminalFrame : Eta TerminalFrame :=
  fun x => mkFrame (f_Type x) (f_Timestamp x) (f_Data x) (f_Rows x) (f_Cols x).

Definition DefaultMaxSessionRecordingBytes : Z := 10 * 1024 * 1024.

Definition Second : Z := 1000000000.
Definition Minute : Z := 60 * Second.
Definition Hour : Z := 60 * Minute.

(** One message in flight through a relay (relay.go). *)
Record relayMsg : Type := mkMsg { msg_typ : Z; msg_data : string; msg_cost : Z }.

(** A registered kind of session other than a shell (policy.go); an empty
    message is [nil]. *)
Record SessionKind : Type := mkKind {
  Prefix : string;
  Name : string;
  MaxWatchers : Z;
  MaxPerEndpoint : Z;
  NoRecording : bool;
  AttachedIsActivity : bool;
  PauseMessage : string;
  ResumeMessage : string;
}.

(** A watch attachment (watch.go): its connection and its queue. *)
Record watcher : Type := mkWatcher { w_conn : nat; w_out : list relayMsg }.

(** The relay between the operator and the agent of one session (relay.go);
    [pol] is the state of the kind's frame policy, absent for a shell, and
    [closed] says [done] is closed. Connections are numbered. *)
Record PairedRelay (P : Type) : Type := mkRelay {
  opConn : option nat;
  agentConn : option nat;
  opToAgent : list relayMsg;
  agentToOp : list relayMsg;
  kind : option SessionKind;
  pol : option P;
  watchers : list watcher;
  paused : bool;
  opQueue : Z;
  agQueue : Z;
  closed : bool;
  detached : bool;
  opStop : option nat;
}.
Arguments mkRelay {P}.
Arguments opConn {P}. Arguments agentConn {P}. Arguments opToAgent {P}. Arguments agentToOp {P}.
Arguments kind {P}. Arguments pol {P}. Arguments watchers {P}. Arguments paused {P}.
Arguments opQueue {P}. Arguments agQueue {P}. Arguments closed {P}. Arguments detached {P}.
Arguments opStop {P}.

#[export] Instance eta_PairedRelay {P} : Eta (PairedRelay P) :=
  fun x => mkRelay (opConn x) (agentConn x) (opToAgent x) (agentToOp x) (kind x) (pol x)
    (watchers x) (paused x) (opQueue x) (agQueue x) (closed x) (detached x) (opStop x).

(** [G] is the type of signed grants. *)
Record TerminalSession (P G : Type) : Type := mkSession {
  SessionID : string;
  TenantID : string;
  EndpointID : string;
  OperatorID : string;
  Program : string;
  State : SessionState;
  ConnectToken : string;
  TokenHash : string;
  OperatorTokenHash : string;
  OperatorToken : string;
  CreatedAt : Z;
  ExpiresAt : Z;
  IdleExpiresAt : Z;
  StartedAt : option Z;
  ClosedAt : option Z;
  CloseReason : string;
  OperatorConnected : bool;
  AgentConnected : bool;
  Grant : option G;
  Frames : list TerminalFrame;
  dirty : bool;
  BundleID : string;
  EvidenceItemID : string;
  RecordingState : string;
  RecordingBytes : Z;
  MaxRecordingBytes : Z;
  FrameCount : Z;
  relay : option (PairedRelay P);
}.
Arguments mkSession {P G}.
Arguments SessionID {P G}. Arguments TenantID {P G}. Arguments EndpointID {P G}.
Arguments OperatorID {P G}. Arguments Program {P G}. Arguments State {P G}.
Arguments ConnectToken {P G}. Arguments TokenHash {P G}. Arguments OperatorTokenHash {P G}.
Arguments OperatorToken {P G}. Arguments CreatedAt {P G}. Arguments ExpiresAt {P G}.
Arguments IdleExpiresAt {P G}. Arguments StartedAt {P G}. Arguments ClosedAt {P G}.
Arguments CloseReason {P G}. Arguments OperatorConnected {P G}. Arguments AgentConnected {P G}.
Arguments Grant {P G}. Arguments Frames {P G}. Arguments dirty {P G}. Arguments BundleID {P G}.
Arguments EvidenceItemID {P G}. Arguments RecordingState {P G}. Arguments RecordingBytes {P G}.
Arguments MaxRecordingBytes {P G}. Arguments FrameCount {P G}. Arguments relay {P G}.

#[export] Instance eta_TerminalSession {P G} : Eta (TerminalSession P G) :=
  fun x => mkSession (SessionID x) (TenantID x) (EndpointID x) (OperatorID x) (Program x) (State x)
    (ConnectToken x) (TokenHash x) (OperatorTokenHash x) (OperatorToken x) (CreatedAt x) (ExpiresAt x)
    (IdleExpiresAt x) (StartedAt x) (ClosedAt x) (CloseReason x) (OperatorConnected x) (AgentConnected x)
    (Grant x) (Frames x) (dirty x) (BundleID x) (EvidenceItemID x) (RecordingState x) (RecordingBytes x)
    (MaxRecordingBytes x) (FrameCount x) (relay x).

(** A row of [terminal_sessions]. *)
Record Row : Type := mkRow {
  r_tenant_id : string;
  r_endpoint_id : string;
  r_operator_id : string;
  r_program : string;
  r_state : SessionState;
  r_token_hash : string;
  r_created_at : Z;
  r_expires_at : Z;
  r_idle_expires_at : Z;
  r_started_at : option Z;
  r_closed_at : option Z;
  r_close_reason : option string;
  r_operator_connected : bool;
  r_agent_connected : bool;
  r_grant_json : string;
  r_bundle_id : string;
  r_evidence_item_id : string;
  r_recording_state : string;
  r_recording_bytes : Z;
  r_frame_count : Z;
  r_operator_token_hash : string;
}.

#[export] Instance eta_Row : Eta Row :=
  fun x => mkRow (r_tenant_id x) (r_endpoint_id x) (r_operator_id x) (r_program x) (r_state x)
    (r_token_hash x) (r_created_at x) (r_expires_at x) (r_idle_expires_at x) (r_started_at x)
    (r_closed_at x) (r_close_reason x) (r_operator_connected x) (r_agent_connected x) (r_grant_json x)
    (r_bundle_id x) (r_evidence_item_id x) (r_recording_state x) (r_recording_bytes x) (r_frame_count x)
    (r_operator_token_hash x).

(** ** Limits *)

Record Limits : Type := mkLimits { MaxDuration : Z; IdleTimeout : Z; PerEndpoint : Z; PerTenant : Z }.

Definition MaxSessionsPerEndpoint : Z := 3.
Definition MaxSessionsPerTenant : Z := 8.
Definition DefaultMaxDuration : Z := 4 * Hour.
Definition DefaultIdleTimeout : Z := 15 * Minute.

Definition DefaultLimits : Limits :=
  mkLimits DefaultMaxDuration DefaultIdleTimeout MaxSessionsPerEndpoint MaxSessionsPerTenant.

(** [LimitBounds]. *)
Definition MinDuration : Z := 5 * Minute.
Definition LongestDuration : Z := 24 * Hour.
Definition MinIdle : Z := Minute.
Definition MinPerEndpoint : Z := 1.
Definition HighestPerEndpoint : Z := 10.
Definition MinPerTenant : Z := 1.
Definition HighestPerTenant : Z := 50.

(** [%] on durations: truncated division. *)
Definition Limits_Validate (l : Limits) : result string unit :=
  if (MaxDuration l <? MinDuration) || (LongestDuration <? MaxDuration l)
  then Err "session length must be between 5m0s and 24h0m0s"
  else if negb (Z.rem (MaxDuration l) Minute =? 0) then Err "session length must be whole minutes"
  else if (IdleTimeout l <? MinIdle) || (MaxDuration l <? IdleTimeout l)
  then Err "idle timeout must be between 1m0s and the session length"
  else if negb (Z.rem (IdleTimeout l) Minute =? 0) then Err "idle timeout must be whole minutes"
  else if (PerEndpoint l <? MinPerEndpoint) || (HighestPerEndpoint <? PerEndpoint l)
  then Err "sessions per endpoint must be between 1 and 10"
  else if (PerTenant l <? MinPerTenant) || (HighestPerTenant <? PerTenant l)
  then Err "sessions per tenant must be between 1 and 50"
  else if PerTenant l <? PerEndpoint l
  then Err "sessions per tenant may not be fewer than sessions per endpoint"
  else Ok tt.

(** ** The evidence store, as the manager uses it *)

Record EvidenceItem : Type := mkItem { item_ID : string; item_SizeBytes : Z; item_SHA256 : string }.

Record ManifestItem : Type := mkManifestItem {
  mi_Name : string; mi_SizeBytes : Z; mi_SHA256 : string; mi_CollectorStatus : string }.

Record Manifest : Type := mkManifest {
  mf_BundleID : string; mf_EndpointID : string; mf_TenantID : string; mf_JobID : string;
  mf_Profile : string; mf_CollectedAt : Z; mf_Items : list ManifestItem }.

Class EvidenceStore (E : Type) := {
  CreateBundle : E -> string -> string -> string -> string -> Z -> E * result string string;
  StoreItem : E -> string -> string -> string -> string -> string -> string -> E * result string EvidenceItem;
  FinalizeBundle : E -> string -> string -> Manifest -> string -> E * result string unit;
  ReadItemData : E -> string -> string -> result string string;
}.

(** ** The manager *)

Record Manager (P G E : Type) : Type := mkManager {
  db : gmap string Row;
  evidenceStore : option E;
  sessions : gmap string (TerminalSession P G);
  maxDuration : Z;
  idleTimeout : Z;
  perEndpoint : Z;
  perTenant : Z;
  connectTimeout : Z;
  maxRecordingBytes : Z;
  kinds : list SessionKind;
}.
Arguments mkManager {P G E}.
Arguments db {P G E}. Arguments evidenceStore {P G E}. Arguments sessions {P G E}.
Arguments maxDuration {P G E}. Arguments idleTimeout {P G E}. Arguments perEndpoint {P G E}.
Arguments perTenant {P G E}. Arguments connectTimeout {P G E}. Arguments maxRecordingBytes {P G E}.
Arguments kinds {P G E}.

#[export] Instance eta_Manager {P G E} : Eta (Manager P G E) :=
  fun x => mkManager (db x) (evidenceStore x) (sessions x) (maxDuration x) (idleTimeout x)
    (perEndpoint x) (perTenant x) (connectTimeout x) (maxRecordingBytes x) (kinds x).

Section Manager.
Context {P G E : Type} `{!EvidenceStore E}.
Context (HashToken : string -> string).
Context (marshal_grant : G -> result string string) (unmarshal_grant : string -> option G).
Context (marshal_frame : TerminalFrame -> option string) (unmarshal_frame : string -> option TerminalFrame).

Local Notation Mgr := (Manager P G E).
Local Notation Session := (TerminalSession P G).

Implicit Types (m : Mgr) (s : Session) (r : Row).

(** ** The table (store.go) *)

Definition on_row (f : Row -> Row) (id : string) (m : Mgr) : Mgr := m <| db ::= alter f id |>.

Definition insertDurableSession (s : Session) (m : Mgr) : result string Mgr :=
  grantJSON ← match Grant s with Some g => marshal_grant g | None => Ok EmptyString end;
  match db m !! SessionID s with
  | Some _ => Err "UNIQUE constraint failed: terminal_sessions.session_id"%string
  | None =>
    Ok (m <| db ::= <[SessionID s :=
      mkRow (TenantID s) (EndpointID s) (OperatorID s) (Program s) (State s) (TokenHash s)
        (CreatedAt s) (ExpiresAt s) (IdleExpiresAt s) None None None false false grantJSON
        (BundleID s) (EvidenceItemID s) (RecordingState s) (RecordingBytes s) (FrameCount s)
        (OperatorTokenHash s)]> |>)
  end.

Definition updateRecordingMetadata (id bundleID evidenceItemID recordingState : string)
    (recordingBytes frameCount : Z) : Mgr -> Mgr :=
  on_row (fun r => r <| r_bundle_id := bundleID |> <| r_evidence_item_id := evidenceItemID |>
    <| r_recording_state := recordingState |> <| r_recording_bytes := recordingBytes |>
    <| r_frame_count := frameCount |>) id.

Definition updateDurableState (id : string) (st : SessionState) (startedAt closedAt : option Z)
    (closeReason : string) (opConn agConn : bool) : Mgr -> Mgr :=
  on_row (fun r => r <| r_state := st |>
    <| r_started_at := match startedAt with Some t => Some t | None => r_started_at r end |>
    <| r_closed_at := closedAt |> <| r_close_reason := Some closeReason |>
    <| r_operator_connected := opConn |> <| r_agent_connected := agConn |>) id.

(** [SELECT COUNT( * )] over the rows a condition selects. *)
Definition count_rows (f : Row -> bool) (m : Mgr) : Z :=
  Z.of_nat (size (filter (fun kv => f kv.2 = true) (db m))).

Definition holds_slot (now : Z) (r : Row) : bool := live (r_state r) && (now <? r_expires_at r).

Definition countActiveSessions (tenantID endpointID : string) (now : Z) (m : Mgr) : Z * Z :=
  (count_rows (fun r => String.eqb (r_tenant_id r) tenantID && holds_slot now r) m,
   count_rows (fun r => String.eqb (r_endpoint_id r) endpointID && holds_slot now r) m).

Definition countLiveKind (endpointID prefix : string) (now : Z) (m : Mgr) : Z :=
  count_rows (fun r => String.eqb (r_endpoint_id r) endpointID
    && String.eqb (string_take (String.length prefix) (r_program r)) prefix && holds_slot now r) m.

Record expiredSessionInfo : Type := mkExpired {
  x_SessionID : string; x_Reason : string; x_NewState : SessionState }.

(** [SELECT session_id ... WHERE f]. *)
Definition select_ids (f : Row -> bool) (m : Mgr) : list string :=
  map fst (map_to_list (filter (fun kv => f kv.2 = true) (db m))).

Definition connecting (st : SessionState) : bool := bool_decide (st ∈ [StateWaiting; StateConnecting]).
Definition running (st : SessionState) : bool := bool_decide (st ∈ [StateActive; StateDetached]).

Definition expire_row (now : Z) (x : expiredSessionInfo) : Mgr -> Mgr :=
  on_row (fun r => if live (r_state r)
    then r <| r_state := x_NewState x |> <| r_closed_at := Some now |> <| r_close_reason := Some (x_Reason x) |>
    else r) (x_SessionID x).

Definition sweepExpiredSessions (now connectTimeout : Z) (m : Mgr) : Mgr * list expiredSessionInfo :=
  let expired :=
    map (fun id => mkExpired id "connect_timeout" StateFailed)
      (select_ids (fun r => connecting (r_state r) && (r_created_at r <? now - connectTimeout)) m) ++
    map (fun id => mkExpired id "idle_timeout" StateExpired)
      (select_ids (fun r => running (r_state r) && (r_idle_expires_at r <? now)) m) ++
    map (fun id => mkExpired id "max_duration_exceeded" StateExpired)
      (select_ids (fun r => live (r_state r) && (r_expires_at r <? now)) m) in
  (fold_left (fun m x => expire_row now x m) expired m, expired).

Definition loadDurableSession (id : string) (m : Mgr) : result string Session :=
  match db m !! id with
  | None => Err "terminal session not found"%string
  | Some r =>
    Ok (mkSession id (r_tenant_id r) (r_endpoint_id r) (r_operator_id r) (r_program r) (r_state r)
          EmptyString (r_token_hash r) (r_operator_token_hash r) EmptyString (r_created_at r)
          (r_expires_at r) (r_idle_expires_at r) (r_started_at r) (r_closed_at r)
          (match r_close_reason r with Some c => c | None => EmptyString end)
          (r_operator_connected r) (r_agent_connected r)
          (if String.eqb (r_grant_json r) EmptyString then None else unmarshal_grant (r_grant_json r))
          [] false (r_bundle_id r) (r_evidence_item_id r)
          (if String.eqb (r_recording_state r) EmptyString then "recording"%string else r_recording_state r)
          (r_recording_bytes r) 0 (r_frame_count r) None)
  end.

Definition updateDurableOperatorToken (id tokenHash : string) : Mgr -> Mgr :=
  on_row (fun r => r <| r_operator_token_hash := tokenHash |>) id.

Definition updateDurableIdle (id : string) (idle : Z) : Mgr -> Mgr :=
  on_row (fun r => r <| r_idle_expires_at := idle |>) id.

Definition updateRecordingProgress (id recordingState : string) (bytes frames idle : Z) : Mgr -> Mgr :=
  on_row (fun r => r <| r_recording_state := recordingState |> <| r_recording_bytes := bytes |>
    <| r_frame_count := frames |> <| r_idle_expires_at := idle |>) id.

(** The startup recovery of [initStore], on the table as the last run left it. *)
Definition initStore (now : Z) (m : Mgr) : Mgr :=
  m <| db ::= fmap (fun r => if live (r_state r)
    then r <| r_state := StateFailed |> <| r_closed_at := Some now |>
           <| r_close_reason := Some "daemon_restarted"%string |>
    else r) |>.

(** ** The manager (session.go) *)

Definition NewManager (rows : gmap string Row) (ks : list SessionKind) (evid : option E)
    (maxDur idle now : Z) : Mgr :=
  initStore now
    (mkManager rows evid ∅ (if maxDur <=? 0 then DefaultMaxDuration else maxDur)
       (if idle <=? 0 then DefaultIdleTimeout else idle)
       MaxSessionsPerEndpoint MaxSessionsPerTenant (30 * Second) DefaultMaxSessionRecordingBytes ks).

Definition SetLimits (l : Limits) (m : Mgr) : Mgr :=
  m <| maxDuration ::= fun x => if 0 <? MaxDuration l then MaxDuration l else x |>
    <| idleTimeout ::= fun x => if 0 <? IdleTimeout l then IdleTimeout l else x |>
    <| perEndpoint ::= fun x => if 0 <? PerEndpoint l then PerEndpoint l else x |>
    <| perTenant ::= fun x => if 0 <? PerTenant l then PerTenant l else x |>.

Definition Manager_Limits (m : Mgr) : Limits :=
  mkLimits (maxDuration m) (idleTimeout m) (perEndpoint m) (perTenant m).

Definition SetEvidenceStore (e : option E) (m : Mgr) : Mgr := m <| evidenceStore := e |>.
Definition SetMaxRecordingBytes (b : Z) (m : Mgr) : Mgr := m <| maxRecordingBytes := b |>.
Definition SetConnectTimeout (d : Z) (m : Mgr) : Mgr := m <| connectTimeout := d |>.

(** [RegisterKind]: a prefix registered twice is replaced. *)
Fixpoint register (k : SessionKind) (l : list SessionKind) : list SessionKind :=
  match l with
  | [] => [k]
  | k' :: l' => if String.eqb (Prefix k') (Prefix k) then k :: l' else k' :: register k l'
  end.

Definition RegisterKind (k : SessionKind) (m : Mgr) : Mgr := m <| kinds ::= register k |>.

Definition KindFor (program : string) (m : Mgr) : option SessionKind :=
  List.find (fun k => HasPrefix program (Prefix k)) (kinds m).

Definition put (s : Session) (m : Mgr) : Mgr := m <| sessions ::= <[SessionID s := s]> |>.

(** The session in memory, loaded from its row the first time. *)
Definition GetSession (id : string) (m : Mgr) : result string (Mgr * Session) :=
  match sessions m !! id with
  | Some s => Ok (m, s)
  | None => s ← loadDurableSession id m; Ok (put s m, s)
  end.

Definition cap_error (n : Z) (what id : string) : string :=
  ("active terminal session limit reached: max " ++ format_int n
   ++ " active terminal sessions allowed per " ++ what ++ " (" ++ id ++ ")")%string.

(** The session a create call starts with, its identifiers drawn. *)
Definition new_session (sessionID token opToken tenantID endpointID operatorID program : string)
    (grant : option G) (noRecording : bool) (d now : Z) (m : Mgr) : Session :=
  let maxRec := if maxRecordingBytes m <=? 0 then DefaultMaxSessionRecordingBytes else maxRecordingBytes m in
  mkSession sessionID tenantID endpointID operatorID program StateWaiting token (HashToken token)
    (HashToken opToken) opToken now (now + d) (now + idleTimeout m) None None EmptyString false false
    grant [] false EmptyString EmptyString
    (if noRecording then "off"%string else "recording"%string) 0 (if noRecording then 0 else maxRec) 0 None.

(** [createSession]; [u1], [u2] and [u3] are the identifiers drawn for a
    missing session id, a missing agent token and the operator's token. *)
Definition createSession (sessionID token tenantID endpointID operatorID program : string)
    (grant : option G) (d : Z) (u1 u2 u3 : string) (now : Z) (m : Mgr) : Mgr * result string Session :=
  let '(activeTenant, activeEndpoint) := countActiveSessions tenantID endpointID now m in
  if perTenant m <=? activeTenant then (m, Err (cap_error (perTenant m) "tenant" tenantID)) else
  if perEndpoint m <=? activeEndpoint then (m, Err (cap_error (perEndpoint m) "endpoint" endpointID)) else
  let k := KindFor program m in
  let kind_full :=
    match k with
    | Some k => (0 <? MaxPerEndpoint k) && (MaxPerEndpoint k <=? countLiveKind endpointID (Prefix k) now m)
    | None => false
    end in
  if kind_full then
    (m, Err ("a " ++ match k with Some k => Name k | None => "" end
             ++ " session is already open on this endpoint (" ++ endpointID ++ "); end it first")%string) else
  let d := if (d <=? 0) || (maxDuration m <? d) then maxDuration m else d in
  let sessionID := if String.eqb sessionID EmptyString then u1 else sessionID in
  let token := if String.eqb token EmptyString then u2 else token in
  let noRecording := match k with Some k => NoRecording k | None => false end in
  let sess := new_session sessionID token u3 tenantID endpointID operatorID program grant noRecording d now m in
  let '(m, sess) :=
    match evidenceStore m with
    | Some e =>
      if noRecording then (m, sess) else
      let '(e', b) := CreateBundle e tenantID endpointID sessionID "terminal_session" (30 * 24 * Hour) in
      (m <| evidenceStore := Some e' |>,
       match b with Ok bundle => sess <| BundleID := bundle |> | Err _ => sess end)
    | None => (m, sess)
    end in
  match insertDurableSession sess m with
  | Err e => (m, Err ("persist terminal session: " ++ e)%string)
  | Ok m => (put sess m, Ok sess)
  end.

Definition ListSessions (tenantID : string) (m : Mgr) : list Session :=
  List.filter (fun s => String.eqb (TenantID s) tenantID) (map snd (map_to_list (sessions m))).

(** ** Recording *)

Definition is_recordable (t : FrameType) : bool :=
  match t with FrameOther _ => false | _ => true end.

(** The operator's own frames. *)
Definition is_operator_activity (t : FrameType) : bool :=
  bool_decide (t = FrameStdin) || bool_decide (t = FrameResize).

Definition frameCost (f : TerminalFrame) : Z := Z.of_nat (String.length (f_Data f)) + 64.

Definition crlf : string := String "013" (String "010" EmptyString).

Definition bound_marker (now : Z) : TerminalFrame :=
  mkFrame FrameStdout now
    (crlf ++ "[Recording limit reached (10 MiB cap). Further stream frames bounded.]" ++ crlf)%string 0 0.

Definition set_count (s : Session) : Session := s <| FrameCount := Z.of_nat (length (Frames s)) |>.

(** What [RecordFrame] does to a session in memory; the flag says the
    counters are written at once. *)
Definition record_in (idle now : Z) (frame : TerminalFrame) (s : Session) : Session * bool :=
  let frame := frame <| f_Timestamp := now |> in
  if String.eqb (RecordingState s) "bounded" then (s, false) else
  let frameBytes := frameCost frame in
  if (0 <? MaxRecordingBytes s) && (MaxRecordingBytes s <? RecordingBytes s + frameBytes) then
    (set_count (s <| RecordingState := "bounded"%string |> <| Frames ::= fun l => l ++ [bound_marker now] |>), true)
  else
    let s := set_count (s <| Frames ::= fun l => l ++ [frame] |> <| RecordingBytes ::= Z.add frameBytes |>) in
    let s := if is_operator_activity (f_Type frame) then s <| IdleExpiresAt := now + idle |> else s in
    (s <| dirty := true |>, false).

Definition save_recording (s : Session) : Mgr -> Mgr :=
  updateRecordingMetadata (SessionID s) (BundleID s) (EvidenceItemID s) (RecordingState s)
    (RecordingBytes s) (FrameCount s).

Definition RecordFrame (id : string) (frame : TerminalFrame) (now : Z) (m : Mgr) : Mgr * result string unit :=
  if negb (is_recordable (f_Type frame)) then (m, Err "unknown or invalid frame type"%string) else
  match GetSession id m with
  | Err _ => (m, Err "terminal session not found"%string)
  | Ok (m, s) =>
    let '(s', written) := record_in (idleTimeout m) now frame s in
    let m := put s' m in
    (if (written : bool) then save_recording s' m else m, Ok tt)
  end.

Definition newline : ascii := "010".

(** The frames as one JSON document per line. *)
Fixpoint frames_payload (l : list TerminalFrame) : string :=
  match l with
  | [] => EmptyString
  | f :: l' =>
    match marshal_frame f with
    | Some b => (b ++ String newline (frames_payload l'))%string
    | None => frames_payload l'
    end
  end.

Definition seal_status (s : Session) : string :=
  match Frames s with
  | [] => "empty"
  | _ => if String.eqb (RecordingState s) "bounded" then "truncated" else "recorded"
  end%string.

Definition seal_manifest (s : Session) (item : EvidenceItem) (now : Z) : Manifest :=
  mkManifest (BundleID s) (EndpointID s) (TenantID s) (SessionID s) "terminal_session" now
    [mkManifestItem "session_frames.ndjson" (item_SizeBytes item) (item_SHA256 item) (seal_status s)].

(** A failed seal writes the number of frames held, not the counter. *)
Definition seal_failed (s : Session) (m : Mgr) : Mgr :=
  let s := s <| RecordingState := "seal_failed"%string |> in
  updateRecordingMetadata (SessionID s) (BundleID s) (EvidenceItemID s) (RecordingState s)
    (RecordingBytes s) (Z.of_nat (length (Frames s))) (put s m).

Definition sealed (s : Session) (item : EvidenceItem) : Session :=
  s <| EvidenceItemID := item_ID item |> <| RecordingState := "sealed"%string |>
    <| FrameCount := Z.of_nat (length (Frames s)) |> <| RecordingBytes := item_SizeBytes item |>
    <| Frames := [] |>.

Definition SealSessionRecording (id : string) (now : Z) (m : Mgr) : Mgr * result string unit :=
  match GetSession id m with
  | Err e => (m, Err e)
  | Ok (m, s) =>
    if String.eqb (RecordingState s) "sealed" then (m, Ok tt) else
    match evidenceStore m, String.eqb (BundleID s) EmptyString with
    | Some e, false =>
      let '(e, item) := StoreItem e (TenantID s) (BundleID s) "session_frames.ndjson"
                          "application/x-ndjson" (seal_status s) (frames_payload (Frames s)) in
      let m := m <| evidenceStore := Some e |> in
      match item with
      | Err err => (seal_failed s m, Err ("seal recording to evidence store: " ++ err)%string)
      | Ok item =>
        let '(e, fin) := FinalizeBundle e (TenantID s) (BundleID s) (seal_manifest s item now) EmptyString in
        let m := m <| evidenceStore := Some e |> in
        match fin with
        | Err err => (seal_failed s m, Err ("finalize evidence bundle: " ++ err)%string)
        | Ok _ => let s := sealed s item in (save_recording s (put s m), Ok tt)
        end
      end
    | _, _ =>
      let s := set_count (if String.eqb (RecordingState s) "bounded" then s
                          else s <| RecordingState := "closed"%string |>) in
      (save_recording s (put s m), Ok tt)
    end
  end.

Record SessionRecordingMetadata : Type := mkMeta {
  md_SessionID : string;
  md_TenantID : string;
  md_EndpointID : string;
  md_BundleID : string;
  md_EvidenceItemID : string;
  md_RecordingState : string;
  md_RecordingBytes : Z;
  md_FrameCount : Z;
  md_Encryption : string;
}.

#[local] Instance eta_SessionRecordingMetadata : Eta SessionRecordingMetadata :=
  fun x => mkMeta (md_SessionID x) (md_TenantID x) (md_EndpointID x) (md_BundleID x)
    (md_EvidenceItemID x) (md_RecordingState x) (md_RecordingBytes x) (md_FrameCount x) (md_Encryption x).

(** [bufio.MaxScanTokenSize]: a [Scanner] whose buffer fills with a line that
    has not ended stops there. *)
Definition MaxScanTokenSize : nat := Z.to_nat 65536.

Definition drop_cr (s : string) : string := TrimSuffix s (String "013" EmptyString).

Fixpoint scan_pieces (l : list string) : list string :=
  match l with
  | [] => []
  | [last] =>
    if String.eqb last EmptyString || (MaxScanTokenSize <=? String.length last)%nat then [] else [drop_cr last]
  | line :: l' =>
    if (MaxScanTokenSize <=? String.length line)%nat then [] else drop_cr line :: scan_pieces l'
  end.

(** The lines a [bufio.Scanner] returns. *)
Definition scan_lines (data : string) : list string := scan_pieces (split_byte newline data).

Definition parse_lines (lines : list string) : list TerminalFrame :=
  omap (fun line => if String.eqb (TrimSpace line) EmptyString then None else unmarshal_frame line) lines.

Definition recording_meta (s : Session) : SessionRecordingMetadata :=
  mkMeta (SessionID s) (TenantID s) (EndpointID s) (BundleID s) (EvidenceItemID s) (RecordingState s)
    (RecordingBytes s) (FrameCount s)
    (if String.eqb (BundleID s) EmptyString then "none" else "AES-256-GCM (Evidence Store)")%string.

Definition with_count (n : nat) (md : SessionRecordingMetadata) : SessionRecordingMetadata :=
  md <| md_FrameCount := Z.of_nat n |>.

Definition GetSessionRecording (tenantID id : string) (m : Mgr)
    : Mgr * result string (list TerminalFrame * SessionRecordingMetadata) :=
  match GetSession id m with
  | Err e => (m, Err e)
  | Ok (m, s) =>
    (m, if negb (String.eqb (TenantID s) tenantID) then Err "tenant mismatch"%string else
        let meta := recording_meta s in
        match Frames s with
        | _ :: _ => Ok (Frames s, with_count (length (Frames s)) meta)
        | [] =>
          match evidenceStore m, String.eqb (EvidenceItemID s) EmptyString with
          | Some e, false =>
            match ReadItemData e (TenantID s) (EvidenceItemID s) with
            | Err err => Err ("read encrypted frames from evidence store: " ++ err)%string
            | Ok plaintext =>
              let frames := parse_lines (scan_lines plaintext) in
              Ok (frames, with_count (length frames) meta)
            end
          | _, _ => Ok ([], meta)
          end
        end)
  end.

(** ** Ending sessions *)

(** The session side of [PairedRelay.Close]. *)
Definition close_session_state (reason : string) (now : Z) (s : Session) : Session :=
  s <| State := StateClosed |> <| ClosedAt := Some now |>
    <| CloseReason ::= fun c => if String.eqb c EmptyString then reason else c |>.

(** The relay side: both connections and every watcher go. *)
Definition close_relay (pr : PairedRelay P) : PairedRelay P :=
  pr <| closed := true |> <| opConn := None |> <| agentConn := None |> <| watchers := [] |>.

(** [PairedRelay.Close], once per relay. *)
Definition relay_Close (id reason : string) (now : Z) (m : Mgr) : Mgr :=
  match sessions m !! id with
  | None => m
  | Some s =>
    match relay s with
    | None => m
    | Some pr =>
      if closed pr then m else
      let s := close_session_state reason now s <| relay := Some (close_relay pr) |> in
      let m := put s m in
      let m := updateDurableState id StateClosed (StartedAt s) (Some now) reason
                 (OperatorConnected s) (AgentConnected s) m in
      fst (SealSessionRecording id now m)
    end
  end.

Definition CloseSession (id reason : string) (now : Z) (m : Mgr) : Mgr * result string unit :=
  match GetSession id m with
  | Err _ => (m, Err "session not found"%string)
  | Ok (m, s) =>
    let s := s <| State := StateClosed |> <| ClosedAt := Some now |> <| CloseReason := reason |> in
    let m := put s m in
    let m := updateDurableState id StateClosed (StartedAt s) (Some now) reason
               (OperatorConnected s) (AgentConnected s) m in
    let m := relay_Close id reason now m in
    (fst (SealSessionRecording id now m), Ok tt)
  end.

Definition IsLive (s : Session) : bool := live (State s).

(** [RotateOperatorToken]; [token] is the fresh identifier. *)
Definition RotateOperatorToken (id token : string) (m : Mgr) : Mgr * result string string :=
  match GetSession id m with
  | Err e => (m, Err e)
  | Ok (m, s) =>
    if ended (State s) then (m, Err "session is in terminal state"%string) else
    let s := s <| OperatorToken := token |> <| OperatorTokenHash := HashToken token |> in
    (updateDurableOperatorToken id (HashToken token) (put s m), Ok token)
  end.

(** [SessionEnd]: ended, state, reason, started, found. *)
Definition SessionEnd (id : string) (m : Mgr) : option (bool * SessionState * string * bool) :=
  match (match sessions m !! id with Some s => Ok s | None => loadDurableSession id m end) with
  | Err _ => None
  | Ok s => Some (ended (State s), State s, CloseReason s, bool_decide (is_Some (StartedAt s)))
  end.

(** ** The sweeper *)

Definition flush_one (m : Mgr) (s : Session) : Mgr :=
  updateRecordingProgress (SessionID s) (RecordingState s) (RecordingBytes s) (FrameCount s) (IdleExpiresAt s) m.

Definition flushDirty (m : Mgr) : Mgr :=
  let rows := List.filter (fun s => dirty s) (map snd (map_to_list (sessions m))) in
  fold_left flush_one rows (m <| sessions ::= fmap (fun s => s <| dirty := false |>) |>).

(** What the sweep does to an expired session in memory. *)
Definition expire_session (now : Z) (m : Mgr) (x : expiredSessionInfo) : Mgr :=
  m <| sessions ::= alter (fun s => s <| State := x_NewState x |> <| ClosedAt := Some now |>
    <| CloseReason ::= fun c => if String.eqb c EmptyString then x_Reason x else c |>) (x_SessionID x) |>.

Definition Sweep (now : Z) (m : Mgr) : Mgr :=
  let m := flushDirty m in
  let '(m, expired) := sweepExpiredSessions now (connectTimeout m) m in
  let m := fold_left (expire_session now) expired m in
  let ids := map x_SessionID expired in
  let m := fold_left (fun m id => relay_Close id "timeout" now m) ids m in
  fold_left (fun m id => fst (SealSessionRecording id now m)) ids m.

(** [Manager.Close]: every relay, then what was not yet written. *)
Definition Manager_Close (now : Z) (m : Mgr) : Mgr :=
  flushDirty (fold_left (fun m id => relay_Close id "manager_closed" now m)
                (map fst (map_to_list (sessions m))) m).

End Manager.

End terminal.
