(* ===== verification/TerminalRelay.v ===== *)
(** * Terminal sessions: attachments and the relay

    Package terminal: src/hub/pkg/terminal/relay.go, watch.go and the frame
    policies of policy.go. A handler or one round of a pump is a function on
    the manager's state; the network enters as arguments: the messages read,
    and whether an upgrade succeeded (the number of the new connection). What
    a round does before it waits for room and what it does once there is room
    are two functions, so a full queue is a step that is not enabled yet. *)

From Stdlib Require Import Ascii String.
From stdpp Require Import gmap strings.
From S2P Require Import Prelude Terminal.
Import terminal.

Module relay.

Definition MaxQueueBytes : Z := 1024 * 1024.
Definition MaxMessageSize : Z := 1024 * 1024.
Definition MaxOperatorMessageSize : Z := 256 * 1024.

(** Channel capacities: [opToAgent], [agentToOp] and a watcher's queue. *)
Definition opToAgent_cap : nat := 64.
Definition agentToOp_cap : nat := 16.
Definition watcherQueue : nat := 64.

Definition TextMessage : Z := 1.
Definition BinaryMessage : Z := 2.

Inductive FrameAction : Type := FrameForward | FrameDrop | FrameCloseSession.

Record FrameDecision : Type := mkDecision {
  Action : FrameAction;
  Reason : string;
  Data : option string;
  Activity : bool;
}.

#[export] Instance eta_FrameDecision : Eta FrameDecision :=
  fun x => mkDecision (Action x) (Reason x) (Data x) (Activity x).

Definition closes (reason : string) : FrameDecision := mkDecision FrameCloseSession reason None false.

(** A session kind's frame policy, with its per-session state; [pol_Watcher]
    is present when the policy is a [WatchPolicy]. *)
Class FramePolicy (P : Type) := {
  NewPolicy : SessionKind -> string -> string -> P;
  pol_Operator : P -> Z -> string -> P * FrameDecision;
  pol_Agent : P -> Z -> string -> P * FrameDecision;
  pol_Watcher : P -> option (Z -> string -> P * FrameDecision);
  pol_ResumeMessages : P -> list string;
}.

(** ** byteGate *)

(** [acquire] when it does not wait. *)
Definition gate_acquire (n used : Z) : option Z :=
  if (used =? 0) || (used + n <=? MaxQueueBytes) then Some (used + n) else None.

Definition gate_release (n used : Z) : Z := let used := used - n in if used <? 0 then 0 else used.

Definition no_msg : relayMsg := mkMsg 0 EmptyString 0.

Definition msg_of (typ : Z) (data : string) : relayMsg :=
  mkMsg typ data (Z.of_nat (String.length data) + 64).

(** [policed]: the bytes as received unless the policy re-encoded them. *)
Definition policed (d : FrameDecision) (typ : Z) (message : string) : relayMsg * FrameDecision :=
  match Action d with
  | FrameForward =>
    match Data d with
    | Some data => (msg_of TextMessage data, d)
    | None => (msg_of typ message, d)
    end
  | _ => (no_msg, d)
  end.

(** [reencoded]: only bytes the policy produced are forwarded. *)
Definition reencoded (d : FrameDecision) : relayMsg * FrameDecision :=
  match Action d with
  | FrameForward =>
    match Data d with
    | Some data => (msg_of TextMessage data, d)
    | None => (no_msg, d <| Action := FrameDrop |>)
    end
  | _ => (no_msg, d)
  end.

Section Relay.
Context {P G E : Type} `{!EvidenceStore E} `{!FramePolicy P}.
Context (HashToken : string -> string).
Context (unmarshal_grant : string -> option G).
Context (marshal_frame : TerminalFrame -> option string) (unmarshal_frame : string -> option TerminalFrame).

Local Notation Mgr := (Manager P G E).
Local Notation Session := (TerminalSession P G).
Local Notation Relay := (PairedRelay P).
Local Notation GetSession := (GetSession unmarshal_grant).
Local Notation relay_Close := (relay_Close unmarshal_grant marshal_frame).
Local Notation RecordFrame := (RecordFrame unmarshal_grant).

Definition newPairedRelay (s : Session) (m : Mgr) : Relay :=
  let k := KindFor (Program s) m in
  mkRelay None None [] [] k (k ← k; Some (NewPolicy k (Program s) (SessionID s)))
    [] false 0 0 false false None.

(** The relay of a session, made the first time it is needed. *)
Definition relay_of (s : Session) (m : Mgr) : Relay :=
  match relay s with Some pr => pr | None => newPairedRelay s m end.

Definition on_relay (f : Relay -> Relay) (id : string) (m : Mgr) : Mgr :=
  m <| sessions ::= alter (fun s => s <| relay ::= fmap f |>) id |>.

(** ** Control messages to the agent *)

(** The agent's writer takes the next message. *)
Definition agent_take (pr : Relay) : option (relayMsg * Relay) :=
  match opToAgent pr with
  | [] => None
  | msg :: rest => Some (msg, pr <| opToAgent := rest |> <| opQueue ::= gate_release (msg_cost msg) |>)
  end.

(** [sendAgentControl]; [drained] says the agent's writer made room within
    the second it waits. *)
Definition sendAgentControl (drained : bool) (data : string) (pr : Relay) : option Relay :=
  let msg := mkMsg TextMessage data 0 in
  let push pr := pr <| opToAgent ::= fun l => l ++ [msg] |> in
  if String.eqb data EmptyString || closed pr then None
  else if (length (opToAgent pr) <? opToAgent_cap)%nat then Some (push pr)
  else if drained then '(_, pr) ← agent_take pr; Some (push pr)
  else None.

Definition pauseIfUnwatched (drained : bool) (pr : Relay) : Relay :=
  match kind pr with
  | None => pr
  | Some k =>
    if bool_decide (opConn pr = None) && (length (watchers pr) =? 0)%nat && negb (paused pr) then
      match sendAgentControl drained (PauseMessage k) pr with
      | Some pr => pr <| paused := true |>
      | None => pr
      end
    else pr
  end.

Definition send_all (drained : bool) (msgs : list string) (pr : Relay) : Relay :=
  fold_left (fun pr msg => match sendAgentControl drained msg pr with Some pr => pr | None => pr end) msgs pr.

Definition resumeIfPaused (drained : bool) (pr : Relay) : Relay :=
  match kind pr with
  | None => pr
  | Some k =>
    if paused pr then
      match sendAgentControl drained (ResumeMessage k) pr with
      | Some pr =>
        let pr := pr <| paused := false |> in
        send_all drained (match pol pr with Some p => pol_ResumeMessages p | None => [] end) pr
      | None => pr
      end
    else pr
  end.

(** ** Detaching the operator *)

Definition detach_relay (drained : bool) (pr : Relay) : Relay :=
  let pr := pr <| opConn := None |> <| opStop := None |> <| detached := true |> in
  (pauseIfUnwatched drained pr) <| agentToOp := [] |> <| agQueue := 0 |>.

Definition detach_state (st : SessionState) : SessionState :=
  if bool_decide (st = StateActive) || bool_decide (st = StateConnecting) then StateDetached else st.

Definition detachAttachment (drained : bool) (id : string) (owner : option nat) (m : Mgr) : Mgr :=
  match sessions m !! id with
  | None => m
  | Some s =>
    match relay s with
    | None => m
    | Some pr =>
      if closed pr then m
      else if bool_decide (is_Some owner) && negb (bool_decide (opStop pr = owner)) then m
      else if bool_decide (opConn pr = None) && bool_decide (opStop pr = None) then m
      else
        let s := s <| relay := Some (detach_relay drained pr) |>
                   <| OperatorConnected := false |> <| State ::= detach_state |> in
        updateDurableState id (State s) (StartedAt s) (ClosedAt s) (CloseReason s) false (AgentConnected s)
          (put s m)
    end
  end.

Definition DetachOperator (drained : bool) (id : string) (m : Mgr) : Mgr := detachAttachment drained id None m.

Definition DetachSession (drained : bool) (id : string) (m : Mgr) : Mgr * result string unit :=
  match GetSession id m with
  | Err e => (m, Err e)
  | Ok (m, s) =>
    match relay s with
    | None => (m, Err "session has no active relay"%string)
    | Some _ => (DetachOperator drained id m, Ok tt)
    end
  end.

(** ** Attaching *)

Definition token_ok (raw hash : string) : bool :=
  negb (String.eqb raw EmptyString) && negb (String.eqb hash EmptyString)
  && String.eqb (HashToken raw) hash.

Definition ValidateToken (s : Session) (raw : string) : bool := token_ok raw (TokenHash s).
Definition ValidateOperatorToken (s : Session) (raw : string) : bool := token_ok raw (OperatorTokenHash s).

Definition terminal_state_error : string := "session is in terminal state".

(** The operator's side becomes connected. *)
Definition operator_joins (now : Z) (m : Mgr) (s : Session) : Session :=
  let s := s <| relay := Some (relay_of s m) |> <| OperatorConnected := true |> in
  let s :=
    if AgentConnected s
    then s <| State := StateActive |>
           <| StartedAt ::= fun t => match t with Some _ => t | None => Some now end |>
    else s <| State := StateConnecting |> in
  s <| IdleExpiresAt := now + idleTimeout m |>.

(** [AttachOperator] once the token is consumed: an attached operator is
    superseded, and the session's state follows. [conn] is the upgraded
    connection with its replay written, or nothing when either failed. *)
Definition attach_consumed (drained : bool) (id : string) (conn : option nat) (now : Z) (s : Session) (m : Mgr)
    : Mgr * result string unit :=
  if ended (State s) then (m, Err terminal_state_error) else
  let m := if OperatorConnected s && bool_decide (is_Some (relay s)) then DetachOperator drained id m else m in
  match sessions m !! id with
  | None => (m, Err "terminal session not found"%string)
  | Some s =>
    if ended (State s) then (m, Err terminal_state_error)
    else if OperatorConnected s then (m, Err "operator already connected to session"%string) else
    let s := operator_joins now m s in
    let m := updateDurableIdle id (IdleExpiresAt s)
               (updateDurableState id (State s) (StartedAt s) (ClosedAt s) (CloseReason s)
                  (OperatorConnected s) (AgentConnected s) (put s m)) in
    match conn with
    | None => (put (s <| OperatorConnected := false |>) m, Err "websocket upgrade failed"%string)
    | Some c =>
      (on_relay (fun pr => resumeIfPaused drained
         (pr <| opConn := Some c |> <| opStop := Some c |> <| detached := false |>)) id m, Ok tt)
    end
  end.

(** The token is checked and consumed in one step, whatever follows. *)
Definition AttachOperator (drained : bool) (id rawToken : string) (conn : option nat) (now : Z) (m : Mgr)
    : Mgr * result string unit :=
  match GetSession id m with
  | Err _ => (m, Err "terminal session not found"%string)
  | Ok (m, s) =>
    if negb (ValidateOperatorToken s rawToken)
    then (m, Err "invalid or expired terminal connect token"%string) else
    let s := s <| OperatorTokenHash := EmptyString |> <| OperatorToken := EmptyString |> in
    attach_consumed drained id conn now s (updateDurableOperatorToken id EmptyString (put s m))
  end.

Definition agent_joins (now : Z) (m : Mgr) (s : Session) : Session :=
  let s := s <| relay := Some (relay_of s m) |> <| AgentConnected := true |> in
  if OperatorConnected s then s <| State := StateActive |> <| StartedAt := Some now |>
  else s <| State := StateConnecting |>.

Definition AttachAgent (id endpointID rawToken : string) (conn : option nat) (now : Z) (m : Mgr)
    : Mgr * result string unit :=
  match GetSession id m with
  | Err _ => (m, Err "terminal session not found"%string)
  | Ok (m, s) =>
    if negb (String.eqb (EndpointID s) endpointID) then (m, Err "endpoint ID mismatch for session"%string)
    else if negb (ValidateToken s rawToken) then (m, Err "invalid or expired terminal connect token"%string)
    else if ended (State s) then (m, Err terminal_state_error)
    else if AgentConnected s then (m, Err "agent already connected to session"%string) else
    let s := agent_joins now m s in
    let m := updateDurableState id (State s) (StartedAt s) (ClosedAt s) (CloseReason s)
               (OperatorConnected s) (AgentConnected s) (put s m) in
    match conn with
    | None => (put (s <| AgentConnected := false |>) m, Err "websocket upgrade failed"%string)
    | Some c => (on_relay (fun pr => pr <| agentConn := Some c |>) id m, Ok tt)
    end
  end.

(** ** The pumps *)

(** [touchActivity]: pushes the idle deadline without recording a frame. *)
Definition touchActivity (id : string) (now : Z) (m : Mgr) : Mgr :=
  m <| sessions ::= alter (fun s => s <| IdleExpiresAt := now + idleTimeout m |> <| dirty := true |>) id |>.

Definition get_pol (id : string) (m : Mgr) : option P := s ← sessions m !! id; pr ← relay s; pol pr.

Definition set_pol (p : P) (id : string) (m : Mgr) : Mgr := on_relay (fun pr => pr <| pol := Some p |>) id m.

Definition frame_msg (frame : TerminalFrame) : relayMsg :=
  mkMsg TextMessage (match marshal_frame frame with Some d => d | None => EmptyString end) (frameCost frame).

Definition forwarded : FrameDecision := mkDecision FrameForward EmptyString None false.

(** A shell frame of an allowed type is recorded and, unless it ends the
    session, forwarded. *)
Definition shell_message (allowed : FrameType -> bool) (malformed forbidden close : string)
    (id message : string) (now : Z) (m : Mgr) : Mgr * relayMsg * FrameDecision :=
  match unmarshal_frame message with
  | None => (m, no_msg, closes malformed)
  | Some frame =>
    if negb (allowed (f_Type frame)) then (m, no_msg, closes forbidden) else
    let frame := frame <| f_Timestamp := now |> in
    let m := fst (RecordFrame id frame now m) in
    if bool_decide (f_Type frame = FrameClose) then (m, no_msg, closes close)
    else (m, frame_msg frame, forwarded)
  end.

Definition from_operator (t : FrameType) : bool :=
  match t with FrameStdin | FrameResize | FrameClose => true | _ => false end.

Definition from_agent (t : FrameType) : bool :=
  match t with FrameStdout | FrameClose => true | _ => false end.

Definition operatorMessage (id : string) (typ : Z) (message : string) (now : Z) (m : Mgr)
    : Mgr * relayMsg * FrameDecision :=
  match get_pol id m with
  | Some p =>
    let '(p, d) := pol_Operator p typ message in
    let '(msg, d) := reencoded d in (set_pol p id m, msg, d)
  | None =>
    shell_message from_operator "malformed_operator_frame" "forbidden_operator_frame_type"
      "operator_requested_close" id message now m
  end.

Definition agentMessage (id : string) (typ : Z) (message : string) (now : Z) (m : Mgr)
    : Mgr * relayMsg * FrameDecision :=
  match get_pol id m with
  | Some p =>
    let '(p, d) := pol_Agent p typ message in
    let '(msg, d) := policed d typ message in (set_pol p id m, msg, d)
  | None =>
    shell_message from_agent "malformed_agent_frame" "forbidden_agent_frame_type"
      "agent_process_terminated" id message now m
  end.

(** What a round of a read pump ends with: the pump returns, reads on, or
    has a message to queue. *)
Inductive Round : Type := Exit | Next | Queue (msg : relayMsg).

(** A round of [operatorReadPump] up to the wait for room. *)
Definition operator_round (id : string) (typ : Z) (message : string) (now : Z) (m : Mgr) : Mgr * Round :=
  let '(m, msg, d) := operatorMessage id typ message now m in
  let m := if Activity d then touchActivity id now m else m in
  match Action d with
  | FrameCloseSession => (relay_Close id (Reason d) now m, Exit)
  | FrameDrop => (m, Next)
  | FrameForward => (m, Queue msg)
  end.

(** The pong handler of an attachment: for a kind that counts being attached
    as activity it pushes the idle deadline. *)
Definition pong (id : string) (now : Z) (m : Mgr) : Mgr :=
  match (s ← sessions m !! id; pr ← relay s; kind pr) with
  | Some k => if AttachedIsActivity k then touchActivity id now m else m
  | None => m
  end.

(** The rest of it: reserving the bytes and sending on [opToAgent]. Nothing
    means it still waits. *)
Definition enqueue_for_agent (msg : relayMsg) (pr : Relay) : option Relay :=
  used ← gate_acquire (msg_cost msg) (opQueue pr);
  if (length (opToAgent pr) <? opToAgent_cap)%nat
  then Some (pr <| opQueue := used |> <| opToAgent ::= fun l => l ++ [msg] |>) else None.

(** [enqueueForOperator] when it does not wait; a detached relay takes the
    message as delivered. *)
Definition enqueueForOperator (msg : relayMsg) (pr : Relay) : option Relay :=
  match gate_acquire (msg_cost msg) (agQueue pr) with
  | None => if detached pr then Some pr else None
  | Some used =>
    if (length (agentToOp pr) <? agentToOp_cap)%nat
    then Some (pr <| agQueue := used |> <| agentToOp ::= fun l => l ++ [msg] |>)
    else if detached pr then Some (pr <| agQueue := gate_release (msg_cost msg) used |>) else None
  end.

(** One watcher's copy; [drained] says its writer made room in time. *)
Definition offer (drained : nat -> bool) (msg : relayMsg) (w : watcher) : watcher :=
  if (length (w_out w) <? watcherQueue)%nat then mkWatcher (w_conn w) (w_out w ++ [msg])
  else if negb (msg_typ msg =? TextMessage) then w
  else if drained (w_conn w) then mkWatcher (w_conn w) (tail (w_out w) ++ [msg]) else w.

Definition fanOut (drained : nat -> bool) (msg : relayMsg) (pr : Relay) : Relay :=
  pr <| watchers ::= map (offer drained msg) |>.

Definition controlAttached (pr : Relay) : bool := bool_decide (is_Some (opConn pr)).

(** What becomes of a message the agent's pump forwards: nothing to queue for
    a control side nobody holds, nor for a detached operator. *)
Definition agent_deliver (drained : nat -> bool) (msg : relayMsg) (pr : Relay) : Relay * Round :=
  let pr := match kind pr with Some _ => fanOut drained msg pr | None => pr end in
  if bool_decide (is_Some (kind pr)) && negb (controlAttached pr) then (pr, Next)
  else if detached pr then (pr, Next) else (pr, Queue msg).

(** A round of [agentReadPump] up to the wait for room. *)
Definition agent_round (drained : nat -> bool) (id : string) (typ : Z) (message : string) (now : Z) (m : Mgr)
    : Mgr * Round :=
  let '(m, msg, d) := agentMessage id typ message now m in
  match Action d with
  | FrameCloseSession => (relay_Close id (Reason d) now m, Exit)
  | FrameDrop => (m, Next)
  | FrameForward =>
    match (s ← sessions m !! id; relay s) with
    | None => (m, Exit)
    | Some pr =>
      let '(pr, out) := agent_deliver drained msg pr in
      (on_relay (fun _ => pr) id m, out)
    end
  end.

(** [operatorWritePump] takes the next message. *)
Definition operator_take (pr : Relay) : option (relayMsg * Relay) :=
  match agentToOp pr with
  | [] => None
  | msg :: rest => Some (msg, pr <| agentToOp := rest |> <| agQueue ::= gate_release (msg_cost msg) |>)
  end.

(** ** Watchers *)

Definition isPacer (w : nat) (pr : Relay) : bool :=
  bool_decide (opConn pr = None)
  && match watchers pr with x :: _ => (w_conn x =? w)%nat | [] => false end.

(** The first watcher with the connection goes, if there is one. *)
Fixpoint remove_first (w : nat) (l : list watcher) : option (list watcher) :=
  match l with
  | [] => None
  | x :: l' => if (w_conn x =? w)%nat then Some l' else l'' ← remove_first w l'; Some (x :: l'')
  end.

Definition removeWatcher (drained : bool) (w : nat) (pr : Relay) : Relay :=
  match remove_first w (watchers pr) with
  | None => pr
  | Some l => pauseIfUnwatched drained (pr <| watchers := l |>)
  end.

Definition no_watchers : string := "this session takes no watchers".

(** [AttachWatcher], the watch credential checked by the caller. *)
Definition AttachWatcher (drained : bool) (id : string) (conn : option nat) (now : Z) (m : Mgr)
    : Mgr * result string unit :=
  match GetSession id m with
  | Err _ => (m, Err "session not found"%string)
  | Ok (m, s) =>
    match KindFor (Program s) m with
    | None => (m, Err no_watchers)
    | Some k =>
      if MaxWatchers k <=? 0 then (m, Err no_watchers)
      else if ended (State s) then (m, Err terminal_state_error) else
      let pr := relay_of s m in
      let s := s <| relay := Some pr |> <| IdleExpiresAt := now + idleTimeout m |> <| dirty := true |> in
      let m := put s m in
      if negb (bool_decide (is_Some (p ← pol pr; pol_Watcher p))) then (m, Err no_watchers)
      else if MaxWatchers k <=? Z.of_nat (length (watchers pr))
      then (m, Err "this session already has its watchers"%string) else
      match conn with
      | None => (m, Err "websocket upgrade failed"%string)
      | Some c =>
        if closed pr then (m, Err "session closed or watcher cap reached"%string)
        else (on_relay (fun pr => resumeIfPaused drained
                (pr <| watchers ::= fun l => l ++ [mkWatcher c []] |>)) id m, Ok tt)
      end
    end
  end.

(** A round of [watcherReadPump] up to the wait for room. A watcher asking to
    close the session only leaves it. *)
Definition watcher_round (w : nat) (typ : Z) (message : string) (pr : Relay) : Relay * Round :=
  match (p ← pol pr; pol_Watcher p) with
  | None => (pr, Exit)
  | Some watch =>
    let '(p, d) := watch typ message in
    let pr := pr <| pol := Some p |> in
    match Action d with
    | FrameCloseSession => (pr, Exit)
    | FrameDrop => (pr, Next)
    | FrameForward =>
      if negb (isPacer w pr) then (pr, Next) else
      let '(msg, d) := reencoded d in
      match Action d with FrameForward => (pr, Queue msg) | _ => (pr, Next) end
    end
  end.

Definition WatcherCount (id : string) (m : Mgr) : Mgr * nat :=
  match GetSession id m with
  | Err _ => (m, O)
  | Ok (m, s) => (m, match relay s with Some pr => length (watchers pr) | None => O end)
  end.

End Relay.

End relay.
