(* ===== verification/TerminalInv.v ===== *)
(** * Terminal sessions: what every handler preserves

    The invariant between the table and the sessions in memory, the relation
    between the states before and after a handler, and that every handler of
    Terminal and TerminalRelay respects both. *)

From Stdlib Require Import Ascii String.
From stdpp Require Import gmap strings.
From S2P Require Import Prelude Terminal TerminalRelay.
Import terminal relay.

Definition proper (st : SessionState) : bool := live st || ended st.

Lemma live_not_ended st : live st = true -> ended st = false.
Proof. by destruct st. Qed.

Lemma proper_cases st : proper st = true -> (live st = true /\ ended st = false) \/ (live st = false /\ ended st = true).
Proof. destruct st; naive_solver. Qed.

Section Invariant.
Context {P G E : Type} `{!EvidenceStore E} `{!FramePolicy P}.
Context (HashToken : string -> string).
Context (marshal_grant : G -> result string string) (unmarshal_grant : string -> option G).
Context (marshal_frame : TerminalFrame -> option string) (unmarshal_frame : string -> option TerminalFrame).

Local Notation Mgr := (Manager P G E).
Local Notation Session := (TerminalSession P G).
Local Notation Relay := (PairedRelay P).

Implicit Types (m : Mgr) (s : Session) (r : Row).

(** The operator token hashes that may be installed in a session, by its id. *)
Context (fresh : string -> string -> Prop).

(** ** The invariant *)

(** Every session in memory has its row; where the session has not ended,
    the row is live. *)
Record Inv (m : Mgr) : Prop := {
  inv_id : forall id s, sessions m !! id = Some s -> SessionID s = id;
  inv_row : forall id s, sessions m !! id = Some s ->
    exists r, db m !! id = Some r /\ (ended (State s) = true \/ live (r_state r) = true);
  inv_mem_proper : forall id s, sessions m !! id = Some s -> proper (State s) = true;
  inv_row_proper : forall id r, db m !! id = Some r -> proper (r_state r) = true;
}.

(** ** How a state may change *)

(** A session keeps its identity, does not come back once it has ended, and
    its operator token is kept, consumed or replaced by a fresh one. *)
Record srel (s s' : Session) : Prop := {
  srel_id : SessionID s' = SessionID s;
  srel_proper : proper (State s) = true -> proper (State s') = true;
  srel_ended : ended (State s) = true -> ended (State s') = true;
  srel_token : OperatorTokenHash s' = OperatorTokenHash s \/ OperatorTokenHash s' = EmptyString \/
    fresh (SessionID s) (OperatorTokenHash s');
}.

(** A row keeps its owner and its deadline, and never becomes live again. *)
Record rrel (r r' : Row) : Prop := {
  rrel_tenant : r_tenant_id r' = r_tenant_id r;
  rrel_endpoint : r_endpoint_id r' = r_endpoint_id r;
  rrel_program : r_program r' = r_program r;
  rrel_expires : r_expires_at r' = r_expires_at r;
  rrel_live : live (r_state r') = true -> live (r_state r) = true;
}.

Record ext (m m' : Mgr) : Prop := {
  ext_tenant : perTenant m' = perTenant m;
  ext_endpoint : perEndpoint m' = perEndpoint m;
  ext_mem : forall id s, sessions m !! id = Some s -> exists s', sessions m' !! id = Some s' /\ srel s s';
  ext_db : forall id r', db m' !! id = Some r' -> exists r, db m !! id = Some r /\ rrel r r';
  ext_dom : forall id r, db m !! id = Some r -> is_Some (db m' !! id);
}.

#[global] Instance srel_refl : Reflexive srel.
Proof. intros s. split; auto. Qed.

#[global] Instance srel_trans : Transitive srel.
Proof.
  intros a b c [I1 P1 E1 T1] [I2 P2 E2 T2]. split; [congruence|auto|auto|].
  rewrite I1 in T2. destruct T2 as [->|[?|?]]; auto.
Qed.

#[global] Instance rrel_refl : Reflexive rrel.
Proof. intros r. split; auto. Qed.

#[global] Instance rrel_trans : Transitive rrel.
Proof. intros a b c [] []. split; try congruence. auto. Qed.

#[global] Instance ext_refl : Reflexive ext.
Proof. intros m. split; eauto; by intros id x Hx; exists x. Qed.

#[global] Instance ext_trans : Transitive ext.
Proof.
  intros a b c Hab Hbc. split.
  - by rewrite (ext_tenant _ _ Hbc), (ext_tenant _ _ Hab).
  - by rewrite (ext_endpoint _ _ Hbc), (ext_endpoint _ _ Hab).
  - intros id s Hs. destruct (ext_mem _ _ Hab _ _ Hs) as (s' & Hs' & R).
    destruct (ext_mem _ _ Hbc _ _ Hs') as (s'' & Hs'' & R'). exists s''. split; [done|by etrans].
  - intros id r Hr. destruct (ext_db _ _ Hbc _ _ Hr) as (r' & Hr' & R).
    destruct (ext_db _ _ Hab _ _ Hr') as (r'' & Hr'' & R'). exists r''. split; [done|by etrans].
  - intros id r Hr. destruct (ext_dom _ _ Hab _ _ Hr) as [r' Hr']. by eapply ext_dom.
Qed.

(** A step that keeps the invariant and only makes allowed changes. *)
Definition safe (m m' : Mgr) : Prop := Inv m -> Inv m' /\ ext m m'.

#[global] Instance safe_refl : Reflexive safe.
Proof. intros m Hm. by split. Qed.

#[global] Instance safe_trans : Transitive safe.
Proof.
  intros a b c Hab Hbc Ha. destruct (Hab Ha) as [Hb Eab]. destruct (Hbc Hb) as [Hc Ebc].
  split; [done|by etrans].
Qed.

(** ** The elementary changes *)

Lemma safe_evidence e m : safe m (m <| evidenceStore := e |>).
Proof. intros Hm. split; [destruct Hm; by split|]. split; try done; by intros id x Hx; exists x. Qed.

Lemma safe_alter f id m :
  (forall s, sessions m !! id = Some s -> srel s (f s)) -> safe m (m <| sessions ::= alter f id |>).
Proof.
  intros Hf Hm. split.
  - split; simpl.
    + intros i s' Hs. apply lookup_alter_Some in Hs as [(-> & s & Hs & ->)|[_ Hs]];
        [rewrite (srel_id _ _ (Hf s Hs))|]; by eapply inv_id.
    + intros i s' Hs. apply lookup_alter_Some in Hs as [(-> & s & Hs & ->)|[_ Hs]].
      * destruct (inv_row _ Hm _ _ Hs) as (r & Hr & [He|Hl]); exists r; split; auto.
        left. by apply (srel_ended _ _ (Hf s Hs)).
      * by eapply inv_row.
    + intros i s' Hs. apply lookup_alter_Some in Hs as [(-> & s & Hs & ->)|[_ Hs]];
        [apply (srel_proper _ _ (Hf s Hs))|]; by eapply inv_mem_proper.
    + intros i r Hr. by eapply inv_row_proper.
  - split; simpl; try done; [|by intros i r Hr; exists r..].
    intros i s Hs. destruct (decide (i = id)) as [->|Hne].
    + exists (f s). rewrite lookup_alter_eq, Hs. split; [done|auto].
    + exists s. by rewrite lookup_alter_ne by done.
Qed.

Lemma safe_put s s' m :
  sessions m !! SessionID s' = Some s -> srel s s' -> safe m (put s' m).
Proof.
  intros Hs Hr. replace (put s' m) with (m <| sessions ::= alter (fun _ => s') (SessionID s') |>).
  - apply safe_alter. intros x Hx. congruence.
  - unfold put. simpl. f_equal. apply map_eq. intros i. destruct (decide (i = SessionID s')) as [->|Hne].
    + by rewrite lookup_alter_eq, lookup_insert_eq, Hs.
    + by rewrite lookup_alter_ne, lookup_insert_ne by done.
Qed.

(** A write to a row that keeps what [rrel] watches, and leaves the row of a
    session that has not ended live. *)
Lemma safe_row f id m :
  (forall r, db m !! id = Some r -> rrel r (f r) /\ (proper (r_state r) = true -> proper (r_state (f r)) = true)) ->
  (Inv m -> forall s r, sessions m !! id = Some s -> db m !! id = Some r ->
     ended (State s) = true \/ live (r_state (f r)) = true) ->
  safe m (on_row f id m).
Proof.
  intros Hf Hl Hm. split.
  - split; simpl.
    + intros i s Hs. by eapply inv_id.
    + intros i s Hs. destruct (inv_row _ Hm _ _ Hs) as (r & Hr & Hor).
      destruct (decide (i = id)) as [->|Hne].
      * exists (f r). rewrite lookup_alter_eq, Hr. split; [done|]. by apply Hl.
      * exists r. by rewrite lookup_alter_ne by done.
    + intros i s Hs. by eapply inv_mem_proper.
    + intros i r' Hr. apply lookup_alter_Some in Hr as [(-> & r & Hr & ->)|[_ Hr]];
        [apply (Hf r Hr)|]; by eapply inv_row_proper.
  - split; simpl; try done.
    + by intros i s Hs; exists s.
    + intros i r' Hr. apply lookup_alter_Some in Hr as [(-> & r & Hr & ->)|[_ Hr]];
        [exists r|exists r']; split; try done. by apply Hf.
    + intros i r Hr. apply lookup_alter_is_Some. by exists r.
Qed.

(** A write that leaves the state column alone. *)
Lemma safe_row_same f id m :
  (forall r, rrel r (f r) /\ r_state (f r) = r_state r) -> safe m (on_row f id m).
Proof.
  intros Hf. apply safe_row.
  - intros r Hr. destruct (Hf r) as [? ->]. done.
  - intros Hm s r Hs Hr. destruct (Hf r) as [_ ->].
    destruct (inv_row _ Hm _ _ Hs) as (r' & Hr' & Hor). by simplify_eq.
Qed.

(** Writing the session's own state to its row. *)
Lemma safe_state id s st t1 t2 reason b1 b2 m :
  sessions m !! id = Some s -> State s = st ->
  safe m (updateDurableState id st t1 t2 reason b1 b2 m).
Proof.
  intros Hs Hst Hm. pose proof (inv_mem_proper _ Hm _ _ Hs) as Hp. rewrite Hst in Hp.
  destruct (inv_row _ Hm _ _ Hs) as (r0 & Hr0 & Hor). rewrite Hst in Hor.
  apply safe_row; [| |done].
  - intros r Hr. simplify_eq. split; [|done]. split; try done. simpl.
    intros Hl. destruct Hor as [He|]; [|done]. apply live_not_ended in Hl. congruence.
  - intros _ s' r Hs' Hr. simplify_eq. simpl. destruct (proper_cases _ Hp) as [[? _]|[_ ?]]; auto.
Qed.

Lemma safe_metadata id a b c d e m : safe m (updateRecordingMetadata id a b c d e m).
Proof. by apply safe_row_same. Qed.

Lemma safe_token id h m : safe m (updateDurableOperatorToken id h m).
Proof. by apply safe_row_same. Qed.

Lemma safe_idle id t m : safe m (updateDurableIdle id t m).
Proof. by apply safe_row_same. Qed.

Lemma safe_progress id a b c d m : safe m (updateRecordingProgress id a b c d m).
Proof. by apply safe_row_same. Qed.

(** A fold of safe steps is safe. *)
Lemma safe_fold {A} (f : Mgr -> A -> Mgr) l m : (forall m x, safe m (f m x)) -> safe m (fold_left f l m).
Proof. intros Hf. revert m. induction l as [|x l IH]; intros m; simpl; [done|]. etrans; [apply Hf|apply IH]. Qed.

(** ** Sessions in memory *)

Lemma load_fields id m s :
  loadDurableSession unmarshal_grant id m = Ok s ->
  SessionID s = id /\ exists r, db m !! id = Some r /\ State s = r_state r.
Proof. unfold loadDurableSession. destruct (db m !! id) as [r|]; [|done]. intros [= <-]. simpl. eauto. Qed.

Lemma get_session id m m' s :
  GetSession unmarshal_grant id m = Ok (m', s) ->
  safe m m' /\ (Inv m -> sessions m' !! id = Some s /\ SessionID s = id) /\ evidenceStore m' = evidenceStore m.
Proof.
  unfold GetSession. destruct (sessions m !! id) as [s0|] eqn:Hs.
  - intros [= <- <-]. split; [done|]. split; [|done]. intros Hm. split; [done|]. by eapply inv_id.
  - intros Hl. apply result_bind_Ok in Hl as (s1 & Hl & [= <- <-]).
    apply load_fields in Hl as (Hid & r & Hr & Hst). split; [|split; [|done]].
    + intros Hm. unfold put. rewrite Hid. split.
      * split; simpl.
        -- intros i x Hx. apply lookup_insert_Some in Hx as [[<- <-]|[_ Hx]]; [done|by eapply inv_id].
        -- intros i x Hx. apply lookup_insert_Some in Hx as [[<- <-]|[_ Hx]]; [|by eapply inv_row].
           exists r. split; [done|]. rewrite Hst. pose proof (inv_row_proper _ Hm _ _ Hr) as Hp.
           destruct (proper_cases _ Hp) as [[? _]|[_ ?]]; auto.
        -- intros i x Hx. apply lookup_insert_Some in Hx as [[<- <-]|[_ Hx]]; [|by eapply inv_mem_proper].
           rewrite Hst. by eapply inv_row_proper.
        -- intros i x Hx. by eapply inv_row_proper.
      * split; simpl; try done; [|by intros i x Hx; exists x..].
        intros i x Hx. exists x. rewrite lookup_insert_ne by (intros ->; congruence). done.
    + intros _. unfold put. simpl. by rewrite Hid, lookup_insert_eq.
Qed.

(** The session relation of an update that touches neither the state nor the
    operator token. *)
Lemma srel_same s s' :
  SessionID s' = SessionID s -> State s' = State s -> OperatorTokenHash s' = OperatorTokenHash s -> srel s s'.
Proof. intros E1 E2 E3. split; rewrite ?E2, ?E3; auto. Qed.

Lemma safe_put_same s s' m :
  Inv m -> sessions m !! SessionID s = Some s ->
  SessionID s' = SessionID s -> State s' = State s -> OperatorTokenHash s' = OperatorTokenHash s ->
  safe m (put s' m).
Proof. intros Hm Hs E1 E2 E3. apply (safe_put s); [by rewrite E1|by apply srel_same]. Qed.

(** ** The handlers *)

Lemma record_in_same idle now f s :
  let s' := fst (record_in idle now f s) in
  SessionID s' = SessionID s /\ State s' = State s /\ OperatorTokenHash s' = OperatorTokenHash s.
Proof. unfold record_in. repeat case_match; done. Qed.

(** A handler continues with the session it got. *)
Lemma safe_after_get id m m1 s m2 :
  GetSession unmarshal_grant id m = Ok (m1, s) ->
  (Inv m1 -> sessions m1 !! id = Some s -> SessionID s = id -> safe m1 m2) -> safe m m2.
Proof.
  intros Hg Hk Hm. apply get_session in Hg as (H1 & H2 & _). destruct (H1 Hm) as [Hm1 Hx].
  destruct (H2 Hm) as [Hs Hid]. destruct (Hk Hm1 Hs Hid Hm1) as [Hm2 Hx2]. split; [done|by etrans].
Qed.

Lemma safe_save s m : safe m (save_recording s m).
Proof. apply safe_metadata. Qed.

(** A session written back with the same id, state and operator token. *)
Lemma safe_put_back s s' id m :
  sessions m !! id = Some s -> SessionID s = id ->
  SessionID s' = SessionID s -> State s' = State s -> OperatorTokenHash s' = OperatorTokenHash s ->
  safe m (put s' m).
Proof. intros Hs Hid E1 E2 E3. apply (safe_put s); [by rewrite E1, Hid|by apply srel_same]. Qed.

Lemma safe_RecordFrame id f now m : safe m (fst (RecordFrame unmarshal_grant id f now m)).
Proof.
  unfold RecordFrame. destruct (negb _); [done|].
  destruct (GetSession unmarshal_grant id m) as [[m1 s]|e] eqn:Hg; [|done].
  pose proof (record_in_same (idleTimeout m1) now f s) as Hr.
  destruct (record_in (idleTimeout m1) now f s) as [s' w]. simpl in Hr. destruct Hr as (E1 & E2 & E3).
  apply (safe_after_get _ _ _ _ _ Hg). intros _ Hs Hid.
  assert (safe m1 (put s' m1)) by (by apply (safe_put_back s s' id)).
  destruct w; [|done]. etrans; [done|apply safe_save].
Qed.

Lemma safe_seal_failed s id m :
  sessions m !! id = Some s -> SessionID s = id -> safe m (seal_failed s m).
Proof.
  intros Hs Hid. unfold seal_failed. etrans; [|apply safe_metadata]. by apply (safe_put_back s _ id).
Qed.

Lemma safe_Seal id now m : safe m (fst (SealSessionRecording unmarshal_grant marshal_frame id now m)).
Proof.
  unfold SealSessionRecording.
  destruct (GetSession unmarshal_grant id m) as [[m1 s]|e] eqn:Hg; [|done].
  apply (safe_after_get _ _ _ _ _ Hg). intros _ Hs Hid. clear Hg m.
  destruct (String.eqb (RecordingState s) "sealed"); [done|].
  assert (forall m, sessions m !! id = Some s -> safe m (fst (
    let s := set_count (if String.eqb (RecordingState s) "bounded" then s
                        else s <| RecordingState := "closed"%string |>) in
    (save_recording s (put s m), Ok (E := string) tt)))) as Hnone.
  { intros m Hm. etrans; [|apply safe_save]. apply (safe_put_back s _ id); try done; by case_match. }
  destruct (evidenceStore m1) as [e|], (String.eqb (BundleID s) EmptyString); try by apply Hnone.
  destruct (StoreItem _ _ _ _ _ _ _) as [e1 item]. etrans; [apply (safe_evidence (Some e1))|].
  destruct item as [item|err]; [|by apply (safe_seal_failed s id)].
  destruct (FinalizeBundle _ _ _ _ _) as [e2 fin]. etrans; [apply (safe_evidence (Some e2))|].
  destruct fin as [?|err]; [|by apply (safe_seal_failed s id)].
  etrans; [|apply safe_save]. by apply (safe_put_back s _ id).
Qed.

Lemma srel_ending s s' :
  SessionID s' = SessionID s -> ended (State s') = true -> OperatorTokenHash s' = OperatorTokenHash s -> srel s s'.
Proof. intros E1 E2 E3. split; auto. intros _. unfold proper. rewrite E2. by apply orb_true_r. Qed.

Lemma safe_inv m m' : (Inv m -> safe m m') -> safe m m'.
Proof. intros Hk Hm. by apply Hk. Qed.

Lemma lookup_put s m : sessions (put s m) !! SessionID s = Some s.
Proof. unfold put. simpl. apply lookup_insert_eq. Qed.

(** Ending a session: in memory, then in its row. *)
Lemma safe_end s s' id t1 t2 reason b1 b2 m :
  sessions m !! id = Some s -> SessionID s = id -> SessionID s' = SessionID s ->
  State s' = StateClosed -> OperatorTokenHash s' = OperatorTokenHash s ->
  safe m (updateDurableState id StateClosed t1 t2 reason b1 b2 (put s' m)).
Proof.
  intros Hs Hid E1 E2 E3. etrans.
  - apply (safe_put s s'); [by rewrite E1, Hid|]. apply srel_ending; [done|by rewrite E2|done].
  - apply (safe_state id s'); [|done]. rewrite <- Hid, <- E1. apply lookup_put.
Qed.

Lemma safe_relay_Close id reason now m :
  safe m (relay_Close unmarshal_grant marshal_frame id reason now m).
Proof.
  unfold relay_Close. destruct (sessions m !! id) as [s|] eqn:Hs; [|done].
  destruct (relay s) as [pr|]; [|done]. destruct (closed pr); [done|].
  apply safe_inv. intros Hm. pose proof (inv_id _ Hm _ _ Hs) as Hid.
  etrans; [|apply safe_Seal]. by apply (safe_end s).
Qed.

Lemma safe_CloseSession id reason now m :
  safe m (fst (CloseSession unmarshal_grant marshal_frame id reason now m)).
Proof.
  unfold CloseSession. destruct (GetSession unmarshal_grant id m) as [[m1 s]|e] eqn:Hg; [|done].
  apply (safe_after_get _ _ _ _ _ Hg). intros _ Hs Hid. cbn [fst].
  etrans; [|apply safe_Seal]. etrans; [|apply safe_relay_Close]. by apply (safe_end s).
Qed.

Lemma safe_Rotate id token m :
  fresh id (HashToken token) -> safe m (fst (RotateOperatorToken HashToken unmarshal_grant id token m)).
Proof.
  intros Hf. unfold RotateOperatorToken.
  destruct (GetSession unmarshal_grant id m) as [[m1 s]|e] eqn:Hg; [|done].
  apply (safe_after_get _ _ _ _ _ Hg). intros _ Hs Hid. destruct (ended (State s)); [done|]. cbn [fst].
  etrans; [|apply safe_token]. apply (safe_put s); [by rewrite <- Hid in Hs|].
  split; auto. right. right. by rewrite Hid.
Qed.

Lemma safe_GetSessionRecording tenantID id m :
  safe m (fst (GetSessionRecording unmarshal_grant unmarshal_frame tenantID id m)).
Proof.
  unfold GetSessionRecording. destruct (GetSession unmarshal_grant id m) as [[m1 s]|e] eqn:Hg; [|done].
  by apply (safe_after_get _ _ _ _ _ Hg).
Qed.

(** ** Attachments *)

Lemma safe_on_relay f id m : safe m (on_relay f id m).
Proof. apply safe_alter. intros s _. by apply srel_same. Qed.

Lemma safe_touch id now m : safe m (touchActivity id now m).
Proof. apply safe_alter. intros s _. by apply srel_same. Qed.

Lemma safe_pong id now m : safe m (pong id now m).
Proof. unfold pong. repeat (case_match; [|done]). apply safe_touch. Qed.

Lemma detach_state_srel s b pr :
  srel s (s <| relay := pr |> <| OperatorConnected := b |> <| State ::= detach_state |>).
Proof. split; auto; simpl; by destruct (State s). Qed.

Lemma safe_detach drained id owner m : safe m (detachAttachment drained id owner m).
Proof.
  unfold detachAttachment. destruct (sessions m !! id) as [s|] eqn:Hs; [|done].
  destruct (relay s) as [pr|]; [|done]. repeat (case_match; [done|]).
  apply safe_inv. intros Hm. pose proof (inv_id _ Hm _ _ Hs) as Hid.
  set (s' := _ <| State ::= _ |>). assert (SessionID s' = id) as Hid' by done.
  etrans; [apply (safe_put s s'); [by rewrite Hid'|apply detach_state_srel]|].
  apply (safe_state id s'); [|done]. rewrite <- Hid'. apply lookup_put.
Qed.

Lemma safe_DetachSession drained id m : safe m (fst (DetachSession unmarshal_grant drained id m)).
Proof.
  unfold DetachSession. destruct (GetSession unmarshal_grant id m) as [[m1 s]|e] eqn:Hg; [|done].
  apply (safe_after_get _ _ _ _ _ Hg). intros _ _ _. destruct (relay s); [apply safe_detach|done].
Qed.

Lemma srel_join s s' :
  ended (State s) = false -> SessionID s' = SessionID s -> OperatorTokenHash s' = OperatorTokenHash s ->
  State s' = StateActive \/ State s' = StateConnecting -> srel s s'.
Proof. intros He E1 E2 E3. split; auto; [by destruct E3 as [-> | ->]|congruence]. Qed.

Lemma operator_joins_fields now m s :
  let s' := operator_joins now m s in
  SessionID s' = SessionID s /\ OperatorTokenHash s' = OperatorTokenHash s /\
  (State s' = StateActive \/ State s' = StateConnecting).
Proof. unfold operator_joins. simpl. destruct (AgentConnected s); simpl; auto. Qed.

Lemma agent_joins_fields now m s :
  let s' := agent_joins now m s in
  SessionID s' = SessionID s /\ OperatorTokenHash s' = OperatorTokenHash s /\
  (State s' = StateActive \/ State s' = StateConnecting).
Proof. unfold agent_joins. simpl. destruct (OperatorConnected s); simpl; auto. Qed.

(** A side joins: the session in memory, its row, and the connection or the
    flag taken back when the upgrade failed. *)
Lemma safe_join s s' id t1 t2 reason b1 b2 m :
  sessions m !! id = Some s -> SessionID s = id -> ended (State s) = false ->
  SessionID s' = SessionID s -> OperatorTokenHash s' = OperatorTokenHash s ->
  State s' = StateActive \/ State s' = StateConnecting ->
  safe m (updateDurableState id (State s') t1 t2 reason b1 b2 (put s' m)).
Proof.
  intros Hs Hid He E1 E2 E3. etrans.
  - apply (safe_put s s'); [by rewrite E1, Hid|by apply srel_join].
  - apply (safe_state id s'); [|done]. rewrite <- Hid, <- E1. apply lookup_put.
Qed.

Lemma sessions_on_row f id m : sessions (on_row f id m) = sessions m.
Proof. done. Qed.

Lemma safe_attach_consumed drained id conn now s m :
  safe m (fst (attach_consumed drained id conn now s m)).
Proof.
  unfold attach_consumed. destruct (ended (State s)); [done|]. set (m3 := if _ && _ then _ else m).
  assert (safe m m3) as H3 by (unfold m3; case_match; [apply safe_detach|done]).
  etrans; [exact H3|]. clearbody m3. clear H3.
  destruct (sessions m3 !! id) as [s3|] eqn:Hs3; [|done].
  destruct (ended (State s3)) eqn:He3; [done|]. destruct (OperatorConnected s3); [done|].
  apply safe_inv. intros Hm3. pose proof (inv_id _ Hm3 _ _ Hs3) as Hid3.
  destruct (operator_joins_fields now m3 s3) as (E1 & E2 & E3).
  set (s4 := operator_joins now m3 s3) in *. cbn zeta.
  set (m4 := updateDurableIdle _ _ _).
  assert (safe m3 m4) as H4.
  { unfold m4. etrans; [|apply safe_idle]. by apply (safe_join s3). }
  etrans; [exact H4|]. destruct conn as [c|]; [apply safe_on_relay|]. cbn [fst].
  apply (safe_put_back s4 _ id); try done; [|by rewrite E1].
  unfold m4, updateDurableIdle, updateDurableState. rewrite !sessions_on_row, <- Hid3, <- E1. apply lookup_put.
Qed.

(** Consuming the token of a session. *)
Lemma safe_consume s id m :
  sessions m !! id = Some s -> SessionID s = id ->
  let s1 := s <| OperatorTokenHash := EmptyString |> <| OperatorToken := EmptyString |> in
  safe m (updateDurableOperatorToken id EmptyString (put s1 m)).
Proof.
  intros Hs Hid s1. etrans; [|apply safe_token].
  apply (safe_put s s1); [by rewrite <- Hid in Hs|]. split; auto.
Qed.

Lemma safe_AttachOperator drained id raw conn now m :
  safe m (fst (AttachOperator HashToken unmarshal_grant drained id raw conn now m)).
Proof.
  unfold AttachOperator. destruct (GetSession unmarshal_grant id m) as [[m1 s]|e] eqn:Hg; [|done].
  apply (safe_after_get _ _ _ _ _ Hg). intros _ Hs Hid. destruct (negb _); [done|].
  etrans; [by apply (safe_consume s)|apply safe_attach_consumed].
Qed.

Lemma safe_AttachAgent id ep raw conn now m :
  safe m (fst (AttachAgent HashToken unmarshal_grant id ep raw conn now m)).
Proof.
  unfold AttachAgent. destruct (GetSession unmarshal_grant id m) as [[m1 s]|e] eqn:Hg; [|done].
  apply (safe_after_get _ _ _ _ _ Hg). intros _ Hs Hid.
  destruct (negb _); [done|]. destruct (negb _); [done|].
  destruct (ended (State s)) eqn:He; [done|]. destruct (AgentConnected s); [done|].
  destruct (agent_joins_fields now m1 s) as (E1 & E2 & E3). set (s4 := agent_joins now m1 s) in *. cbn zeta.
  set (m4 := updateDurableState _ _ _ _ _ _ _ _).
  assert (safe m1 m4) as H4 by (by apply (safe_join s)).
  etrans; [exact H4|]. destruct conn as [c|]; [apply safe_on_relay|]. cbn [fst].
  apply (safe_put_back s4 _ id); try done; [|by rewrite E1].
  unfold m4, updateDurableState. rewrite sessions_on_row, <- Hid, <- E1. apply lookup_put.
Qed.

Lemma safe_AttachWatcher drained id conn now m :
  safe m (fst (AttachWatcher unmarshal_grant drained id conn now m)).
Proof.
  unfold AttachWatcher. destruct (GetSession unmarshal_grant id m) as [[m1 s]|e] eqn:Hg; [|done].
  apply (safe_after_get _ _ _ _ _ Hg). intros _ Hs Hid.
  destruct (KindFor (Program s) m1) as [k|]; [|done]. do 2 (case_match; [done|]).
  set (s' := s <| relay := _ |> <| IdleExpiresAt := _ |> <| dirty := _ |>).
  assert (safe m1 (put s' m1)) as Hp by (by apply (safe_put_back s s' id)).
  do 2 (case_match; [exact Hp|]). destruct conn as [c|]; [|exact Hp]. case_match; [exact Hp|].
  etrans; [exact Hp|apply safe_on_relay].
Qed.

(** ** The pumps *)

Lemma safe_shell_message allowed a b c id msg now m :
  safe m (fst (fst (shell_message unmarshal_grant marshal_frame unmarshal_frame allowed a b c id msg now m))).
Proof.
  unfold shell_message. destruct (unmarshal_frame msg) as [f|]; [|done].
  destruct (negb _); [done|]. case_match; apply safe_RecordFrame.
Qed.

Lemma safe_operatorMessage id typ msg now m :
  safe m (fst (fst (operatorMessage unmarshal_grant marshal_frame unmarshal_frame id typ msg now m))).
Proof.
  unfold operatorMessage. destruct (get_pol id m) as [p|]; [|apply safe_shell_message].
  destruct (pol_Operator p typ msg) as [p' d]. destruct (reencoded d). apply safe_on_relay.
Qed.

Lemma safe_agentMessage id typ msg now m :
  safe m (fst (fst (agentMessage unmarshal_grant marshal_frame unmarshal_frame id typ msg now m))).
Proof.
  unfold agentMessage. destruct (get_pol id m) as [p|]; [|apply safe_shell_message].
  destruct (pol_Agent p typ msg) as [p' d]. destruct (policed d typ msg). apply safe_on_relay.
Qed.

Lemma safe_operator_round id typ msg now m :
  safe m (fst (operator_round unmarshal_grant marshal_frame unmarshal_frame id typ msg now m)).
Proof.
  unfold operator_round. pose proof (safe_operatorMessage id typ msg now m) as Hm.
  destruct (operatorMessage _ _ _ _ _ _ _ _) as [[m1 x] d]. simpl in Hm. etrans; [exact Hm|].
  set (m2 := if Activity d then _ else m1).
  etrans; [apply (safe_trans m1 m2); [unfold m2; case_match; [apply safe_touch|done]|done]|].
  destruct (Action d); [done|done|apply safe_relay_Close].
Qed.

Lemma safe_agent_round drained id typ msg now m :
  safe m (fst (agent_round unmarshal_grant marshal_frame unmarshal_frame drained id typ msg now m)).
Proof.
  unfold agent_round. pose proof (safe_agentMessage id typ msg now m) as Hm.
  destruct (agentMessage _ _ _ _ _ _ _ _) as [[m1 x] d]. simpl in Hm. etrans; [exact Hm|].
  destruct (Action d); [|done|apply safe_relay_Close].
  destruct (_ ≫= _) as [pr|]; [|done].
  destruct (agent_deliver drained x pr). apply safe_on_relay.
Qed.

(** ** The sweeper *)

Lemma safe_fmap f m : (forall s, srel s (f s)) -> safe m (m <| sessions ::= fmap f |>).
Proof.
  intros Hf Hm. split.
  - split; simpl.
    + intros i s' Hs. apply lookup_fmap_Some in Hs as (s & <- & Hs). rewrite (srel_id _ _ (Hf s)). by eapply inv_id.
    + intros i s' Hs. apply lookup_fmap_Some in Hs as (s & <- & Hs).
      destruct (inv_row _ Hm _ _ Hs) as (r & Hr & [He|Hl]); exists r; split; auto.
      left. by apply (srel_ended _ _ (Hf s)).
    + intros i s' Hs. apply lookup_fmap_Some in Hs as (s & <- & Hs).
      apply (srel_proper _ _ (Hf s)). by eapply inv_mem_proper.
    + intros i r Hr. by eapply inv_row_proper.
  - split; simpl; try done; [|by intros i r Hr; exists r..].
    intros i s Hs. exists (f s). by rewrite lookup_fmap, Hs.
Qed.

Lemma safe_flushDirty m : safe m (flushDirty m).
Proof.
  unfold flushDirty. etrans; [apply (safe_fmap (fun s => s <| dirty := false |>))|].
  - intros s. by apply srel_same.
  - apply safe_fold. intros m' s. apply safe_progress.
Qed.

Definition sweeps_out (l : list expiredSessionInfo) : Prop :=
  Forall (fun x => ended (x_NewState x) = true) l.

Lemma ended_not_live st : ended st = true -> live st = false.
Proof. by destruct st. Qed.

Lemma expire_rows now l m :
  sweeps_out l ->
  let m' := fold_left (fun m x => expire_row now x m) l m in
  sessions m' = sessions m /\ perTenant m' = perTenant m /\ perEndpoint m' = perEndpoint m /\
  (forall id, match db m !! id, db m' !! id with
    | Some r, Some r' => rrel r r' /\ (proper (r_state r) = true -> proper (r_state r') = true) /\
        (id ∉ map x_SessionID l -> r' = r)
    | None, None => True
    | _, _ => False
    end).
Proof.
  intros Hl. revert m. induction Hl as [|x l Hx Hl IH]; intros m; simpl.
  { repeat split; auto. intros id. by destruct (db m !! id). }
  destruct (IH (expire_row now x m)) as (E1 & E2 & E3 & E4). repeat split; auto.
  intros id. specialize (E4 id). revert E4. unfold expire_row, on_row. simpl.
  set (m' := fold_left _ _ _). destruct (decide (id = x_SessionID x)) as [->|Hne].
  - rewrite lookup_alter_eq. destruct (db m !! x_SessionID x) as [r|], (db m' !! x_SessionID x) as [r'|]; try done.
    simpl. intros (R & Hp & Heq). destruct (live (r_state r)) eqn:Hlive.
    + split; [|split].
      * destruct R. split; simpl in *; auto.
      * intros _. apply Hp. simpl. unfold proper. rewrite Hx. by apply orb_true_r.
      * intros Hn. exfalso. apply Hn. left.
    + split; [done|]. split; [done|]. intros Hn. apply Heq. intros Hin. apply Hn. by right.
  - rewrite lookup_alter_ne by done. destruct (db m !! id), (db m' !! id); try done.
    intros (R & Hp & Heq). split; [done|]. split; [done|]. intros Hn. apply Heq. intros Hin. apply Hn. by right.
Qed.

Lemma expire_sessions now l m :
  sweeps_out l ->
  let m' := fold_left (expire_session now) l m in
  db m' = db m /\ perTenant m' = perTenant m /\ perEndpoint m' = perEndpoint m /\
  (forall id, match sessions m !! id, sessions m' !! id with
    | Some s, Some s' => srel s s' /\ (id ∈ map x_SessionID l -> ended (State s') = true) /\
        (id ∉ map x_SessionID l -> s' = s)
    | None, None => True
    | _, _ => False
    end).
Proof.
  intros Hl. revert m. induction Hl as [|x l Hx Hl IH]; intros m; simpl.
  { repeat split; auto. intros id. destruct (sessions m !! id); [|done]. split; [done|].
    split; [intros []%not_elem_of_nil|done]. }
  destruct (IH (expire_session now m x)) as (E1 & E2 & E3 & E4). repeat split; auto.
  intros id. specialize (E4 id). revert E4. unfold expire_session. simpl.
  set (m' := fold_left _ _ _). destruct (decide (id = x_SessionID x)) as [->|Hne].
  - rewrite lookup_alter_eq. destruct (sessions m !! x_SessionID x) as [s|], (sessions m' !! x_SessionID x) as [s'|]; try done.
    simpl. intros (R & Hin & Heq). assert (ended (State s') = true) as He by (by apply (srel_ended _ _ R)).
    split; [|split; [done|intros Hn; exfalso; apply Hn; left]].
    etrans; [|exact R]. by apply srel_ending.
  - rewrite lookup_alter_ne by done. destruct (sessions m !! id), (sessions m' !! id); try done.
    intros (R & Hin & Heq). split; [done|]. rewrite elem_of_cons. split; [tauto|]. intros Hn. apply Heq. tauto.
Qed.

Lemma sweep_sweeps_out now timeout m : sweeps_out (snd (sweepExpiredSessions now timeout m)).
Proof.
  unfold sweeps_out, sweepExpiredSessions. cbn [snd]. rewrite !Forall_app, !Forall_map.
  repeat split; by apply Forall_true.
Qed.

(** The rows of the swept sessions, then the sessions themselves. *)
Lemma safe_expire now l m :
  sweeps_out l ->
  safe m (fold_left (expire_session now) l (fold_left (fun m x => expire_row now x m) l m)).
Proof.
  intros Hl Hm. destruct (expire_rows now l m Hl) as (A1 & A2 & A3 & A4).
  set (m1 := fold_left _ l m) in *. destruct (expire_sessions now l m1 Hl) as (B1 & B2 & B3 & B4).
  set (m2 := fold_left _ l m1) in *. rewrite A1 in B4.
  assert (forall id r', db m2 !! id = Some r' -> exists r, db m !! id = Some r /\ rrel r r' /\
    (proper (r_state r) = true -> proper (r_state r') = true) /\ (id ∉ map x_SessionID l -> r' = r)) as HD.
  { intros id r'. rewrite B1. intros Hr. specialize (A4 id). rewrite Hr in A4. destruct (db m !! id); naive_solver. }
  assert (forall id s', sessions m2 !! id = Some s' -> exists s, sessions m !! id = Some s /\ srel s s' /\
    (id ∈ map x_SessionID l -> ended (State s') = true) /\ (id ∉ map x_SessionID l -> s' = s)) as HS.
  { intros id s' Hs. specialize (B4 id). rewrite Hs in B4. destruct (sessions m !! id); naive_solver. }
  split; [split|split].
  - intros id s' (s & Hs & R & _)%HS. rewrite (srel_id _ _ R). by eapply inv_id.
  - intros id s' (s & Hs & R & Hin & Heq)%HS. destruct (inv_row _ Hm _ _ Hs) as (r & Hr & Hor).
    specialize (A4 id). rewrite Hr, <- B1 in A4. destruct (db m2 !! id) as [r'|]; [|done].
    exists r'. split; [done|]. destruct (decide (id ∈ map x_SessionID l)) as [Hi|Hi]; [auto|].
    destruct A4 as (_ & _ & A5). by rewrite A5, (Heq Hi).
  - intros id s' (s & Hs & R & _)%HS. apply (srel_proper _ _ R). by eapply inv_mem_proper.
  - intros id r' (r & Hr & _ & Hp & _)%HD. apply Hp. by eapply inv_row_proper.
  - congruence.
  - congruence.
  - intros id s Hs. specialize (B4 id). rewrite Hs in B4. destruct (sessions m2 !! id); naive_solver.
  - intros id r' (r & Hr & R & _)%HD. eauto.
  - intros id r Hr. specialize (A4 id). rewrite Hr, <- B1 in A4. by destruct (db m2 !! id).
Qed.

Lemma safe_Sweep now m : safe m (Sweep unmarshal_grant marshal_frame now m).
Proof.
  unfold Sweep. etrans; [apply safe_flushDirty|]. set (m1 := flushDirty m).
  pose proof (sweep_sweeps_out now (connectTimeout m1) m1) as Hout.
  unfold sweepExpiredSessions in *. cbn [snd] in Hout. set (l := _ ++ _) in *.
  etrans; [apply (safe_expire now l m1 Hout)|].
  etrans; [apply (safe_fold (fun m id => relay_Close unmarshal_grant marshal_frame id "timeout" now m))|].
  - intros. apply safe_relay_Close.
  - apply safe_fold. intros. apply safe_Seal.
Qed.

Lemma safe_Manager_Close now m : safe m (Manager_Close unmarshal_grant marshal_frame now m).
Proof.
  unfold Manager_Close. etrans; [|apply safe_flushDirty].
  apply (safe_fold (fun m id => relay_Close unmarshal_grant marshal_frame id "manager_closed" now m)).
  intros. apply safe_relay_Close.
Qed.

(** ** Creating a session *)

(** What a successful create adds. *)
Record created (tenant endpoint program : string) (now : Z) (m m' : Mgr) (s : Session) : Prop := {
  cr_new : db m !! SessionID s = None;
  cr_waiting : State s = StateWaiting;
  cr_row : exists r, db m' = <[SessionID s := r]> (db m) /\ r_state r = StateWaiting /\
    r_tenant_id r = tenant /\ r_endpoint_id r = endpoint /\ r_program r = program /\
    r_expires_at r = ExpiresAt s /\ r_operator_token_hash r = OperatorTokenHash s;
  cr_mem : sessions m' = <[SessionID s := s]> (sessions m);
  cr_tenant : perTenant m' = perTenant m;
  cr_endpoint : perEndpoint m' = perEndpoint m;
  cr_under_tenant : fst (countActiveSessions tenant endpoint now m) < perTenant m;
  cr_under_endpoint : snd (countActiveSessions tenant endpoint now m) < perEndpoint m;
  cr_expires : ExpiresAt s <= now + maxDuration m;
  cr_kind : forall k, KindFor program m = Some k -> 0 < MaxPerEndpoint k ->
    countLiveKind endpoint (Prefix k) now m < MaxPerEndpoint k;
}.

Lemma insert_spec s m m' :
  insertDurableSession marshal_grant s m = Ok m' ->
  db m !! SessionID s = None /\ sessions m' = sessions m /\ perTenant m' = perTenant m /\
  perEndpoint m' = perEndpoint m /\
  exists r, db m' = <[SessionID s := r]> (db m) /\ r_state r = State s /\
    r_tenant_id r = TenantID s /\ r_endpoint_id r = EndpointID s /\ r_program r = Program s /\
    r_expires_at r = ExpiresAt s /\ r_operator_token_hash r = OperatorTokenHash s.
Proof.
  unfold insertDurableSession. intros Hi. apply result_bind_Ok in Hi as (g & _ & Hi).
  destruct (db m !! SessionID s) eqn:Hr; [done|]. injection Hi as <-. simpl.
  repeat split; auto. eexists. split; [reflexivity|]. done.
Qed.

Lemma create_spec sid tok tenant endpoint operator program grant d u1 u2 u3 now m :
  let '(m', res) := createSession HashToken marshal_grant sid tok tenant endpoint operator program grant d u1 u2 u3 now m in
  match res with
  | Err _ => exists ev, m' = m <| evidenceStore := ev |>
  | Ok s => created tenant endpoint program now m m' s
  end.
Proof.
  unfold createSession. destruct (countActiveSessions tenant endpoint now m) as [nt ne] eqn:Hc.
  assert (m = m <| evidenceStore := evidenceStore m |>) as Hsame by (by destruct m).
  destruct (perTenant m <=? nt) eqn:Ht; [eauto|]. destruct (perEndpoint m <=? ne) eqn:He; [eauto|].
  set (k := KindFor program m). set (full := match k with Some _ => _ | None => false end).
  destruct full eqn:Hfull; [eauto|].
  set (d' := if _ || _ then maxDuration m else d). set (sid' := if String.eqb sid _ then u1 else sid).
  set (s0 := new_session _ _ _ _ _ _ _ _ _ _ _ _ _).
  set (pair := match evidenceStore m with Some _ => _ | None => _ end).
  assert (exists ev b, pair = (m <| evidenceStore := ev |>, s0 <| BundleID := b |>)) as (ev & b & ->).
  { unfold pair. destruct (evidenceStore m) as [e|] eqn:Hev.
    - destruct (match k with Some k => NoRecording k | None => false end).
      + exists (Some e), (BundleID s0). by rewrite Hsame at 1.
      + destruct (CreateBundle _ _ _ _ _ _) as [e' [bundle|err]]; [by exists (Some e'), bundle|].
        by exists (Some e'), (BundleID s0).
    - exists None, (BundleID s0). by rewrite Hsame at 1. }
  destruct (insertDurableSession _ _ _) as [m2|err] eqn:Hi; [|eauto].
  apply insert_spec in Hi as (Hnew & Hs & Hpt & Hpe & r & Hdb & Hr). bools.
  split; try done.
  - exists r. destruct Hr as (? & ? & ? & ? & ? & ?). by repeat split.
  - unfold put. simpl. by rewrite Hs.
  - rewrite Hc. done.
  - rewrite Hc. done.
  - simpl. unfold d'. destruct ((d <=? 0) || (maxDuration m <? d)) eqn:Ed; bools; lia.
  - intros k0 Hk0 Hpos. unfold full, k in Hfull. rewrite Hk0 in Hfull.
    apply andb_false_iff in Hfull as [Hf|Hf]; bools; lia.
Qed.

Lemma created_Inv tenant endpoint program now m m' s : created tenant endpoint program now m m' s -> Inv m -> Inv m'.
Proof.
  intros C Hm. destruct (cr_row _ _ _ _ _ _ _ C) as (r & Hdb & Hst & _).
  pose proof (cr_mem _ _ _ _ _ _ _ C) as Hmem. pose proof (cr_waiting _ _ _ _ _ _ _ C) as Hw.
  split; rewrite ?Hdb, ?Hmem.
  - intros id x Hx. apply lookup_insert_Some in Hx as [[<- <-]|[_ Hx]]; [done|by eapply inv_id].
  - intros id x Hx. apply lookup_insert_Some in Hx as [[<- <-]|[Hne Hx]].
    + exists r. rewrite lookup_insert_eq. split; [done|]. right. by rewrite Hst.
    + destruct (inv_row _ Hm _ _ Hx) as (r' & Hr' & ?). exists r'. by rewrite lookup_insert_ne.
  - intros id x Hx. apply lookup_insert_Some in Hx as [[<- <-]|[_ Hx]]; [by rewrite Hw|by eapply inv_mem_proper].
  - intros id x Hx. apply lookup_insert_Some in Hx as [[<- <-]|[_ Hx]]; [by rewrite Hst|by eapply inv_row_proper].
Qed.

End Invariant.
