(* ===== verification/TerminalProps.v ===== *)
(** * Terminal sessions: guarantees

    The handlers as operations of a machine, the invariants of every sequence
    of them, and the behaviour of the sweep, the recording, the queues and the
    attachments. *)

From Stdlib Require Import Ascii String.
From stdpp Require Import gmap strings.
From S2P Require Import Prelude Terminal TerminalRelay TerminalInv.
Import terminal relay.

Section Machine.
Context {P G E : Type} `{!EvidenceStore E} `{!FramePolicy P}.
Context (HashToken : string -> string).
Context (marshal_grant : G -> result string string) (unmarshal_grant : string -> option G).
Context (marshal_frame : TerminalFrame -> option string) (unmarshal_frame : string -> option TerminalFrame).

Local Notation Mgr := (Manager P G E).
Local Notation Session := (TerminalSession P G).
Local Notation Relay := (PairedRelay P).

Implicit Types (m : Mgr) (s : Session) (r : Row).

(** ** Operations *)

(** The handlers and the rounds of the pumps, with what the network and the
    identifier source supply. *)
Inductive op : Type :=
| OCreate (sessionID token tenantID endpointID operatorID program : string) (grant : option G)
    (d : Z) (u1 u2 u3 : string)
| OGet (id : string)
| ORecord (id : string) (f : TerminalFrame)
| OSeal (id : string)
| ORead (tenantID id : string)
| OClose (id reason : string)
| ORotate (id token : string)
| ODetach (drained : bool) (id : string)
| OOperatorGone (drained : bool) (id : string) (owner : option nat)
| OAttachOperator (drained : bool) (id token : string) (conn : option nat)
| OAttachAgent (id endpointID token : string) (conn : option nat)
| OAttachWatcher (drained : bool) (id : string) (conn : option nat)
| OOperatorMessage (id : string) (typ : Z) (message : string)
| OAgentMessage (drained : nat -> bool) (id : string) (typ : Z) (message : string)
| OQueueForAgent (id : string) (msg : relayMsg)
| OQueueForOperator (id : string) (msg : relayMsg)
| OAgentTakes (id : string)
| OOperatorTakes (id : string)
| OPong (id : string)
| OWatcherMessage (id : string) (w : nat) (typ : Z) (message : string)
| OWatcherGone (drained : bool) (id : string) (w : nat)
| ORelayClose (id reason : string)
| OSweep
| OSetLimits (lim : Limits)
| OShutdown.

(** A step of a relay that may have to wait. *)
Definition try_relay (f : Relay -> option Relay) : string -> Mgr -> Mgr :=
  on_relay (fun pr => match f pr with Some pr' => pr' | None => pr end).

Definition exec (now : Z) (o : op) (m : Mgr) : Mgr :=
  match o with
  | OCreate sid tok tenant endpoint operator program grant d u1 u2 u3 =>
      fst (createSession HashToken marshal_grant sid tok tenant endpoint operator program grant d u1 u2 u3 now m)
  | OGet id => match GetSession unmarshal_grant id m with Ok (m', _) => m' | Err _ => m end
  | ORecord id f => fst (RecordFrame unmarshal_grant id f now m)
  | OSeal id => fst (SealSessionRecording unmarshal_grant marshal_frame id now m)
  | ORead tenant id => fst (GetSessionRecording unmarshal_grant unmarshal_frame tenant id m)
  | OClose id reason => fst (CloseSession unmarshal_grant marshal_frame id reason now m)
  | ORotate id token => fst (RotateOperatorToken HashToken unmarshal_grant id token m)
  | ODetach drained id => fst (DetachSession unmarshal_grant drained id m)
  | OOperatorGone drained id owner => detachAttachment drained id owner m
  | OAttachOperator drained id token conn => fst (AttachOperator HashToken unmarshal_grant drained id token conn now m)
  | OAttachAgent id ep token conn => fst (AttachAgent HashToken unmarshal_grant id ep token conn now m)
  | OAttachWatcher drained id conn => fst (AttachWatcher unmarshal_grant drained id conn now m)
  | OOperatorMessage id typ msg => fst (operator_round unmarshal_grant marshal_frame unmarshal_frame id typ msg now m)
  | OAgentMessage drained id typ msg => fst (agent_round unmarshal_grant marshal_frame unmarshal_frame drained id typ msg now m)
  | OQueueForAgent id msg => try_relay (enqueue_for_agent msg) id m
  | OQueueForOperator id msg => try_relay (enqueueForOperator msg) id m
  | OAgentTakes id => try_relay (fun pr => snd <$> agent_take pr) id m
  | OOperatorTakes id => try_relay (fun pr => snd <$> operator_take pr) id m
  | OPong id => pong id now m
  | OWatcherMessage id w typ msg => on_relay (fun pr => fst (watcher_round w typ msg pr)) id m
  | OWatcherGone drained id w => on_relay (removeWatcher drained w) id m
  | ORelayClose id reason => relay_Close unmarshal_grant marshal_frame id reason now m
  | OSweep => Sweep unmarshal_grant marshal_frame now m
  | OSetLimits lim => SetLimits lim m
  | OShutdown => Manager_Close unmarshal_grant marshal_frame now m
  end.

(** Neither a create nor a change of the limits. *)
Definition ordinary (o : op) : bool := match o with OCreate _ _ _ _ _ _ _ _ _ _ _ | OSetLimits _ => false | _ => true end.

Definition rotates (id : string) (o : op) : bool :=
  match o with ORotate id' _ => String.eqb id' id | _ => false end.

(** Every ordinary operation is safe, for any set of token hashes that holds
    what it may install. *)
Lemma exec_safe fresh now o m :
  ordinary o = true ->
  (forall id token, o = ORotate id token -> fresh id (HashToken token)) ->
  safe fresh m (exec now o m).
Proof.
  intros Hc Hf. destruct o; try done; simpl.
  - destruct (GetSession unmarshal_grant id m) as [[m' s]|e] eqn:Hg; [|done].
    by apply (get_session unmarshal_grant fresh) in Hg as (? & _).
  - apply safe_RecordFrame.
  - apply safe_Seal.
  - apply safe_GetSessionRecording.
  - apply safe_CloseSession.
  - apply safe_Rotate. by apply Hf.
  - apply safe_DetachSession.
  - apply safe_detach.
  - apply safe_AttachOperator.
  - apply safe_AttachAgent.
  - apply safe_AttachWatcher.
  - apply safe_operator_round.
  - apply safe_agent_round.
  - apply safe_on_relay.
  - apply safe_on_relay.
  - apply safe_on_relay.
  - apply safe_on_relay.
  - apply safe_pong.
  - apply safe_on_relay.
  - apply safe_on_relay.
  - apply safe_relay_Close.
  - apply safe_Sweep; assumption.
  - apply safe_Manager_Close.
Qed.

Definition any_token : string -> string -> Prop := fun _ _ => True.

Lemma exec_other now o m :
  ordinary o = false ->
  (exists ev, exec now o m = m <| evidenceStore := ev |>) \/ (exists lim, exec now o m = SetLimits lim m) \/
  exists tenant endpoint program s, created tenant endpoint program now m (exec now o m) s.
Proof.
  intros Hc. destruct o; try done; simpl; [|eauto].
  pose proof (create_spec HashToken marshal_grant sessionID token tenantID endpointID operatorID program grant d u1 u2 u3 now m) as Hs.
  destruct (createSession _ _ _ _ _ _ _ _ _ _ _ _ _ _) as [m' [s|e]]; [right; right|left]; eauto.
Qed.

Lemma limits_Inv lim m : Inv m -> Inv (SetLimits lim m).
Proof. intros Hm. destruct Hm. by split. Qed.

Lemma exec_Inv now o m : Inv m -> Inv (exec now o m).
Proof.
  intros Hm. destruct (ordinary o) eqn:Hc; [by apply (exec_safe any_token now o m)|].
  destruct (exec_other now o m Hc) as [[ev ->]|[[lim ->]|(t & e & p & s & C)]].
  - by apply (safe_evidence any_token).
  - by apply limits_Inv.
  - by eapply created_Inv.
Qed.

(** A run: operations with the clock readings they take. *)
Definition run (l : list (Z * op)) (m : Mgr) : Mgr := fold_left (fun m x => exec x.1 x.2 m) l m.

Lemma run_Inv l m : Inv m -> Inv (run l m).
Proof. revert m. induction l as [|[now o] l IH]; intros m Hm; [done|]. by apply IH, exec_Inv. Qed.

(** ** The caps *)

Lemma count_rows_le (f g : Row -> bool) m m' :
  (forall id r', db m' !! id = Some r' -> f r' = true -> exists r, db m !! id = Some r /\ g r = true) ->
  count_rows f m' <= count_rows g m.
Proof.
  intros Hfg. unfold count_rows. apply Nat2Z.inj_le. rewrite <- !size_dom. apply subseteq_size.
  intros id (r' & Hr')%elem_of_dom. apply map_lookup_filter_Some in Hr' as [Hr' Hf]. simpl in Hf.
  destruct (Hfg _ _ Hr' Hf) as (r & Hr & Hg). apply elem_of_dom. exists r.
  by apply map_lookup_filter_Some.
Qed.

Lemma count_rows_insert (f : Row -> bool) m m' id r :
  db m' = <[id := r]> (db m) -> count_rows f m' <= count_rows f m + (if f r then 1 else 0).
Proof.
  intros Hdb. destruct (f r) eqn:Hfr.
  - unfold count_rows. rewrite <- !size_dom.
    assert (dom (filter (fun kv => f kv.2 = true) (db m')) ⊆
            {[id]} ∪ dom (filter (fun kv => f kv.2 = true) (db m))) as Hsub.
    { intros i (x & [Hx Hfx]%map_lookup_filter_Some)%elem_of_dom. rewrite Hdb in Hx.
      apply lookup_insert_Some in Hx as [[<- <-]|[Hne Hx]]; [set_solver|].
      apply elem_of_union. right. apply elem_of_dom. exists x. by apply map_lookup_filter_Some. }
    apply subseteq_size in Hsub. rewrite size_union_alt, size_singleton in Hsub.
    assert (size (dom (filter (fun kv => f kv.2 = true) (db m)) ∖ {[id]})
            <= size (dom (filter (fun kv => f kv.2 = true) (db m))))%nat by (apply subseteq_size; set_solver).
    lia.
  - rewrite Z.add_0_r. apply count_rows_le. intros i x Hx Hfx. rewrite Hdb in Hx.
    apply lookup_insert_Some in Hx as [[<- <-]|[Hne Hx]]; [congruence|eauto].
Qed.

(** No tenant holds more slots than [bt], no endpoint more than [be]. *)
Definition within_caps (bt be now : Z) (m : Mgr) : Prop :=
  forall tenant endpoint,
    fst (countActiveSessions tenant endpoint now m) <= bt /\ snd (countActiveSessions tenant endpoint now m) <= be.

Lemma holds_slot_later t now r : t <= now -> holds_slot now r = true -> holds_slot t r = true.
Proof. unfold holds_slot. intros Ht Hs. bools. apply andb_true_iff. split; [done|]. apply Z.ltb_lt. lia. Qed.

(** Slots held later are slots held before, by the same owner. *)
Lemma counts_le t now m m' :
  (forall id r', db m' !! id = Some r' -> holds_slot now r' = true ->
     exists r, db m !! id = Some r /\ r_tenant_id r = r_tenant_id r' /\
       r_endpoint_id r = r_endpoint_id r' /\ holds_slot t r = true) ->
  forall tenant endpoint,
    fst (countActiveSessions tenant endpoint now m') <= fst (countActiveSessions tenant endpoint t m) /\
    snd (countActiveSessions tenant endpoint now m') <= snd (countActiveSessions tenant endpoint t m).
Proof.
  intros Hs tenant endpoint. unfold countActiveSessions. cbn [fst snd].
  split; apply count_rows_le; intros id r' Hr' Hf; apply andb_true_iff in Hf as [Ho Hh];
    destruct (Hs _ _ Hr' Hh) as (r & Hr & Et & Ee & Hslot); exists r; by rewrite ?Et, ?Ee, ?Ho, ?Hslot.
Qed.

Lemma counts_later t now m : t <= now ->
  forall tenant endpoint,
    fst (countActiveSessions tenant endpoint now m) <= fst (countActiveSessions tenant endpoint t m) /\
    snd (countActiveSessions tenant endpoint now m) <= snd (countActiveSessions tenant endpoint t m).
Proof. intros Ht. apply counts_le. intros id r Hr Hh. exists r. eauto using holds_slot_later. Qed.

Lemma rrel_slot t now r r' :
  t <= now -> rrel r r' -> holds_slot now r' = true ->
  r_tenant_id r = r_tenant_id r' /\ r_endpoint_id r = r_endpoint_id r' /\ holds_slot t r = true.
Proof.
  intros Ht [E1 E2 _ E3 Hl] Hh. repeat split; auto. apply (holds_slot_later t now); [done|].
  unfold holds_slot in *. bools. rewrite E3 in *. apply andb_true_iff. split; [auto|by apply Z.ltb_lt].
Qed.

Lemma caps_created bt be t now tenant endpoint program s m m' :
  t <= now -> within_caps bt be t m -> perTenant m <= bt -> perEndpoint m <= be -> created tenant endpoint program now m m' s ->
  within_caps bt be now m'.
Proof.
  intros Ht Hcaps Bt Be C x y. destruct (cr_row _ _ _ _ _ _ _ C) as (r & Hdb & _ & Et & Ee & _).
  pose proof (cr_under_tenant _ _ _ _ _ _ _ C) as U1. pose proof (cr_under_endpoint _ _ _ _ _ _ _ C) as U2.
  destruct (Hcaps x y) as [C1 C2]. destruct (counts_later t now m Ht x y) as [L1 L2].
  unfold countActiveSessions in *. cbn [fst snd] in *. rewrite <- Et in U1. rewrite <- Ee in U2. split.
  - pose proof (count_rows_insert (fun r => String.eqb (r_tenant_id r) x && holds_slot now r) m m' _ _ Hdb) as I1. cbn beta in I1.
    destruct (String.eqb_spec (r_tenant_id r) x) as [<-|]; cbn [andb] in I1; [|lia].
    destruct (holds_slot now r); lia.
  - pose proof (count_rows_insert (fun r => String.eqb (r_endpoint_id r) y && holds_slot now r) m m' _ _ Hdb) as I1. cbn beta in I1.
    destruct (String.eqb_spec (r_endpoint_id r) y) as [<-|]; cbn [andb] in I1; [|lia].
    destruct (holds_slot now r); lia.
Qed.

(** A step that leaves the table alone. *)
Lemma caps_same bt be t now m m' : t <= now -> db m' = db m -> within_caps bt be t m -> within_caps bt be now m'.
Proof.
  intros Ht Ed Hcaps x y. destruct (Hcaps x y), (counts_later t now m Ht x y).
  unfold countActiveSessions, count_rows in *. cbn [fst snd] in *. rewrite Ed. lia.
Qed.

Lemma caps_step bt be t now o m :
  t <= now -> Inv m -> within_caps bt be t m -> perTenant m <= bt -> perEndpoint m <= be -> within_caps bt be now (exec now o m).
Proof.
  intros Ht Hm Hcaps Bt Be. destruct (ordinary o) eqn:Hc.
  - destruct (exec_safe any_token now o m Hc) as [_ X]; [done..|]. intros x y. destruct (Hcaps x y).
    destruct (counts_le t now m (exec now o m)) with x y; [|lia].
    intros id r' Hr' Hh. destruct (ext_db _ _ _ X _ _ Hr') as (r & Hr & R). exists r.
    destruct (rrel_slot t now r r' Ht R Hh) as (? & ? & ?). auto.
  - destruct (exec_other now o m Hc) as [[ev ->]|[[lim ->]|(tn & en & pn & s & C)]]; [by eapply caps_same..|by eapply caps_created].
Qed.

(** The clock does not go back during a run. *)
Fixpoint monotone (t : Z) (l : list (Z * op)) : Prop :=
  match l with
  | [] => True
  | x :: l' => t <= x.1 /\ monotone x.1 l'
  end.

(** The reading of the last operation. *)
Definition last_time (t : Z) (l : list (Z * op)) : Z := fold_left (fun _ x => x.1) l t.

(** The highest value a setting takes during a run. *)
Fixpoint peak (f : Mgr -> Z) (l : list (Z * op)) (m : Mgr) : Z :=
  match l with
  | [] => f m
  | x :: l' => Z.max (f m) (peak f l' (exec x.1 x.2 m))
  end.

Lemma peak_start f l m : f m <= peak f l m.
Proof. destruct l as [|x l]; simpl; lia. Qed.

Lemma run_caps bt be t l m :
  Inv m -> within_caps bt be t m -> monotone t l -> peak perTenant l m <= bt -> peak perEndpoint l m <= be ->
  within_caps bt be (last_time t l) (run l m).
Proof.
  revert t m. induction l as [|[now o] l IH]; intros t m Hm Hcaps; [done|]. intros [Ht Hl] Pt Pe. simpl in Pt, Pe.
  apply IH; [by apply exec_Inv| |done|simpl; lia..]. apply (caps_step bt be t); [done..|lia|lia].
Qed.

(** With the limits left alone, the peaks are the limits. *)
Definition sets_limits (o : op) : bool := match o with OSetLimits _ => true | _ => false end.

Lemma exec_limits now o m :
  Inv m -> sets_limits o = false -> perTenant (exec now o m) = perTenant m /\ perEndpoint (exec now o m) = perEndpoint m.
Proof.
  intros Hm Hs. destruct (ordinary o) eqn:Hc.
  - destruct (exec_safe any_token now o m Hc) as [_ X]; [done..|].
    by rewrite (ext_tenant _ _ _ X), (ext_endpoint _ _ _ X).
  - destruct o; try done. simpl.
    pose proof (create_spec HashToken marshal_grant sessionID token tenantID endpointID operatorID program grant d u1 u2 u3 now m) as C.
    destruct (createSession _ _ _ _ _ _ _ _ _ _ _ _ _ _) as [m' [s|e]]; simpl.
    + by rewrite (cr_tenant _ _ _ _ _ _ _ C), (cr_endpoint _ _ _ _ _ _ _ C).
    + by destruct C as [ev ->].
Qed.

Lemma peak_fixed l m :
  Inv m -> Forall (fun x => sets_limits x.2 = false) l -> peak perTenant l m = perTenant m /\ peak perEndpoint l m = perEndpoint m.
Proof.
  revert m. induction l as [|[now o] l IH]; intros m Hm Hl; [done|]. apply Forall_cons in Hl as [Ho Hl]. simpl in Ho |- *.
  destruct (exec_limits now o m Hm Ho) as [E1 E2]. destruct (IH (exec now o m)) as [-> ->]; [by apply exec_Inv|done|]. rewrite E1, E2. lia.
Qed.

(** A hub started on an empty table, with its configured limits. *)
Definition start (ks : list SessionKind) (ev : option E) (lim : Limits) (now : Z) : Mgr :=
  SetLimits lim (NewManager ∅ ks ev 0 0 now).

Lemma start_rows ks ev lim now id : db (start ks ev lim now) !! id = None.
Proof. unfold start. simpl. by rewrite fmap_empty, lookup_empty. Qed.

Lemma start_Inv ks ev lim now : Inv (start ks ev lim now).
Proof.
  split; try (intros id x Hx; simpl in Hx; by rewrite lookup_empty in Hx).
  intros id x Hx. by rewrite start_rows in Hx.
Qed.

Lemma start_caps ks ev lim now : within_caps (perTenant (start ks ev lim now)) (perEndpoint (start ks ev lim now)) now (start ks ev lim now).
Proof.
  assert (forall f, count_rows f (start ks ev lim now) <= 0) as Hz.
  { intros f. unfold count_rows.
    replace (filter _ _) with (∅ : gmap string Row); [done|]. symmetry. apply map_empty.
    intros i. apply map_lookup_filter_None. left. apply start_rows. }
  intros x y. unfold countActiveSessions. cbn [fst snd].
  pose proof (Hz (fun r => String.eqb (r_tenant_id r) x && holds_slot now r)).
  pose proof (Hz (fun r => String.eqb (r_endpoint_id r) y && holds_slot now r)).
  assert (0 <= perTenant (start ks ev lim now)) by (simpl; case_match; bools; unfold MaxSessionsPerTenant; lia).
  assert (0 <= perEndpoint (start ks ev lim now)) by (simpl; case_match; bools; unfold MaxSessionsPerEndpoint; lia).
  lia.
Qed.

Lemma caps_weaken bt be bt' be' now m : within_caps bt be now m -> bt <= bt' -> be <= be' -> within_caps bt' be' now m.
Proof. intros C Lt Le x y. destruct (C x y). lia. Qed.

(** C12: whatever operators, agents, watchers and the sweeper do, and however
    an administrator changes the limits meanwhile, under a clock that does not
    go back, (1) no tenant and no endpoint holds more session slots than the
    highest limits in force since the start, which are the limits of the start
    if they are left alone; and (2) a session is opened only while its tenant
    and its endpoint hold fewer than the limits in force at that moment. *)
Theorem session_caps ks ev lim t l :
  monotone t l ->
  let m0 := start ks ev lim t in
  let m := run l m0 in
  (forall tenant endpoint,
    fst (countActiveSessions tenant endpoint (last_time t l) m) <= peak perTenant l m0 /\
    snd (countActiveSessions tenant endpoint (last_time t l) m) <= peak perEndpoint l m0)
  /\ (Forall (fun x => sets_limits x.2 = false) l -> peak perTenant l m0 = perTenant m0 /\ peak perEndpoint l m0 = perEndpoint m0)
  /\ (forall sid tok tenant endpoint operator program grant d u1 u2 u3 now s m',
    createSession HashToken marshal_grant sid tok tenant endpoint operator program grant d u1 u2 u3 now m = (m', Ok s) ->
    fst (countActiveSessions tenant endpoint now m) < perTenant m /\ snd (countActiveSessions tenant endpoint now m) < perEndpoint m).
Proof.
  intros Hl m0 m. split; [|split].
  - intros tenant endpoint. apply (run_caps _ _ t l m0); [apply start_Inv| |done|lia|lia].
    eapply caps_weaken; [apply start_caps|apply peak_start..].
  - apply peak_fixed, start_Inv.
  - intros sid tok tenant endpoint operator program grant d u1 u2 u3 now s m' Ec.
    pose proof (create_spec HashToken marshal_grant sid tok tenant endpoint operator program grant d u1 u2 u3 now m) as C. rewrite Ec in C.
    split; [apply (cr_under_tenant _ _ _ _ _ _ _ C)|apply (cr_under_endpoint _ _ _ _ _ _ _ C)].
Qed.

(** ** Ended sessions stay ended *)

Lemma exec_mem now o m id s :
  Inv m -> sessions m !! id = Some s ->
  exists s', sessions (exec now o m) !! id = Some s' /\ (ended (State s) = true -> ended (State s') = true).
Proof.
  intros Hm Hs. destruct (ordinary o) eqn:Hc; cycle 1.
  - destruct (exec_other now o m Hc) as [[ev ->]|[[lim ->]|(t & e & p & s0 & C)]]; [by exists s..|].
    rewrite (cr_mem _ _ _ _ _ _ _ C). exists s. split; [|done].
    rewrite lookup_insert_ne; [done|]. intros E0. destruct (inv_row _ Hm _ _ Hs) as (r & Hr & _).
    pose proof (cr_new _ _ _ _ _ _ _ C). congruence.
  - destruct (exec_safe any_token now o m Hc) as [_ X]; [done..|].
    destruct (ext_mem _ _ _ X _ _ Hs) as (s' & Hs' & R). exists s'. split; [done|apply R].
Qed.

Lemma exec_row now o m id r :
  Inv m -> db m !! id = Some r ->
  exists r', db (exec now o m) !! id = Some r' /\ rrel r r'.
Proof.
  intros Hm Hr. destruct (ordinary o) eqn:Hc; cycle 1.
  - destruct (exec_other now o m Hc) as [[ev ->]|[[lim ->]|(t & e & p & s0 & C)]]; [by exists r..|].
    destruct (cr_row _ _ _ _ _ _ _ C) as (r0 & -> & _). exists r.
    rewrite lookup_insert_ne; [done|]. intros E0. pose proof (cr_new _ _ _ _ _ _ _ C). congruence.
  - destruct (exec_safe any_token now o m Hc) as [_ X]; [done..|].
    destruct (ext_dom _ _ _ X _ _ Hr) as [r' Hr']. exists r'. split; [done|].
    destruct (ext_db _ _ _ X _ _ Hr') as (r0 & Hr0 & R). congruence.
Qed.

(** A session that has ended never becomes live again, in the table or
    in memory, and its row keeps its owner and its deadline. *)
Theorem ended_is_final l m id :
  Inv m ->
  (forall s, sessions m !! id = Some s -> ended (State s) = true ->
     exists s', sessions (run l m) !! id = Some s' /\ ended (State s') = true) /\
  (forall r, db m !! id = Some r ->
     exists r', db (run l m) !! id = Some r' /\ rrel r r').
Proof.
  intros Hm. split.
  - revert m Hm. induction l as [|[now o] l IH]; intros m Hm s Hs He; [by exists s|].
    destruct (exec_mem now o m id s Hm Hs) as (s' & Hs' & He'). eapply IH; [by apply exec_Inv|done|auto].
  - revert m Hm. induction l as [|[now o] l IH]; intros m Hm r Hr; [by exists r|].
    destruct (exec_row now o m id r Hm Hr) as (r' & Hr' & R).
    destruct (IH (exec now o m) (exec_Inv now o m Hm) r' Hr') as (r'' & ? & ?). exists r''.
    split; [done|by etrans].
Qed.

(** ** The operator token *)

Definition no_token (id : string) (m : Mgr) : Prop :=
  exists s, sessions m !! id = Some s /\ OperatorTokenHash s = EmptyString.

Lemma exec_no_token now o m id :
  Inv m -> no_token id m -> rotates id o = false -> no_token id (exec now o m).
Proof.
  intros Hm (s & Hs & Ht) Hr. destruct (ordinary o) eqn:Hc; cycle 1.
  - destruct (exec_other now o m Hc) as [[ev ->]|[[lim ->]|(t & e & p & s0 & C)]]; [by exists s..|].
    exists s. rewrite (cr_mem _ _ _ _ _ _ _ C). split; [|done].
    rewrite lookup_insert_ne; [done|]. intros E0. destruct (inv_row _ Hm _ _ Hs) as (r & Hr' & _).
    pose proof (cr_new _ _ _ _ _ _ _ C). congruence.
  - destruct (exec_safe (fun i _ => i <> id) now o m Hc) as [_ X]; [|done|].
    { intros i token ->. simpl in Hr. by bools. }
    destruct (ext_mem _ _ _ X _ _ Hs) as (s' & Hs' & R). exists s'. split; [done|].
    destruct (srel_token _ _ _ R) as [->|[->|Hf]]; auto. exfalso. apply Hf. by eapply inv_id.
Qed.

Lemma run_no_token l m id :
  Inv m -> no_token id m -> Forall (fun x => rotates id x.2 = false) l -> no_token id (run l m).
Proof.
  revert m. induction l as [|[now o] l IH]; intros m Hm Hn Hl; [done|].
  apply Forall_cons in Hl as [Ho Hl]. apply IH; [by apply exec_Inv|by apply exec_no_token|done].
Qed.

Lemma no_token_refused drained id raw conn now m :
  no_token id m ->
  snd (AttachOperator HashToken unmarshal_grant drained id raw conn now m)
  = Err "invalid or expired terminal connect token"%string.
Proof.
  intros (s & Hs & Ht). unfold AttachOperator, GetSession. rewrite Hs.
  unfold ValidateOperatorToken, token_ok. rewrite Ht. simpl. by rewrite andb_false_r.
Qed.

(** An accepted token is gone, whether or not the attach went through. *)
Lemma accepted_consumes drained id raw conn now m :
  Inv m ->
  let '(m', res) := AttachOperator HashToken unmarshal_grant drained id raw conn now m in
  res = Ok tt -> no_token id m'.
Proof.
  intros Hm. unfold AttachOperator.
  destruct (GetSession unmarshal_grant id m) as [[m1 s]|e] eqn:Hg; [|done].
  apply (get_session unmarshal_grant (fun _ _ => False)) in Hg as (Hsafe & Hs & _).
  destruct (Hs Hm) as [Hs1 Hid]. destruct (Hsafe Hm) as [Hm1 _]. destruct (negb _); [done|].
  set (s1 := s <| OperatorTokenHash := _ |> <| OperatorToken := _ |>).
  set (m2 := updateDurableOperatorToken _ _ _).
  assert (Inv m2) as Hm2 by (by apply (safe_consume (fun _ _ => False) s id m1)).
  assert (sessions m2 !! id = Some s1) as Hs2 
    by (assert (SessionID s1 = id) as <- by done; apply lookup_put).
  pose proof (safe_attach_consumed (fun _ _ => False) drained id conn now s1 m2 Hm2) as [_ X].
  destruct (attach_consumed _ _ _ _ _ _) as [m3 res]. intros _.
  destruct (ext_mem _ _ _ X _ _ Hs2) as (s' & Hs' & R). exists s'. split; [done|].
  by destruct (srel_token _ _ _ R) as [->|[->|[]]].
Qed.

(** The operator's token opens exactly one attachment. Once it was
    accepted, no token is accepted until the session's token is rotated,
    however the run goes on. *)
Theorem operator_token_one_use m drained id raw conn now l drained' raw' conn' now' :
  Inv m ->
  snd (AttachOperator HashToken unmarshal_grant drained id raw conn now m) = Ok tt ->
  Forall (fun x => rotates id x.2 = false) l ->
  snd (AttachOperator HashToken unmarshal_grant drained' id raw' conn' now'
         (run l (exec now (OAttachOperator drained id raw conn) m)))
  = Err "invalid or expired terminal connect token"%string.
Proof.
  intros Hm Hok Hl. apply no_token_refused, run_no_token; [by apply exec_Inv| |done].
  pose proof (accepted_consumes drained id raw conn now m Hm) as Ha. simpl.
  destruct (AttachOperator _ _ _ _ _ _ _ _) as [m' res]. by apply Ha.
Qed.

(** ** The sweep *)

Definition overdue (now timeout : Z) (r : Row) : bool :=
  (connecting (r_state r) && (r_created_at r <? now - timeout))
  || (running (r_state r) && (r_idle_expires_at r <? now))
  || (live (r_state r) && (r_expires_at r <? now)).

Lemma overdue_live now timeout r : overdue now timeout r = true -> live (r_state r) = true.
Proof. unfold overdue. destruct (r_state r); simpl; try done. Qed.

Lemma elem_of_select f id m : id ∈ select_ids f m <-> exists r, db m !! id = Some r /\ f r = true.
Proof.
  unfold select_ids. rewrite list_elem_of_In, in_map_iff. split.
  - intros ([i r] & <- & Hin). apply list_elem_of_In, elem_of_map_to_list, map_lookup_filter_Some in Hin. eauto.
  - intros (r & Hr & Hf). exists (id, r). split; [done|].
    by apply list_elem_of_In, elem_of_map_to_list, map_lookup_filter_Some.
Qed.

Lemma swept_ids now timeout m id r :
  db m !! id = Some r ->
  id ∈ map x_SessionID (snd (sweepExpiredSessions now timeout m)) <-> overdue now timeout r = true.
Proof.
  intros Hr. unfold sweepExpiredSessions. cbn [snd]. rewrite !map_app, !map_map, !elem_of_app. simpl.
  rewrite !map_id, !elem_of_select, Hr. unfold overdue. rewrite !orb_true_iff. naive_solver.
Qed.

(** A row past the point where it was expired no longer changes. *)
Lemma expire_row_dead now l id m r :
  db m !! id = Some r -> live (r_state r) = false ->
  db (fold_left (fun m x => expire_row now x m) l m) !! id = Some r.
Proof.
  revert m. induction l as [|x l IH]; intros m Hr Hl; simpl; [done|]. apply IH; [|done].
  unfold expire_row, on_row. simpl. destruct (decide (id = x_SessionID x)) as [->|Hne].
  - rewrite lookup_alter_eq, Hr. simpl. by rewrite Hl.
  - by rewrite lookup_alter_ne by done.
Qed.

Definition expired_as (now : Z) (x : expiredSessionInfo) (r : Row) : Row :=
  r <| r_state := x_NewState x |> <| r_closed_at := Some now |> <| r_close_reason := Some (x_Reason x) |>.

Lemma expire_row_live now l id m r :
  sweeps_out l -> db m !! id = Some r -> live (r_state r) = true -> id ∈ map x_SessionID l ->
  exists x, x ∈ l /\ x_SessionID x = id /\
    db (fold_left (fun m x => expire_row now x m) l m) !! id = Some (expired_as now x r).
Proof.
  intros Hl. revert m. induction Hl as [|x l Hx Hl IH]; intros m Hr Hlive Hin; [by apply not_elem_of_nil in Hin|].
  simpl. destruct (decide (id = x_SessionID x)) as [->|Hne].
  - exists x. split; [left|]. split; [done|]. apply expire_row_dead.
    + unfold expire_row, on_row. simpl. rewrite lookup_alter_eq, Hr. simpl. by rewrite Hlive.
    + simpl. by apply ended_not_live.
  - apply elem_of_cons in Hin as [|Hin]; [done|]. destruct (IH (expire_row now x m)) as (y & Hy & Hid & Hdb); auto.
    + unfold expire_row, on_row. simpl. by rewrite lookup_alter_ne by done.
    + exists y. split; [by right|done].
Qed.

(** A sweep ends exactly the sessions that are overdue (still connecting
    past the connect timeout, idle past the idle deadline, or past their
    maximum duration), stamps them with the time and one of the three
    reasons, and leaves every other row as it was. *)
Theorem sweep_exact now timeout m id r :
  db m !! id = Some r ->
  let m' := fst (sweepExpiredSessions now timeout m) in
  if overdue now timeout r then
    exists r', db m' !! id = Some r' /\ ended (r_state r') = true /\ r_closed_at r' = Some now /\
      r_close_reason r' ∈ [Some "connect_timeout"; Some "idle_timeout"; Some "max_duration_exceeded"]%string
  else db m' !! id = Some r.
Proof.
  intros Hr. pose proof (sweep_sweeps_out now timeout m) as Hout. pose proof (swept_ids now timeout m id r Hr) as Hin.
  unfold sweepExpiredSessions in *. cbn [fst snd] in *. set (l := _ ++ _ ++ _) in *.
  destruct (overdue now timeout r) eqn:Ho.
  - destruct (expire_row_live now l id m r Hout Hr (overdue_live _ _ _ Ho)) as (x & Hx & _ & Hdb); [by apply Hin|].
    exists (expired_as now x r). split; [done|]. unfold sweeps_out in Hout. rewrite Forall_forall in Hout.
    split; [by apply Hout|]. split; [done|]. unfold l in Hx. rewrite !elem_of_app in Hx. simpl.
    destruct Hx as [Hx|[Hx|Hx]]; apply list_elem_of_In, in_map_iff in Hx as (i & <- & _); simpl; set_solver.
  - destruct (expire_rows now l m Hout) as (_ & _ & _ & HD). specialize (HD id).
    rewrite Hr in HD. destruct (db (fold_left _ l m) !! id) as [r'|]; [|done].
    destruct HD as (_ & _ & Heq). rewrite Heq; [done|]. intros Hi. apply Hin in Hi. done.
Qed.

(** ** The recording *)

Definition stamp (x : Z * TerminalFrame) : TerminalFrame := x.2 <| f_Timestamp := x.1 |>.

Definition total_cost (l : list (Z * TerminalFrame)) : Z := fold_right (fun x n => frameCost x.2 + n) 0 l.

(** A session fed with frames, each at its time. *)
Definition record_all (idle : Z) (l : list (Z * TerminalFrame)) (s : Session) : Session :=
  fold_left (fun s x => fst (record_in idle x.1 x.2 s)) l s.

Lemma record_all_bounded idle l s : RecordingState s = "bounded"%string -> record_all idle l s = s.
Proof.
  unfold record_all. intros Hb. induction l as [|[now f] l IH]; [done|]. cbn [fold_left].
  unfold record_in at 2. by rewrite Hb.
Qed.

(** The idle deadline after the frames a session recorded. *)
Definition idle_after (idle t0 : Z) (l : list (Z * TerminalFrame)) : Z :=
  fold_left (fun t x => if is_operator_activity (f_Type x.2) then x.1 + idle else t) l t0.

(** What a session holds after [n] of the frames were recorded. *)
Definition recorded (idle : Z) (l : list (Z * TerminalFrame)) (s s' : Session) : Prop :=
  exists n, (n <= length l)%nat /\
    RecordingBytes s' = RecordingBytes s + total_cost (take n l) /\
    (0 < MaxRecordingBytes s -> RecordingBytes s <= MaxRecordingBytes s -> RecordingBytes s' <= MaxRecordingBytes s) /\
    IdleExpiresAt s' = idle_after idle (IdleExpiresAt s) (take n l) /\
    ((n = length l /\ RecordingState s' = RecordingState s /\ Frames s' = Frames s ++ map stamp l) \/
     ((n < length l)%nat /\ RecordingState s' = "bounded"%string /\
      MaxRecordingBytes s < RecordingBytes s + total_cost (take (S n) l) /\
      exists now, Frames s' = Frames s ++ map stamp (take n l) ++ [bound_marker now])).

(** C13: a recording is a prefix of the frames the session exchanged, in
    order and with their times: either all of them, or the longest prefix
    that fits the byte limit, closed by one marker, with the session marked
    as bounded. The bytes counted are those of the recorded frames and stay
    within the limit, and the idle deadline follows the operator's recorded
    frames only. *)
Theorem recording_is_prefix idle l s :
  RecordingState s <> "bounded"%string -> recorded idle l s (record_all idle l s).
Proof.
  unfold recorded. revert s. induction l as [|[now f] l IH]; intros s Hb.
  { exists O. simpl. rewrite app_nil_r, Z.add_0_r. split; [lia|]. repeat split; auto. }
  change (record_all idle ((now, f) :: l) s) with (record_all idle l (fst (record_in idle now f s))).
  unfold record_in. apply String.eqb_neq in Hb as Hb'. rewrite Hb'.
  change (frameCost (f <| f_Timestamp := now |>)) with (frameCost f).
  destruct ((0 <? MaxRecordingBytes s) && (MaxRecordingBytes s <? RecordingBytes s + frameCost f)) eqn:Hfull.
  - bools. rewrite record_all_bounded by done. exists O. simpl. rewrite Z.add_0_r.
    repeat split; auto; [lia|]. right. split; [lia|]. split; [done|]. split; [lia|]. by exists now.
  - set (s1 := _ <| dirty := true |>).
    assert (RecordingState s1 = RecordingState s /\ Frames s1 = Frames s ++ [stamp (now, f)] /\
      RecordingBytes s1 = RecordingBytes s + frameCost f /\ MaxRecordingBytes s1 = MaxRecordingBytes s /\
      IdleExpiresAt s1 = idle_after idle (IdleExpiresAt s) [(now, f)]) as (E1 & E2 & E3 & E4 & E5).
    { unfold s1, idle_after. simpl. change (f_Type (f <| f_Timestamp := now |>)) with (f_Type f).
      destruct (is_operator_activity (f_Type f)); simpl; repeat split; auto; lia. }
    cbn [fst]. clearbody s1. destruct (IH s1) as (n & Hn & B1 & B2 & B3 & B4); [by rewrite E1|].
    rewrite E2, E3, E4 in *. exists (S n). cbn [take total_cost fold_right map length].
    split; [lia|]. split; [unfold total_cost in *; simpl; lia|]. split; [|split].
    + intros Hpos Hle. apply B2; [done|]. apply andb_false_iff in Hfull as [Hf|Hf]; bools; lia.
    + rewrite B3, E5. done.
    + destruct B4 as [(-> & -> & ->)|(Hlt & -> & Hover & t & ->)]; [left|right].
      * rewrite <- app_assoc. done.
      * split; [lia|]. split; [done|]. split; [unfold total_cost in *; simpl in *; lia|].
        exists t. by rewrite <- app_assoc.
Qed.

(** ** Sealing and reading back *)

(** The bytes of a frame survive the newline framing: one line, not blank. *)
Definition clean_line (b : string) : Prop :=
  no_byte newline b = true /\ drop_cr b = b /\ TrimSpace b <> EmptyString.

Definition codec_ok (f : TerminalFrame) : Prop :=
  exists b, marshal_frame f = Some b /\ unmarshal_frame b = Some f /\ clean_line b.

Definition line_length (f : TerminalFrame) : nat :=
  match marshal_frame f with Some b => String.length b | None => O end.

(** The frames up to the first one whose line overflows the scanner. *)
Fixpoint readable (l : list TerminalFrame) : list TerminalFrame :=
  match l with
  | [] => []
  | f :: l' => if (MaxScanTokenSize <=? line_length f)%nat then [] else f :: readable l'
  end.

#[local] Opaque MaxScanTokenSize.

Lemma scan_pieces_cons line p :
  p <> [] ->
  scan_pieces (line :: p) = if (MaxScanTokenSize <=? String.length line)%nat then [] else drop_cr line :: scan_pieces p.
Proof. by destruct p. Qed.

Lemma read_back l :
  Forall codec_ok l -> parse_lines unmarshal_frame (scan_lines (frames_payload marshal_frame l)) = readable l.
Proof.
  unfold scan_lines, parse_lines. induction 1 as [|f l (b & Hm & Hu & Hb1 & Hb2 & Hb3) Hl IH].
  { cbn [frames_payload split_byte scan_pieces]. done. }
  cbn [frames_payload readable]. unfold line_length. rewrite Hm, split_byte_line by done.
  rewrite scan_pieces_cons by apply split_byte_nonempty.
  destruct (MaxScanTokenSize <=? String.length b)%nat; [done|]. cbn [omap list_omap].
  rewrite Hb2, (proj2 (String.eqb_neq _ _) Hb3), Hu. by rewrite <- IH.
Qed.

(** The evidence store keeps what the manager seals into it. *)
Definition store_keeps (e : E) (s : Session) (now : Z) : Prop :=
  exists e1 e2 item,
    StoreItem e (TenantID s) (BundleID s) "session_frames.ndjson" "application/x-ndjson" (seal_status s)
      (frames_payload marshal_frame (Frames s)) = (e1, Ok item) /\
    FinalizeBundle e1 (TenantID s) (BundleID s) (seal_manifest s item now) EmptyString = (e2, Ok tt) /\
    item_ID item <> EmptyString /\
    ReadItemData e2 (TenantID s) (item_ID item) = Ok (frames_payload marshal_frame (Frames s)).

(** The manager after a seal that the store accepts. *)
Lemma seal_run m id s e e1 e2 item now :
  sessions m !! id = Some s -> evidenceStore m = Some e -> RecordingState s <> "sealed"%string -> BundleID s <> EmptyString ->
  StoreItem e (TenantID s) (BundleID s) "session_frames.ndjson" "application/x-ndjson" (seal_status s)
    (frames_payload marshal_frame (Frames s)) = (e1, Ok item) ->
  FinalizeBundle e1 (TenantID s) (BundleID s) (seal_manifest s item now) EmptyString = (e2, Ok tt) ->
  let s' := sealed s item in
  fst (SealSessionRecording unmarshal_grant marshal_frame id now m)
    = save_recording s' (put s' (m <| evidenceStore := Some e1 |> <| evidenceStore := Some e2 |>)).
Proof.
  intros Hs He Hseal Hb H1 H2. unfold SealSessionRecording, GetSession. rewrite Hs, He.
  by rewrite (proj2 (String.eqb_neq _ _) Hseal), (proj2 (String.eqb_neq _ _) Hb), H1, H2.
Qed.

(** Reading a sealed recording from a store that still has it. *)
Lemma sealed_read m id s e item :
  SessionID s = id -> Forall codec_ok (Frames s) -> item_ID item <> EmptyString ->
  ReadItemData e (TenantID s) (item_ID item) = Ok (frames_payload marshal_frame (Frames s)) ->
  let s' := sealed s item in
  exists md, snd (GetSessionRecording unmarshal_grant unmarshal_frame (TenantID s) id
                    (SetEvidenceStore (Some e) (save_recording s' (put s' m)))) = Ok (readable (Frames s), md).
Proof.
  intros Hid Hl H3 H4 s'. unfold GetSessionRecording, GetSession, SetEvidenceStore. set (m' := save_recording s' _).
  change (sessions (m' <| evidenceStore := Some e |>)) with (sessions m').
  assert (sessions m' !! id = Some s') as ->
    by (assert (SessionID s' = id) as <- by done; unfold m', save_recording, updateRecordingMetadata;
        rewrite sessions_on_row; apply lookup_put).
  cbn [snd]. change (TenantID s') with (TenantID s). rewrite String.eqb_refl.
  change (Frames s') with (@nil TerminalFrame). change (evidenceStore (m' <| evidenceStore := Some e |>)) with (Some e).
  change (EvidenceItemID s') with (item_ID item). cbn [negb].
  rewrite (proj2 (String.eqb_neq _ _) H3), H4, read_back by done. by eexists.
Qed.

(** What reading a sealed recording returns: the recorded frames, in
    order and unchanged, up to the first one whose line is 64 KiB or longer.
    That frame and everything after it is silently missing. *)
Theorem sealed_recording_read m id s e now :
  sessions m !! id = Some s -> SessionID s = id -> evidenceStore m = Some e ->
  RecordingState s <> "sealed"%string -> BundleID s <> EmptyString ->
  Forall codec_ok (Frames s) -> store_keeps e s now ->
  let m' := fst (SealSessionRecording unmarshal_grant marshal_frame id now m) in
  exists md, snd (GetSessionRecording unmarshal_grant unmarshal_frame (TenantID s) id m')
    = Ok (readable (Frames s), md).
Proof.
  intros Hs Hid He Hseal Hb Hl (e1 & e2 & item & H1 & H2 & H3 & H4). cbv zeta. erewrite seal_run by done.
  exact (sealed_read (m <| evidenceStore := Some e1 |> <| evidenceStore := Some e2 |>) id s e2 item Hid Hl H3 H4).
Qed.

(** A frame recorded after the seal hides the sealed recording: reading
    the session then returns that frame alone. *)
Theorem late_frame_hides_recording m id s f now :
  sessions m !! id = Some s -> SessionID s = id ->
  RecordingState s = "sealed"%string -> Frames s = [] ->
  is_recordable (f_Type f) = true ->
  RecordingBytes s + frameCost f <= MaxRecordingBytes s ->
  let m' := fst (RecordFrame unmarshal_grant id f now m) in
  exists md, snd (GetSessionRecording unmarshal_grant unmarshal_frame (TenantID s) id m')
    = Ok ([f <| f_Timestamp := now |>], md).
Proof.
  intros Hs Hid Hst Hf Hr Hfit. unfold RecordFrame, GetSession. rewrite Hr, Hs. cbn [negb].
  unfold record_in. rewrite Hst. cbn [String.eqb Ascii.eqb Bool.eqb].
  change (frameCost (f <| f_Timestamp := now |>)) with (frameCost f).
  rewrite (proj2 (Z.ltb_ge (MaxRecordingBytes s) _) Hfit), andb_false_r. cbn [fst].
  set (s' := _ <| dirty := true |>).
  assert (Frames s' = [f <| f_Timestamp := now |>] /\ SessionID s' = id /\ TenantID s' = TenantID s) as (E1 & E2 & E3).
  { unfold s'. case_match; simpl; by rewrite Hf. }
  unfold GetSessionRecording, GetSession. rewrite <- E2, lookup_put. cbn [snd]. rewrite E1, E3, String.eqb_refl.
  by eexists.
Qed.

(** ** Detaching *)

(** What a control message leaves alone. *)
Definition same_sides (pr pr' : Relay) : Prop :=
  agentConn pr' = agentConn pr /\ closed pr' = closed pr /\ opConn pr' = opConn pr /\
  watchers pr' = watchers pr /\ kind pr' = kind pr /\ detached pr' = detached pr.

Lemma control_keeps drained data (pr pr' : Relay) :
  sendAgentControl drained data pr = Some pr' -> same_sides pr pr'.
Proof.
  unfold sendAgentControl. case_match; [done|]. case_match; [by intros [= <-]|].
  destruct drained; [|done]. unfold agent_take. destruct (opToAgent pr); [done|]. simpl. by intros [= <-].
Qed.

Lemma pause_keeps drained (pr : Relay) : same_sides pr (pauseIfUnwatched drained pr).
Proof.
  unfold pauseIfUnwatched. destruct (kind pr) as [k|] eqn:Hk; [|done]. case_match; [|done].
  destruct (sendAgentControl drained (PauseMessage k) pr) as [pr'|] eqn:Hc; [|done].
  apply control_keeps in Hc. done.
Qed.

(** When an operator's socket goes away the shell stays: a live session
    stays live and its agent connection, its frames, its recording and its
    deadline are untouched; only the operator's side is gone. An attachment
    that was already superseded changes nothing when its pumps end. *)
Theorem detach_keeps_shell drained id owner m s pr :
  sessions m !! id = Some s -> SessionID s = id -> relay s = Some pr -> closed pr = false ->
  opConn pr <> None -> live (State s) = true ->
  let m' := detachAttachment drained id owner m in
  (owner <> None -> opStop pr <> owner -> m' = m) /\
  (owner = None \/ opStop pr = owner ->
    exists s' pr', sessions m' !! id = Some s' /\ relay s' = Some pr' /\
      live (State s') = true /\ OperatorConnected s' = false /\ opConn pr' = None /\
      closed pr' = false /\ agentConn pr' = agentConn pr /\ watchers pr' = watchers pr /\
      AgentConnected s' = AgentConnected s /\ Frames s' = Frames s /\
      RecordingState s' = RecordingState s /\ ExpiresAt s' = ExpiresAt s /\ agentToOp pr' = [] /\ agQueue pr' = 0).
Proof.
  intros Hs Hid Hpr Hcl Hop Hlive. unfold detachAttachment. rewrite Hs, Hpr, Hcl. split.
  - intros Ho Hne. rewrite bool_decide_eq_true_2 by (destruct owner; [by eexists|done]).
    by rewrite bool_decide_eq_false_2 by done.
  - intros Ho. replace (bool_decide (is_Some owner) && negb (bool_decide (opStop pr = owner))) with false.
    2: { destruct Ho as [-> | ->]; [done|]. by rewrite (bool_decide_eq_true_2 (owner = owner)), andb_false_r. }
    rewrite (bool_decide_eq_false_2 (opConn pr = None)) by done. cbn [andb].
    set (s' := s <| relay := _ |> <| OperatorConnected := _ |> <| State ::= _ |>).
    set (m' := updateDurableState _ _ _ _ _ _ _ _).
    assert (sessions m' !! id = Some s') as Hs'
      by (assert (SessionID s' = id) as <- by done; unfold m', updateDurableState; rewrite sessions_on_row; apply lookup_put).
    exists s', (detach_relay drained pr). split; [done|]. split; [done|].
    pose proof (pause_keeps drained (pr <| opConn := None |> <| opStop := None |> <| detached := true |>))
      as (K1 & K2 & K3 & K4 & _ & _). unfold detach_relay. simpl in *. rewrite K1, K2, K3, K4.
    repeat split; auto. unfold s'. simpl. by destruct (State s).
Qed.

(** ** Queues *)

Definition queued_cost (l : list relayMsg) : Z := fold_right (fun x n => msg_cost x + n) 0 l.

(** The gate counts the bytes queued, and holds at most the bound or one
    message larger than it. *)
Definition gate_ok (largest used : Z) (l : list relayMsg) : Prop :=
  used = queued_cost l /\ used <= Z.max MaxQueueBytes largest /\
  Forall (fun x => 0 <= msg_cost x <= largest) l.

Lemma queued_cost_app l l' : queued_cost (l ++ l') = queued_cost l + queued_cost l'.
Proof. induction l as [|x l IH]; simpl; [done|]. unfold queued_cost in *. lia. Qed.

Lemma queued_cost_nonneg largest l : Forall (fun x => 0 <= msg_cost x <= largest) l -> 0 <= queued_cost l.
Proof. induction 1; simpl; [done|]. unfold queued_cost in *. lia. Qed.

Lemma gate_push largest used used' l x :
  0 <= msg_cost x <= largest -> gate_ok largest used l -> gate_acquire (msg_cost x) used = Some used' ->
  gate_ok largest used' (l ++ [x]).
Proof.
  intros Hx (Hu & Hb & Hl) Ha. unfold gate_acquire in Ha. unfold gate_ok. rewrite queued_cost_app. simpl.
  destruct (used =? 0) eqn:E0, (used + msg_cost x <=? MaxQueueBytes) eqn:E1; simplify_eq/=; bools;
    (split; [lia|]; split; [lia|]; apply Forall_app; split; [done|by apply Forall_singleton]).
Qed.

Lemma gate_pop largest used l x :
  gate_ok largest used (x :: l) -> gate_ok largest (gate_release (msg_cost x) used) l.
Proof.
  intros (Hu & Hb & [Hx Hl]%Forall_cons). pose proof (queued_cost_nonneg _ _ Hl).
  unfold gate_release, gate_ok. simpl in Hu. unfold queued_cost in *.
  destruct (Z.ltb_spec (used - msg_cost x) 0); split; try split; auto; lia.
Qed.

(** Backpressure bounds memory. In both directions the gate's counter
    is exactly the bytes queued, and never exceeds 1 MiB or the size of the
    one larger message that was let through an empty queue, whatever the
    pumps queue, take or discard. *)
Theorem queues_bounded largest (pr : Relay) :
  0 <= largest ->
  gate_ok largest (opQueue pr) (opToAgent pr) -> gate_ok largest (agQueue pr) (agentToOp pr) ->
  (forall msg pr', 0 <= msg_cost msg <= largest -> enqueue_for_agent msg pr = Some pr' ->
     gate_ok largest (opQueue pr') (opToAgent pr') /\ (length (opToAgent pr') <= opToAgent_cap)%nat) /\
  (forall msg pr', 0 <= msg_cost msg <= largest -> enqueueForOperator msg pr = Some pr' ->
     gate_ok largest (agQueue pr') (agentToOp pr')) /\
  (forall x pr', agent_take pr = Some (x, pr') -> gate_ok largest (opQueue pr') (opToAgent pr')) /\
  (forall x pr', operator_take pr = Some (x, pr') -> gate_ok largest (agQueue pr') (agentToOp pr')) /\
  gate_ok largest (agQueue (detach_relay false pr)) (agentToOp (detach_relay false pr)).
Proof.
  intros Hpos Hop Hag. split; [|split; [|split; [|split]]].
  - intros msg pr' Hm He. unfold enqueue_for_agent in He. apply bind_Some in He as (used & Ha & He).
    case_match eqn:Hroom; simplify_eq. simpl. split; [by eapply gate_push|].
    apply Nat.ltb_lt in Hroom. rewrite length_app. simpl. lia.
  - intros msg pr' Hm He. unfold enqueueForOperator in He.
    destruct (gate_acquire (msg_cost msg) (agQueue pr)) as [used|] eqn:Ha; [|by case_match; simplify_eq].
    case_match; [simplify_eq; by eapply gate_push|]. case_match; simplify_eq. simpl.
    destruct Hag as (Hu & Hb & Hl). unfold gate_acquire in Ha. case_match; simplify_eq. unfold gate_release.
    pose proof (queued_cost_nonneg _ _ Hl). destruct (Z.ltb_spec (agQueue pr + msg_cost msg - msg_cost msg) 0); [lia|].
    replace (agQueue pr + msg_cost msg - msg_cost msg) with (agQueue pr) by lia. done.
  - intros x pr' Ht. unfold agent_take in Ht. destruct (opToAgent pr) as [|y l]; simplify_eq. by apply gate_pop.
  - intros x pr' Ht. unfold operator_take in Ht. destruct (agentToOp pr) as [|y l]; simplify_eq. by apply gate_pop.
  - unfold gate_ok, detach_relay. simpl. unfold MaxQueueBytes. split; [done|]. split; [lia|done].
Qed.

(** ** Watchers *)

Lemma send_all_keeps drained msgs (pr : Relay) : same_sides pr (send_all drained msgs pr).
Proof.
  unfold send_all. revert pr. induction msgs as [|x msgs IH]; intros pr; [done|]. cbn [fold_left].
  destruct (sendAgentControl drained x pr) as [pr'|] eqn:Hc; [|apply IH].
  apply control_keeps in Hc as (A1 & A2 & A3 & A4 & A5 & A6).
  destruct (IH pr') as (B1 & B2 & B3 & B4 & B5 & B6). unfold same_sides. by rewrite B1, B2, B3, B4, B5, B6.
Qed.

Lemma resume_keeps drained (pr : Relay) : same_sides pr (resumeIfPaused drained pr).
Proof.
  unfold resumeIfPaused. destruct (kind pr) as [k|] eqn:Hk; [|done]. destruct (paused pr); [|done].
  destruct (sendAgentControl drained (ResumeMessage k) pr) as [pr'|] eqn:Hc; [|done].
  apply control_keeps in Hc as (A1 & A2 & A3 & A4 & A5 & A6).
  match goal with |- context [send_all ?d ?l ?x] => destruct (send_all_keeps d l x) as (B1 & B2 & B3 & B4 & B5 & B6) end.
  unfold same_sides. rewrite B1, B2, B3, B4, B5, B6. done.
Qed.

(** A watch attachment is added only to a session of a kind that takes
    watchers and has not ended, never beyond the kind's number of watchers;
    and of what a watcher sends only bytes its policy produced can reach the
    agent, and only from the oldest watcher while nobody controls. *)
Theorem watchers_capped drained id conn now m m' :
  Inv m ->
  AttachWatcher unmarshal_grant drained id conn now m = (m', Ok tt) ->
  exists s pr k, sessions m' !! id = Some s /\ relay s = Some pr /\ ended (State s) = false /\
    KindFor (Program s) m' = Some k /\ Z.of_nat (length (watchers pr)) <= MaxWatchers k /\
    forall w typ message pr' msg, watcher_round w typ message pr = (pr', Queue msg) ->
      opConn pr = None /\ (exists w0 l, watchers pr = w0 :: l /\ w_conn w0 = w) /\
      exists p watch data d, pol pr = Some p /\ pol_Watcher p = Some watch /\
        snd (watch typ message) = d /\ Data d = Some data /\ msg = msg_of TextMessage data.
Proof.
  intros Hm. unfold AttachWatcher.
  destruct (GetSession unmarshal_grant id m) as [[m1 s]|e] eqn:Hg; [|done].
  assert (kinds m1 = kinds m) as Hkinds.
  { unfold GetSession in Hg. destruct (sessions m !! id); [by simplify_eq|].
    apply result_bind_Ok in Hg as (x & _ & Hg). by simplify_eq. }
  apply (get_session unmarshal_grant any_token) in Hg as (_ & Hs & _). destruct (Hs Hm) as [_ Hid].
  destruct (KindFor (Program s) m1) as [k|] eqn:Hk; [|done]. do 2 (case_match; [done|]).
  set (s1 := s <| relay := _ |> <| IdleExpiresAt := _ |> <| dirty := _ |>).
  do 2 (case_match; [done|]). destruct conn as [c|]; [|done]. case_match; [done|]. intros [= <-].
  set (f := fun pr => resumeIfPaused drained _). set (pr0 := relay_of s m1) in *.
  exists (s1 <| relay := Some (f pr0) |>), (f pr0), k.
  assert (sessions (put s1 m1) !! id = Some s1) as Hs1
    by (assert (SessionID s1 = id) as <- by done; apply lookup_put).
  split; [unfold on_relay; cbn [update sessions eta_Manager]; simpl; simpl in Hs1; by rewrite lookup_alter_eq, Hs1|].
  split; [done|]. split; [done|]. split; [done|]. split.
  - destruct (resume_keeps drained (pr0 <| watchers ::= fun l => l ++ [mkWatcher c []] |>)) as (_ & _ & _ & Hw & _).
    change (resumeIfPaused drained _) with (f pr0) in Hw. rewrite Hw. simpl. rewrite length_app. simpl. bools. lia.
  - intros w typ message pr' msg. unfold watcher_round. generalize (f pr0) as pr. intros pr Hr.
    destruct (p ← pol pr; pol_Watcher p) as [watch|] eqn:Hp; [|done].
    apply bind_Some in Hp as (p & Hp & Hw). destruct (watch typ message) as [p' d] eqn:Hd.
    destruct (Action d) eqn:Ha; [|done|done]. case_match eqn:Hpacer; [done|]. apply negb_false_iff in Hpacer.
    unfold isPacer in Hpacer. simpl in Hpacer. bools.
    unfold reencoded in Hr. rewrite Ha in Hr. destruct (Data d) as [data|] eqn:Hdata; [|done].
    rewrite Ha in Hr. simplify_eq. split; [done|]. split.
    + destruct (watchers pr) as [|w0 l]; [done|]. bools. eauto.
    + exists p, watch, data, d. by rewrite Hd.
Qed.

(** ** Input to a bounded recording *)

(** Once a shell's recording has reached its limit, the operator's input
    is still forwarded to the agent but no longer counts as activity: a round
    that reads a keystroke or a resize leaves the whole hub as it was, the
    idle deadline included, whatever the time. *)
Theorem bounded_input_is_idle m id s typ message frame now :
  sessions m !! id = Some s -> SessionID s = id -> RecordingState s = "bounded"%string ->
  get_pol id m = None -> unmarshal_frame message = Some frame ->
  is_operator_activity (f_Type frame) = true ->
  operator_round unmarshal_grant marshal_frame unmarshal_frame id typ message now m
  = (m, Queue (frame_msg marshal_frame (frame <| f_Timestamp := now |>))).
Proof.
  intros Hs Hid Hb Hp Hu Ha. unfold operator_round, operatorMessage, shell_message. rewrite Hp, Hu.
  set (frame' := frame <| f_Timestamp := now |>). change (f_Type frame') with (f_Type frame).
  assert (from_operator (f_Type frame) = true /\ f_Type frame <> FrameClose /\ is_recordable (f_Type frame) = true)
    as (-> & Hc & Hr) by (by destruct (f_Type frame)).
  cbn [negb]. rewrite bool_decide_eq_false_2 by done.
  unfold RecordFrame, GetSession. change (f_Type frame') with (f_Type frame). rewrite Hr, Hs. cbn [negb].
  unfold record_in. rewrite Hb. cbn [String.eqb Ascii.eqb Bool.eqb fst Activity Action forwarded].
  f_equal. unfold put. destruct m. unfold update. cbn. subst id. cbn in Hs. by rewrite insert_id.
Qed.

(** [Limits.Validate] accepts exactly the limits inside the hub's safety
    bounds. *)
Theorem limits_validated lim :
  Limits_Validate lim = Ok tt <->
  5 * Minute <= MaxDuration lim <= 24 * Hour /\ Z.rem (MaxDuration lim) Minute = 0 /\
  Minute <= IdleTimeout lim <= MaxDuration lim /\ Z.rem (IdleTimeout lim) Minute = 0 /\
  1 <= PerEndpoint lim <= 10 /\ 1 <= PerTenant lim <= 50 /\ PerEndpoint lim <= PerTenant lim.
Proof.
  unfold Limits_Validate, MinDuration, LongestDuration, MinIdle, MinPerEndpoint, HighestPerEndpoint,
    MinPerTenant, HighestPerTenant.
  repeat (case_match; [split; [done|]; intros; exfalso;
    repeat match goal with Ho : (_ || _) = true |- _ => apply orb_true_iff in Ho as [Ho|Ho] end; bools; lia|]).
  bools. split; [intros _; lia|done].
Qed.

End Machine.
