(* ===== verification/TerminalLift.v ===== *)
(** * Terminal sessions: what reaches an agent

    The handlers of a manager with the messages the read pumps hold while they
    wait for room and the messages the agents' writers took. Whatever a kind's
    frame policy and its control messages guarantee of a message holds of every
    message on its way to an agent of that kind. *)

From Stdlib Require Import Ascii String.
From stdpp Require Import gmap strings.
From S2P Require Import Prelude Terminal TerminalRelay TerminalInv TerminalProps.
Import terminal relay.

Section Lift.
Context {P G E : Type} `{!EvidenceStore E} `{!FramePolicy P}.
Context (HashToken : string -> string).
Context (marshal_grant : G -> result string string) (unmarshal_grant : string -> option G).
Context (marshal_frame : TerminalFrame -> option string) (unmarshal_frame : string -> option TerminalFrame).

Local Notation Mgr := (Manager P G E).
Local Notation Session := (TerminalSession P G).
Local Notation Relay := (PairedRelay P).
Local Notation exec := (exec HashToken marshal_grant unmarshal_grant marshal_frame unmarshal_frame).
Local Notation op := (@op G).

Implicit Types (m : Mgr) (s : Session) (pr : Relay) (o : op).

(** ** The machine *)

(** A message waiting for room is of a session, with its program; a message
    sent is of a program. *)
Record world : Type := mkWorld {
  w_mgr : Mgr;
  w_waiting : list (string * string * relayMsg);
  w_sent : list (string * relayMsg);
}.

Inductive event : Type :=
| EDo (o : op)
| EOperator (id : string) (typ : Z) (message : string)
| EWatcher (id : string) (w : nat) (typ : Z) (message : string)
| EQueue (n : nat)
| ETake (id : string).

Definition hold (id program : string) (r : Round) (l : list (string * string * relayMsg)) : list (string * string * relayMsg) :=
  match r with Queue msg => l ++ [(id, program, msg)] | _ => l end.

Definition happen (now : Z) (e : event) (w : world) : world :=
  let m := w_mgr w in
  match e with
  | EDo o => match o with OQueueForAgent _ _ | OAgentTakes _ => w | _ => mkWorld (exec now o m) (w_waiting w) (w_sent w) end
  | EOperator id typ message =>
    match (s ← sessions m !! id; pr ← relay s; Some (s, pr)) with
    | None => w
    | Some (s, _) =>
      let '(m, r) := operator_round unmarshal_grant marshal_frame unmarshal_frame id typ message now m in
      mkWorld m (hold id (Program s) r (w_waiting w)) (w_sent w)
    end
  | EWatcher id c typ message =>
    match (s ← sessions m !! id; pr ← relay s; Some (s, pr)) with
    | None => w
    | Some (s, pr) =>
      let '(pr, r) := watcher_round c typ message pr in
      mkWorld (put (s <| relay := Some pr |>) m) (hold id (Program s) r (w_waiting w)) (w_sent w)
    end
  | EQueue n =>
    match w_waiting w !! n with
    | None => w
    | Some (id, program, msg) =>
      match (s ← sessions m !! id; pr ← relay s; pr ← enqueue_for_agent msg pr; Some (s, pr)) with
      | Some (s, pr) =>
        if String.eqb (Program s) program
        then mkWorld (put (s <| relay := Some pr |>) m) (delete n (w_waiting w)) (w_sent w) else w
      | None => w
      end
    end
  | ETake id =>
    match (s ← sessions m !! id; pr ← relay s; x ← agent_take pr; Some (s, x)) with
    | Some (s, (msg, pr)) => mkWorld (put (s <| relay := Some pr |>) m) (w_waiting w) (w_sent w ++ [(Program s, msg)])
    | None => w
    end
  end.

Definition happens (l : list (Z * event)) (w : world) : world := fold_left (fun w x => happen x.1 x.2 w) l w.

(** ** What a kind promises *)

Context (ks : list SessionKind).

Definition kind_of (program : string) : option SessionKind := List.find (fun k => HasPrefix program (Prefix k)) ks.

Context (good_policy : string -> P -> Prop) (good : string -> string -> Prop).

Definition good_msg (program : string) (msg : relayMsg) : Prop := is_Some (kind_of program) -> good program (msg_data msg).

(** The promise: a policy stays good, and what it re-encodes, what it sends
    after a pause and the kind's control messages are good. *)
Class Promises : Prop := {
  pr_new program k id : kind_of program = Some k -> good_policy program (NewPolicy k program id);
  pr_operator program p typ data : good_policy program p ->
    good_policy program (pol_Operator p typ data).1
    /\ forall out, Action (pol_Operator p typ data).2 = FrameForward -> Data (pol_Operator p typ data).2 = Some out -> good program out;
  pr_agent program p typ data : good_policy program p -> good_policy program (pol_Agent p typ data).1;
  pr_watcher program p watch typ data : good_policy program p -> pol_Watcher p = Some watch ->
    good_policy program (watch typ data).1
    /\ forall out, Action (watch typ data).2 = FrameForward -> Data (watch typ data).2 = Some out -> good program out;
  pr_control program k : kind_of program = Some k -> good program (PauseMessage k) /\ good program (ResumeMessage k);
  pr_resume program p : good_policy program p -> Forall (good program) (pol_ResumeMessages p);
}.

Context {HP : Promises}.

Record well (program : string) (pr : Relay) : Prop := {
  wl_kind : kind pr = kind_of program;
  wl_some : is_Some (kind pr) <-> is_Some (pol pr);
  wl_pol p : pol pr = Some p -> good_policy program p;
  wl_queue : Forall (good_msg program) (opToAgent pr);
}.

Definition well_session s : Prop := forall pr, relay s = Some pr -> well (Program s) pr.

Record lifted (m : Mgr) : Prop := {
  lf_kinds : kinds m = ks;
  lf_sessions : map_Forall (fun _ => well_session) (sessions m);
}.

(** ** Relays *)

Lemma well_same program pr pr' :
  well program pr -> kind pr' = kind pr -> pol pr' = pol pr -> opToAgent pr' = opToAgent pr -> well program pr'.
Proof. intros [H1 H2 H3 H4] E1 E2 E3. split; rewrite ?E1, ?E2, ?E3; auto. Qed.

Lemma well_new s m : kinds m = ks -> well (Program s) (newPairedRelay s m).
Proof.
  intros K. unfold newPairedRelay, KindFor. rewrite K. change (List.find _ ks) with (kind_of (Program s)).
  destruct (kind_of (Program s)) as [k|] eqn:Ek; split; cbn; rewrite ?Ek; try done; try (by constructor).
  intros p [= <-]. by apply pr_new.
Qed.

Lemma well_take program pr msg pr' : well program pr -> agent_take pr = Some (msg, pr') -> well program pr' /\ good_msg program msg.
Proof.
  unfold agent_take. intros [H1 H2 H3 H4]. destruct (opToAgent pr) as [|x rest] eqn:Eq; [done|]. intros [= <- <-].
  inversion H4; subst. split; [|done]. split; auto.
Qed.

Lemma well_send program drained data pr pr' :
  well program pr -> good_msg program (mkMsg TextMessage data 0) -> sendAgentControl drained data pr = Some pr' -> well program pr'.
Proof.
  intros W D. assert (push : forall pr, well program pr -> well program (pr <| opToAgent ::= fun l => l ++ [mkMsg TextMessage data 0] |>)).
  { intros x [H1 H2 H3 H4]. split; auto. cbn. apply Forall_app. split; [done|by constructor]. }
  unfold sendAgentControl. case_match; [done|]. case_match; [intros [= <-]; by apply push|].
  destruct drained; [|done]. destruct (agent_take pr) as [[msg x]|] eqn:T; [|done]. intros [= <-].
  apply push. by apply (well_take _ _ _ _ W T).
Qed.

Lemma well_pause program drained pr : well program pr -> well program (pauseIfUnwatched drained pr).
Proof.
  intros W. unfold pauseIfUnwatched. destruct (kind pr) as [k|] eqn:Ek; [|done]. case_match; [|done].
  destruct (sendAgentControl drained (PauseMessage k) pr) as [x|] eqn:S; [|done].
  apply (well_same _ x); try done. eapply well_send; [done| |done].
  intros _. apply (pr_control program k). rewrite <- Ek. symmetry. apply (wl_kind _ _ W).
Qed.

Lemma well_send_all program drained msgs pr : Forall (good program) msgs -> well program pr -> well program (send_all drained msgs pr).
Proof.
  intros F. revert pr. induction F as [|msg msgs H F IH]; intros pr W; [done|]. cbn. apply IH.
  destruct (sendAgentControl drained msg pr) as [x|] eqn:S; [|done]. by eapply well_send; [|intros _|].
Qed.

Lemma well_resume program drained pr : well program pr -> well program (resumeIfPaused drained pr).
Proof.
  intros W. unfold resumeIfPaused. destruct (kind pr) as [k|] eqn:Ek; [|done]. case_match; [|done].
  destruct (sendAgentControl drained (ResumeMessage k) pr) as [x|] eqn:S; [|done].
  assert (well program x) as Wx.
  { eapply well_send; [done| |done]. intros _. apply (pr_control program k). rewrite <- Ek. symmetry. apply (wl_kind _ _ W). }
  apply well_send_all; [|by apply (well_same _ x)]. cbn. destruct (pol x) as [p|] eqn:Ep; [|constructor].
  apply pr_resume. by apply (wl_pol _ _ Wx).
Qed.

Lemma well_detach program drained pr : well program pr -> well program (detach_relay drained pr).
Proof.
  intros W. eapply well_same; [apply (well_pause _ drained (pr <| opConn := None |> <| opStop := None |> <| detached := true |>))|..]; try done.
  by apply (well_same _ pr).
Qed.

Lemma well_set_pol program pr p p' : pol pr = Some p -> good_policy program p' -> well program pr -> well program (pr <| pol := Some p' |>).
Proof.
  intros Eq H [H1 H2 H3 H4]. split; auto; cbn.
  - rewrite H2, Eq. split; by eexists.
  - by intros ? [= <-].
Qed.

Lemma well_deliver program drained msg pr : well program pr -> well program (agent_deliver drained msg pr).1.
Proof.
  intros W. unfold agent_deliver. set (x := match kind pr with Some _ => _ | None => _ end).
  assert (well program x) by (unfold x; destruct (kind pr); [by apply (well_same _ pr)|done]).
  do 2 (case_match; [done|]). done.
Qed.

Lemma well_enqueue program msg pr pr' : well program pr -> good_msg program msg -> enqueue_for_agent msg pr = Some pr' -> well program pr'.
Proof.
  unfold enqueue_for_agent. intros [H1 H2 H3 H4] Hm. destruct (gate_acquire _ _) as [used|]; [|done]. cbn.
  case_match; [|done]. intros [= <-]. split; auto. cbn. apply Forall_app. split; [done|by constructor].
Qed.

Lemma reencoded_good program d msg d' :
  (forall out, Action d = FrameForward -> Data d = Some out -> good program out) ->
  reencoded d = (msg, d') -> Action d' = FrameForward -> good_msg program msg.
Proof.
  unfold reencoded. intros H. destruct (Action d) eqn:A; [|by intros [= <- <-]; congruence..].
  destruct (Data d) as [out|] eqn:D; intros [= <- <-] Ea; [|done]. intros _. by apply H.
Qed.

Lemma well_watcher program w typ message pr :
  well program pr -> well program (watcher_round w typ message pr).1
    /\ forall msg, (watcher_round w typ message pr).2 = Queue msg -> good_msg program msg.
Proof.
  intros W. unfold watcher_round. destruct (pol pr) as [p|] eqn:Ep; [|done]. cbn [mbind option_bind].
  destruct (pol_Watcher p) as [watch|] eqn:Ew; [|done].
  destruct (pr_watcher program p watch typ message (wl_pol _ _ W _ Ep) Ew) as [Hp Hd].
  destruct (watch typ message) as [p' d]. cbn [fst snd] in *.
  assert (well program (pr <| pol := Some p' |>)) by (by eapply well_set_pol).
  destruct (Action d) eqn:A; [|done|done]. case_match; [done|].
  destruct (reencoded d) as [msg d'] eqn:R. destruct (Action d') eqn:A'; [|done|done]. split; [done|].
  intros ? [= <-]. eapply reencoded_good; [|done|done]. by rewrite A.
Qed.

(** ** Managers *)

Lemma lifted_get_pol id m s pr : lifted m -> sessions m !! id = Some s -> relay s = Some pr -> well (Program s) pr.
Proof. intros [_ H] Hs. by apply (H id). Qed.

Lemma lifted_put s m : well_session s -> lifted m -> lifted (put s m).
Proof. intros W [K H]. split; [done|]. cbn. by apply map_Forall_insert_2. Qed.

(** Changes that leave the sessions and the kinds alone. *)
Lemma lifted_same m m' : kinds m' = kinds m -> sessions m' = sessions m -> lifted m -> lifted m'.
Proof. intros E1 E2 [K H]. split; [congruence|by rewrite E2]. Qed.

Lemma lifted_alter f id m :
  (forall s, well_session s -> well_session (f s)) -> lifted m -> lifted (m <| sessions ::= alter f id |>).
Proof.
  intros Hf [K H]. split; [done|]. cbn. intros i x Hx.
  apply lookup_alter_Some in Hx as [(-> & s & Hs & ->)|[_ Hx]]; [apply Hf|]; by eapply H.
Qed.

Lemma lifted_on_relay f id m :
  (forall program pr, well program pr -> well program (f pr)) -> lifted m -> lifted (on_relay f id m).
Proof.
  intros Hf. apply lifted_alter. intros s W pr. cbn. destruct (relay s) as [x|] eqn:Eq; [|done]. intros [= <-]. by apply Hf, W.
Qed.

Lemma lifted_fold {A} (f : Mgr -> A -> Mgr) l m : (forall m x, lifted m -> lifted (f m x)) -> lifted m -> lifted (fold_left f l m).
Proof. intros Hf. revert m. induction l as [|x l IH]; intros m L; [done|]. cbn. by apply IH, Hf. Qed.

Lemma lifted_get id m m' s : GetSession unmarshal_grant id m = Ok (m', s) -> lifted m -> lifted m' /\ well_session s.
Proof.
  unfold GetSession. destruct (sessions m !! id) as [x|] eqn:Hx.
  - intros [= <- <-] L. split; [done|]. by eapply (lf_sessions _ L).
  - intros Hl L. apply result_bind_Ok in Hl as (x & Hl & [= <- <-]).
    assert (well_session x) by (unfold loadDurableSession in Hl; destruct (db m !! id); [|done]; injection Hl as <-; intros ? [=]).
    split; [by apply lifted_put|done].
Qed.

(** A session with the relay and program of a good one. *)
Lemma well_session_same s s' : relay s' = relay s -> Program s' = Program s -> well_session s -> well_session s'.
Proof. intros E1 E2 W pr. rewrite E1, E2. apply W. Qed.

Lemma lifted_put_same s s' m : relay s' = relay s -> Program s' = Program s -> well_session s -> lifted m -> lifted (put s' m).
Proof. intros E1 E2 W. apply lifted_put. by apply (well_session_same s). Qed.

Ltac got Hg L W := let X := fresh in apply lifted_get in Hg as X; [destruct X as [L W]|done].

Ltac row := match goal with
  | |- lifted (updateDurableState _ _ _ _ _ _ _ ?m) => apply (lifted_same m); [reflexivity|reflexivity|]
  | |- lifted (updateDurableIdle _ _ ?m) => apply (lifted_same m); [reflexivity|reflexivity|]
  | |- lifted (updateDurableOperatorToken _ _ ?m) => apply (lifted_same m); [reflexivity|reflexivity|]
  | |- lifted (save_recording _ ?m) => apply (lifted_same m); [reflexivity|reflexivity|]
  end.

Lemma record_in_relay idle now f s : relay (record_in idle now f s).1 = relay s /\ Program (record_in idle now f s).1 = Program s.
Proof. unfold record_in. repeat case_match; done. Qed.

Lemma lifted_RecordFrame id f now m : lifted m -> lifted (RecordFrame unmarshal_grant id f now m).1.
Proof.
  intros L0. unfold RecordFrame. case_match; [done|]. destruct (GetSession unmarshal_grant id m) as [[m1 s]|e] eqn:Hg; [|done].
  got Hg L W. destruct (record_in_relay (idleTimeout m1) now f s) as [E1 E2].
  destruct (record_in (idleTimeout m1) now f s) as [s' w]. cbn [fst] in *.
  assert (lifted (put s' m1)) by (by apply (lifted_put_same s)). destruct w; [by row|done].
Qed.

Lemma lifted_Seal id now m : lifted m -> lifted (SealSessionRecording unmarshal_grant marshal_frame id now m).1.
Proof.
  intros L0. unfold SealSessionRecording. destruct (GetSession unmarshal_grant id m) as [[m1 s]|e] eqn:Hg; [|done].
  got Hg L W. case_match; [done|].
  assert (failed : forall m, lifted m -> lifted (seal_failed s m)).
  { intros x Lx. unfold seal_failed. apply (lifted_same (put (s <| RecordingState := "seal_failed"%string |>) x)); [done..|].
    by apply (lifted_put_same s). }
  assert (none : lifted (save_recording (set_count (if String.eqb (RecordingState s) "bounded" then s else s <| RecordingState := "closed"%string |>))
     (put (set_count (if String.eqb (RecordingState s) "bounded" then s else s <| RecordingState := "closed"%string |>)) m1))).
  { row. apply (lifted_put_same s); try done; by case_match. }
  destruct (evidenceStore m1) as [e|]; [|exact none]. destruct (String.eqb (BundleID s) EmptyString); [exact none|].
  destruct (StoreItem _ _ _ _ _ _ _) as [e1 item]. assert (lifted (m1 <| evidenceStore := Some e1 |>)) by (by apply (lifted_same m1)).
  destruct item as [item|err]; [|by apply failed]. destruct (FinalizeBundle _ _ _ _ _) as [e2 fin].
  assert (lifted (m1 <| evidenceStore := Some e1 |> <| evidenceStore := Some e2 |>)) by (by apply (lifted_same m1)).
  destruct fin; [|by apply failed]. cbn [fst]. row. by apply (lifted_put_same s).
Qed.

Lemma lifted_relay_Close id reason now m : lifted m -> lifted (relay_Close unmarshal_grant marshal_frame id reason now m).
Proof.
  intros L. unfold relay_Close. destruct (sessions m !! id) as [s|] eqn:Hs; [|done]. destruct (relay s) as [pr|] eqn:Hr; [|done].
  case_match; [done|]. apply lifted_Seal. row. apply lifted_put; [|done]. intros x [= <-].
  apply (well_same _ pr); try done. by apply (lifted_get_pol id m s).
Qed.

Lemma lifted_CloseSession id reason now m : lifted m -> lifted (CloseSession unmarshal_grant marshal_frame id reason now m).1.
Proof.
  intros L0. unfold CloseSession. destruct (GetSession unmarshal_grant id m) as [[m1 s]|e] eqn:Hg; [|done]. got Hg L W. cbn [fst].
  apply lifted_Seal, lifted_relay_Close. row. by apply (lifted_put_same s).
Qed.

Lemma lifted_detach drained id owner m : lifted m -> lifted (detachAttachment drained id owner m).
Proof.
  intros L. unfold detachAttachment. destruct (sessions m !! id) as [s|] eqn:Hs; [|done]. destruct (relay s) as [pr|] eqn:Hr; [|done].
  repeat (case_match; [done|]). row. apply lifted_put; [|done]. intros x [= <-]. apply well_detach. by apply (lifted_get_pol id m s).
Qed.

Lemma well_relay_of s m : kinds m = ks -> well_session s -> well (Program s) (relay_of s m).
Proof. intros K W. unfold relay_of. destruct (relay s) as [pr|] eqn:Eq; [by apply W|by apply well_new]. Qed.

Lemma lifted_attach drained id conn now s m : lifted m -> lifted (attach_consumed drained id conn now s m).1.
Proof.
  intros L0. unfold attach_consumed. case_match; [done|]. set (m3 := if _ && _ then _ else m).
  assert (lifted m3) as L by (unfold m3; case_match; [by apply lifted_detach|done]). clearbody m3.
  destruct (sessions m3 !! id) as [s3|] eqn:Hs; [|done]. do 2 (case_match; [done|]).
  assert (W : well_session (operator_joins now m3 s3)).
  { intros pr Hr. assert (pr = relay_of s3 m3) as -> by (unfold operator_joins in Hr; cbn in Hr; destruct (AgentConnected s3); by injection Hr).
    assert (Program (operator_joins now m3 s3) = Program s3) as -> by (unfold operator_joins; cbn; by destruct (AgentConnected s3)).
    apply well_relay_of; [apply L|by eapply (lf_sessions _ L)]. }
  set (s4 := operator_joins now m3 s3) in *. cbn zeta. set (m4 := updateDurableIdle _ _ _).
  assert (lifted m4) by (unfold m4; row; row; by apply lifted_put).
  destruct conn as [c|]; cbn [fst]; [|by apply (lifted_put_same s4)].
  apply lifted_on_relay; [|done]. intros program pr Wp. apply well_resume. by apply (well_same _ pr).
Qed.

Lemma lifted_AttachOperator drained id raw conn now m :
  lifted m -> lifted (AttachOperator HashToken unmarshal_grant drained id raw conn now m).1.
Proof.
  intros L0. unfold AttachOperator. destruct (GetSession unmarshal_grant id m) as [[m1 s]|e] eqn:Hg; [|done]. got Hg L W.
  case_match; [done|]. apply lifted_attach. row. by apply (lifted_put_same s).
Qed.

Lemma lifted_AttachAgent id ep raw conn now m : lifted m -> lifted (AttachAgent HashToken unmarshal_grant id ep raw conn now m).1.
Proof.
  intros L0. unfold AttachAgent. destruct (GetSession unmarshal_grant id m) as [[m1 s]|e] eqn:Hg; [|done]. got Hg L W.
  do 4 (case_match; [done|]).
  assert (W' : well_session (agent_joins now m1 s)).
  { intros pr Hr. assert (pr = relay_of s m1) as -> by (unfold agent_joins in Hr; cbn in Hr; destruct (OperatorConnected s); by injection Hr).
    assert (Program (agent_joins now m1 s) = Program s) as -> by (unfold agent_joins; cbn; by destruct (OperatorConnected s)).
    apply well_relay_of; [apply L|done]. }
  set (s4 := agent_joins now m1 s) in *. cbn zeta. set (m4 := updateDurableState _ _ _ _ _ _ _ _).
  assert (lifted m4) by (unfold m4; row; by apply lifted_put).
  destruct conn as [c|]; cbn [fst]; [|by apply (lifted_put_same s4)].
  apply lifted_on_relay; [|done]. intros program pr Wp. by apply (well_same _ pr).
Qed.

Lemma lifted_AttachWatcher drained id conn now m : lifted m -> lifted (AttachWatcher unmarshal_grant drained id conn now m).1.
Proof.
  intros L0. unfold AttachWatcher. destruct (GetSession unmarshal_grant id m) as [[m1 s]|e] eqn:Hg; [|done]. got Hg L W.
  destruct (KindFor (Program s) m1) as [k|]; [|done]. do 2 (case_match; [done|]). set (s' := s <| relay := _ |> <| IdleExpiresAt := _ |> <| dirty := _ |>).
  assert (lifted (put s' m1)) as Hp.
  { apply lifted_put; [|done]. intros x [= <-]. exact (well_relay_of s m1 (lf_kinds _ L) W). }
  do 2 (case_match; [done|]). destruct conn as [c|]; [|done]. case_match; [done|].
  apply lifted_on_relay; [|done]. intros program pr Wp. apply well_resume. by apply (well_same _ pr).
Qed.

Lemma lifted_shell allowed a b c id msg now m :
  lifted m -> lifted (shell_message unmarshal_grant marshal_frame unmarshal_frame allowed a b c id msg now m).1.1.
Proof.
  intros L. unfold shell_message. destruct (unmarshal_frame msg) as [f|]; [|done]. case_match; [done|].
  case_match; by apply lifted_RecordFrame.
Qed.

Lemma get_pol_inv id m p : get_pol id m = Some p -> exists s pr, sessions m !! id = Some s /\ relay s = Some pr /\ pol pr = Some p.
Proof.
  unfold get_pol. destruct (sessions m !! id) as [s|]; [|done]. cbn. destruct (relay s) as [pr|] eqn:Eq; [|done]. cbn. eauto.
Qed.

(** Storing the state of a session's policy. *)
Lemma lifted_set_pol id m p p' :
  get_pol id m = Some p -> (forall program, good_policy program p -> good_policy program p') -> lifted m -> lifted (set_pol p' id m).
Proof.
  intros (s & pr & Hs & Hr & Hp)%get_pol_inv H L. pose proof (lifted_get_pol _ _ _ _ L Hs Hr) as W.
  destruct L as [K F]. split; [done|]. unfold set_pol, on_relay. cbn. intros i x Hx.
  apply lookup_alter_Some in Hx as [(-> & y & Hy & ->)|[_ Hx]]; [|by eapply F]. simplify_eq.
  intros z. cbn. rewrite Hr. intros [= <-]. eapply well_set_pol; [done| |done]. apply H. by apply (wl_pol _ _ W).
Qed.

Local Notation operatorMessage := (operatorMessage unmarshal_grant marshal_frame unmarshal_frame).
Local Notation operator_round := (operator_round unmarshal_grant marshal_frame unmarshal_frame).

Lemma lifted_operatorMessage id typ message now m : lifted m -> lifted (operatorMessage id typ message now m).1.1.
Proof.
  intros L. unfold relay.operatorMessage. destruct (get_pol id m) as [p|] eqn:Ep; [|by apply lifted_shell].
  pose proof (fun program H => pr_operator program p typ message H) as PO.
  destruct (pol_Operator p typ message) as [p' d]. destruct (reencoded d). cbn [fst snd] in *.
  eapply lifted_set_pol; [done| |done]. intros program H. by apply PO.
Qed.

Lemma operatorMessage_good id typ message now m s pr :
  lifted m -> sessions m !! id = Some s -> relay s = Some pr ->
  Action (operatorMessage id typ message now m).2 = FrameForward -> good_msg (Program s) (operatorMessage id typ message now m).1.2.
Proof.
  intros L Hs Hr. pose proof (lifted_get_pol _ _ _ _ L Hs Hr) as W.
  assert (Ep : get_pol id m = pol pr) by (unfold get_pol; rewrite Hs; cbn; by rewrite Hr).
  unfold relay.operatorMessage. rewrite Ep. destruct (pol pr) as [p|] eqn:Hp.
  - destruct (pr_operator (Program s) p typ message (wl_pol _ _ W _ Hp)) as [_ PO].
    destruct (pol_Operator p typ message) as [p' d]. destruct (reencoded d) as [msg d'] eqn:R. cbn [fst snd] in *.
    by eapply reencoded_good.
  - intros _ K. rewrite <- (wl_kind _ _ W), (wl_some _ _ W), Hp in K. by destruct K.
Qed.

Lemma lifted_operator_round id typ message now m : lifted m -> lifted (operator_round id typ message now m).1.
Proof.
  intros L%(lifted_operatorMessage id typ message now). unfold relay.operator_round.
  destruct (operatorMessage id typ message now m) as [[m1 x] d]. cbn [fst snd] in *. set (m2 := if Activity d then _ else m1).
  assert (lifted m2) by (unfold m2, touchActivity; case_match; [|done]; apply lifted_alter; [|done]; intros y Wy; by apply (well_session_same y)).
  destruct (Action d); [done|done|by apply lifted_relay_Close].
Qed.

Lemma operator_round_good id typ message now m s pr msg :
  lifted m -> sessions m !! id = Some s -> relay s = Some pr ->
  (operator_round id typ message now m).2 = Queue msg -> good_msg (Program s) msg.
Proof.
  intros L Hs Hr. pose proof (operatorMessage_good id typ message now m s pr L Hs Hr) as H. unfold relay.operator_round.
  destruct (operatorMessage id typ message now m) as [[m1 x] d]. cbn [fst snd] in *.
  destruct (Action d); [intros [= <-]; by apply H|done|done].
Qed.

Lemma lifted_agent_round drained id typ message now m :
  lifted m -> lifted (agent_round unmarshal_grant marshal_frame unmarshal_frame drained id typ message now m).1.
Proof.
  intros L. unfold agent_round.
  assert (lifted (agentMessage unmarshal_grant marshal_frame unmarshal_frame id typ message now m).1.1) as L'.
  { unfold agentMessage. destruct (get_pol id m) as [p|] eqn:Ep; [|by apply lifted_shell].
    pose proof (fun program H => pr_agent program p typ message H) as PA.
    destruct (pol_Agent p typ message) as [p' d]. destruct (policed d typ message). cbn [fst snd] in *. by eapply lifted_set_pol. }
  destruct (agentMessage _ _ _ _ _ _ _ _) as [[m1 x] d]. cbn [fst] in L'.
  destruct (Action d); [|done|by apply lifted_relay_Close].
  destruct (s ← sessions m1 !! id; relay s) as [pr|] eqn:Es; [|done].
  destruct (sessions m1 !! id) as [s|] eqn:Hs; [|done]. cbn in Es.
  pose proof (well_deliver (Program s) drained x pr (lifted_get_pol _ _ _ _ L' Hs Es)) as W.
  destruct (agent_deliver drained x pr) as [pr' out]. cbn [fst] in *. destruct L' as [K F]. split; [done|].
  unfold on_relay. cbn. intros i y Hy. apply lookup_alter_Some in Hy as [(-> & z & Hz & ->)|[_ Hy]]; [|by eapply F].
  simplify_eq. intros q. cbn. rewrite Es. by intros [= <-].
Qed.

Lemma lifted_fmap f m : (forall s, well_session s -> well_session (f s)) -> lifted m -> lifted (m <| sessions ::= fmap f |>).
Proof. intros Hf [K F]. split; [done|]. cbn. intros i x Hx. apply lookup_fmap_Some in Hx as (s & <- & Hs). apply Hf. by eapply F. Qed.

Lemma lifted_flushDirty m : lifted m -> lifted (flushDirty m).
Proof.
  intros L. unfold flushDirty. apply lifted_fold; [intros x s Lx; by apply (lifted_same x)|].
  apply lifted_fmap; [|done]. intros s W. by apply (well_session_same s).
Qed.

Lemma lifted_Sweep now m : lifted m -> lifted (Sweep unmarshal_grant marshal_frame now m).
Proof.
  intros L. unfold Sweep, sweepExpiredSessions. apply lifted_fold; [intros; by apply lifted_Seal|].
  apply lifted_fold; [intros; by apply lifted_relay_Close|]. apply lifted_fold.
  { intros x e Lx. apply lifted_alter; [|done]. intros s W. by apply (well_session_same s). }
  apply lifted_fold; [intros x e Lx; by apply (lifted_same x)|]. by apply lifted_flushDirty.
Qed.

Lemma lifted_create sid tok tenant endpoint operator program grant d u1 u2 u3 now m :
  lifted m -> lifted (createSession HashToken marshal_grant sid tok tenant endpoint operator program grant d u1 u2 u3 now m).1.
Proof.
  intros L. unfold createSession. destruct (countActiveSessions tenant endpoint now m). do 3 (case_match; [done|]).
  set (s0 := new_session _ _ _ _ _ _ _ _ _ _ _ _ _). set (pair := match evidenceStore m with Some _ => _ | None => _ end).
  assert (lifted pair.1 /\ relay pair.2 = None) as [L' Hr].
  { unfold pair. repeat case_match; split; try done; by apply (lifted_same m). }
  destruct pair as [m1 s1]. cbn [fst snd] in *. unfold insertDurableSession.
  destruct (match Grant s1 with Some g => marshal_grant g | None => Ok EmptyString end); [|done]. cbn [mbind result_bind].
  destruct (db m1 !! SessionID s1); [done|]. cbn [fst]. apply lifted_put; [intros ?; by rewrite Hr|by apply (lifted_same m1)].
Qed.

Lemma lifted_exec now o m : (forall id msg, o <> OQueueForAgent id msg) -> lifted m -> lifted (exec now o m).
Proof.
  intros N L. destruct o; cbn [TerminalProps.exec].
  - by apply lifted_create.
  - destruct (GetSession unmarshal_grant id m) as [[m' s]|e] eqn:Hg; [|done]. by apply (lifted_get _ _ _ _ Hg).
  - by apply lifted_RecordFrame.
  - by apply lifted_Seal.
  - unfold GetSessionRecording. destruct (GetSession unmarshal_grant id m) as [[m' s]|e] eqn:Hg; [|done]. by apply (lifted_get _ _ _ _ Hg).
  - by apply lifted_CloseSession.
  - unfold RotateOperatorToken. destruct (GetSession unmarshal_grant id m) as [[m1 s]|e] eqn:Hg; [|done]. got Hg L1 W.
    case_match; [done|]. cbn [fst]. row. by apply (lifted_put_same s).
  - unfold DetachSession. destruct (GetSession unmarshal_grant id m) as [[m1 s]|e] eqn:Hg; [|done]. got Hg L1 W.
    destruct (relay s); [by apply lifted_detach|done].
  - by apply lifted_detach.
  - by apply lifted_AttachOperator.
  - by apply lifted_AttachAgent.
  - by apply lifted_AttachWatcher.
  - by apply lifted_operator_round.
  - by apply lifted_agent_round.
  - by exfalso; eapply N.
  - apply lifted_on_relay; [|done]. intros program pr W. destruct (enqueueForOperator msg pr) as [x|] eqn:Ex; [|done].
    apply (well_same _ pr); try done; unfold enqueueForOperator in Ex; repeat case_match; by simplify_eq.
  - apply lifted_on_relay; [|done]. intros program pr W. destruct (agent_take pr) as [[msg x]|] eqn:Ex; [|done]. by apply (well_take _ _ _ _ W Ex).
  - apply lifted_on_relay; [|done]. intros program pr W. unfold operator_take. destruct (agentToOp pr); [done|]. by apply (well_same _ pr).
  - unfold pong. do 2 (case_match; [|done]). apply lifted_alter; [|done]. intros x W. by apply (well_session_same x).
  - apply lifted_on_relay; [|done]. intros program pr W. by apply well_watcher.
  - apply lifted_on_relay; [|done]. intros program pr W. unfold removeWatcher. destruct (remove_first w (watchers pr)); [|done].
    apply well_pause. by apply (well_same _ pr).
  - by apply lifted_relay_Close.
  - by apply lifted_Sweep.
  - unfold SetLimits. repeat case_match; by apply (lifted_same m).
  - unfold Manager_Close. apply lifted_flushDirty, lifted_fold; [|done]. intros. by apply lifted_relay_Close.
Qed.

(** ** The machine keeps the promise *)

Record tidy (w : world) : Prop := {
  td_mgr : lifted (w_mgr w);
  td_waiting : Forall (fun x => good_msg x.1.2 x.2) (w_waiting w);
  td_sent : Forall (fun x => good_msg x.1 x.2) (w_sent w);
}.

Lemma hold_good id program r l :
  (forall msg, r = Queue msg -> good_msg program msg) ->
  Forall (fun x => good_msg x.1.2 x.2) l -> Forall (fun x => good_msg x.1.2 x.2) (hold id program r l).
Proof. intros H F. destruct r; try done. apply Forall_app. split; [done|]. constructor; [by apply H|constructor]. Qed.

Lemma lifted_relay_put m s pr : lifted m -> well (Program s) pr -> lifted (put (s <| relay := Some pr |>) m).
Proof. intros L W. apply lifted_put; [|done]. by intros x [= <-]. Qed.

Lemma happen_tidy now e w : tidy w -> tidy (happen now e w).
Proof.
  intros T. pose proof T as [L Fw Fs]. destruct e as [o|id typ message|id c typ message|n|id]; cbn [happen].
  - assert ((forall id msg, o <> OQueueForAgent id msg) -> tidy (mkWorld (exec now o (w_mgr w)) (w_waiting w) (w_sent w))).
    { intros N. split; cbn; [by apply lifted_exec|done|done]. }
    destruct o; try done; by apply H.
  - destruct (sessions (w_mgr w) !! id) as [s|] eqn:Hs; [|done]. cbn. destruct (relay s) as [pr|] eqn:Hr; [|done]. cbn.
    pose proof (fun msg => operator_round_good id typ message now _ _ _ msg L Hs Hr) as Hg.
    pose proof (lifted_operator_round id typ message now _ L) as L'.
    destruct (operator_round id typ message now (w_mgr w)) as [m' r]. cbn [fst snd] in *. split; cbn; [done| |done].
    by apply hold_good.
  - destruct (sessions (w_mgr w) !! id) as [s|] eqn:Hs; [|done]. cbn. destruct (relay s) as [pr|] eqn:Hr; [|done]. cbn.
    destruct (well_watcher (Program s) c typ message pr (lifted_get_pol _ _ _ _ L Hs Hr)) as [W Hg].
    destruct (watcher_round c typ message pr) as [pr' r]. cbn [fst snd] in *. split; cbn; [by apply lifted_relay_put| |done].
    by apply hold_good.
  - destruct (w_waiting w !! n) as [[[id program] msg]|] eqn:Hn; [|done].
    destruct (sessions (w_mgr w) !! id) as [s|] eqn:Hs; [|done]. cbn. destruct (relay s) as [pr|] eqn:Hr; [|done]. cbn.
    destruct (enqueue_for_agent msg pr) as [pr'|] eqn:Hq; [|done]. cbn. destruct (String.eqb_spec (Program s) program) as [<-|_]; [|done].
    pose proof (proj1 (Forall_lookup _ _) Fw _ _ Hn) as Hm. cbn in Hm. split; cbn; [|by apply Forall_delete|done].
    apply lifted_relay_put; [done|]. eapply well_enqueue; [|done|done]. by eapply lifted_get_pol.
  - destruct (sessions (w_mgr w) !! id) as [s|] eqn:Hs; [|done]. cbn. destruct (relay s) as [pr|] eqn:Hr; [|done]. cbn.
    destruct (agent_take pr) as [[msg pr']|] eqn:Ht; [|done]. cbn.
    destruct (well_take (Program s) pr msg pr' (lifted_get_pol _ _ _ _ L Hs Hr) Ht) as [W Hm]. split; cbn; [by apply lifted_relay_put|done|].
    apply Forall_app. split; [done|]. by constructor.
Qed.

Lemma happens_tidy l w : tidy w -> tidy (happens l w).
Proof. revert w. induction l as [|[now e] l IH]; intros w T; [done|]. cbn. by apply IH, happen_tidy. Qed.

(** A manager that has just started. *)
Lemma start_tidy ev lim now : tidy (mkWorld (start ks ev lim now) [] []).
Proof. split; [|constructor..]. split; [done|]. apply map_Forall_empty. Qed.

(** Messages queued for an agent are good too. *)
Lemma tidy_queue w id s pr msg :
  tidy w -> sessions (w_mgr w) !! id = Some s -> relay s = Some pr -> msg ∈ opToAgent pr -> good_msg (Program s) msg.
Proof.
  intros T Hs Hr Hi. pose proof (lifted_get_pol _ _ _ _ (td_mgr _ T) Hs Hr) as W.
  exact (proj1 (Forall_forall _ _) (wl_queue _ _ W) msg Hi).
Qed.

End Lift.
