(* ===== verification/TerminalExamples.v ===== *)
(** * Terminal sessions: the guarantees on a small hub

    A concrete evidence store, frame codec and policy; the theorems of
    TerminalProps applied to a short run; and an idle deadline that ignores
    the operator. *)

From Stdlib Require Import Ascii String.
From stdpp Require Import gmap strings.
From S2P Require Import Prelude Terminal TerminalRelay TerminalInv TerminalProps.
Import terminal relay.

Module terminal_example.

Local Open Scope string_scope.

(** Items by id, newest first. *)
Definition store : Type := list (string * string).

Fixpoint item (id : string) (l : store) : result string string :=
  match l with
  | [] => Err "no such item"
  | (k, v) :: l' => if String.eqb k id then Ok v else item id l'
  end.

#[export] Instance store_EvidenceStore : EvidenceStore store := {
  CreateBundle e tenant endpoint session profile retention := (e, Ok ("bundle-" ++ session));
  StoreItem e tenant bundle name mime status payload :=
    let id := bundle ++ "/" ++ name in
    ((id, payload) :: e, Ok (mkItem id (Z.of_nat (String.length payload)) "sha"));
  FinalizeBundle e tenant bundle manifest sig := (e, Ok tt);
  ReadItemData e tenant id := item id e;
}.

#[export] Instance unit_FramePolicy : FramePolicy unit := {
  NewPolicy k program session := tt;
  pol_Operator p typ data := (tt, mkDecision FrameForward "" (Some data) true);
  pol_Agent p typ data := (tt, mkDecision FrameForward "" None false);
  pol_Watcher p := Some (fun typ data => (tt, mkDecision FrameForward "" (Some data) false));
  pol_ResumeMessages p := ["ack"];
}.

Definition hash (t : string) : string := "h:" ++ t.

Definition marshal_grant (g : unit) : result string string := Ok "{}".
Definition unmarshal_grant (s : string) : option unit := Some tt.

Definition letter (t : FrameType) : option string :=
  match t with
  | FrameStdin => Some "i" | FrameStdout => Some "o" | FrameResize => Some "r" | FrameClose => Some "c"
  | FrameOther _ => None
  end.

Definition marshal_frame (f : TerminalFrame) : option string := l ← letter (f_Type f); Some (l ++ f_Data f).

Definition unmarshal_frame (s : string) : option TerminalFrame :=
  match s with
  | String "i" d => Some (mkFrame FrameStdin 0 d 0 0)
  | String "o" d => Some (mkFrame FrameStdout 0 d 0 0)
  | String "r" d => Some (mkFrame FrameResize 0 d 0 0)
  | String "c" d => Some (mkFrame FrameClose 0 d 0 0)
  | _ => None
  end.

Local Notation Mgr := (Manager unit unit store).
Local Notation Op := (op (G := unit)).
Local Notation Session := (TerminalSession unit unit).
Local Notation Relay := (PairedRelay unit).
Local Notation run := (run hash marshal_grant unmarshal_grant marshal_frame unmarshal_frame).
Local Notation exec := (exec hash marshal_grant unmarshal_grant marshal_frame unmarshal_frame).

Definition screen_kind : SessionKind := mkKind "screen:" "screen" 2 1 true true "pause" "resume".

Definition create (id tenant endpoint program : string) : Op :=
  OCreate id "agent-token" tenant endpoint "ana" program None 0 "u1" "u2" "op-token".

Definition hub : Mgr := start [screen_kind] (Some []) (mkLimits 0 0 0 0) 0.

Definition opened : list (Z * Op) := [(1, create "s1" "acme" "pc-1" "/bin/sh"); (2, create "s2" "acme" "pc-1" "screen:0")].

Lemma hub_Inv : Inv hub.
Proof. apply start_Inv. Qed.

Lemma opened_Inv : Inv (run opened hub).
Proof. apply run_Inv, hub_Inv. Qed.

(** A lookup that a computation has checked, with what it checked. *)
Definition check {A} (p : A -> bool) (o : option A) : bool := match o with Some x => p x | None => false end.

Lemma checked {A} (p : A -> bool) (o : option A) : check p o = true -> exists x, o = Some x /\ p x = true.
Proof. destruct o as [x|]; [|done]. by exists x. Qed.

Ltac evaluate := vm_compute; reflexivity.

(** Two sessions are open when the limit for an endpoint is lowered to one: they
    stay, and no third one is opened. *)
Definition lowered : list (Z * Op) := (opened ++ [(3, OSetLimits (mkLimits 0 0 1 0)); (4, create "s3" "acme" "pc-1" "/bin/sh")])%list.

Lemma session_caps_witness :
  snd (countActiveSessions "acme" "pc-1" (last_time 0 lowered) (run lowered hub)) = 2 /\ perEndpoint (run lowered hub) = 1 /\
  fst (countActiveSessions "acme" "pc-1" (last_time 0 lowered) (run lowered hub)) <= 8 /\
  snd (countActiveSessions "acme" "pc-1" (last_time 0 lowered) (run lowered hub)) <= 3.
Proof.
  split; [evaluate|]. split; [evaluate|].
  exact (proj1 (session_caps hash marshal_grant unmarshal_grant marshal_frame unmarshal_frame
           [screen_kind] (Some []) (mkLimits 0 0 0 0) 0 lowered ltac:(vm_compute; intuition discriminate)) "acme" "pc-1").
Defined.

(** The first session closed, and what happens after. *)
Definition ended_run : list (Z * Op) := opened ++ [(3, OClose "s1" "done")].
Definition after_end : list (Z * Op) := [(4, OSweep); (5, OAttachOperator false "s1" "op-token" (Some 1%nat))].

Lemma ended_Inv : Inv (run ended_run hub).
Proof. apply run_Inv, hub_Inv. Qed.

Definition s_ended (s : Session) : bool := ended (State s).

Lemma s1_ended : check s_ended (sessions (run ended_run hub) !! "s1") = true.
Proof. evaluate. Qed.

Lemma ended_is_final_witness :
  exists s', sessions (run after_end (run ended_run hub)) !! "s1" = Some s' /\ ended (State s') = true.
Proof.
  destruct (checked _ _ s1_ended) as (s & Hs & He).
  exact (proj1 (ended_is_final hash marshal_grant unmarshal_grant marshal_frame unmarshal_frame
    after_end (run ended_run hub) "s1" ended_Inv) s Hs He).
Defined.

Lemma s1_attaches : snd (AttachOperator hash unmarshal_grant false "s1" "op-token" (Some 1%nat) 3 (run opened hub)) = Ok tt.
Proof. evaluate. Qed.

Lemma operator_token_one_use_witness :
  snd (AttachOperator hash unmarshal_grant false "s1" "op-token" (Some 2%nat) 6
         (run [(5, OSweep)] (exec 3 (OAttachOperator false "s1" "op-token" (Some 1%nat)) (run opened hub))))
  = Err "invalid or expired terminal connect token".
Proof.
  exact (operator_token_one_use hash marshal_grant unmarshal_grant marshal_frame unmarshal_frame
    (run opened hub) false "s1" "op-token" (Some 1%nat) 3 [(5, OSweep)] false "op-token" (Some 2%nat) 6
    opened_Inv s1_attaches ltac:(by apply Forall_singleton)).
Defined.

Lemma s1_overdue : check (overdue (100 * Second) (30 * Second)) (db (run opened hub) !! "s1") = true.
Proof. evaluate. Qed.

Lemma sweep_exact_witness :
  exists r', db (fst (sweepExpiredSessions (100 * Second) (30 * Second) (run opened hub))) !! "s1" = Some r' /\
    ended (r_state r') = true /\ r_closed_at r' = Some (100 * Second) /\
    r_close_reason r' ∈ [Some "connect_timeout"; Some "idle_timeout"; Some "max_duration_exceeded"].
Proof.
  destruct (checked _ _ s1_overdue) as (r & Hr & Ho).
  pose proof (sweep_exact hash unmarshal_grant unmarshal_frame (100 * Second) (30 * Second) (run opened hub) "s1" r Hr) as Hx.
  rewrite Ho in Hx. exact Hx.
Defined.

(** ** A recorded session *)

Definition typed (t : Z) (d : string) : TerminalFrame := mkFrame FrameStdin t d 0 0.
Definition shown (t : Z) (d : string) : TerminalFrame := mkFrame FrameStdout t d 0 0.

Definition recorded_run : list (Z * Op) :=
  [(0, create "s1" "acme" "pc-1" "/bin/sh"); (0, ORecord "s1" (typed 7 "ls")); (0, ORecord "s1" (shown 7 "a b"))].

(** What the witnesses below need to know of a session. *)
Definition view (s : Session) : string * string * string * Z * list TerminalFrame :=
  (SessionID s, TenantID s, RecordingState s, MaxRecordingBytes s - RecordingBytes s, Frames s).

Lemma viewed m id v : view <$> sessions (m : Mgr) !! id = Some v -> exists s, sessions m !! id = Some s /\ view s = v.
Proof. intros (s & Hs & ->)%fmap_Some. by exists s. Qed.

Lemma recorded_view :
  view <$> sessions (run recorded_run hub) !! "s1" = Some ("s1", "acme", "recording", 10485627, [typed 0 "ls"; shown 0 "a b"]).
Proof. evaluate. Qed.

Lemma recorded_bundle : check (fun s : Session => negb (String.eqb (BundleID s) "")) (sessions (run recorded_run hub) !! "s1") = true.
Proof. evaluate. Qed.

Lemma recording_is_prefix_witness :
  exists s : Session, RecordingState s = "recording" /\
    recorded Minute [(5, typed 0 "who"); (6, shown 0 "ana")] s (record_all Minute [(5, typed 0 "who"); (6, shown 0 "ana")] s).
Proof.
  destruct (viewed _ _ _ recorded_view) as (s & _ & [= _ _ Hr _ _]). exists s. split; [done|].
  apply (recording_is_prefix Minute). by rewrite Hr.
Defined.

Lemma store_keeps_all e (s : Session) now : store_keeps marshal_frame e s now.
Proof.
  eexists _, _, _. split; [reflexivity|]. split; [reflexivity|]. cbn [item_ID]. split.
  - by destruct (BundleID s).
  - cbn [ReadItemData store_EvidenceStore item]. by rewrite String.eqb_refl.
Qed.

Lemma recorded_codec : Forall (codec_ok marshal_frame unmarshal_frame) [typed 0 "ls"; shown 0 "a b"].
Proof.
  apply Forall_cons. split; [|apply Forall_singleton]; (eexists; split; [reflexivity|]; split; [reflexivity|];
    split; [reflexivity|]; split; [reflexivity|]; by vm_compute).
Qed.

Lemma sealed_recording_read_witness :
  exists md, snd (GetSessionRecording unmarshal_grant unmarshal_frame "acme" "s1"
      (fst (SealSessionRecording unmarshal_grant marshal_frame "s1" 1 (run recorded_run hub))))
    = Ok (readable marshal_frame [typed 0 "ls"; shown 0 "a b"], md).
Proof.
  destruct (viewed _ _ _ recorded_view) as (s & Hs & [= Hid Ht Hr _ Hf]).
  destruct (checked _ _ recorded_bundle) as (s0 & Hs0 & Hb). assert (s0 = s) as -> by congruence.
  destruct (evidenceStore (run recorded_run hub)) as [e|] eqn:He; [|by vm_compute in He].
  rewrite <- Ht, <- Hf.
  apply (sealed_recording_read unmarshal_grant marshal_frame unmarshal_frame (run recorded_run hub) "s1" s e 1 Hs Hid He).
  - by rewrite Hr.
  - by apply negb_true_iff, String.eqb_neq in Hb.
  - rewrite Hf. exact recorded_codec.
  - apply store_keeps_all.
Defined.

Definition sealed_run : list (Z * Op) := recorded_run ++ [(1, OSeal "s1")].

Lemma sealed_view : view <$> sessions (run sealed_run hub) !! "s1" = Some ("s1", "acme", "sealed", 10485751, []).
Proof. evaluate. Qed.

Lemma late_frame_hides_recording_witness :
  exists md, snd (GetSessionRecording unmarshal_grant unmarshal_frame "acme" "s1"
      (fst (RecordFrame unmarshal_grant "s1" (shown 0 "late") 2 (run sealed_run hub))))
    = Ok ([shown 2 "late"], md).
Proof.
  destruct (viewed _ _ _ sealed_view) as (s & Hs & [= Hid Ht Hr Hm Hf]). rewrite <- Ht.
  apply (late_frame_hides_recording unmarshal_grant unmarshal_frame (run sealed_run hub) "s1" s (shown 0 "late") 2 Hs Hid Hr Hf);
    [done|]. change (frameCost (shown 0 "late")) with 68. lia.
Defined.

(** ** Attached sessions *)

Definition attached_run : list (Z * Op) := opened ++
  [(3, OAttachOperator false "s1" "op-token" (Some 1%nat)); (4, OAttachAgent "s1" "pc-1" "agent-token" (Some 2%nat))].

Definition operated (s : Session) : bool :=
  String.eqb (SessionID s) "s1" && live (State s) &&
  check (fun pr : Relay => negb (closed pr) && bool_decide (opConn pr <> None)) (relay s).

Lemma s1_operated : check operated (sessions (run attached_run hub) !! "s1") = true.
Proof. evaluate. Qed.

Lemma detach_keeps_shell_witness :
  exists s s' pr', sessions (run attached_run hub) !! "s1" = Some s /\
    sessions (detachAttachment false "s1" None (run attached_run hub)) !! "s1" = Some s' /\ relay s' = Some pr' /\
    live (State s') = true /\ opConn pr' = None /\ Frames s' = Frames s.
Proof.
  destruct (checked _ _ s1_operated) as (s & Hs & Ho). unfold operated in Ho.
  apply andb_true_iff in Ho as [[Hid%String.eqb_eq Hl]%andb_true_iff Hc].
  apply checked in Hc as (pr & Hpr & [Hcl%negb_true_iff Hop%bool_decide_eq_true_1]%andb_true_iff).
  destruct (detach_keeps_shell false "s1" None (run attached_run hub) s pr Hs Hid Hpr Hcl Hop Hl) as [_ Hd].
  destruct (Hd (or_introl eq_refl)) as (s' & pr' & H1 & H2 & H3 & _ & H5 & _ & _ & _ & _ & H10 & _).
  exists s, s', pr'. auto 6.
Defined.

(** A relay with an empty queue on each side. *)
Definition empty_relay : Relay :=
  newPairedRelay (new_session hash "s3" "agent-token" "op-token" "acme" "pc-1" "ana" "/bin/sh" None false Hour 0 hub) hub.

Definition after_push : option Relay := enqueue_for_agent (mkMsg TextMessage "ls" 66) empty_relay.

Lemma queues_bounded_witness :
  exists pr', after_push = Some pr' /\ gate_ok 100 (opQueue pr') (opToAgent pr').
Proof.
  assert (gate_ok 100 (opQueue empty_relay) (opToAgent empty_relay)) as H1
    by (split; [reflexivity|]; split; [by vm_compute|constructor]).
  assert (gate_ok 100 (agQueue empty_relay) (agentToOp empty_relay)) as H2
    by (split; [reflexivity|]; split; [by vm_compute|constructor]).
  destruct (queues_bounded 100 empty_relay ltac:(lia) H1 H2) as [Hq _].
  destruct after_push as [pr'|] eqn:He; [|by vm_compute in He].
  exists pr'. split; [reflexivity|].
  apply (Hq (mkMsg TextMessage "ls" 66) pr'); [|exact He]. cbn [msg_cost]. lia.
Defined.

Definition watching : Mgr * result string unit :=
  AttachWatcher unmarshal_grant false "s2" (Some 7%nat) 3 (run opened hub).

Lemma s2_watched : snd watching = Ok tt.
Proof. evaluate. Qed.

Lemma watchers_capped_witness :
  exists s pr k, sessions (fst watching) !! "s2" = Some s /\ relay s = Some pr /\
    KindFor (Program s) (fst watching) = Some k /\ Z.of_nat (length (watchers pr)) <= MaxWatchers k.
Proof.
  destruct (watchers_capped unmarshal_grant false "s2" (Some 7%nat) 3 (run opened hub) (fst watching) opened_Inv)
    as (s & pr & k & H1 & H2 & _ & H4 & H5 & _).
  - rewrite <- s2_watched. fold watching. apply surjective_pairing.
  - exists s, pr, k. auto.
Defined.

(** ** A busy operator swept away *)

(** A hub whose recordings hold 200 bytes, and a shell that printed more. *)
Definition small_hub : Mgr := SetMaxRecordingBytes 200 hub.

Definition long_output : string := String "o" (String.concat "" (repeat "0123456789" 20)).

Definition bounded_run : list (Z * Op) :=
  attached_run ++ [(5, OAgentMessage (fun _ => true) "s1" TextMessage long_output)].

Lemma bounded_view :
  (fun s : Session => (SessionID s, RecordingState s)) <$> sessions (run bounded_run small_hub) !! "s1" = Some ("s1", "bounded").
Proof. evaluate. Qed.

Lemma bounded_shell : get_pol "s1" (run bounded_run small_hub) = None.
Proof. evaluate. Qed.

(** The operator types at 14 minutes; the sweep at 16 minutes ends the
    session as idle. *)
Lemma bounded_input_is_idle_witness :
  operator_round unmarshal_grant marshal_frame unmarshal_frame "s1" TextMessage "ils" (14 * Minute) (run bounded_run small_hub)
    = (run bounded_run small_hub, Queue (frame_msg marshal_frame (typed (14 * Minute) "ls"))) /\
  (fun r => (r_state r, r_close_reason r)) <$>
    db (fst (sweepExpiredSessions (16 * Minute) (30 * Second) (run bounded_run small_hub))) !! "s1"
    = Some (StateExpired, Some "idle_timeout") /\
  idleTimeout small_hub = 15 * Minute.
Proof.
  split; [|split; [evaluate|reflexivity]].
  destruct (proj1 (fmap_Some _ _ _) bounded_view) as (s & Hs & [= Hid Hb]).
  exact (bounded_input_is_idle unmarshal_grant marshal_frame unmarshal_frame (run bounded_run small_hub) "s1" s
    TextMessage "ils" (mkFrame FrameStdin 0 "ls" 0 0) (14 * Minute) Hs (eq_sym Hid) (eq_sym Hb) bounded_shell eq_refl eq_refl).
Defined.

End terminal_example.
