(* ===== verification/Canonical.v ===== *)
(** * Signed bytes: the canonical encoding, grants and manifests

    [hub/pkg/response/canonical.go], the grant of [dto.go] and the profiles
    and manifests of [trust.go]: what an authority signs, what a hub checks,
    and that the signed bytes determine what they say. Hashes and signatures
    are parameters. *)

From Stdlib Require Import Ascii String.
From S2P Require Import Prelude NetIP.

Module canonical.

(** ** Hex *)

(** [hex.EncodeToString]. *)
Fixpoint hex_encode (s : string) : string :=
  match s with
  | EmptyString => EmptyString
  | String c s' =>
    String (hex_digit (byte_val c / 16)) (String (hex_digit (byte_val c mod 16)) (hex_encode s'))
  end.

Definition byte_of (v : Z) : ascii := ascii_of_N (Z.to_N (v mod 256)).

(** [hex.DecodeString]: an even number of hex digits of either case. *)
Fixpoint hex_decode (s : string) : option string :=
  match s with
  | EmptyString => Some EmptyString
  | String c (String d s') =>
    hi ← hex_val c; lo ← hex_val d; rest ← hex_decode s';
    Some (String (byte_of (16 * hi + lo)) rest)
  | _ => None
  end.

(** ** CanonicalEncoder *)

Fixpoint string_of_bytes (l : list Z) : string :=
  match l with
  | [] => EmptyString
  | b :: l' => String (byte_of b) (string_of_bytes l')
  end.

Definition uint32 (v : Z) : Z := v mod 2 ^ 32.
Definition uint64 (v : Z) : Z := v mod 2 ^ 64.

(** The encoder's state is the bytes written so far. *)
Definition WriteUint32 (v : Z) (buf : string) : string := (buf ++ string_of_bytes (bytes_be 4 (uint32 v)))%string.

Definition WriteInt64 (v : Z) (buf : string) : string := (buf ++ string_of_bytes (bytes_be 8 (uint64 v)))%string.

Definition WriteBytes (val buf : string) : string :=
  (WriteUint32 (Z.of_nat (String.length val)) buf ++ val)%string.

Definition WriteString (val buf : string) : string := WriteBytes val buf.

Definition NewCanonicalEncoder (domainTag : string) : string := WriteString domainTag EmptyString.

Section Encoder.
Context `{U : Unicode}.

Definition hex_normal (val : string) : string := ToLower (TrimSpace val).

Definition WriteHexNormalized (val buf : string) : string := WriteString (hex_normal val) buf.

Definition WriteStringSlice (slice : list string) (buf : string) : string :=
  fold_left (fun buf s => WriteString s buf) slice (WriteUint32 (Z.of_nat (length slice)) buf).

(** ** Grants *)

Definition GrantVersion : Z := 2.
Definition GrantVersionJob : Z := 3.

Definition OperatorNightshiftTap : string := "nightshift:tap".
Definition OperatorNightshiftAuto : string := "nightshift:auto".

Definition ActionKindForensicCollect : string := "forensic_collection".
Definition ActionKindScriptExec : string := "script_exec".
Definition ActionKindTerminalSession : string := "terminal_session".
Definition ActionKindScreenSession : string := "screen_session".

Record EndpointGrant : Type := mkGrant {
  Version : Z;
  GrantID : string;
  TenantID : string;
  EndpointID : string;
  ActionKind : string;
  ActionDigest : string;
  OperatorID : string;
  ResponseSessionID : string;
  IssuedAt : Z;
  ExpiresAt : Z;
  Nonce : string;
  JobID : string;
  SignerKeyID : string;
  Signature : string;
}.

Definition grant_CanonicalBytes (g : EndpointGrant) : string :=
  let tag := if Version g =? GrantVersionJob then "OMINULL-ENDPOINT-GRANT-V3" else "OMINULL-ENDPOINT-GRANT-V2" in
  let enc := NewCanonicalEncoder tag in
  let enc := WriteUint32 (Version g) enc in
  let enc := WriteString (GrantID g) enc in
  let enc := WriteString (TenantID g) enc in
  let enc := WriteString (EndpointID g) enc in
  let enc := WriteString (ActionKind g) enc in
  let enc := WriteHexNormalized (ActionDigest g) enc in
  let enc := WriteString (OperatorID g) enc in
  let enc := WriteString (ResponseSessionID g) enc in
  let enc := WriteInt64 (IssuedAt g) enc in
  let enc := WriteInt64 (ExpiresAt g) enc in
  let enc := WriteHexNormalized (Nonce g) enc in
  let enc := if Version g =? GrantVersionJob then WriteString (JobID g) enc else enc in
  WriteHexNormalized (SignerKeyID g) enc.

(** [checkVersion]: V2, or V3 naming its job. *)
Definition checkVersion (g : EndpointGrant) : result string unit :=
  if Version g =? GrantVersion then Ok tt
  else if Version g =? GrantVersionJob then
    guard_err (negb (String.eqb (JobID g) EmptyString)) "a V3 grant must name its job_id"%string
  else Err ("unsupported grant version: " ++ format_int (Version g))%string.

Definition HostAuthority (g : EndpointGrant) : bool :=
  (Version g =? GrantVersionJob)
  && (String.eqb (OperatorID g) OperatorNightshiftTap || String.eqb (OperatorID g) OperatorNightshiftAuto).

Definition offered_kind (kind : string) : bool :=
  String.eqb kind ActionKindForensicCollect || String.eqb kind ActionKindScriptExec
  || String.eqb kind ActionKindTerminalSession || String.eqb kind ActionKindScreenSession.

Definition SignatureSize : nat := 64.

Definition nonempty (s : string) : bool := negb (String.eqb s EmptyString).

Definition grant_Validate (g : EndpointGrant) : result string unit :=
  _ ← checkVersion g;
  _ ← guard_err (nonempty (GrantID g)) "missing grant_id"%string;
  _ ← guard_err (nonempty (TenantID g)) "missing tenant_id"%string;
  _ ← guard_err (nonempty (EndpointID g)) "missing endpoint_id"%string;
  _ ← guard_err (offered_kind (ActionKind g)) "unsupported action_kind"%string;
  _ ← guard_err (String.length (ActionDigest g) =? 64)%nat "invalid action_digest length"%string;
  _ ← guard_err (nonempty (OperatorID g)) "missing operator_id"%string;
  _ ← guard_err (nonempty (ResponseSessionID g) || HostAuthority g) "missing response_session_id"%string;
  _ ← guard_err ((0 <? IssuedAt g) && (0 <? ExpiresAt g) && (IssuedAt g <? ExpiresAt g))
        "invalid grant timestamp window"%string;
  _ ← guard_err (nonempty (Nonce g)) "missing nonce"%string;
  _ ← guard_err (String.length (SignerKeyID g) =? 64)%nat "invalid signer_key_id length"%string;
  guard_err (String.length (Signature g) =? 2 * SignatureSize)%nat "invalid signature length"%string.

(** Addition of [int64] values wraps around. *)
Definition int64_wrap (v : Z) : Z := (v + 2 ^ 63) mod 2 ^ 64 - 2 ^ 63.

(** SHA-256 and Ed25519. *)
Class Crypto := {
  sha256 : string -> string;
  ed25519_verify : string -> string -> string -> bool;
}.

Context `{K : Crypto}.

(** [Verify]; [now] is the Unix time in seconds. *)
Definition grant_Verify (pubKey : string) (now : Z) (g : EndpointGrant) : result string unit :=
  _ ← checkVersion g;
  _ ← guard_err (nonempty (GrantID g) && nonempty (TenantID g) && nonempty (EndpointID g))
        "missing required grant identifiers"%string;
  _ ← guard_err ((0 <? IssuedAt g) && (0 <? ExpiresAt g) && (IssuedAt g <=? ExpiresAt g))
        "invalid grant timestamp window"%string;
  _ ← guard_err (int64_wrap (IssuedAt g - 60) <=? now) "grant not yet valid"%string;
  _ ← guard_err (now <=? int64_wrap (ExpiresAt g + 60)) "grant has expired"%string;
  _ ← guard_err (EqualFold (SignerKeyID g) (hex_encode (sha256 pubKey))) "signer key id mismatch"%string;
  match hex_decode (Signature g) with
  | None => Err "invalid signature encoding"%string
  | Some sig =>
    _ ← guard_err (String.length sig =? SignatureSize)%nat "invalid signature length"%string;
    guard_err (ed25519_verify pubKey (grant_CanonicalBytes g) sig) "grant signature verification failed"%string
  end.

(** ** Capability profiles and manifests *)

Definition CapUpdate : string := "update".
Definition CapIsolate : string := "isolate".
Definition CapMesh : string := "mesh".
Definition CapCollect : string := "collect".
Definition CapTerminal : string := "terminal".
Definition CapScript : string := "script".
Definition CapScreen : string := "screen".

Definition profileCaps (profile : string) : option (list string) :=
  if String.eqb profile "monitor" then Some [CapUpdate]
  else if String.eqb profile "monitor-scripts" then Some [CapCollect; CapScript; CapUpdate]
  else if String.eqb profile "respond" then Some [CapCollect; CapIsolate; CapMesh; CapScreen; CapTerminal; CapUpdate]
  else if String.eqb profile "engagement" then
    Some [CapCollect; CapIsolate; CapMesh; CapScreen; CapScript; CapTerminal; CapUpdate]
  else None.

Definition ProfileCaps (profile : string) : option (list string) := sort_slice string_lt <$> profileCaps profile.

(** Ranging over the list of an unknown profile ranges over nothing. *)
Definition ProfileHas (profile capability : string) : bool :=
  existsb (String.eqb capability) (default [] (profileCaps profile)).

Definition ProfileNarrows (from to : string) : bool :=
  match profileCaps from, profileCaps to with
  | Some f, Some t => (length t <? length f)%nat && forallb (ProfileHas from) t
  | _, _ => false
  end.

Definition MonitorOnlyProfile (profile : string) : bool :=
  bool_decide (is_Some (profileCaps profile)) && negb (ProfileHas profile CapIsolate)
  && negb (ProfileHas profile CapMesh) && negb (ProfileHas profile CapTerminal) && negb (ProfileHas profile CapScreen).

Record CapabilityManifest : Type := mkManifest {
  cm_V : Z;
  cm_TenantID : string;
  cm_EndpointID : string;
  cm_Profile : string;
  cm_Caps : list string;
  cm_Seq : Z;
  cm_IssuedAt : Z;
  cm_SignerKeyID : string;
  cm_Signature : string;
}.

Definition MatchesProfile (m : CapabilityManifest) : bool :=
  match ProfileCaps (cm_Profile m) with
  | Some want => (length want =? length (cm_Caps m))%nat && bool_decide (sort_slice string_lt (cm_Caps m) = want)
  | None => false
  end.

Definition manifest_CanonicalBytes (m : CapabilityManifest) : string :=
  let enc := NewCanonicalEncoder "OMINULL-CAPABILITY-MANIFEST-V1" in
  let enc := WriteUint32 (cm_V m) enc in
  let enc := WriteString (cm_TenantID m) enc in
  let enc := WriteString (cm_EndpointID m) enc in
  let enc := WriteString (cm_Profile m) enc in
  let enc := WriteStringSlice (cm_Caps m) enc in
  let enc := WriteInt64 (cm_Seq m) enc in
  let enc := WriteInt64 (cm_IssuedAt m) enc in
  WriteHexNormalized (cm_SignerKeyID m) enc.

(** [sort.StringsAreSorted], and no capability twice in a row. *)
Fixpoint strings_sorted (l : list string) : bool :=
  match l with
  | x :: (y :: _) as l' => negb (string_lt y x) && strings_sorted l'
  | _ => true
  end.

Fixpoint no_repeat (l : list string) : bool :=
  match l with
  | x :: (y :: _) as l' => negb (String.eqb y x) && no_repeat l'
  | _ => true
  end.

Definition manifest_Verify (pub : string) (m : CapabilityManifest) : result string unit :=
  _ ← guard_err ((cm_V m =? 1) && (0 <? cm_Seq m) && nonempty (cm_EndpointID m)) "malformed capability manifest"%string;
  _ ← guard_err (strings_sorted (cm_Caps m)) "manifest capabilities must be sorted"%string;
  _ ← guard_err (no_repeat (cm_Caps m)) "manifest capabilities must be unique"%string;
  match hex_decode (cm_Signature m) with
  | None => Err "manifest signature unreadable"%string
  | Some sig =>
    _ ← guard_err (String.length sig =? SignatureSize)%nat "manifest signature unreadable"%string;
    guard_err (ed25519_verify pub (manifest_CanonicalBytes m) sig) "manifest signature does not verify"%string
  end.

(** [Has]: without a manifest only updates. *)
Definition manifest_Has (m : option CapabilityManifest) (c : string) : bool :=
  match m with
  | None => String.eqb c CapUpdate
  | Some m => existsb (fun x => String.eqb x c) (cm_Caps m)
  end.

(** ** Statements of the release key *)

Record TrustKeys : Type := mkTrustKeys {
  ResponseKey : string;
  AutoIsolateKey : string;
  PolicyKey : string;
  tk_TenantID : string;
  tk_Epoch : Z;
  BundleSig : string;
}.

Definition nl : string := String "010" EmptyString.

Definition TrustBundleStatement (k : TrustKeys) : string :=
  ("OMINULL-TRUST-BUNDLE-V1" ++ nl ++ "tenant=" ++ tk_TenantID k ++ nl ++ "epoch=" ++ format_int (tk_Epoch k) ++ nl
   ++ "response_key=" ++ ToLower (ResponseKey k) ++ nl ++ "auto_isolate_key=" ++ ToLower (AutoIsolateKey k) ++ nl
   ++ "policy_key=" ++ ToLower (PolicyKey k) ++ nl)%string.

Definition ReleaseStatement (pkg version sha256Hex : string) : string :=
  ("OMINULL-RELEASE-V1" ++ nl ++ "package=" ++ pkg ++ nl ++ "version=" ++ version ++ nl
   ++ "sha256=" ++ ToLower sha256Hex ++ nl)%string.

End Encoder.

End canonical.
