(* ===== verification/CanonicalProps.v ===== *)
(** * Signed bytes: what a signature says

    The canonical encoding is prefix free, so the signed bytes determine every
    signed field; a grant that verifies is one the authority issued; and the
    order of the capability profiles. *)

From Stdlib Require Import Ascii String.
From S2P Require Import Prelude NetIP Canonical.
Import canonical.

(** ** Strings *)

Lemma app_split (a a' x y : string) :
  String.length a = String.length a' -> (a ++ x = a' ++ y)%string -> a = a' /\ x = y.
Proof.
  revert a'. induction a as [|c a IH]; intros [|c' a'] Hl; try done.
  change (String c a ++ x)%string with (String c (a ++ x)).
  change (String c' a' ++ y)%string with (String c' (a' ++ y)).
  intros [= -> Heq]. apply IH in Heq as [-> ->]; [done|]. by injection Hl.
Qed.

(** ** Integers *)

Fixpoint bytes_of_string (s : string) : list Z :=
  match s with
  | EmptyString => []
  | String c s' => byte_val c :: bytes_of_string s'
  end.

Lemma byte_val_of b : 0 <= b < 256 -> byte_val (byte_of b) = b.
Proof.
  intros Hb. unfold byte_val, byte_of. rewrite Z.mod_small by lia.
  rewrite N_ascii_embedding by lia. lia.
Qed.

Lemma bytes_string_bytes l : Forall is_byte l -> bytes_of_string (string_of_bytes l) = l.
Proof. induction 1 as [|b l Hb Hl IH]; simpl; [done|]. by rewrite byte_val_of, IH by apply Hb. Qed.

Lemma bytes_be_bytes n v : Forall is_byte (bytes_be n v).
Proof. induction n; simpl; constructor; [|done]. apply Z.mod_pos_bound. lia. Qed.

Lemma length_string_of_bytes l : String.length (string_of_bytes l) = length l.
Proof. induction l; simpl; auto. Qed.

(** Writing a value of [n] bytes loses nothing and has a fixed width. *)
Lemma be_inj n a b x y :
  0 <= a < 2 ^ (8 * Z.of_nat n) -> 0 <= b < 2 ^ (8 * Z.of_nat n) ->
  (string_of_bytes (bytes_be n a) ++ x = string_of_bytes (bytes_be n b) ++ y)%string -> a = b /\ x = y.
Proof.
  intros Ha Hb Heq. apply app_split in Heq as [Heq ->]; [|by rewrite !length_string_of_bytes, !length_bytes_be].
  split; [|done]. apply (f_equal bytes_of_string) in Heq.
  rewrite !bytes_string_bytes in Heq by apply bytes_be_bytes. apply (f_equal from_be) in Heq.
  by rewrite !from_bytes_be, !Z.mod_small in Heq.
Qed.

Definition u32 (v : Z) : string := string_of_bytes (bytes_be 4 (uint32 v)).
Definition i64 (v : Z) : string := string_of_bytes (bytes_be 8 (uint64 v)).

Lemma u32_inj a b x y : (u32 a ++ x = u32 b ++ y)%string -> uint32 a = uint32 b /\ x = y.
Proof.
  apply be_inj; change (8 * Z.of_nat 4) with 32; unfold uint32; apply Z.mod_pos_bound; lia.
Qed.

Definition int64_ok (v : Z) : Prop := min_int64 <= v <= max_int64.

Lemma wrap_small v : min_int64 <= v <= max_int64 -> int64_wrap v = v.
Proof. unfold min_int64, max_int64, int64_wrap. intros V. rewrite Z.mod_small; lia. Qed.

Lemma uint64_inj a b : int64_ok a -> int64_ok b -> uint64 a = uint64 b -> a = b.
Proof.
  unfold int64_ok, min_int64, max_int64, uint64. intros Ha Hb Heq.
  assert (forall v, - 2 ^ 63 <= v <= 2 ^ 63 - 1 -> v = (v mod 2 ^ 64 + 2 ^ 63) mod 2 ^ 64 - 2 ^ 63) as Hv.
  { intros v Hv. rewrite Z.add_mod_idemp_l by lia. rewrite Z.mod_small by lia. lia. }
  rewrite (Hv a Ha), (Hv b Hb). by rewrite Heq.
Qed.

Lemma i64_inj a b x y :
  int64_ok a -> int64_ok b -> (i64 a ++ x = i64 b ++ y)%string -> a = b /\ x = y.
Proof.
  intros Ha Hb Heq. apply be_inj in Heq as [Heq ->];
    [split; [by apply uint64_inj|done]|..]; change (8 * Z.of_nat 8) with 64; unfold uint64; apply Z.mod_pos_bound; lia.
Qed.

(** ** Fields *)

(** A length-prefixed field, and what a prefix of 32 bits can hold. *)
Definition field (s : string) : string := (u32 (Z.of_nat (String.length s)) ++ s)%string.

Definition fits (s : string) : Prop := Z.of_nat (String.length s) < 2 ^ 32.

Lemma field_inj s t x y : fits s -> fits t -> (field s ++ x = field t ++ y)%string -> s = t /\ x = y.
Proof.
  unfold field, fits. intros Hs Ht. rewrite !app_assoc_str. intros [Hl Heq]%u32_inj.
  unfold uint32 in Hl. rewrite !Z.mod_small in Hl by lia. apply app_split in Heq; [done|lia].
Qed.

Lemma write_u32 v buf : WriteUint32 v buf = (buf ++ u32 v)%string.
Proof. done. Qed.

Lemma write_i64 v buf : WriteInt64 v buf = (buf ++ i64 v)%string.
Proof. done. Qed.

Lemma write_field v buf : WriteString v buf = (buf ++ field v)%string.
Proof. apply app_assoc_str. Qed.

Lemma new_encoder tag : NewCanonicalEncoder tag = field tag.
Proof. apply write_field. Qed.

Definition fields (l : list string) : string := fold_right (fun s r => (field s ++ r)%string) EmptyString l.

Lemma write_slice l buf : WriteStringSlice l buf = (buf ++ (u32 (Z.of_nat (length l)) ++ fields l))%string.
Proof.
  unfold WriteStringSlice. rewrite write_u32, <- app_assoc_str.
  generalize (buf ++ u32 (Z.of_nat (length l)))%string as b. induction l as [|s l IH]; intros b; simpl.
  - by rewrite string_app_nil.
  - rewrite IH, write_field, app_assoc_str. done.
Qed.

#[local] Opaque u32 i64 field.

Create HintDb canonical.
#[export] Hint Rewrite @write_u32 @write_i64 @write_field @new_encoder @write_slice app_assoc_str : canonical.

(** Takes one field off both sides of an equation of encodings. *)
Ltac peel H :=
  let E := fresh "E" in
  lazymatch type of H with
  | (u32 _ ++ _)%string = _ => apply u32_inj in H as [E H]
  | (i64 _ ++ _)%string = _ => apply i64_inj in H as [E H]; [|assumption|assumption]
  | (field _ ++ _)%string = _ => apply field_inj in H as [E H]; [|assumption|assumption]
  end.

(** ** Hex *)

Lemma hex_byte c :
  hex_val (hex_digit (byte_val c / 16)) = Some (byte_val c / 16)
  /\ hex_val (hex_digit (byte_val c mod 16)) = Some (byte_val c mod 16)
  /\ byte_of (16 * (byte_val c / 16) + byte_val c mod 16) = c.
Proof. destruct c as [[] [] [] [] [] [] [] []]; vm_compute; done. Qed.

Lemma hex_decode_encode s : hex_decode (hex_encode s) = Some s.
Proof.
  induction s as [|c s IH]; [done|]. cbn [hex_encode hex_decode]. destruct (hex_byte c) as (H1 & H2 & H3).
  rewrite H1, H2, IH. cbn [mbind option_bind]. by rewrite H3.
Qed.

Lemma hex_plain s : string_forallb plain_byte (hex_encode s) = true.
Proof. induction s as [|c s IH]; [done|]. cbn [hex_encode string_forallb]. rewrite IH. by destruct c as [[] [] [] [] [] [] [] []]. Qed.

(** ** Grants *)

Section Grants.
Context `{U : Unicode} `{K : Crypto}.

(** The fields of a grant are representable: Go's [int64] and lengths that a
    32-bit prefix holds. *)
Record grant_fits (g : EndpointGrant) : Prop := {
  gf_issued : int64_ok (IssuedAt g);
  gf_expires : int64_ok (ExpiresAt g);
  gf_strings : Forall fits
    [GrantID g; TenantID g; EndpointID g; ActionKind g; hex_normal (ActionDigest g); OperatorID g;
     ResponseSessionID g; hex_normal (Nonce g); JobID g; hex_normal (SignerKeyID g)];
}.

(** The same authorization: every signed field agrees, hexadecimal ones up to
    case and surrounding space. *)
Record same_grant (g g' : EndpointGrant) : Prop := {
  sg_Version : Version g = Version g';
  sg_GrantID : GrantID g = GrantID g';
  sg_TenantID : TenantID g = TenantID g';
  sg_EndpointID : EndpointID g = EndpointID g';
  sg_ActionKind : ActionKind g = ActionKind g';
  sg_ActionDigest : hex_normal (ActionDigest g) = hex_normal (ActionDigest g');
  sg_OperatorID : OperatorID g = OperatorID g';
  sg_ResponseSessionID : ResponseSessionID g = ResponseSessionID g';
  sg_IssuedAt : IssuedAt g = IssuedAt g';
  sg_ExpiresAt : ExpiresAt g = ExpiresAt g';
  sg_Nonce : hex_normal (Nonce g) = hex_normal (Nonce g');
  sg_JobID : Version g = GrantVersionJob -> JobID g = JobID g';
  sg_SignerKeyID : hex_normal (SignerKeyID g) = hex_normal (SignerKeyID g');
}.

Lemma version_known g u : checkVersion g = Ok u -> Version g = GrantVersion \/ Version g = GrantVersionJob.
Proof. unfold checkVersion. repeat case_match; try done; bools; auto. Qed.

Definition grant_tag (v : Z) : string :=
  if v =? GrantVersionJob then "OMINULL-ENDPOINT-GRANT-V3" else "OMINULL-ENDPOINT-GRANT-V2".

Definition grant_body (g : EndpointGrant) : string :=
  (u32 (Version g) ++ (field (GrantID g) ++ (field (TenantID g) ++ (field (EndpointID g) ++ (field (ActionKind g) ++
   (field (hex_normal (ActionDigest g)) ++ (field (OperatorID g) ++ (field (ResponseSessionID g) ++
   (i64 (IssuedAt g) ++ (i64 (ExpiresAt g) ++ (field (hex_normal (Nonce g)) ++
   ((if (Version g =? GrantVersionJob)%Z then field (JobID g) else EmptyString) ++
   field (hex_normal (SignerKeyID g))))))))))))))%string.

Lemma grant_bytes g : grant_CanonicalBytes g = (field (grant_tag (Version g)) ++ grant_body g)%string.
Proof.
  unfold grant_CanonicalBytes, grant_body, WriteHexNormalized. fold (grant_tag (Version g)).
  destruct (Version g =? GrantVersionJob); autorewrite with canonical; done.
Qed.

Lemma tag_fits v : fits (grant_tag v).
Proof. unfold grant_tag. by case_match; vm_compute. Qed.

(** The signed bytes of a grant determine it. *)
Lemma grant_bytes_inj g g' u u' :
  grant_fits g -> grant_fits g' -> checkVersion g = Ok u -> checkVersion g' = Ok u' ->
  grant_CanonicalBytes g = grant_CanonicalBytes g' -> same_grant g g'.
Proof.
  intros [Hi He Hs] [Hi' He' Hs'] Hv Hv'. rewrite !grant_bytes. intros Heq.
  apply field_inj in Heq as [_ Heq]; [|apply tag_fits..]. unfold grant_body in Heq.
  repeat match goal with HF : Forall _ (_ :: _) |- _ => apply Forall_cons in HF as [? HF] end. clear Hs Hs'.
  apply u32_inj in Heq as [HV Heq].
  assert (Version g = Version g') as EV
    by (apply version_known in Hv as [Hv|Hv], Hv' as [Hv'|Hv']; rewrite Hv, Hv' in *; try reflexivity; discriminate HV).
  rewrite <- EV in Heq. do 10 peel Heq.
  assert ((Version g = GrantVersionJob -> JobID g = JobID g') /\
          field (hex_normal (SignerKeyID g)) = field (hex_normal (SignerKeyID g'))) as [HJ HK].
  { destruct (Z.eqb_spec (Version g) GrantVersionJob) as [Hj|Hj]; [peel Heq; auto|split; [contradiction|exact Heq]]. }
  rewrite <- (string_app_nil (field (hex_normal (SignerKeyID g)))), <- (string_app_nil (field (hex_normal (SignerKeyID g')))) in HK.
  apply field_inj in HK as [HK _]; [|assumption..]. constructor; assumption.
Qed.

(** Bytes under two different labels differ. *)
Lemma manifest_not_grant m g : manifest_CanonicalBytes m <> grant_CanonicalBytes g.
Proof.
  unfold manifest_CanonicalBytes, WriteHexNormalized. rewrite grant_bytes. autorewrite with canonical.
  intros Heq. apply field_inj in Heq as [Heq _]; [|by vm_compute|apply tag_fits].
  unfold grant_tag in Heq. case_match; discriminate.
Qed.

(** The clock window of a verified grant, free of wrap-around. *)
Lemma window_ok g now :
  grant_fits g -> 0 < IssuedAt g -> 0 < ExpiresAt g ->
  int64_wrap (IssuedAt g - 60) <= now -> now <= int64_wrap (ExpiresAt g + 60) ->
  IssuedAt g - 60 <= now <= ExpiresAt g + 60.
Proof.
  intros [Hi He _]. unfold int64_ok, min_int64, max_int64, int64_wrap in *.
  intros H1 H2. rewrite (Z.mod_small (IssuedAt g - 60 + 2 ^ 63)) by lia. intros H3 H4. split; [lia|].
  destruct (Z_le_gt_dec (ExpiresAt g + 60) (2 ^ 63 - 1)) as [Hs|Hs].
  - rewrite Z.mod_small in H4 by lia. lia.
  - pose proof (Z.mod_pos_bound (ExpiresAt g + 60 + 2 ^ 63) (2 ^ 64)). lia.
Qed.

(** C11: a grant that verifies is one the authority issued. If signatures
    cannot be forged and the key signs nothing but issued grants and
    manifests, every field of the grant that says who may do what, where, in
    which session and for which job is the issued one, and the clock is
    within a minute of its window, whatever 64-bit times it carries. *)
Theorem verified_grant_issued (issued : EndpointGrant -> Prop) pub now g u :
  (forall msg sig, ed25519_verify pub msg sig = true ->
     (exists g0, issued g0 /\ msg = grant_CanonicalBytes g0) \/ (exists m, msg = manifest_CanonicalBytes m)) ->
  (forall g0, issued g0 -> grant_fits g0 /\ checkVersion g0 = Ok tt) ->
  grant_fits g ->
  grant_Verify pub now g = Ok u ->
  (exists g0, issued g0 /\ same_grant g0 g) /\
  IssuedAt g - 60 <= now <= ExpiresAt g + 60 /\
  EqualFold (SignerKeyID g) (hex_encode (sha256 pub)) = true.
Proof.
  intros Hsig Hiss Hfit Hv. unfold grant_Verify in Hv. inv_ok Hv.
  destruct (hex_decode (Signature g)) as [sig|]; [|done]. inv_ok Hv.
  apply guard_err_Ok in Hv. bools. split; [|split].
  - apply Hsig in Hv as [(g0 & Hg0 & Heq)|(m & Heq)]; [|by apply eq_sym, manifest_not_grant in Heq].
    exists g0. split; [done|]. destruct (Hiss g0 Hg0) as [Hf0 Hv0]. symmetry in Heq.
    eapply grant_bytes_inj; eassumption.
  - by apply window_ok.
  - assumption.
Qed.

End Grants.

(** ** Profiles *)

Lemma profile_nodup p l : profileCaps p = Some l -> NoDup l.
Proof. unfold profileCaps. repeat case_match; intros [= <-]; apply (bool_decide_unpack _); by vm_compute. Qed.

Lemma profile_has p l c : profileCaps p = Some l -> ProfileHas p c = true <-> c ∈ l.
Proof.
  intros Hp. unfold ProfileHas. rewrite Hp. simpl. rewrite existsb_exists. split.
  - intros (x & Hx & ->%String.eqb_eq). by apply list_elem_of_In.
  - intros Hc. exists c. split; [by apply list_elem_of_In|apply String.eqb_refl].
Qed.

(** [ProfileNarrows] is exactly the strict inclusion of capability sets
    between known profiles. *)
Theorem narrows_strict_subset from to :
  ProfileNarrows from to = true <->
  exists f t, profileCaps from = Some f /\ profileCaps to = Some t /\
    (forall c, c ∈ t -> c ∈ f) /\ exists c, c ∈ f /\ c ∉ t.
Proof.
  unfold ProfileNarrows. destruct (profileCaps from) as [f|] eqn:Hf; [|naive_solver].
  destruct (profileCaps to) as [t|] eqn:Ht; [|naive_solver]. split.
  - intros [Hl Ha]%andb_true_iff. apply Nat.ltb_lt in Hl. rewrite forallb_forall in Ha.
    assert (forall c, c ∈ t -> c ∈ f) as Hsub
      by (intros c Hc; apply (profile_has from f c Hf), Ha; by apply list_elem_of_In).
    exists f, t. split; [done|]. split; [done|]. split; [done|].
    destruct (decide (Forall (fun c => c ∈ t) f)) as [Hall|Hnot].
    + exfalso. rewrite Forall_forall in Hall.
      assert (length f <= length t)%nat; [|lia].
      apply submseteq_length, NoDup_submseteq; [by eapply profile_nodup|done].
    + apply not_Forall_Exists in Hnot; [|apply _]. by apply Exists_exists in Hnot.
  - intros (f' & t' & [= <-] & [= <-] & Hsub & c & Hc & Hnc). apply andb_true_iff. split.
    + apply Nat.ltb_lt. assert (length (c :: t) <= length f)%nat; [|simpl in *; lia].
      apply submseteq_length, NoDup_submseteq.
      * constructor; [done|by eapply profile_nodup].
      * intros x [->|Hx]%elem_of_cons; auto.
    + apply forallb_forall. intros x Hx. apply (profile_has from f x Hf), Hsub. by apply list_elem_of_In.
Qed.

(** ** A signed grant *)

Module canonical_example.

#[local] Existing Instance ascii_only.

Definition zeros (n : nat) : string := String.concat EmptyString (repeat "0"%string n).

Definition grant (signature : string) : EndpointGrant :=
  mkGrant 3 "grant-1" "acme" "pc-1" ActionKindScriptExec (zeros 64) "ana" "session-1" 1000 2000 "0a" "job-1" "4b" signature.

(** One key, whose only signature is over the grant. *)
Definition one_signature : Crypto :=
  {| sha256 := fun _ => "K"%string;
     ed25519_verify := fun pub msg sig => String.eqb msg (grant_CanonicalBytes (grant EmptyString)) |}.

#[local] Existing Instance one_signature.

Lemma grant_example_fits s : grant_fits (grant s).
Proof.
  constructor; [split; by vm_compute..|]. repeat (apply Forall_cons; split; [by vm_compute|]). constructor.
Qed.

Lemma verified_grant_issued_witness :
  same_grant (grant EmptyString) (grant (zeros 128)) /\
  IssuedAt (grant (zeros 128)) - 60 <= 1500 <= ExpiresAt (grant (zeros 128)) + 60.
Proof.
  destruct (verified_grant_issued (fun g => g = grant EmptyString) "key" 1500 (grant (zeros 128)) tt)
    as ((g0 & -> & Hsame) & Hw & _).
  - intros msg sig Hv. left. exists (grant EmptyString). split; [reflexivity|]. by apply String.eqb_eq in Hv.
  - intros g0 ->. split; [apply grant_example_fits|reflexivity].
  - apply grant_example_fits.
  - vm_compute. reflexivity.
  - split; assumption.
Defined.

End canonical_example.
