(* ===== verification/RoutineKeys.v ===== *)
(** * Routine release keys

    [hub/pkg/response/routine_keys.go]: the keys line of the statement a
    release key signs, its strict parser, and the choice of the key a release
    signature verifies with. *)

From Stdlib Require Import Ascii String.
From S2P Require Import Prelude NetIP Canonical CanonicalProps.
Import canonical.

Module routine.

Definition RoutineKeysMax : nat := 4.

(** [^[0-9a-f]{n}$]. *)
Definition is_lower_hex (c : ascii) : bool := in_range 48 57 (byte_val c) || in_range 97 102 (byte_val c).

Definition lower_hex (n : nat) (s : string) : bool := (String.length s =? n)%nat && string_forallb is_lower_hex s.

Record RoutineKey : Type := mkKey { ID : string; XY : string }.

(** ** P-256 *)

Definition p256 : Z := 2 ^ 256 - 2 ^ 224 + 2 ^ 192 + 2 ^ 96 - 1.
Definition p256_b : Z := 0x5ac635d8aa3a93e7b3ebbd55769886bc651d06b0cc53b0f63bce3c3e27d2604b.

(** [elliptic.P256().IsOnCurve]: affine coordinates of a point. *)
Definition on_p256 (x y : Z) : bool :=
  (x <? p256) && (y <? p256) && ((y * y) mod p256 =? (x * x * x - 3 * x + p256_b) mod p256).

Definition int_of_bytes (s : string) : Z := from_be (bytes_of_string s).

Definition routinePublicKey (xy : string) : result string (Z * Z) :=
  match hex_decode xy with
  | None => Err "not a P-256 point"%string
  | Some raw =>
    if negb (String.length raw =? 64)%nat then Err "not a P-256 point"%string else
    let x := int_of_bytes (string_take 32 raw) in
    let y := int_of_bytes (string_drop 32 raw) in
    if on_p256 x y then Ok (x, y) else Err "not a point on P-256"%string
  end.

(** ** The keys line *)

Definition entry (k : RoutineKey) : string := (ID k ++ ":" ++ XY k)%string.

Definition by_id (l : list RoutineKey) : list RoutineKey := sort_slice (fun a b => string_lt (ID a) (ID b)) l.

(** The loop over the sorted keys; [prev] is the id before. *)
Fixpoint format_keys (prev : option string) (l : list RoutineKey) : result string (list string) :=
  match l with
  | [] => Ok []
  | k :: l' =>
    _ ← guard_err (lower_hex 16 (ID k) && lower_hex 128 (XY k)) "routine key: id is 16 lower-case hex, the key 128"%string;
    _ ← guard_err (negb (bool_decide (prev = Some (ID k)))) "routine key listed twice"%string;
    _ ← routinePublicKey (XY k);
    rest ← format_keys (Some (ID k)) l';
    Ok (entry k :: rest)
  end.

Definition FormatRoutineKeyList (keys : list RoutineKey) : result string string :=
  if (RoutineKeysMax <? length keys)%nat then Err "at most 4 routine keys"%string else
  parts ← format_keys None (by_id keys);
  Ok (join "," parts).

(** [strings.Cut(e, ":")]. *)
Definition cut_entry (e : string) : option RoutineKey :=
  i ← index_byte ":" e; Some (mkKey (string_take i e) (string_drop (S i) e)).

Definition ParseRoutineKeyList (line : string) : result string (list RoutineKey) :=
  if String.eqb line EmptyString then Ok [] else
  match mapM cut_entry (split_byte "," line) with
  | None => Err "routine key entry is id:xy"%string
  | Some keys =>
    again ← FormatRoutineKeyList keys;
    if String.eqb again line then Ok keys else Err "routine keys must be sorted by id, without spaces"%string
  end.

Definition RoutineKeysStatement (epoch : Z) (keysLine : string) : result string string :=
  if epoch <? 1 then Err "the routine keys epoch starts at 1"%string else
  _ ← ParseRoutineKeyList keysLine;
  Ok ("OMINULL-ROUTINE-KEYS-V1" ++ nl ++ "epoch=" ++ format_int epoch ++ nl ++ "keys=" ++ keysLine ++ nl)%string.

(** ** Signatures *)

Record RoutineKeys : Type := mkKeys { Epoch : Z; Keys : string; Sig : string }.

(** Base64, PEM keys and ECDSA are parameters. *)
Class ReleaseCrypto := {
  base64_decode : string -> option string;
  key_pem : string -> string;
  VerifyReleaseSignature : string -> string -> string -> bool;
}.

Section Signatures.
Context `{R : ReleaseCrypto}.

Definition VerifyRoutineKeys (releasePEM : string) (rk : option RoutineKeys) : result string (list RoutineKey) :=
  match rk with
  | None => Ok []
  | Some rk =>
    stmt ← RoutineKeysStatement (Epoch rk) (Keys rk);
    match base64_decode (Sig rk) with
    | None => Err "routine keys signature is not base64 DER"%string
    | Some der =>
      if (String.length der =? 0)%nat || (80 <? String.length der)%nat
      then Err "routine keys signature is not base64 DER"%string
      else if VerifyReleaseSignature releasePEM stmt der then ParseRoutineKeyList (Keys rk)
      else Err "routine keys are not signed by the release key"%string
    end
  end.

Definition RoutineKeyPEM (xy : string) : result string string :=
  _ ← routinePublicKey xy; Ok (key_pem xy).

Fixpoint first_routine (routine : list RoutineKey) (msg der : string) : result string string :=
  match routine with
  | [] => Err "signature verifies with neither the release key nor a routine key"%string
  | k :: rest =>
    match RoutineKeyPEM (XY k) with
    | Ok pem => if VerifyReleaseSignature pem msg der then Ok ("routine:" ++ ID k)%string else first_routine rest msg der
    | Err _ => first_routine rest msg der
    end
  end.

Definition VerifyReleaseWithRoutine (releasePEM : string) (routine : list RoutineKey) (msg der : string)
    : result string string :=
  if VerifyReleaseSignature releasePEM msg der then Ok "release"%string else first_routine routine msg der.

End Signatures.

(** ** Sorting by id *)

Lemma string_lt_le s t : negb (string_lt t s) <-> String.le s t.
Proof.
  unfold string_lt, String.ltb, String.le, String.leb. rewrite (String.compare_antisym s t).
  destruct (String.compare t s); simpl; split; done.
Qed.

Definition id_le (a b : RoutineKey) : Prop := negb (string_lt (ID b) (ID a)).

#[export] Instance id_le_trans : Transitive id_le.
Proof. intros a b c. unfold id_le. rewrite !string_lt_le. apply transitivity. Qed.

#[export] Instance id_le_total : Total id_le.
Proof. intros a b. unfold id_le. rewrite !string_lt_le. apply String.le_total. Qed.

Lemma by_id_sorted l : StronglySorted id_le (by_id l).
Proof. unfold by_id, sort_slice. apply StronglySorted_merge_sort; apply _. Qed.

(** Sorting again keys that are sorted and have distinct ids does nothing. *)
Lemma by_id_idem l :
  NoDup (map ID l) -> by_id (by_id l) = by_id l.
Proof.
  intros Hnd. apply (StronglySorted_unique_strong id_le); [|apply by_id_sorted..|apply sort_slice_perm].
  intros a b Ha Hb Hab Hba. unfold id_le in *. rewrite string_lt_le in Hab, Hba.
  assert (ID a = ID b) as HID by (by apply (anti_symm String.le)).
  unfold by_id in Ha, Hb. rewrite !sort_slice_perm in Ha. rewrite sort_slice_perm in Hb.
  apply list_elem_of_lookup in Ha as [i Hi], Hb as [j Hj].
  assert (i = j) as ->; [|congruence]. apply (NoDup_lookup (ID <$> l) i j (ID a) Hnd);
    rewrite list_lookup_fmap, ?Hi, ?Hj; simpl; congruence.
Qed.

(** ** What the loop checks *)

(** The ids of a formatted list are strictly ascending. *)
Lemma format_keys_checks prev l parts :
  format_keys prev l = Ok parts -> StronglySorted id_le l ->
  (forall i, prev = Some i -> Forall (fun k => String.le i (ID k)) l) ->
  parts = map entry l /\ NoDup (map ID l) /\ (forall i, prev = Some i -> i ∉ map ID l) /\
  Forall (fun k => lower_hex 16 (ID k) = true /\ lower_hex 128 (XY k) = true) l.
Proof.
  revert prev parts. induction l as [|k l IH]; intros prev parts Hf Hs Hp; cbn [format_keys] in Hf.
  { injection Hf as <-. split; [done|]. split; [constructor|]. split; [intros i _; apply not_elem_of_nil|constructor]. }
  inv_ok Hf. injection Hf as <-. apply StronglySorted_inv in Hs as [Hs Hk].
  destruct (IH _ _ Hok2 Hs) as (-> & Hnd & Hnot & Hhex).
  { intros i [= <-]. eapply Forall_impl; [exact Hk|]. intros k' Hk'. by apply string_lt_le. }
  bools. split; [done|]. split; [|split].
  - simpl. constructor; [by apply Hnot|done].
  - intros i ->. simpl. rewrite not_elem_of_cons. split; [congruence|]. intros Hin.
    specialize (Hp i eq_refl). apply Forall_cons in Hp as [Hik Hp].
    apply list_elem_of_fmap in Hin as (k' & -> & Hk').
    rewrite Forall_forall in Hk. specialize (Hk k' Hk'). unfold id_le in Hk. rewrite string_lt_le in Hk.
    assert (ID k = ID k') by (by apply (anti_symm String.le)). congruence.
  - constructor; [done|exact Hhex].
Qed.

Lemma index_byte_app c s t : no_byte c s = true -> index_byte c (s ++ String c t)%string = Some (String.length s).
Proof.
  induction s as [|d s IH]; intros Hs.
  - change (EmptyString ++ String c t)%string with (String c t). cbn [index_byte]. by rewrite Ascii.eqb_refl.
  - change (String d s ++ String c t)%string with (String d (s ++ String c t)).
    unfold no_byte in Hs. cbn [string_forallb] in Hs. bools. cbn [index_byte].
    match goal with H : Ascii.eqb c d = false |- _ => rewrite H end. by rewrite IH.
Qed.

Lemma take_app s t : string_take (String.length s) (s ++ t)%string = s.
Proof.
  induction s as [|d s IH]; [by destruct t|].
  change (String d s ++ t)%string with (String d (s ++ t)). cbn [String.length string_take]. by rewrite IH.
Qed.

Lemma drop_app s t : string_drop (String.length s) (s ++ t)%string = t.
Proof.
  induction s as [|d s IH]; [by destruct t|].
  change (String d s ++ t)%string with (String d (s ++ t)). cbn [String.length string_drop]. by rewrite IH.
Qed.

Lemma drop_S n d s : string_drop (S n) (String d s) = string_drop n s.
Proof. done. Qed.

Lemma drop_drop n s : string_drop (S n) s = string_drop 1 (string_drop n s).
Proof. revert s. induction n as [|n IH]; intros [|d s]; try done. rewrite !drop_S. apply IH. Qed.

Lemma cut_entry_ok k : no_byte ":" (ID k) = true -> cut_entry (entry k) = Some k.
Proof.
  intros Hk. unfold cut_entry, entry. change (":" ++ XY k)%string with (String ":" (XY k)).
  rewrite index_byte_app by done. cbn [mbind option_bind]. rewrite take_app, drop_drop, drop_app.
  destruct k as [i xy]. by destruct xy.
Qed.

(** Lower-case hex holds neither separator. *)
Lemma lower_hex_no n c s : is_lower_hex c = false -> lower_hex n s = true -> no_byte c s = true.
Proof.
  unfold lower_hex, no_byte. intros Hc [_ Hs]%andb_true_iff. induction s as [|d s IH]; [done|].
  cbn [string_forallb] in *. apply andb_true_iff in Hs as [Hd Hs]. rewrite IH by done. rewrite andb_true_r.
  destruct (Ascii.eqb_spec c d) as [->|]; [congruence|done].
Qed.

Lemma no_byte_app c s t : no_byte c (s ++ t)%string = no_byte c s && no_byte c t.
Proof.
  induction s as [|d s IH]; [done|]. change (String d s ++ t)%string with (String d (s ++ t)).
  unfold no_byte in *. cbn [string_forallb]. rewrite IH. by rewrite andb_assoc.
Qed.

Lemma entry_no_comma k :
  lower_hex 16 (ID k) = true -> lower_hex 128 (XY k) = true -> no_byte "," (entry k) = true.
Proof.
  intros H1 H2. unfold entry. rewrite !no_byte_app.
  by rewrite (lower_hex_no 16 "," _ eq_refl H1), (lower_hex_no 128 "," _ eq_refl H2).
Qed.

(** ** Round trip *)

Lemma format_inv keys line :
  FormatRoutineKeyList keys = Ok line ->
  (length keys <= RoutineKeysMax)%nat /\ line = join "," (map entry (by_id keys)) /\ NoDup (map ID keys) /\
  Forall (fun k => lower_hex 16 (ID k) = true /\ lower_hex 128 (XY k) = true) (by_id keys).
Proof.
  unfold FormatRoutineKeyList. case_match eqn:Hl; [done|]. apply Nat.ltb_ge in Hl. intros Hf. inv_ok Hf.
  injection Hf as <-. destruct (format_keys_checks None (by_id keys) x Hok) as (-> & Hnd & _ & Hhex);
    [apply by_id_sorted|done|].
  split; [done|]. split; [done|]. split; [|done].
  assert (map ID (by_id keys) ≡ₚ map ID keys) as <-; [|done]. apply Permutation_map, sort_slice_perm.
Qed.

Lemma entry_nonempty k l : join "," (map entry (k :: l)) <> EmptyString.
Proof.
  assert (entry k <> EmptyString) as Hk by (unfold entry; by destruct (ID k)).
  destruct l as [|k' l]; [done|]. change (map entry (k :: k' :: l)) with (entry k :: map entry (k' :: l)).
  intros Hj. change (join "," (entry k :: map entry (k' :: l)))
    with (entry k ++ "," ++ join "," (map entry (k' :: l)))%string in Hj. by destruct (entry k).
Qed.

Lemma mapM_cut l :
  Forall (fun k => lower_hex 16 (ID k) = true /\ lower_hex 128 (XY k) = true) l -> mapM cut_entry (map entry l) = Some l.
Proof.
  induction 1 as [|k l [H1 _] Hl IH]; [done|]. cbn [map mapM].
  rewrite cut_entry_ok by (by eapply lower_hex_no). simpl. by rewrite IH.
Qed.

Lemma parse_format keys line : ParseRoutineKeyList line = Ok keys -> FormatRoutineKeyList keys = Ok line.
Proof.
  unfold ParseRoutineKeyList. destruct (String.eqb_spec line EmptyString) as [->|_]; [by intros [= <-]|].
  destruct (mapM cut_entry (split_byte "," line)) as [l|]; [|done]. intros Hp. inv_ok Hp.
  destruct (String.eqb_spec x line) as [->|]; [|done]. by injection Hp as <-.
Qed.

(** The keys line and its parser are inverse. What [FormatRoutineKeyList]
    makes of a list of keys parses to these keys in the order of their ids,
    and every line the parser accepts is the one the formatter makes of the
    keys it returns: a signed line has one reading. *)
Theorem routine_list_roundtrip keys line :
  (FormatRoutineKeyList keys = Ok line -> ParseRoutineKeyList line = Ok (by_id keys)) /\
  (ParseRoutineKeyList line = Ok keys -> FormatRoutineKeyList keys = Ok line).
Proof.
  split.
  - intros Hf. pose proof Hf as (Hlen & -> & Hnd & Hhex)%format_inv. unfold ParseRoutineKeyList.
    destruct (by_id keys) as [|k l] eqn:Hs; [done|].
    rewrite (proj2 (String.eqb_neq _ _) (entry_nonempty k l)), split_join.
    2: done.
    2: { apply Forall_map. eapply Forall_impl; [exact Hhex|]. intros x [H1 H2]. by apply entry_no_comma. }
    rewrite mapM_cut by done.
    assert (FormatRoutineKeyList (k :: l) = FormatRoutineKeyList keys) as ->.
    { unfold FormatRoutineKeyList. rewrite <- Hs, by_id_idem by done.
      by rewrite (Permutation_length (sort_slice_perm _ keys : by_id keys ≡ₚ keys)). }
    rewrite Hf. simpl. by rewrite String.eqb_refl.
  - apply parse_format.
Qed.

(** ** The signed statement *)

Lemma no_byte_pretty_go c x s : is_digit c = false -> no_byte c (pretty_N_go x s) = no_byte c s.
Proof.
  intros Hc. revert s. induction x as [x IH] using (well_founded_ind N.lt_wf_0). intros s.
  destruct (decide (0 < x)%N) as [Hx|Hx].
  - rewrite pretty_N_go_step by done. rewrite IH by (apply N.div_lt; lia).
    unfold no_byte. cbn [string_forallb]. replace (Ascii.eqb c (pretty_N_char (x mod 10))) with false; [done|].
    symmetry. apply Ascii.eqb_neq. intros ->. revert Hc. generalize (x mod 10)%N as d. intros d.
    unfold pretty_N_char. repeat case_match; done.
  - replace x with 0%N by lia. by rewrite pretty_N_go_0.
Qed.

Lemma no_byte_int c n : is_digit c = false -> 0 < n -> no_byte c (format_int n) = true.
Proof.
  intros Hc Hn. destruct n as [|p|p]; try done. unfold format_int, pretty, pretty_Z, pretty, pretty_positive, pretty, pretty_N.
  rewrite decide_False by done. by rewrite no_byte_pretty_go.
Qed.

Lemma first_byte c a a' x y :
  no_byte c a = true -> no_byte c a' = true -> (a ++ String c x = a' ++ String c y)%string -> a = a' /\ x = y.
Proof.
  intros Ha Ha' Heq. assert (String.length a = String.length a') as Hl.
  { apply (f_equal (index_byte c)) in Heq. rewrite !index_byte_app in Heq by done. by injection Heq. }
  apply app_split in Heq as [-> Heq]; [|done]. by injection Heq.
Qed.
Lemma statement_inj e l e' l' msg :
  RoutineKeysStatement e l = Ok msg -> RoutineKeysStatement e' l' = Ok msg -> e = e' /\ l = l'.
Proof.
  unfold RoutineKeysStatement. intros H1 H2. case_match eqn:E1; [done|]. case_match eqn:E2; [done|].
  inv_ok H1. inv_ok H2. injection H1 as <-. injection H2 as Heq. bools.
  repeat (apply app_split in Heq as [_ Heq]; [|reflexivity]).
  change nl with (String "010" EmptyString) in Heq.
  repeat match type of Heq with context [(String ?c EmptyString ++ ?t)%string] =>
    change (String c EmptyString ++ t)%string with (String c t) in Heq end.
  apply first_byte in Heq as [He Heq]; [|apply no_byte_int; [done|lia]..].
  apply app_split in Heq as [_ Heq]; [|reflexivity]. unfold format_int in He. apply (inj pretty) in He as ->.
  split; [done|]. assert (String.length l = String.length l') as Hl.
  { apply (f_equal String.length) in Heq. rewrite !length_app_str in Heq. simpl in Heq. lia. }
  by apply app_split in Heq as [-> _].
Qed.

Lemma other_statements `{Unicode} e l msg :
  RoutineKeysStatement e l = Ok msg ->
  (forall k, msg <> TrustBundleStatement k) /\ (forall p v h, msg <> ReleaseStatement p v h).
Proof.
  unfold RoutineKeysStatement. case_match; [done|]. intros Hs. inv_ok Hs. injection Hs as <-.
  split; intros; unfold TrustBundleStatement, ReleaseStatement; discriminate.
Qed.

(** Routine keys that verify are the signed ones. If the release key's
    signatures cannot be forged and it signs only statements of routine keys,
    trust bundles and releases, the epoch and the keys line of a verified list
    are those of one signed statement, and the keys returned are the line's. *)
Theorem routine_keys_signed `{U : Unicode} `{R : ReleaseCrypto} (signed : Z -> string -> Prop) pem rk ks :
  (forall msg der, VerifyReleaseSignature pem msg der = true ->
     (exists e l, signed e l /\ RoutineKeysStatement e l = Ok msg) \/
     (exists k, msg = TrustBundleStatement k) \/ (exists p v h, msg = ReleaseStatement p v h)) ->
  VerifyRoutineKeys pem (Some rk) = Ok ks ->
  signed (Epoch rk) (Keys rk) /\ 1 <= Epoch rk /\ FormatRoutineKeyList ks = Ok (Keys rk).
Proof.
  intros Hsig Hv. cbn [VerifyRoutineKeys] in Hv. inv_ok Hv. rename x into stmt.
  destruct (base64_decode (Sig rk)) as [der|]; [|done]. case_match; [done|]. case_match eqn:Hver; [|done].
  split; [|split].
  - destruct (other_statements _ _ _ Hok) as [Hb Hr].
    apply Hsig in Hver as [(e & l & Hs & Hst)|[[k Hk]|(p & v & h & Hk)]]; [|by apply Hb in Hk|by apply Hr in Hk].
    by destruct (statement_inj _ _ _ _ _ Hst Hok) as [<- <-].
  - unfold RoutineKeysStatement in Hok. case_match eqn:He; [done|]. apply Z.ltb_ge in He. lia.
  - by apply parse_format.
Qed.

End routine.

(** ** Two keys *)

Module routine_example.
Import routine.

#[local] Existing Instance ascii_only.

(** The generator of P-256, under two ids. *)
Definition point : string :=
  "6b17d1f2e12c4247f8bce6e563a440f277037d812deb33a0f4a13945d898c2964fe342e2fe1a7f9b8ee7eb4a7c0f9e162bce33576b315ececbb6406837bf51f5".

Definition key_b : RoutineKey := mkKey "00000000000000bb" point.
Definition key_a : RoutineKey := mkKey "00000000000000aa" point.

Definition line : string := (entry key_a ++ "," ++ entry key_b)%string.

Lemma routine_list_roundtrip_witness :
  ParseRoutineKeyList line = Ok (by_id [key_b; key_a]) /\ FormatRoutineKeyList [key_b; key_a] = Ok line.
Proof.
  assert (FormatRoutineKeyList [key_b; key_a] = Ok line) as Hf by (vm_compute; reflexivity).
  split; [|exact Hf]. exact (proj1 (routine_list_roundtrip [key_b; key_a] line) Hf).
Defined.

(** A release key that signed one statement. *)
Definition statement : string :=
  match RoutineKeysStatement 3 line with Ok s => s | Err _ => EmptyString end.

#[local] Instance one_statement : ReleaseCrypto :=
  {| base64_decode := fun s => Some s;
     key_pem := fun xy => xy;
     VerifyReleaseSignature := fun pem msg der => String.eqb msg statement |}.

Lemma routine_keys_signed_witness :
  exists ks, VerifyRoutineKeys "pem" (Some (mkKeys 3 line "sig")) = Ok ks /\ FormatRoutineKeyList ks = Ok line.
Proof.
  assert (VerifyRoutineKeys "pem" (Some (mkKeys 3 line "sig")) = Ok [key_a; key_b]) as Hv by (vm_compute; reflexivity).
  exists [key_a; key_b]. split; [exact Hv|].
  refine (proj2 (proj2 (routine_keys_signed (fun e l => e = 3 /\ l = line) "pem" (mkKeys 3 line "sig") [key_a; key_b] _ Hv))).
  intros msg der Hd. left. exists 3, line. split; [split; reflexivity|].
  apply String.eqb_eq in Hd as ->. vm_compute. reflexivity.
Defined.

End routine_example.
