(* ===== verification/Utf8.v ===== *)
(** * UTF-8 text

    Strings as sequences of runes, the way [unicode/utf8] and [strings] read
    them, and the text an endpoint may put in a heartbeat
    ([cleanHeartbeatText] of [hub/pkg/response/supervision.go]). *)

From Stdlib Require Import Ascii String.
From S2P Require Import Prelude.

Module utf8.

(** A rune is kept as its one to four bytes. *)
Definition rune : Type := list ascii.

Definition byte_in (lo hi : Z) (c : ascii) : bool := in_range lo hi (byte_val c).
Definition is_cont (c : ascii) : bool := byte_in 128 191 c.

(** [utf8.RuneStart]. *)
Definition RuneStart (c : ascii) : bool := negb (is_cont c).

(** The well-formed encodings (the accept table of [utf8.DecodeRune]). *)
Definition valid1 (a : ascii) : bool := byte_in 0 127 a.
Definition valid2 (a b : ascii) : bool := byte_in 194 223 a && is_cont b.
Definition valid3 (a b c : ascii) : bool :=
  ((byte_in 224 224 a && byte_in 160 191 b) || (byte_in 237 237 a && byte_in 128 159 b)
   || ((byte_in 225 236 a || byte_in 238 239 a) && is_cont b)) && is_cont c.
Definition valid4 (a b c d : ascii) : bool :=
  ((byte_in 240 240 a && byte_in 144 191 b) || (byte_in 244 244 a && byte_in 128 143 b)
   || (byte_in 241 243 a && is_cont b)) && is_cont c && is_cont d.

Definition valid_rune (r : rune) : bool :=
  match r with
  | [a] => valid1 a
  | [a; b] => valid2 a b
  | [a; b; c] => valid3 a b c
  | [a; b; c; d] => valid4 a b c d
  | _ => false
  end.

(** [strings.ToValidUTF8(s, "")]: the runes of a string, without the bytes
    that belong to none. *)
Fixpoint runes (s : string) : list rune :=
  match s with
  | EmptyString => []
  | String a s1 =>
    if valid1 a then [a] :: runes s1 else
    match s1 with
    | EmptyString => []
    | String b s2 =>
      if valid2 a b then [a; b] :: runes s2 else
      match s2 with
      | EmptyString => runes s1
      | String c s3 =>
        if valid3 a b c then [a; b; c] :: runes s3 else
        match s3 with
        | EmptyString => runes s1
        | String d s4 => if valid4 a b c d then [a; b; c; d] :: runes s4 else runes s1
        end
      end
    end
  end.

Definition RuneError : rune := map (fun v => ascii_of_N (Z.to_N v)) [239; 191; 189].

(** Ranging over a string: a byte that belongs to no rune reads as U+FFFD. *)
Fixpoint range_runes (s : string) : list rune :=
  match s with
  | EmptyString => []
  | String a s1 =>
    if valid1 a then [a] :: range_runes s1 else
    match s1 with
    | EmptyString => [RuneError]
    | String b s2 =>
      if valid2 a b then [a; b] :: range_runes s2 else
      match s2 with
      | EmptyString => RuneError :: range_runes s1
      | String c s3 =>
        if valid3 a b c then [a; b; c] :: range_runes s3 else
        match s3 with
        | EmptyString => RuneError :: range_runes s1
        | String d s4 => if valid4 a b c d then [a; b; c; d] :: range_runes s4 else RuneError :: range_runes s1
        end
      end
    end
  end.

Fixpoint string_of_rune (r : rune) : string :=
  match r with
  | [] => EmptyString
  | c :: r' => String c (string_of_rune r')
  end.

Definition string_of_runes (l : list rune) : string := fold_right (fun r s => (string_of_rune r ++ s)%string) EmptyString l.

(** A string is valid UTF-8 when it is made of runes. *)
Definition valid_utf8 (s : string) : Prop := exists l, Forall (fun r => valid_rune r = true) l /\ s = string_of_runes l.

Definition space : rune := [" "%char].

(** [unicode.IsControl]: U+0000 to U+001F and U+007F to U+009F. *)
Definition IsControl (r : rune) : bool :=
  match r with
  | [a] => byte_in 0 31 a || byte_in 127 127 a
  | [a; b] => byte_in 194 194 a && byte_in 128 159 b
  | _ => false
  end.

(** U+FFFD. *)
Definition is_RuneError (r : rune) : bool :=
  match r with
  | [a; b; c] => byte_in 239 239 a && byte_in 191 191 b && byte_in 189 189 c
  | _ => false
  end.

(** [unicode.IsSpace]. *)
Definition IsSpace (r : rune) : bool :=
  match r with
  | [a] => is_space1 a
  | [a; b] => is_space2 a b
  | [a; b; c] => is_space3 a b c
  | _ => false
  end.

(** [strings.Fields]: the words between spaces; [w] is the word being read,
    last rune first. *)
Fixpoint fields_from (w : list rune) (l : list rune) : list (list rune) :=
  match l with
  | [] => match w with [] => [] | _ => [rev w] end
  | r :: l' =>
    if IsSpace r then match w with [] => fields_from [] l' | _ => rev w :: fields_from [] l' end
    else fields_from (r :: w) l'
  end.

Definition Fields (l : list rune) : list (list rune) := fields_from [] l.

(** [strings.Join(words, " ")]. *)
Fixpoint join_words (l : list (list rune)) : list rune :=
  match l with
  | [] => []
  | [w] => w
  | w :: l' => w ++ space :: join_words l'
  end.

(** ** cleanHeartbeatText *)

Definition maxHeartbeatText : nat := 200.

Definition printable (r : rune) : rune := if IsControl r || is_RuneError r then space else r.

(** The loop that moves the cut back to the start of a rune. *)
Fixpoint rune_cut (cut : nat) (s : string) : nat :=
  match cut with
  | O => O
  | S n => if match String.get cut s with Some c => RuneStart c | None => true end then cut else rune_cut n s
  end.

Definition cleanHeartbeatText (s : string) : string :=
  let s := string_of_runes (join_words (Fields (map printable (runes s)))) in
  if (maxHeartbeatText <? String.length s)%nat then string_take (rune_cut maxHeartbeatText s) s else s.

(** ** Runes of a string *)

Lemma runes_valid s : Forall (fun r => valid_rune r = true) (runes s).
Proof.
  remember (String.length s) as n eqn:Hn. assert (String.length s <= n)%nat as Hle by lia. clear Hn.
  revert s Hle. induction n as [|n IH]; intros [|a s1] Hle; simpl in Hle; try (constructor || lia).
  cbn [runes]. destruct (valid1 a) eqn:V1; [constructor; [done|apply IH; lia]|].
  destruct s1 as [|b s2]; [constructor|]. simpl in Hle.
  destruct (valid2 a b) eqn:V2; [constructor; [done|apply IH; lia]|].
  destruct s2 as [|c s3]; [apply IH; simpl; lia|]. simpl in Hle.
  destruct (valid3 a b c) eqn:V3; [constructor; [done|apply IH; lia]|].
  destruct s3 as [|d s4]; [apply IH; simpl; lia|]. simpl in Hle.
  destruct (valid4 a b c d) eqn:V4; [constructor; [done|apply IH; lia]|apply IH; simpl; lia].
Qed.

Lemma range_valid s : Forall (fun r => valid_rune r = true) (range_runes s).
Proof.
  remember (String.length s) as n eqn:Hn. assert (String.length s <= n)%nat as Hle by lia. clear Hn.
  revert s Hle. induction n as [|n IH]; intros [|a s1] Hle; simpl in Hle; try (constructor || lia).
  cbn [range_runes]. destruct (valid1 a) eqn:V1; [constructor; [done|apply IH; lia]|].
  destruct s1 as [|b s2]; [by repeat constructor|]. simpl in Hle.
  destruct (valid2 a b) eqn:V2; [constructor; [done|apply IH; lia]|].
  destruct s2 as [|c s3]; [constructor; [done|apply IH; simpl; lia]|]. simpl in Hle.
  destruct (valid3 a b c) eqn:V3; [constructor; [done|apply IH; lia]|].
  destruct s3 as [|d s4]; [constructor; [done|apply IH; simpl; lia]|]. simpl in Hle.
  destruct (valid4 a b c d) eqn:V4; constructor; try done; apply IH; simpl; lia.
Qed.

Ltac byte_bounds :=
  repeat match goal with
  | H : _ && _ = true |- _ => apply andb_prop in H; destruct H
  | H : _ || _ = true |- _ => apply orb_prop in H; destruct H
  end; unfold valid1, valid2, valid3, byte_in, in_range in *; lia.

(** Ranging over a string made of runes finds them. *)
Lemma range_of_runes l : Forall (fun r => valid_rune r = true) l -> range_runes (string_of_runes l) = l.
Proof.
  induction 1 as [|r l V F IH]; [done|]. destruct r as [|a [|b [|c [|d [|e r]]]]]; try done; cbn [valid_rune] in V.
  - change (string_of_runes ([a] :: l)) with (String a (string_of_runes l)). cbn [range_runes]. by rewrite V, IH.
  - change (string_of_runes ([a; b] :: l)) with (String a (String b (string_of_runes l))). cbn [range_runes].
    rewrite V, IH. assert (valid1 a = false) as -> by (unfold valid2 in V; byte_bounds). done.
  - change (string_of_runes ([a; b; c] :: l)) with (String a (String b (String c (string_of_runes l)))). cbn [range_runes].
    rewrite V, IH. unfold valid3 in V. assert (valid1 a = false) as -> by byte_bounds. assert (valid2 a b = false) as -> by byte_bounds. done.
  - change (string_of_runes ([a; b; c; d] :: l)) with (String a (String b (String c (String d (string_of_runes l))))). cbn [range_runes].
    rewrite V, IH. unfold valid4 in V. assert (valid1 a = false) as -> by byte_bounds. assert (valid2 a b = false) as -> by byte_bounds.
    assert (valid3 a b c = false) as -> by byte_bounds. done.
Qed.

Lemma string_of_runes_app l l' : string_of_runes (l ++ l') = (string_of_runes l ++ string_of_runes l')%string.
Proof.
  induction l as [|r l IH]; [done|].
  change (string_of_runes ((r :: l) ++ l')) with (string_of_rune r ++ string_of_runes (l ++ l'))%string. by rewrite IH, <- app_assoc_str.
Qed.

Lemma valid_app s t : valid_utf8 s -> valid_utf8 t -> valid_utf8 (s ++ t)%string.
Proof.
  intros (l & V & ->) (l' & V' & ->). exists (l ++ l')%list. split; [by apply Forall_app|]. by rewrite string_of_runes_app.
Qed.

Lemma valid_ascii s : string_forallb valid1 s = true -> valid_utf8 s.
Proof.
  induction s as [|c s IH]; intros H; [by exists []|]. cbn in H. bools. destruct IH as (l & V & ->); [done|].
  exists ([c] :: l). split; [by constructor|done].
Qed.

(** What an endpoint's text may consist of. *)
Definition clean_rune (r : rune) : Prop := valid_rune r = true /\ IsControl r = false.

Lemma printable_clean r : valid_rune r = true -> clean_rune (printable r).
Proof. intros Hr. unfold printable. destruct (IsControl r) eqn:Hc; [done|]. by case_match. Qed.

Lemma fields_from_Forall (P : rune -> Prop) w l :
  Forall P w -> Forall P l -> Forall (Forall P) (fields_from w l).
Proof.
  intros Hw Hl. revert w Hw. induction Hl as [|r l Hr Hl IH]; intros w Hw; cbn [fields_from].
  - destruct w; [constructor|]. constructor; [by apply Forall_rev|constructor].
  - case_match; [|apply IH; by constructor]. destruct w; [by apply IH|].
    constructor; [by apply Forall_rev|by apply IH].
Qed.

Lemma join_words_Forall (P : rune -> Prop) l : P space -> Forall (Forall P) l -> Forall P (join_words l).
Proof.
  intros Hs Hl. induction Hl as [|w l Hw Hl IH]; [constructor|]. cbn [join_words].
  destruct l; [done|]. apply Forall_app. split; [done|]. by constructor.
Qed.

(** ** Cutting at the start of a rune *)

Lemma take_rune r s n :
  string_take (length r + n) (string_of_rune r ++ s)%string = (string_of_rune r ++ string_take n s)%string.
Proof.
  induction r as [|c r IH]; [done|].
  change (string_of_rune (c :: r) ++ s)%string with (String c (string_of_rune r ++ s)).
  cbn [length Nat.add string_take]. rewrite IH. done.
Qed.

Lemma get_rune r s n : String.get (length r + n) (string_of_rune r ++ s)%string = String.get n s.
Proof.
  induction r as [|c r IH]; [done|].
  change (string_of_rune (c :: r) ++ s)%string with (String c (string_of_rune r ++ s)).
  cbn [length Nat.add String.get]. apply IH.
Qed.

Lemma length_rune r s : String.length (string_of_rune r ++ s)%string = (length r + String.length s)%nat.
Proof.
  induction r as [|c r IH]; [done|].
  change (string_of_rune (c :: r) ++ s)%string with (String c (string_of_rune r ++ s)). simpl. by rewrite IH.
Qed.

Lemma get_none n s : String.get n s = None -> (String.length s <= n)%nat.
Proof. revert s. induction n as [|n IH]; intros [|c s]; simpl; try done; try lia. intros ?%IH. lia. Qed.

(** Inside a rune no byte starts one. *)
Lemma inside_rune r s n c :
  valid_rune r = true -> (0 < n < length r)%nat ->
  String.get n (string_of_rune r ++ s)%string = Some c -> RuneStart c = false.
Proof.
  intros Hv Hn Hg. unfold RuneStart. apply negb_false_iff.
  assert (forall lo hi b, 128 <= lo -> hi <= 191 -> byte_in lo hi b = true -> is_cont b = true) as Hc
    by (unfold is_cont, byte_in, in_range; intros; bools; apply andb_true_iff; split; apply Z.leb_le; lia).
  destruct r as [|a [|b [|d [|e [|f r]]]]]; simpl in Hn; try lia; try done;
    unfold valid_rune, valid2, valid3, valid4 in Hv; bools;
    (destruct n as [|[|[|[|n]]]]; try lia; injection Hg as <-; try done);
    repeat match goal with Ho : (_ || _) = true |- _ => apply orb_true_iff in Ho as [Ho|Ho] end; bools;
    try done; by (eapply Hc; [| |eassumption]; lia).
Qed.

Lemma cut_runes l n :
  Forall (fun r => valid_rune r = true) l ->
  (forall c, String.get n (string_of_runes l) = Some c -> RuneStart c = true) ->
  exists k, string_take n (string_of_runes l) = string_of_runes (take k l).
Proof.
  intros Hl. revert n. induction Hl as [|r l Hr Hl IH]; intros n Hg.
  { exists O. simpl. by destruct n. }
  cbn [string_of_runes fold_right] in *. fold (string_of_runes l) in *.
  destruct (decide (length r <= n)%nat) as [Hn|Hn].
  - assert (n = length r + (n - length r))%nat as En by lia. rewrite En in Hg |- *.
    rewrite get_rune in Hg. destruct (IH _ Hg) as [k Hk]. exists (S k). by rewrite take_rune, Hk.
  - destruct n as [|n]; [by exists O|]. exfalso.
    destruct (String.get (S n) (string_of_rune r ++ string_of_runes l)%string) as [c|] eqn:E.
    + assert (0 < S n < length r)%nat as Hin by lia.
      pose proof (inside_rune r _ _ _ Hr Hin E). specialize (Hg c eq_refl). congruence.
    + apply get_none in E. rewrite length_rune in E. lia.
Qed.

Lemma rune_cut_start n s :
  (rune_cut n s <= n)%nat /\
  (rune_cut n s = O \/ forall c, String.get (rune_cut n s) s = Some c -> RuneStart c = true).
Proof.
  induction n as [|n IH]; [by split; [|left]|]. cbn [rune_cut].
  destruct (String.get (S n) s) as [c|] eqn:E.
  - destruct (RuneStart c) eqn:Hc.
    + split; [done|]. right. rewrite E. by intros c' [= <-].
    + destruct IH as [IH1 IH2]. split; [lia|done].
  - split; [done|]. right. by rewrite E.
Qed.

Lemma length_take n s : (String.length (string_take n s) <= n)%nat.
Proof. revert s. induction n as [|n IH]; intros [|c s]; simpl; try lia. specialize (IH s). lia. Qed.

Lemma runes_clean s : Forall clean_rune (join_words (Fields (map printable (runes s)))).
Proof.
  apply join_words_Forall; [done|]. apply fields_from_Forall; [constructor|].
  apply Forall_map. eapply Forall_impl; [apply runes_valid|]. apply printable_clean.
Qed.

(** What a heartbeat's text is cut down to: at most 200 bytes of valid
    UTF-8 without a control character, whatever bytes the endpoint sent. *)
Theorem heartbeat_text_clean s :
  (String.length (cleanHeartbeatText s) <= maxHeartbeatText)%nat /\
  exists l, Forall clean_rune l /\ cleanHeartbeatText s = string_of_runes l.
Proof.
  pose proof (runes_clean s) as Hc. unfold cleanHeartbeatText.
  set (l := join_words _) in *. clearbody l. case_match eqn:Hl.
  - destruct (rune_cut_start maxHeartbeatText (string_of_runes l)) as [Hle Hst].
    split; [etrans; [apply length_take|done]|].
    destruct (cut_runes l (rune_cut maxHeartbeatText (string_of_runes l))) as [k Hk].
    + eapply Forall_impl; [exact Hc|]. by intros r [? _].
    + destruct Hst as [-> |Hst]; [|done]. intros c Hg. clear Hl Hle.
      destruct Hc as [|r l' [Hr _] Hl']; [done|]. destruct r as [|a r]; [done|].
      cbn in Hg. injection Hg as <-. unfold RuneStart. apply negb_true_iff.
      destruct (is_cont a) eqn:Ea; [|done]. unfold is_cont, byte_in, in_range in Ea. bools.
      exfalso. destruct r as [|b [|d [|e [|f r]]]]; try done;
        unfold valid_rune, valid1, valid2, valid3, valid4, byte_in, in_range in Hr; bools;
        repeat match goal with Ho : (_ || _) = true |- _ => apply orb_true_iff in Ho as [Ho|Ho] end; bools; lia.
    + exists (take k l). split; [by apply Forall_take|done].
  - apply Nat.ltb_ge in Hl. split; [done|]. by exists l.
Qed.

End utf8.
