(* ===== verification/Response.v ===== *)
(** * Response jobs

    [hub/pkg/response]: the durable jobs of [store.go], their audit log, the
    session jobs, the reserved job ids and the supervision of running jobs.
    The tables are maps and a log; the JSON codecs, the identifiers and the
    order SQLite gives rows of equal rank are parameters. *)

From Stdlib Require Import Ascii String.
From S2P Require Import Prelude Canonical Utf8.
Import canonical utf8.

Module response.

Local Open Scope string_scope.
Local Open Scope Z_scope.

(** ** Jobs *)

Inductive JobState : Type :=
| StateQueued
| StateOffered
| StateAcknowledged
| StateRunning
| StateSucceeded
| StateFailed
| StateCancelRequested
| StateCancelled
| StateOther (s : string).

#[export] Instance JobState_eq_dec : EqDecision JobState.
Proof. solve_decision. Defined.

Definition state_string (st : JobState) : string :=
  match st with
  | StateQueued => "queued" | StateOffered => "offered" | StateAcknowledged => "acknowledged"
  | StateRunning => "running" | StateSucceeded => "succeeded" | StateFailed => "failed"
  | StateCancelRequested => "cancel_requested" | StateCancelled => "cancelled" | StateOther s => s
  end.

(** [from_state] of a job's first audit entry. *)
Definition no_state : JobState := StateOther "".

Definition is_terminal (st : JobState) : bool :=
  match st with StateSucceeded | StateFailed | StateCancelled => true | _ => false end.

Definition IsValidTransition (from to : JobState) : bool :=
  if bool_decide (from = to) then true else
  let goes st := bool_decide (to = st) in
  match from with
  | StateQueued => goes StateOffered || goes StateCancelled
  | StateOffered => goes StateAcknowledged || goes StateFailed || goes StateQueued || goes StateCancelled
  | StateAcknowledged =>
      goes StateRunning || goes StateSucceeded || goes StateFailed || goes StateCancelRequested || goes StateCancelled
  | StateRunning => goes StateSucceeded || goes StateFailed || goes StateCancelRequested || goes StateCancelled
  | StateCancelRequested => goes StateCancelled || goes StateSucceeded || goes StateFailed
  | _ => false
  end.

Definition ErrJobNotFound : string := "response job not found".
Definition ErrTenantMismatch : string := "tenant id mismatch".
Definition ErrEndpointMismatch : string := "endpoint id mismatch".
Definition ErrLeaseMismatch : string := "lease id mismatch".
Definition ErrLeaseExpired : string := "lease has expired".
Definition ErrInvalidJobTransition : string := "invalid job state transition".

(** What scanning a NULL column into a string gives. *)
Definition ErrScanNull : string := "sql: Scan error: converting NULL to string is unsupported".

Definition transition_error (from to : JobState) : string :=
  ErrInvalidJobTransition ++ ": cannot transition from " ++ state_string from ++ " to " ++ state_string to.

(** A row of [response_jobs]; the columns a fresh job leaves NULL are options. *)
Record JobRecord : Type := mkJob {
  j_ID : string;
  j_TenantID : string;
  j_EndpointID : string;
  j_Kind : string;
  j_RequestedBy : string;
  j_RequestedAt : Z;
  j_State : JobState;
  j_LeaseID : option string;
  j_LeaseExpiresAt : option Z;
  j_StartedAt : option Z;
  j_CompletedAt : option Z;
  j_CancelRequestedAt : option Z;
  j_Attempt : Z;
  j_IdempotencyKey : string;
  j_GrantID : string;
  j_RequestJSON : string;
  j_ResultJSON : option string;
  j_ErrorCode : option string;
  j_CreatedAt : Z;
  j_UpdatedAt : Z;
}.

#[export] Instance eta_JobRecord : Eta JobRecord :=
  fun x => mkJob (j_ID x) (j_TenantID x) (j_EndpointID x) (j_Kind x) (j_RequestedBy x) (j_RequestedAt x)
    (j_State x) (j_LeaseID x) (j_LeaseExpiresAt x) (j_StartedAt x) (j_CompletedAt x) (j_CancelRequestedAt x)
    (j_Attempt x) (j_IdempotencyKey x) (j_GrantID x) (j_RequestJSON x) (j_ResultJSON x) (j_ErrorCode x)
    (j_CreatedAt x) (j_UpdatedAt x).

Record JobAuditEntry : Type := mkAudit {
  a_ID : Z;
  a_Timestamp : Z;
  a_TenantID : string;
  a_EndpointID : string;
  a_JobID : string;
  a_GrantID : string;
  a_FromState : JobState;
  a_ToState : JobState;
  a_Actor : string;
  a_Details : string;
}.

Record JobOffer : Type := mkOffer {
  o_JobID : string;
  o_Kind : string;
  o_LeaseID : string;
  o_LeaseExpiresAt : Z;
  o_Grant : EndpointGrant;
  o_PayloadJSON : string;
}.

Record JobResult : Type := mkResult {
  res_JobID : string;
  res_LeaseID : string;
  res_State : JobState;
  res_ErrorCode : string;
  res_ResultJSON : string;
  res_Stdout : string;
  res_Stderr : string;
  res_ExitCode : Z;
  res_DurationMs : Z;
  res_ManifestSHA256 : string;
  res_Truncated : bool;
}.

Record JobAck : Type := mkAck {
  ack_JobID : string; ack_LeaseID : string; ack_Accepted : bool; ack_RejectionReason : string }.

Record JobProgress : Type := mkJobProgress {
  pg_JobID : string; pg_LeaseID : string; ProgressPct : Z; Message : string }.

(** The shape checks of [dto.go]. *)
Definition offer_Validate (o : JobOffer) : result string unit :=
  _ ← guard_err (nonempty (o_JobID o)) "missing job_id";
  _ ← guard_err (offered_kind (o_Kind o)) "unsupported offer kind";
  _ ← guard_err (nonempty (o_LeaseID o)) "missing lease_id";
  _ ← guard_err (0 <? o_LeaseExpiresAt o) "invalid lease_expires_at";
  grant_Validate (o_Grant o).

Definition ack_Validate (a : JobAck) : result string unit :=
  _ ← guard_err (nonempty (ack_JobID a)) "missing job_id";
  guard_err (nonempty (ack_LeaseID a)) "missing lease_id".

Definition result_Validate (r : JobResult) : result string unit :=
  _ ← guard_err (nonempty (res_JobID r)) "missing job_id";
  _ ← guard_err (nonempty (res_LeaseID r)) "missing lease_id";
  guard_err (is_terminal (res_State r)) "invalid result state".

(** A reserved job id ([reservation.go]). *)
Record JobReservation : Type := mkReservation {
  rv_JobID : string;
  rv_TenantID : string;
  rv_EndpointID : string;
  rv_ActionDigest : string;
  rv_ExpiresAt : Z;
}.

(** ** Supervision records ([supervision.go]) *)

Record SupervisedWindow : Type := mkWindow { w_Title : string; w_Process : string; w_PID : Z; w_Session : Z }.

Record JobHeartbeat : Type := mkHeartbeat {
  hb_JobID : string;
  hb_LeaseID : string;
  hb_Phase : string;
  hb_ProgressPct : option Z;
  hb_Message : string;
  hb_CPUms : Z;
  hb_IOBytes : Z;
  hb_IdleSeconds : Z;
  hb_Processes : Z;
  hb_Window : option SupervisedWindow;
}.

#[export] Instance eta_JobHeartbeat : Eta JobHeartbeat :=
  fun x => mkHeartbeat (hb_JobID x) (hb_LeaseID x) (hb_Phase x) (hb_ProgressPct x) (hb_Message x) (hb_CPUms x)
    (hb_IOBytes x) (hb_IdleSeconds x) (hb_Processes x) (hb_Window x).

(** The latest heartbeat of a job; the row of [response_job_progress] keeps
    it as its body. *)
Record JobSupervision : Type := mkSup {
  sup_JobID : string;
  sup_EndpointID : string;
  sup_Phase : string;
  sup_PhaseSince : Z;
  sup_HeartbeatAt : Z;
  sup_Heartbeats : Z;
  sup_ProgressPct : Z;
  sup_Message : string;
  sup_CPUms : Z;
  sup_IOBytes : Z;
  sup_IdleSeconds : Z;
  sup_Processes : Z;
  sup_Window : option SupervisedWindow;
}.

#[export] Instance eta_JobSupervision : Eta JobSupervision :=
  fun x => mkSup (sup_JobID x) (sup_EndpointID x) (sup_Phase x) (sup_PhaseSince x) (sup_HeartbeatAt x)
    (sup_Heartbeats x) (sup_ProgressPct x) (sup_Message x) (sup_CPUms x) (sup_IOBytes x) (sup_IdleSeconds x)
    (sup_Processes x) (sup_Window x).

Record ProgressRow : Type := mkProgress {
  pr_TenantID : string;
  pr_EndpointID : string;
  pr_Phase : string;
  pr_PhaseSince : Z;
  pr_HeartbeatAt : Z;
  pr_Heartbeats : Z;
  pr_Body : string;
}.

Record HeartbeatOutcome : Type := mkOutcome { out_Cancel : bool; out_Changed : bool; out_Phase : string; out_Prior : string }.

(** ** The store *)

Record Store : Type := mkStore {
  jobs : gmap string JobRecord;
  audit : list JobAuditEntry;
  reservations : gmap string JobReservation;
  progress : gmap string ProgressRow;
}.

#[export] Instance eta_Store : Eta Store := fun x => mkStore (jobs x) (audit x) (reservations x) (progress x).

Definition empty_store : Store := mkStore ∅ [] ∅ ∅.

(** [encoding/json], [strconv.Quote] and [uuid.Parse]. *)
Class JobCodec := {
  marshal_request : EndpointGrant -> string -> string;
  unmarshal_request : string -> option (EndpointGrant * string);
  unmarshal_payload : string -> option string;
  unmarshal_session : string -> option string;
  marshal_result : JobResult -> string;
  marshal_session : string -> string;
  marshal_sup : JobSupervision -> string;
  unmarshal_sup : string -> option JobSupervision;
  quote : string -> string;
  uuid_Parse : string -> bool;
}.

(** [ORDER BY key]: rows of equal keys come in an order SQLite chooses. *)
Class RowOrder := {
  rows_by : (JobRecord -> Z) -> list JobRecord -> list JobRecord;
  rows_by_perm : forall key l, rows_by key l ≡ₚ l;
  rows_by_sorted : forall key l, StronglySorted (fun a b => key a <= key b) (rows_by key l);
}.

Section Store.
Context `{C : JobCodec} `{O : RowOrder} `{U : Unicode}.

Definition rows (s : Store) : list JobRecord := map snd (map_to_list (jobs s)).

(** [SELECT ... WHERE f] and [SELECT ... WHERE f ORDER BY key]. *)
Definition select (f : JobRecord -> bool) (s : Store) : list JobRecord :=
  rows_by (fun _ => 0) (filter (fun j => f j = true) (rows s)).

Definition select_by (key : JobRecord -> Z) (f : JobRecord -> bool) (s : Store) : list JobRecord :=
  rows_by key (filter (fun j => f j = true) (rows s)).

Definition set_job (id : string) (f : JobRecord -> JobRecord) (s : Store) : Store := s <| jobs ::= alter f id |>.

(** The id is AUTOINCREMENT and no entry is ever deleted. *)
Definition recordAudit (tenantID endpointID jobID grantID : string) (fromState toState : JobState)
    (actor details : string) (now : Z) (s : Store) : Store :=
  s <| audit ::= fun l =>
    (l ++ [mkAudit (Z.of_nat (S (length l))) now tenantID endpointID jobID grantID fromState toState actor details])%list |>.

(** *** Creating *)

Definition new_job (jobID tenantID endpointID kind requestedBy idempotencyKey grantID request : string) (now : Z)
    : JobRecord :=
  mkJob jobID tenantID endpointID kind requestedBy now StateQueued None None None None None 0
    idempotencyKey grantID request None None now now.

(** [u] is the job id drawn. *)
Definition CreateJob (tenantID endpointID kind requestedBy : string) (grant : option EndpointGrant)
    (payloadJSON idempotencyKey u : string) (now : Z) (s : Store) : Store * result string JobRecord :=
  match grant with
  | None => (s, Err "missing required job fields")
  | Some g =>
    if String.eqb tenantID "" || String.eqb endpointID "" then (s, Err "missing required job fields") else
    let existing :=
      if String.eqb idempotencyKey "" then None
      else head (select (fun j => String.eqb (j_TenantID j) tenantID
                                  && String.eqb (j_IdempotencyKey j) idempotencyKey) s) in
    match existing with
    | Some j => (s, Ok j)
    | None =>
      if (Version g =? GrantVersionJob) && negb (uuid_Parse (JobID g))
      then (s, Err "a V3 grant's job_id must be a reserved job id") else
      let jobID := if (Version g =? GrantVersionJob) then JobID g else u in
      let job := new_job jobID tenantID endpointID kind requestedBy idempotencyKey (GrantID g)
                   (marshal_request g payloadJSON) now in
      match jobs s !! jobID with
      | Some _ => (s, Err "UNIQUE constraint failed: response_jobs.id")
      | None =>
        let s := s <| jobs ::= insert jobID job |> in
        (recordAudit tenantID endpointID jobID (GrantID g) no_state StateQueued requestedBy "job created" now s, Ok job)
      end
    end
  end.

(** *** Offering *)

Definition offerBytesMax : Z := Z.shiftl 256 10.
Definition offerAttemptsMax : Z := 30.
Definition ErrNeverTaken : string :=
  "offered 30 times and never taken by the agent (its reply buffer may be too small for this job; update the agent)".

Definition pending (tenantID endpointID : string) (now : Z) (j : JobRecord) : bool :=
  String.eqb (j_TenantID j) tenantID && String.eqb (j_EndpointID j) endpointID
  && (bool_decide (j_State j = StateQueued)
      || (bool_decide (j_State j = StateOffered)
          && match j_LeaseExpiresAt j with Some e => e <? now | None => false end)).

Definition fail_never_taken (now : Z) (j : JobRecord) : JobRecord :=
  j <| j_State := StateFailed |> <| j_ErrorCode := Some ErrNeverTaken |>
    <| j_CompletedAt := Some now |> <| j_UpdatedAt := now |>.

Definition lease_out (leaseID : string) (leaseExpiresAt attempt now : Z) (j : JobRecord) : JobRecord :=
  j <| j_State := StateOffered |> <| j_LeaseID := Some leaseID |> <| j_LeaseExpiresAt := Some leaseExpiresAt |>
    <| j_Attempt := attempt |> <| j_UpdatedAt := now |>.

(** [time.Time.Unix] of a time in nanoseconds. *)
Definition unix (t : Z) : Z := t / 1000000000.

(** The loop over the rows read; [draws] are the lease ids drawn, [n] how many
    were, [bytes] the request bytes packed. *)
Fixpoint offer_loop (tenantID endpointID : string) (leaseDuration now : Z) (draws : nat -> string)
    (items : list JobRecord) (n : nat) (bytes : Z) (offers : list JobOffer) (s : Store) : Store * list JobOffer :=
  match items with
  | [] => (s, offers)
  | it :: items' =>
    let continue := offer_loop tenantID endpointID leaseDuration now draws items' in
    if bool_decide (j_State it = StateOffered) && (offerAttemptsMax <=? j_Attempt it) then
      let s := set_job (j_ID it) (fail_never_taken now) s in
      continue n bytes offers
        (recordAudit tenantID endpointID (j_ID it) (j_GrantID it) (j_State it) StateFailed "scheduler"
           ("never taken after " ++ format_int (j_Attempt it) ++ " offers") now s)
    else
    let len := Z.of_nat (String.length (j_RequestJSON it)) in
    if bool_decide (offers <> []) && (offerBytesMax <? bytes + len) then (s, offers) else
    let leaseID := draws n in
    let leaseExpiresAt := now + leaseDuration in
    match unmarshal_request (j_RequestJSON it) with
    | None => continue (S n) (bytes + len) offers s
    | Some (grant, payload) =>
      let newAttempt := j_Attempt it + 1 in
      let s := set_job (j_ID it) (lease_out leaseID leaseExpiresAt newAttempt now) s in
      let s := recordAudit tenantID endpointID (j_ID it) (j_GrantID it) (j_State it) StateOffered "scheduler"
                 ("leased to " ++ leaseID ++ " attempt " ++ format_int newAttempt) now s in
      continue (S n) (bytes + len)
        (offers ++ [mkOffer (j_ID it) (j_Kind it) leaseID (unix leaseExpiresAt) grant payload])%list s
    end
  end.

Definition Minute : Z := 60 * 1000000000.

Definition OfferPendingJobs (tenantID endpointID : string) (maxOffers leaseDuration : Z) (draws : nat -> string)
    (now : Z) (s : Store) : Store * list JobOffer :=
  let maxOffers := if (maxOffers <=? 0) || (10 <? maxOffers) then 4 else maxOffers in
  let leaseDuration := if leaseDuration <=? 0 then 2 * Minute else leaseDuration in
  let items := take (Z.to_nat maxOffers) (select_by j_RequestedAt (pending tenantID endpointID now) s) in
  offer_loop tenantID endpointID leaseDuration now draws items 0 0 [] s.

(** *** What an endpoint reports *)

(** The caller's tenant and endpoint, when given, must be the job's. *)
Definition wrong (given actual : string) : bool := nonempty given && negb (String.eqb actual given).

(** The row and the checks [AcknowledgeJob] and [RecordProgress] share. *)
Definition leased_job (tenantID endpointID jobID leaseID : string) (now : Z) (s : Store) : result string JobRecord :=
  match jobs s !! jobID with
  | None => Err ErrJobNotFound
  | Some j =>
    match j_LeaseID j with
    | None => Err ErrScanNull
    | Some lease =>
      if wrong tenantID (j_TenantID j) then Err ErrTenantMismatch
      else if wrong endpointID (j_EndpointID j) then Err ErrEndpointMismatch
      else if negb (String.eqb lease leaseID) then Err ErrLeaseMismatch
      else if match j_LeaseExpiresAt j with Some e => e <? now | None => false end then Err ErrLeaseExpired
      else Ok j
    end
  end.

Definition endpoint_actor (endpointID : string) : string := "endpoint:" ++ endpointID.

Definition AcknowledgeJob (tenantID endpointID jobID leaseID : string) (accepted : bool) (rejectionReason : string)
    (now : Z) (s : Store) : Store * result string unit :=
  match leased_job tenantID endpointID jobID leaseID now s with
  | Err e => (s, Err e)
  | Ok j =>
    let targetState := if accepted then StateAcknowledged else StateFailed in
    if negb (IsValidTransition (j_State j) targetState) then (s, Err (transition_error (j_State j) targetState)) else
    let s :=
      set_job jobID (fun j =>
        if accepted
        then j <| j_State := StateAcknowledged |> <| j_StartedAt := Some now |> <| j_UpdatedAt := now |>
        else j <| j_State := StateFailed |> <| j_ErrorCode := Some rejectionReason |>
               <| j_CompletedAt := Some now |> <| j_UpdatedAt := now |>) s in
    let details := if accepted then "job accepted by endpoint" else "job rejected: " ++ rejectionReason in
    (recordAudit (j_TenantID j) (j_EndpointID j) jobID (j_GrantID j) (j_State j) targetState
       (endpoint_actor (j_EndpointID j)) details now s, Ok tt)
  end.

Definition RecordProgress (tenantID endpointID jobID leaseID : string) (p : option JobProgress) (now : Z) (s : Store)
    : Store * result string unit :=
  match p with
  | None => (s, Err "nil progress")
  | Some p =>
    match leased_job tenantID endpointID jobID leaseID now s with
    | Err e => (s, Err e)
    | Ok j =>
      let toState := if bool_decide (j_State j = StateAcknowledged) then StateRunning else j_State j in
      let s := set_job jobID (fun j =>
        if bool_decide (j_State j = StateAcknowledged)
        then j <| j_State := StateRunning |> <| j_UpdatedAt := now |> else j <| j_UpdatedAt := now |>) s in
      (recordAudit (j_TenantID j) (j_EndpointID j) jobID (j_GrantID j) (j_State j) toState
         (endpoint_actor (j_EndpointID j)) ("progress " ++ format_int (ProgressPct p) ++ "%: " ++ Message p) now s, Ok tt)
    end
  end.

(** The outcome a result stands for. *)
Definition result_state (r : JobResult) : JobState :=
  if is_terminal (res_State r) then res_State r
  else if negb (res_ExitCode r =? 0) || nonempty (res_ErrorCode r) then StateFailed else StateSucceeded.

Definition CompleteJob (tenantID endpointID jobID leaseID : string) (r : option JobResult) (now : Z) (s : Store)
    : Store * result string unit :=
  match r with
  | None => (s, Err "nil job result")
  | Some r =>
    match jobs s !! jobID with
    | None => (s, Err ErrJobNotFound)
    | Some j =>
      match j_LeaseID j with
      | None => (s, Err ErrScanNull)
      | Some lease =>
        if wrong tenantID (j_TenantID j) then (s, Err ErrTenantMismatch)
        else if wrong endpointID (j_EndpointID j) then (s, Err ErrEndpointMismatch)
        else if is_terminal (j_State j) then (s, Ok tt)
        else if negb (String.eqb lease leaseID) then (s, Err ErrLeaseMismatch) else
        let state := result_state r in
        if negb (IsValidTransition (j_State j) state) then (s, Err (transition_error (j_State j) state)) else
        let s := set_job jobID (fun j =>
          j <| j_State := state |> <| j_ResultJSON := Some (marshal_result r) |>
            <| j_ErrorCode := Some (res_ErrorCode r) |> <| j_CompletedAt := Some now |> <| j_UpdatedAt := now |>) s in
        (recordAudit (j_TenantID j) (j_EndpointID j) jobID (j_GrantID j) (j_State j) state
           (endpoint_actor (j_EndpointID j))
           ("completed state=" ++ state_string state ++ " exit_code=" ++ format_int (res_ExitCode r)) now s, Ok tt)
      end
    end
  end.

(** *** Cancelling and ending *)

Definition CancelJob (tenantID jobID requestedBy : string) (now : Z) (s : Store) : Store * result string unit :=
  match jobs s !! jobID with
  | None => (s, Err ErrJobNotFound)
  | Some j =>
    if wrong tenantID (j_TenantID j) then (s, Err ErrTenantMismatch)
    else if is_terminal (j_State j) then (s, Ok tt) else
    let targetState :=
      if bool_decide (j_State j = StateQueued) || bool_decide (j_State j = StateOffered)
      then StateCancelled else StateCancelRequested in
    if negb (IsValidTransition (j_State j) targetState) then (s, Err (transition_error (j_State j) targetState)) else
    let s := set_job jobID (fun j =>
      j <| j_State := targetState |> <| j_CancelRequestedAt := Some now |> <| j_UpdatedAt := now |>) s in
    (recordAudit (j_TenantID j) (j_EndpointID j) jobID (j_GrantID j) (j_State j) targetState
       requestedBy "cancellation requested" now s, Ok tt)
  end.

Definition session_kind (kind : string) : bool :=
  String.eqb kind ActionKindTerminalSession || String.eqb kind ActionKindScreenSession.

Definition EndSessionJob (jobID errorCode detail : string) (now : Z) (s : Store) : Store * result string unit :=
  match jobs s !! jobID with
  | None => (s, Err ErrJobNotFound)
  | Some j =>
    if negb (session_kind (j_Kind j)) then (s, Err "not a session job") else
    let to :=
      if bool_decide (j_State j = StateQueued) || bool_decide (j_State j = StateOffered) then StateCancelled
      else if nonempty errorCode then StateFailed else StateSucceeded in
    if bool_decide (j_State j = to) || negb (IsValidTransition (j_State j) to) then (s, Ok tt) else
    let s := set_job jobID (fun j =>
      j <| j_State := to |> <| j_CompletedAt := Some now |> <| j_UpdatedAt := now |>
        <| j_ResultJSON := Some (marshal_session detail) |> <| j_ErrorCode := Some errorCode |>) s in
    (recordAudit (j_TenantID j) (j_EndpointID j) jobID (j_GrantID j) (j_State j) to "hub" detail now s, Ok tt)
  end.

(** *** Reservations *)

Definition ReservationTTL : Z := 15 * Minute.
Definition ErrReservationUnknown : string := "no such reserved job id (it was used, lapsed, or never reserved)".
Definition ErrReservationMismatch : string := "the reserved job id is for another endpoint or payload".

(** [Truncate(time.Second)]. *)
Definition truncate_second (t : Z) : Z := t - t mod 1000000000.

Definition ReserveJob (tenantID endpointID actionDigest u : string) (now : Z) (s : Store)
    : Store * result string JobReservation :=
  if String.eqb tenantID "" || String.eqb endpointID "" || negb (String.length actionDigest =? 64)%nat
  then (s, Err "missing reservation fields") else
  let s := s <| reservations ::= filter (fun kv => now <= rv_ExpiresAt kv.2) |> in
  let r := mkReservation u tenantID endpointID (ToLower actionDigest) (truncate_second (now + ReservationTTL)) in
  match reservations s !! u with
  | Some _ => (s, Err "UNIQUE constraint failed: response_job_reservations.job_id")
  | None => (s <| reservations ::= insert u r |>, Ok r)
  end.

Definition TakeReservation (jobID tenantID endpointID actionDigest : string) (now : Z) (s : Store)
    : Store * result string unit :=
  match reservations s !! jobID with
  | None => (s, Err ErrReservationUnknown)
  | Some r =>
    let s := s <| reservations ::= delete jobID |> in
    if rv_ExpiresAt r <? now then (s, Err ErrReservationUnknown)
    else if negb (String.eqb (rv_TenantID r) tenantID) || negb (String.eqb (rv_EndpointID r) endpointID)
            || negb (EqualFold (rv_ActionDigest r) actionDigest)
    then (s, Err ErrReservationMismatch) else (s, Ok tt)
  end.

(** *** Supervision *)

Definition PhaseRunning : string := "running".
Definition PhaseStalled : string := "stalled".
Definition PhaseNeedsHands : string := "needs_hands".

Definition ErrJobNotRunning : string := "job is not running".

Definition clean_window (w : SupervisedWindow) : SupervisedWindow :=
  let process := cleanHeartbeatText (w_Process w) in
  mkWindow (cleanHeartbeatText (w_Title w))
    (if (64 <? String.length process)%nat then string_take 64 process else process) (w_PID w) (w_Session w).

(** [JobHeartbeat.clean]. *)
Definition clean (hb : JobHeartbeat) : result string JobHeartbeat :=
  let known := String.eqb (hb_Phase hb) PhaseRunning || String.eqb (hb_Phase hb) PhaseStalled
               || String.eqb (hb_Phase hb) PhaseNeedsHands in
  if negb known && negb (String.eqb (hb_Phase hb) "") then Err ("unknown phase " ++ quote (hb_Phase hb)) else
  let phase := if known then hb_Phase hb else PhaseRunning in
  Ok (hb <| hb_Phase := phase |> <| hb_Message ::= cleanHeartbeatText |>
         <| hb_ProgressPct ::= fun p => match p with Some v => if (v <? 0) || (100 <? v) then None else p | None => None end |>
         <| hb_CPUms ::= Z.max 0 |> <| hb_IOBytes ::= Z.max 0 |> <| hb_IdleSeconds ::= Z.max 0 |>
         <| hb_Processes ::= Z.max 0 |>
         <| hb_Window ::= fun w => if String.eqb phase PhaseNeedsHands then clean_window <$> w else None |>).

(** [var prior JobSupervision]: the zero value. *)
Definition zero_sup : JobSupervision := mkSup "" "" "" 0 0 0 0 "" 0 0 0 0 None.

(** What the heartbeat before said: the phase of its row, and its body when
    that parses. *)
Definition prior_sup (row : option ProgressRow) : JobSupervision :=
  match row with
  | None => zero_sup
  | Some p =>
    match unmarshal_sup (pr_Body p) with
    | Some sup => sup
    | None => zero_sup <| sup_Phase := pr_Phase p |>
    end
  end.

Definition next_sup (hb : JobHeartbeat) (endpointID : string) (row : option ProgressRow) (now : Z) : JobSupervision :=
  let prior := prior_sup row in
  let beats := match row with Some p => pr_Heartbeats p | None => 0 end in
  let sup := mkSup (hb_JobID hb) endpointID (hb_Phase hb) now now (beats + 1) (-1) (hb_Message hb) (hb_CPUms hb)
               (hb_IOBytes hb) (hb_IdleSeconds hb) (hb_Processes hb) (hb_Window hb) in
  let sup :=
    match row with
    | None => sup
    | Some p =>
      let sup := sup <| sup_ProgressPct := sup_ProgressPct prior |> in
      let sup := if String.eqb (sup_Phase prior) (hb_Phase hb) then sup <| sup_PhaseSince := pr_PhaseSince p |> else sup in
      if String.eqb (sup_Message sup) "" then sup <| sup_Message := sup_Message prior |> else sup
    end in
  match hb_ProgressPct hb with Some v => sup <| sup_ProgressPct := v |> | None => sup end.

Definition window_detail (w : option SupervisedWindow) : string :=
  match w with
  | None => ""
  | Some w => " (window " ++ quote (w_Title w) ++ " of " ++ w_Process w ++ ", session " ++ format_int (w_Session w) ++ ")"
  end.

Definition runs (st : JobState) : bool :=
  match st with StateAcknowledged | StateRunning | StateCancelRequested => true | _ => false end.

Definition RecordHeartbeat (tenantID endpointID : string) (hb : option JobHeartbeat) (now : Z) (s : Store)
    : Store * result string HeartbeatOutcome :=
  match hb with
  | None => (s, Err "heartbeat needs job_id and lease_id")
  | Some hb =>
    if String.eqb (hb_JobID hb) "" || String.eqb (hb_LeaseID hb) "" then (s, Err "heartbeat needs job_id and lease_id") else
    match clean hb with
    | Err e => (s, Err e)
    | Ok hb =>
      match jobs s !! hb_JobID hb with
      | None => (s, Err ErrJobNotFound)
      | Some j =>
        match j_LeaseID j with
        | None => (s, Err ErrScanNull)
        | Some lease =>
          if wrong tenantID (j_TenantID j) then (s, Err ErrTenantMismatch)
          else if wrong endpointID (j_EndpointID j) then (s, Err ErrEndpointMismatch)
          else if negb (String.eqb lease (hb_LeaseID hb)) then (s, Err ErrLeaseMismatch)
          else if negb (runs (j_State j)) then (s, Err ErrJobNotRunning) else
          let row := progress s !! hb_JobID hb in
          let prior := prior_sup row in
          let sup := next_sup hb (j_EndpointID j) row now in
          let changed := bool_decide (row = None) || negb (String.eqb (sup_Phase prior) (hb_Phase hb))
                         || negb (String.eqb (sup_Message prior) (sup_Message sup))
                         || negb (sup_ProgressPct prior =? sup_ProgressPct sup) in
          let s := s <| progress ::= insert (hb_JobID hb)
            match row with
            | None => mkProgress (j_TenantID j) (j_EndpointID j) (sup_Phase sup) (sup_PhaseSince sup) now
                        (sup_Heartbeats sup) (marshal_sup sup)
            | Some p => mkProgress (pr_TenantID p) (pr_EndpointID p) (sup_Phase sup) (sup_PhaseSince sup) now
                          (sup_Heartbeats sup) (marshal_sup sup)
            end |> in
          let audit := recordAudit (j_TenantID j) (j_EndpointID j) (hb_JobID hb) (j_GrantID j) in
          let actor := endpoint_actor (j_EndpointID j) in
          let s :=
            if bool_decide (j_State j = StateAcknowledged) then
              audit StateAcknowledged StateRunning actor ("supervised: " ++ hb_Phase hb) now
                (set_job (hb_JobID hb) (fun j => j <| j_State := StateRunning |> <| j_UpdatedAt := now |>) s)
            else if bool_decide (is_Some row) && negb (String.eqb (sup_Phase prior) (hb_Phase hb)) then
              audit (j_State j) (j_State j) actor
                ("supervised: " ++ sup_Phase prior ++ " -> " ++ hb_Phase hb ++ window_detail (hb_Window hb)) now s
            else s in
          (s, Ok (mkOutcome (bool_decide (j_State j = StateCancelRequested)) changed (hb_Phase hb) (sup_Phase prior)))
        end
      end
    end
  end.

(** [Supervision]: the bodies of the rows asked for; an empty tenant asks for
    any. *)
Definition Supervision (tenantID : string) (jobIDs : list string) (s : Store) : gmap string JobSupervision :=
  fold_left (fun out id =>
    match progress s !! id with
    | Some p =>
      if String.eqb tenantID "" || String.eqb (pr_TenantID p) tenantID then
        match unmarshal_sup (pr_Body p) with
        | Some sup => if nonempty (sup_JobID sup) then <[sup_JobID sup := sup]> out else out
        | None => out
        end
      else out
    | None => out
    end) jobIDs ∅.

(** *** Reading *)

Definition GetJob (tenantID jobID : string) (s : Store) : result string JobRecord :=
  match jobs s !! jobID with
  | None => Err ErrJobNotFound
  | Some j =>
    if wrong tenantID (j_TenantID j) && negb (String.eqb tenantID "default") then Err ErrTenantMismatch else Ok j
  end.

Definition page (limit : Z) : nat := Z.to_nat (if (limit <=? 0) || (100 <? limit) then 50 else limit).

Definition ListJobs (tenantID endpointID : string) (limit : Z) (s : Store) : list JobRecord :=
  take (page limit) (select_by (fun j => - j_RequestedAt j) (fun j =>
    String.eqb (j_TenantID j) tenantID && (String.eqb endpointID "" || String.eqb (j_EndpointID j) endpointID)) s).

Definition GetJobAuditLog (tenantID jobID : string) (limit : Z) (s : Store) : list JobAuditEntry :=
  take (page limit) (filter (fun e => String.eqb (a_TenantID e) tenantID && String.eqb (a_JobID e) jobID = true) (audit s)).

Record OpenSessionJob : Type := mkOpen {
  os_JobID : string; os_TenantID : string; os_EndpointID : string; os_Kind : string;
  os_State : JobState; os_SessionID : string; os_RequestedAt : Z }.

Definition OpenSessionJobs (s : Store) : list OpenSessionJob :=
  map (fun j =>
    let session := match (p ← unmarshal_payload (j_RequestJSON j); unmarshal_session p) with Some id => id | None => "" end in
    mkOpen (j_ID j) (j_TenantID j) (j_EndpointID j) (j_Kind j) (j_State j) session (j_RequestedAt j))
    (select_by j_RequestedAt (fun j => session_kind (j_Kind j) && negb (is_terminal (j_State j))) s).

End Store.

End response.
