(* ===== verification/ResponseInv.v ===== *)
(** * Response jobs: the invariant and every operation

    A job's audit entries are a run of the job state machine that ends in the
    job's state; every operation of the store keeps that, and changes a job
    only in the ways [jrel] lists. *)

From Stdlib Require Import Ascii String.
From stdpp Require Import gmap.
From S2P Require Import Prelude Canonical Utf8 Response.
Import canonical response.

(** ** The state machine *)

(** A run of the state machine, as audit entries, and the state it reached. *)
Inductive trace : list JobAuditEntry -> JobState -> Prop :=
| trace_new e : a_FromState e = no_state -> a_ToState e = StateQueued -> trace [e] StateQueued
| trace_step l st e :
    trace l st -> a_FromState e = st -> IsValidTransition st (a_ToState e) = true -> trace (l ++ [e]) (a_ToState e).

Definition entries (id : string) (s : Store) : list JobAuditEntry := filter (fun e => a_JobID e = id) (audit s).

Lemma valid_refl st : IsValidTransition st st = true.
Proof. unfold IsValidTransition. by rewrite bool_decide_eq_true_2. Qed.

(** A terminal state has no way out. *)
Lemma terminal_stays st st' : is_terminal st = true -> IsValidTransition st st' = true -> st' = st.
Proof.
  intros Ht Hv. unfold IsValidTransition in Hv. destruct (decide (st = st')) as [->|Hne]; [done|].
  rewrite bool_decide_eq_false_2 in Hv by done. by destruct st.
Qed.

Lemma never_queued_again st : IsValidTransition st StateQueued = true -> st = StateQueued \/ st = StateOffered.
Proof. destruct st; vm_compute; auto; discriminate. Qed.

(** ** What an operation may do to a job *)

Record same_identity (j j' : JobRecord) : Prop := {
  id_ID : j_ID j' = j_ID j;
  id_TenantID : j_TenantID j' = j_TenantID j;
  id_EndpointID : j_EndpointID j' = j_EndpointID j;
  id_Kind : j_Kind j' = j_Kind j;
  id_RequestedAt : j_RequestedAt j' = j_RequestedAt j;
  id_RequestedBy : j_RequestedBy j' = j_RequestedBy j;
  id_IdempotencyKey : j_IdempotencyKey j' = j_IdempotencyKey j;
  id_GrantID : j_GrantID j' = j_GrantID j;
  id_RequestJSON : j_RequestJSON j' = j_RequestJSON j;
}.

Record jrel (j j' : JobRecord) : Prop := {
  rel_identity : same_identity j j';
  rel_state : is_terminal (j_State j) = true -> j_State j' = j_State j;
  rel_result : is_terminal (j_State j) = true -> j_ResultJSON j' = j_ResultJSON j;
  rel_error : is_terminal (j_State j) = true -> j_State j <> StateFailed ->
    j_ErrorCode j' = j_ErrorCode j /\ j_CompletedAt j' = j_CompletedAt j;
}.

#[export] Instance jrel_refl : Reflexive jrel.
Proof. intros j. by repeat split. Qed.

#[export] Instance jrel_trans : Transitive jrel.
Proof.
  intros j1 j2 j3 [[] S1 R1 E1] [[] S2 R2 E2]. constructor; [constructor; congruence|..].
  - intros Ht. rewrite S2; [by apply S1|]. by rewrite S1.
  - intros Ht. rewrite R2; [by apply R1|]. by rewrite S1.
  - intros Ht Hf. destruct (E1 Ht Hf). destruct E2; [by rewrite S1|by rewrite S1|]. split; congruence.
Qed.

Definition sext (s s' : Store) : Prop :=
  forall id j, jobs s !! id = Some j -> exists j', jobs s' !! id = Some j' /\ jrel j j'.

(** ** The invariant *)

Record lease_ok (j : JobRecord) : Prop := {
  lk_attempt : 0 <= j_Attempt j <= offerAttemptsMax;
  lk_queued : j_State j = StateQueued -> j_Attempt j = 0 /\ j_LeaseID j = None;
  lk_offered : j_State j = StateOffered ->
    1 <= j_Attempt j /\ is_Some (j_LeaseID j) /\ is_Some (j_LeaseExpiresAt j);
}.

Definition owned (j : JobRecord) (e : JobAuditEntry) : Prop :=
  a_TenantID e = j_TenantID j /\ a_EndpointID e = j_EndpointID j /\ a_GrantID e = j_GrantID j.

Record job_ok (id : string) (j : JobRecord) (l : list JobAuditEntry) : Prop := {
  ok_id : j_ID j = id;
  ok_trace : trace l (j_State j);
  ok_owner : Forall (owned j) l;
  ok_lease : lease_ok j;
}.

Record Inv (s : Store) : Prop := {
  inv_job : forall id j, jobs s !! id = Some j -> job_ok id j (entries id s);
  inv_none : forall id, jobs s !! id = None -> entries id s = [];
}.

(** A step keeps the invariant and changes jobs as [jrel] allows. *)
Definition good (s s' : Store) : Prop := Inv s -> Inv s' /\ sext s s'.

#[export] Instance good_refl : Reflexive good.
Proof. intros s Hs. split; [done|]. intros id j Hj. by exists j. Qed.

#[export] Instance good_trans : Transitive good.
Proof.
  intros s1 s2 s3 G1 G2 H1. destruct (G1 H1) as [H2 X12]. destruct (G2 H2) as [H3 X23].
  split; [done|]. intros id j Hj. destruct (X12 _ _ Hj) as (j' & Hj' & R). destruct (X23 _ _ Hj') as (j'' & Hj'' & R').
  exists j''. split; [done|]. by etrans.
Qed.

Lemma good_tables s s' : jobs s' = jobs s -> audit s' = audit s -> good s s'.
Proof.
  intros Hj Ha Hs. split.
  - split; unfold entries; rewrite Hj, Ha; apply Hs.
  - intros id j E. exists j. by rewrite Hj.
Qed.

(** ** The two ways the store changes *)

Lemma entries_record id t e jid g st st' actor d now s :
  entries id (recordAudit t e jid g st st' actor d now s)
  = if decide (jid = id)
    then entries id s ++ [mkAudit (Z.of_nat (S (length (audit s)))) now t e jid g st st' actor d] else entries id s.
Proof.
  unfold entries, recordAudit. cbn [update audit eta_Store]. simpl. rewrite filter_app. simpl.
  rewrite filter_cons, filter_nil. simpl. case_decide; [done|]. by rewrite app_nil_r.
Qed.

(** A job moves along a valid transition and the move is logged. *)
Lemma move_good s id j f actor d now :
  jobs s !! id = Some j -> jrel j (f j) -> IsValidTransition (j_State j) (j_State (f j)) = true -> lease_ok (f j) ->
  good s (recordAudit (j_TenantID j) (j_EndpointID j) id (j_GrantID j) (j_State j) (j_State (f j)) actor d now
            (set_job id f s)).
Proof.
  intros Hj HR Hv Hl Hs. pose proof (inv_job s Hs id j Hj) as [Hid Htr Hown _].
  assert (forall i, jobs (recordAudit (j_TenantID j) (j_EndpointID j) id (j_GrantID j) (j_State j) (j_State (f j))
    actor d now (set_job id f s)) !! i = if decide (i = id) then Some (f j) else jobs s !! i) as Hjobs.
  { intros i. change (alter f id (jobs s) !! i = if decide (i = id) then Some (f j) else jobs s !! i). case_decide as E.
    - rewrite E, lookup_alter_eq, Hj. done.
    - by rewrite lookup_alter_ne. }
  split; [split|].
  - intros i j' Hi. rewrite Hjobs in Hi. rewrite entries_record. change (entries i (set_job id f s)) with (entries i s).
    destruct (decide (i = id)) as [E|E].
    + injection Hi as <-. rewrite decide_True by done. rewrite E. destruct HR as [[] _ _ _].
      constructor; [congruence| | |done].
      * apply (trace_step _ _ (mkAudit _ _ _ _ _ _ _ _ _ _) Htr); [done|done].
      * apply Forall_app. split.
        -- eapply Forall_impl; [exact Hown|]. intros e (H1 & H2 & H3). unfold owned. by rewrite H1, H2, H3.
        -- apply Forall_singleton. unfold owned. simpl. auto.
    + rewrite decide_False by done. by apply Hs.
  - intros i Hi. rewrite Hjobs in Hi. rewrite entries_record. change (entries i (set_job id f s)) with (entries i s).
    destruct (decide (i = id)); [done|]. rewrite decide_False by done. by apply Hs.
  - intros i j' Hi. rewrite Hjobs. destruct (decide (i = id)) as [->|]; [|by exists j'].
    rewrite Hj in Hi. injection Hi as <-. by exists (f j).
Qed.

Lemma move_to s id j f st actor d now :
  Inv s -> jobs s !! id = Some j -> j_State (f j) = st -> jrel j (f j) ->
  IsValidTransition (j_State j) st = true -> lease_ok (f j) ->
  let s' := recordAudit (j_TenantID j) (j_EndpointID j) id (j_GrantID j) (j_State j) st actor d now (set_job id f s) in
  Inv s' /\ sext s s'.
Proof. intros Hs Hj <- HR Hv Hl. by apply move_good. Qed.

(** A job moves without leaving its state: only bookkeeping changes. *)
Lemma note_good s id j actor d now :
  jobs s !! id = Some j ->
  good s (recordAudit (j_TenantID j) (j_EndpointID j) id (j_GrantID j) (j_State j) (j_State j) actor d now s).
Proof.
  intros Hj Hs. pose proof (inv_job s Hs id j Hj) as [Hid Htr Hown Hl].
  split; [split|intros i j' Hi; by exists j'].
  - intros i j' Hi. change (jobs s !! i = Some j') in Hi. rewrite entries_record. case_decide as E; [|by apply Hs].
    subst i. rewrite Hj in Hi. injection Hi as <-. constructor; [done| | |done].
    + apply (trace_step _ _ (mkAudit _ _ _ _ _ _ _ _ _ _) Htr); [done|apply valid_refl].
    + apply Forall_app. split; [done|]. by apply Forall_singleton.
  - intros i Hi. change (jobs s !! i = None) in Hi. rewrite entries_record. case_decide as E; [congruence|by apply Hs].
Qed.

Section Operations.
Context `{C : JobCodec} `{O : RowOrder} `{U : Unicode}.

(** ** Creating *)

Lemma create_good tenant endpoint kind by' g payload key u now s :
  good s (fst (CreateJob tenant endpoint kind by' g payload key u now s)).
Proof.
  unfold CreateJob. destruct g as [g|]; [|done]. destruct (_ || _); [done|].
  set (existing := if String.eqb key EmptyString then None else _). destruct existing; [done|].
  destruct (_ && _); [done|].
  set (id := if Version g =? GrantVersionJob then JobID g else u). destruct (jobs s !! id) as [j|] eqn:Hid; [done|].
  set (job := new_job _ _ _ _ _ _ _ _ _). intros Hs. cbn [fst].
  assert (forall i, jobs (recordAudit tenant endpoint id (GrantID g) no_state StateQueued by' "job created" now
    (s <| jobs ::= insert id job |>)) !! i = if decide (i = id) then Some job else jobs s !! i) as Hjobs.
  { intros i. change (<[id := job]> (jobs s) !! i = if decide (i = id) then Some job else jobs s !! i).
    case_decide as E; [by rewrite E, lookup_insert_eq|by rewrite lookup_insert_ne]. }
  split; [split|].
  - intros i j Hi. rewrite Hjobs in Hi. rewrite entries_record.
    change (entries i (s <| jobs ::= insert id job |>)) with (entries i s).
    destruct (decide (i = id)) as [->|E]; [|rewrite decide_False by done; by apply Hs].
    injection Hi as <-. rewrite decide_True by done. rewrite (inv_none s Hs id Hid). simpl. constructor; [done|..].
    + by apply trace_new.
    + by apply Forall_singleton.
    + split; [by vm_compute|done|done].
  - intros i Hi. rewrite Hjobs in Hi. rewrite entries_record.
    change (entries i (s <| jobs ::= insert id job |>)) with (entries i s).
    destruct (decide (i = id)); [done|]. rewrite decide_False by done. by apply Hs.
  - intros i j Hi. rewrite Hjobs. destruct (decide (i = id)) as [->|]; [congruence|]. by exists j.
Qed.

(** ** Offering *)

Lemma rows_elem s j : Inv s -> j ∈ rows s <-> jobs s !! j_ID j = Some j.
Proof.
  intros Hs. unfold rows. rewrite list_elem_of_fmap. split.
  - intros ([k j'] & -> & Hin). apply elem_of_map_to_list in Hin. simpl.
    pose proof (inv_job s Hs _ _ Hin) as [-> _ _ _]. done.
  - intros Hj. exists (j_ID j, j). split; [done|]. by apply elem_of_map_to_list.
Qed.

Lemma rows_nodup s : Inv s -> NoDup (map j_ID (rows s)).
Proof.
  intros Hs. unfold rows. rewrite map_map.
  assert (map (fun kv => j_ID kv.2) (map_to_list (jobs s)) = (map_to_list (jobs s)).*1) as ->; [|apply NoDup_fst_map_to_list].
  apply list_fmap_ext. intros i [k j] Hi. apply list_elem_of_lookup_2, elem_of_map_to_list in Hi. simpl.
  apply (inv_job s Hs _ _ Hi).
Qed.

Lemma select_by_elem key f s j : Inv s -> j ∈ select_by key f s <-> jobs s !! j_ID j = Some j /\ f j = true.
Proof. intros Hs. unfold select_by. rewrite rows_by_perm, list_elem_of_filter, rows_elem by done. tauto. Qed.

Lemma select_by_nodup key f s : Inv s -> NoDup (map j_ID (select_by key f s)).
Proof.
  intros Hs. assert (map j_ID (select_by key f s) ≡ₚ map j_ID (filter (fun j => f j = true) (rows s))) as ->
    by apply Permutation_map, rows_by_perm.
  eapply sublist_NoDup; [apply (rows_nodup s Hs)|]. apply fmap_sublist, sublist_filter.
Qed.

(** The rows the loop still has to visit are as they were read. *)
Definition unread (items : list JobRecord) (tenant endpoint : string) (now : Z) (s : Store) : Prop :=
  NoDup (map j_ID items) /\
  Forall (fun it => jobs s !! j_ID it = Some it /\ pending tenant endpoint now it = true) items.

Lemma unread_step it items tenant endpoint now s s' :
  unread (it :: items) tenant endpoint now s ->
  (forall i, i <> j_ID it -> jobs s' !! i = jobs s !! i) -> unread items tenant endpoint now s'.
Proof.
  intros [Hn Hf] Hs. apply NoDup_cons in Hn as [Hni Hn]. apply Forall_cons in Hf as [_ Hf]. split; [done|].
  rewrite Forall_forall in Hf |- *. intros x Hx. rewrite Hs; [by apply Hf|].
  intros E. apply Hni. rewrite <- E. by apply list_elem_of_fmap_2.
Qed.

Lemma pending_owner tenant endpoint now j :
  pending tenant endpoint now j = true -> j_TenantID j = tenant /\ j_EndpointID j = endpoint /\
  (j_State j = StateQueued \/ j_State j = StateOffered).
Proof.
  unfold pending. intros Hp. apply andb_true_iff in Hp as [[->%String.eqb_eq ->%String.eqb_eq]%andb_true_iff Hp].
  split; [done|]. split; [done|]. apply orb_true_iff in Hp as [Hp|Hp]; [left|right].
  - by apply bool_decide_eq_true_1 in Hp.
  - apply andb_true_iff in Hp as [Hp _]. by apply bool_decide_eq_true_1 in Hp.
Qed.

Lemma set_job_other id f s i : i <> id -> jobs (set_job id f s) !! i = jobs s !! i.
Proof. intros Hi. change (alter f id (jobs s) !! i = jobs s !! i). by rewrite lookup_alter_ne. Qed.

Lemma set_job_self id f s j : jobs s !! id = Some j -> jobs (set_job id f s) !! id = Some (f j).
Proof. intros Hj. change (alter f id (jobs s) !! id = Some (f j)). by rewrite lookup_alter_eq, Hj. Qed.

Lemma record_jobs t e i g st st' a d now s : jobs (recordAudit t e i g st st' a d now s) = jobs s.
Proof. done. Qed.

(** A change to a job that is not in a terminal state. *)
Lemma open_jrel j j' : is_terminal (j_State j) = false -> same_identity j j' -> jrel j j'.
Proof. intros Ht Hi. constructor; [done|..]; rewrite Ht; done. Qed.

Lemma fail_good it tenant endpoint now d s :
  jobs s !! j_ID it = Some it -> pending tenant endpoint now it = true -> j_State it = StateOffered ->
  good s (recordAudit tenant endpoint (j_ID it) (j_GrantID it) (j_State it) StateFailed "scheduler" d now
            (set_job (j_ID it) (fail_never_taken now) s)).
Proof.
  intros Hj (<- & <- & _)%pending_owner Hst Hs. pose proof (inv_job s Hs _ _ Hj) as [_ _ _ [Ha _ _]].
  apply (move_good s (j_ID it) it (fail_never_taken now)); try done.
  - apply open_jrel; [by rewrite Hst|by split].
  - by rewrite Hst.
Qed.

Lemma lease_good it tenant endpoint leaseID expires now d s :
  jobs s !! j_ID it = Some it -> pending tenant endpoint now it = true ->
  ~ (j_State it = StateOffered /\ offerAttemptsMax <= j_Attempt it) ->
  good s (recordAudit tenant endpoint (j_ID it) (j_GrantID it) (j_State it) StateOffered "scheduler" d now
            (set_job (j_ID it) (lease_out leaseID expires (j_Attempt it + 1) now) s)).
Proof.
  intros Hj (<- & <- & Hst)%pending_owner Hmax Hs. pose proof (inv_job s Hs _ _ Hj) as [_ _ _ [Ha Hq Ho]].
  apply (move_good s (j_ID it) it (lease_out leaseID expires (j_Attempt it + 1) now)); try done.
  - apply open_jrel; [by destruct Hst as [-> | ->]|by split].
  - by destruct Hst as [-> | ->].
  - split; [|done|]; simpl.
    + unfold offerAttemptsMax in *. destruct Hst as [Hst|Hst]; [rewrite (proj1 (Hq Hst)); lia|].
      assert (~ 30 <= j_Attempt it) by (intros E; by apply Hmax). lia.
    + intros _. split; [lia|]. split; by eexists.
Qed.

Lemma offer_loop_good tenant endpoint d now draws items n bytes offers s :
  unread items tenant endpoint now s ->
  good s (fst (offer_loop tenant endpoint d now draws items n bytes offers s)).
Proof.
  revert n bytes offers s. induction items as [|it items IH]; intros n bytes offers s Hun; [done|].
  cbn [offer_loop]. pose proof Hun as [_ Hf]. apply Forall_cons in Hf as [[Hj Hp] _].
  assert (forall s', (forall i, i <> j_ID it -> jobs s' !! i = jobs s !! i) -> unread items tenant endpoint now s') as Hrest
    by (intros s' Hs'; by eapply unread_step).
  destruct (bool_decide (j_State it = StateOffered) && (offerAttemptsMax <=? j_Attempt it)) eqn:Hmax.
  - apply andb_true_iff in Hmax as [Hst%bool_decide_eq_true_1 _].
    etrans; [by apply (fail_good it tenant endpoint now)|]. apply IH, Hrest. intros i Hi. by apply set_job_other.
  - destruct (bool_decide (offers <> []) && _); [done|].
    destruct (unmarshal_request (j_RequestJSON it)) as [[g p]|].
    + etrans; [|apply IH, Hrest; intros i Hi; by apply set_job_other].
      apply lease_good; [done|done|]. intros [E1 E2]. rewrite bool_decide_eq_true_2 in Hmax by done.
      apply andb_false_iff in Hmax as [|Hmax]; [done|]. apply Z.leb_gt in Hmax. lia.
    + by apply IH, Hrest.
Qed.

Lemma offer_unread tenant endpoint n now s :
  Inv s -> unread (take n (select_by j_RequestedAt (pending tenant endpoint now) s)) tenant endpoint now s.
Proof.
  intros Hs. split.
  - eapply sublist_NoDup; [apply (select_by_nodup j_RequestedAt (pending tenant endpoint now) s Hs)|].
    apply fmap_sublist, sublist_take.
  - apply Forall_take, Forall_forall. intros j Hj. by apply (select_by_elem j_RequestedAt) in Hj.
Qed.

Lemma offer_good tenant endpoint k d draws now s :
  good s (fst (OfferPendingJobs tenant endpoint k d draws now s)).
Proof. intros Hs. apply offer_loop_good; [|done]. by apply offer_unread. Qed.

(** ** Reports of an endpoint *)

Lemma leased_inv tenant endpoint id lease now s j :
  leased_job tenant endpoint id lease now s = Ok j ->
  jobs s !! id = Some j /\ j_LeaseID j = Some lease /\
  wrong tenant (j_TenantID j) = false /\ wrong endpoint (j_EndpointID j) = false /\
  (forall e, j_LeaseExpiresAt j = Some e -> now <= e).
Proof.
  unfold leased_job. destruct (jobs s !! id) as [j'|]; [|done]. destruct (j_LeaseID j') as [l|] eqn:Hl; [|done].
  do 2 (case_match; [done|]). case_match eqn:El; [done|]. case_match eqn:Ee; [done|]. intros [= <-]. bools.
  rewrite Hl. split; [done|]. split; [congruence|]. split; [done|]. split; [done|].
  intros e He. rewrite He in Ee. bools. lia.
Qed.

Lemma ack_good tenant endpoint id lease accepted reason now s :
  good s (fst (AcknowledgeJob tenant endpoint id lease accepted reason now s)).
Proof.
  unfold AcknowledgeJob. destruct (leased_job tenant endpoint id lease now s) as [j|e] eqn:Hl; [|done].
  apply leased_inv in Hl as (Hj & _). case_match eqn:Hv; [done|]. apply negb_false_iff in Hv. intros Hs.
  pose proof (inv_job s Hs _ _ Hj) as [_ _ _ [Ha _ _]]. cbn [fst]. destruct accepted.
  - apply move_to; try done. apply open_jrel; [|by split]. destruct (is_terminal (j_State j)) eqn:Ht; [|done].
    apply (terminal_stays _ _ Ht) in Hv. rewrite <- Hv in Ht. done.
  - apply move_to; try done.
    constructor; [by split|..]; simpl; intros Ht; [by apply (terminal_stays _ _ Ht) in Hv|done|].
    intros Hf. by apply (terminal_stays _ _ Ht) in Hv.
Qed.

Lemma progress_good tenant endpoint id lease p now s :
  good s (fst (RecordProgress tenant endpoint id lease p now s)).
Proof.
  unfold RecordProgress. destruct p as [p|]; [|done].
  destruct (leased_job tenant endpoint id lease now s) as [j|e] eqn:Hl; [|done].
  apply leased_inv in Hl as (Hj & _). intros Hs. pose proof (inv_job s Hs _ _ Hj) as [_ _ _ Hlk].
  cbn [fst]. set (f := fun j => if bool_decide (j_State j = StateAcknowledged) then _ else _).
  set (st := if bool_decide (j_State j = StateAcknowledged) then StateRunning else j_State j).
  apply move_to; try done; unfold f, st; case_bool_decide as E.
  - done.
  - done.
  - apply open_jrel; [by rewrite E|by split].
  - by repeat split.
  - by rewrite E.
  - apply valid_refl.
  - destruct Hlk as [Ha _ _]. by split.
  - destruct Hlk. by split.
Qed.

Lemma result_terminal r : is_terminal (result_state r) = true.
Proof. unfold result_state. destruct (is_terminal (res_State r)) eqn:E; [done|]. by case_match. Qed.

Lemma terminal_lease j j' :
  is_terminal (j_State j') = true -> j_Attempt j' = j_Attempt j -> lease_ok j -> lease_ok j'.
Proof. intros Ht Ha [Hb _ _]. split; [by rewrite Ha|..]; intros E; by rewrite E in Ht. Qed.

Lemma complete_good tenant endpoint id lease r now s :
  good s (fst (CompleteJob tenant endpoint id lease r now s)).
Proof.
  unfold CompleteJob. destruct r as [r|]; [|done]. destruct (jobs s !! id) as [j|] eqn:Hj; [|done].
  destruct (j_LeaseID j); [|done]. do 2 (case_match; [done|]). case_match eqn:Ht; [done|]. case_match; [done|].
  case_match eqn:Hv; [done|]. apply negb_false_iff in Hv. intros Hs. pose proof (inv_job s Hs _ _ Hj) as [_ _ _ Hlk].
  cbn [fst]. apply move_to; try done.
  - apply open_jrel; [done|by split].
  - apply (terminal_lease j); [apply (result_terminal r)|done|exact Hlk].
Qed.

(** ** Cancelling and ending *)

Lemma cancel_good tenant id by' now s : good s (fst (CancelJob tenant id by' now s)).
Proof.
  unfold CancelJob. destruct (jobs s !! id) as [j|] eqn:Hj; [|done]. case_match; [done|]. case_match eqn:Ht; [done|].
  set (st := if _ || _ then StateCancelled else StateCancelRequested).
  case_match eqn:Hv; [done|]. apply negb_false_iff in Hv. intros Hs. pose proof (inv_job s Hs _ _ Hj) as [_ _ _ [Ha _ _]].
  cbn [fst]. apply move_to; try done; [apply open_jrel; [done|by split]|].
  split; [done|..]; simpl; unfold st; by case_match.
Qed.

Lemma end_session_good id code detail now s : good s (fst (EndSessionJob id code detail now s)).
Proof.
  unfold EndSessionJob. destruct (jobs s !! id) as [j|] eqn:Hj; [|done]. case_match; [done|].
  set (st := if _ || _ then StateCancelled else _).
  case_match eqn:Hv; [done|]. apply orb_false_iff in Hv as [Hne%bool_decide_eq_false_1 Hv%negb_false_iff].
  intros Hs. pose proof (inv_job s Hs _ _ Hj) as [_ _ _ Hlk]. cbn [fst]. apply move_to; try done.
  - apply open_jrel; [|by split]. destruct (is_terminal (j_State j)) eqn:Ht; [|done].
    apply (terminal_stays _ _ Ht) in Hv. congruence.
  - apply (terminal_lease j); [|done|done]. simpl. unfold st. by repeat case_match.
Qed.

(** ** Supervision and reservations *)

Lemma heartbeat_good tenant endpoint hb now s : good s (fst (RecordHeartbeat tenant endpoint hb now s)).
Proof.
  unfold RecordHeartbeat. destruct hb as [hb|]; [|done]. case_match; [done|].
  destruct (clean hb) as [hb'|e]; [|done]. destruct (jobs s !! hb_JobID hb') as [j|] eqn:Hj; [|done].
  destruct (j_LeaseID j); [|done]. do 3 (case_match; [done|]). case_match eqn:Hr; [done|]. cbn [fst].
  match goal with |- context [s <| progress ::= ?f |>] => set (s1 := s <| progress ::= f |>) end.
  etrans; [apply (good_tables s s1); done|]. change (jobs s1 !! hb_JobID hb' = Some j) in Hj.
  case_bool_decide as E.
  - intros Hs. pose proof (inv_job s1 Hs _ _ Hj) as [_ _ _ [Ha _ _]]. rewrite <- E.
    apply move_to; try done; [|by rewrite E]. apply open_jrel; [by rewrite E|by split].
  - case_match; [|done]. by apply note_good.
Qed.

Lemma reserve_good tenant endpoint digest u now s : good s (fst (ReserveJob tenant endpoint digest u now s)).
Proof. unfold ReserveJob. repeat (case_match; [done|]). case_match; by apply good_tables. Qed.

Lemma take_good id tenant endpoint digest now s : good s (fst (TakeReservation id tenant endpoint digest now s)).
Proof. unfold TakeReservation. repeat case_match; by apply good_tables. Qed.

End Operations.
