(* ===== verification/ResponseProps.v ===== *)
(** * Response jobs: guarantees

    Every sequence of operations leaves an audit log that is a run of the job
    state machine; what is final stays; a job nobody takes is not offered for
    ever; a reserved id is used once. *)

From Stdlib Require Import Ascii String.
From stdpp Require Import gmap.
From S2P Require Import Prelude Canonical Utf8 Response ResponseInv.
Import canonical response.

Section Machine.
Context `{C : JobCodec} `{O : RowOrder} `{U : Unicode}.

(** ** Operations *)

Inductive op : Type :=
| OCreate (tenant endpoint kind requestedBy : string) (grant : option EndpointGrant) (payload key u : string)
| OOffer (tenant endpoint : string) (maxOffers leaseDuration : Z) (draws : nat -> string)
| OAck (tenant endpoint id lease : string) (accepted : bool) (reason : string)
| OProgress (tenant endpoint id lease : string) (p : option JobProgress)
| OComplete (tenant endpoint id lease : string) (r : option JobResult)
| OCancel (tenant id requestedBy : string)
| OEndSession (id errorCode detail : string)
| OHeartbeat (tenant endpoint : string) (hb : option JobHeartbeat)
| OReserve (tenant endpoint digest u : string)
| OTake (id tenant endpoint digest : string).

Definition exec (now : Z) (o : op) (s : Store) : Store :=
  match o with
  | OCreate tenant endpoint kind by' grant payload key u =>
      fst (CreateJob tenant endpoint kind by' grant payload key u now s)
  | OOffer tenant endpoint k d draws => fst (OfferPendingJobs tenant endpoint k d draws now s)
  | OAck tenant endpoint id lease accepted reason => fst (AcknowledgeJob tenant endpoint id lease accepted reason now s)
  | OProgress tenant endpoint id lease p => fst (RecordProgress tenant endpoint id lease p now s)
  | OComplete tenant endpoint id lease r => fst (CompleteJob tenant endpoint id lease r now s)
  | OCancel tenant id by' => fst (CancelJob tenant id by' now s)
  | OEndSession id code detail => fst (EndSessionJob id code detail now s)
  | OHeartbeat tenant endpoint hb => fst (RecordHeartbeat tenant endpoint hb now s)
  | OReserve tenant endpoint digest u => fst (ReserveJob tenant endpoint digest u now s)
  | OTake id tenant endpoint digest => fst (TakeReservation id tenant endpoint digest now s)
  end.

Lemma exec_good now o s : good s (exec now o s).
Proof.
  destruct o; simpl; auto using create_good, offer_good, ack_good, progress_good, complete_good, cancel_good,
    end_session_good, heartbeat_good, reserve_good, take_good.
Qed.

(** A run: operations with the clock readings they take. *)
Definition run (l : list (Z * op)) (s : Store) : Store := fold_left (fun s x => exec x.1 x.2 s) l s.

Lemma run_good l s : good s (run l s).
Proof.
  revert s. induction l as [|[now o] l IH]; intros s; [done|].
  etrans; [apply (exec_good now o)|apply (IH (exec now o s))].
Qed.

Lemma empty_Inv : Inv empty_store.
Proof. split; [|done]. intros id j Hj. done. Qed.

(** C5: refinement of the job state machine. Whatever the operations and
    their order, the audit entries of a job are a run of the state machine
    from its creation to the state its row holds, they carry the job's tenant,
    endpoint and grant, and an id that is no job has no entries. *)
Theorem job_trace l id :
  let s := run l empty_store in
  match jobs s !! id with
  | Some j => trace (entries id s) (j_State j) /\ Forall (owned j) (entries id s) /\ 0 <= j_Attempt j <= offerAttemptsMax
  | None => entries id s = []
  end.
Proof.
  intros s. destruct (run_good l empty_store empty_Inv) as [[Hj Hn] _]. fold s in Hj, Hn.
  destruct (jobs s !! id) as [j|] eqn:E; [|by apply Hn].
  destruct (Hj id j E) as [_ Ht Ho [Ha _ _]]. done.
Qed.

(** A job's outcome is final. Once a job has succeeded, failed or been
    cancelled no operation changes its state, its result, its request or its
    owner, and unless it failed not its error or its completion time either. *)
Theorem job_outcome_final l s id j :
  Inv s -> jobs s !! id = Some j -> is_terminal (j_State j) = true ->
  exists j', jobs (run l s) !! id = Some j' /\ j_State j' = j_State j /\ j_ResultJSON j' = j_ResultJSON j /\
    same_identity j j' /\
    (j_State j <> StateFailed -> j_ErrorCode j' = j_ErrorCode j /\ j_CompletedAt j' = j_CompletedAt j).
Proof.
  intros Hs Hj Ht. destruct (run_good l s Hs) as [_ X]. destruct (X id j Hj) as (j' & Hj' & [Hi Hst Hr He]).
  exists j'. split; [done|]. split; [by apply Hst|]. split; [by apply Hr|]. split; [done|]. by apply He.
Qed.

(** The exception for failed jobs is real. While its lease runs, a job that has
    failed still accepts a rejection, which overwrites the error it failed
    with and the time it failed at. *)
Theorem rejection_rewrites_failure tenant endpoint id lease reason now s j :
  leased_job tenant endpoint id lease now s = Ok j -> j_State j = StateFailed ->
  let '(s', res) := AcknowledgeJob tenant endpoint id lease false reason now s in
  res = Ok tt /\ exists j', jobs s' !! id = Some j' /\ j_State j' = StateFailed /\
    j_ErrorCode j' = Some reason /\ j_CompletedAt j' = Some now.
Proof.
  intros Hl Hst. unfold AcknowledgeJob. rewrite Hl, Hst. cbn [IsValidTransition negb].
  apply leased_inv in Hl as (Hj & _). split; [done|]. eexists. split; [rewrite record_jobs; by apply set_job_self|done].
Qed.

(** ** Reports *)

(** The tenant, endpoint, job and lease an endpoint's report names. *)
Definition report_of (o : op) : option (string * string * string * string) :=
  match o with
  | OAck tenant endpoint id lease _ _ | OProgress tenant endpoint id lease _ | OComplete tenant endpoint id lease _ =>
      Some (tenant, endpoint, id, lease)
  | OHeartbeat tenant endpoint (Some hb) => Some (tenant, endpoint, hb_JobID hb, hb_LeaseID hb)
  | _ => None
  end.

(** Whether the report is answered with an error. *)
Definition refused (now : Z) (o : op) (s : Store) : bool :=
  match o with
  | OAck tenant endpoint id lease accepted reason =>
      negb (is_ok (snd (AcknowledgeJob tenant endpoint id lease accepted reason now s)))
  | OProgress tenant endpoint id lease p => negb (is_ok (snd (RecordProgress tenant endpoint id lease p now s)))
  | OComplete tenant endpoint id lease r => negb (is_ok (snd (CompleteJob tenant endpoint id lease r now s)))
  | OHeartbeat tenant endpoint hb => negb (is_ok (snd (RecordHeartbeat tenant endpoint hb now s)))
  | _ => false
  end.

(** The report comes from another tenant, another endpoint or under another
    lease than the job's. *)
Definition foreign (tenant endpoint lease : string) (j : JobRecord) : Prop :=
  wrong tenant (j_TenantID j) = true \/ wrong endpoint (j_EndpointID j) = true \/ j_LeaseID j <> Some lease.

Lemma foreign_checks tenant endpoint lease j l :
  foreign tenant endpoint lease j -> j_LeaseID j = Some l ->
  wrong tenant (j_TenantID j) || wrong endpoint (j_EndpointID j) || negb (String.eqb l lease) = true.
Proof.
  intros [-> |[-> |W]] E; rewrite ?orb_true_r; [done..|].
  destruct (String.eqb_spec l lease); [congruence|]. by rewrite orb_true_r.
Qed.

Lemma foreign_not_leased tenant endpoint id lease now s :
  (forall j, jobs s !! id = Some j -> foreign tenant endpoint lease j) ->
  exists e, leased_job tenant endpoint id lease now s = Err e.
Proof.
  intros F. unfold leased_job. destruct (jobs s !! id) as [j|]; [|eauto].
  destruct (j_LeaseID j) as [l|] eqn:L; [|eauto]. pose proof (foreign_checks _ _ _ j l (F j eq_refl) L) as W.
  destruct (wrong tenant _); [eauto|]. destruct (wrong endpoint _); [eauto|]. simpl in W. rewrite W. eauto.
Qed.

Lemma clean_ids hb hb' : clean hb = Ok hb' -> hb_JobID hb' = hb_JobID hb /\ hb_LeaseID hb' = hb_LeaseID hb.
Proof. unfold clean. intros H. repeat case_match; by inversion H. Qed.

(** C32: a report that names another tenant or endpoint than the job's, another
    lease than the one the job is out on, or no job, is answered with an error
    and changes nothing in the store. The one exception: the completion of a job
    that has already ended, by its own tenant and endpoint under another lease,
    is answered without an error, and changes nothing either. *)
Theorem foreign_report_refused now o s tenant endpoint id lease :
  report_of o = Some (tenant, endpoint, id, lease) ->
  (forall j, jobs s !! id = Some j -> foreign tenant endpoint lease j) ->
  exec now o s = s /\
  (refused now o s = true \/
   exists r j, o = OComplete tenant endpoint id lease (Some r) /\ jobs s !! id = Some j /\ is_terminal (j_State j) = true /\
     wrong tenant (j_TenantID j) = false /\ wrong endpoint (j_EndpointID j) = false /\ j_LeaseID j <> Some lease).
Proof.
  intros R F. destruct (foreign_not_leased tenant endpoint id lease now s F) as [e L].
  destruct o as [| |t ep i l accepted reason|t ep i l p|t ep i l r| | |t ep [hb|]| |]; try done; injection R as -> -> Hi Hl;
    simpl; subst.
  - unfold AcknowledgeJob. rewrite L. auto.
  - unfold RecordProgress. destruct p; [rewrite L|]; auto.
  - unfold CompleteJob. destruct r as [r|]; [|auto]. destruct (jobs s !! id) as [j|] eqn:J; [|auto].
    destruct (j_LeaseID j) as [l|] eqn:Lj; [|auto]. pose proof (foreign_checks _ _ _ j l (F j eq_refl) Lj) as W.
    destruct (wrong tenant _) eqn:Wt; [auto|]. destruct (wrong endpoint _) eqn:We; [auto|]. simpl in W. rewrite W.
    destruct (is_terminal (j_State j)) eqn:T; [|auto]. split; [done|]. right. exists r, j. repeat (split; [done|]).
    destruct (String.eqb_spec l lease); [done|]. congruence.
  - unfold RecordHeartbeat. destruct (_ || _); [auto|]. destruct (clean hb) as [hb'|] eqn:K; [|auto].
    destruct (clean_ids hb hb' K) as [-> ->]. destruct (jobs s !! hb_JobID hb) as [j|] eqn:J; [|auto].
    destruct (j_LeaseID j) as [l|] eqn:Lj; [|auto]. pose proof (foreign_checks _ _ _ j l (F j eq_refl) Lj) as W.
    destruct (wrong tenant _); [auto|]. destruct (wrong endpoint _); [auto|]. simpl in W. rewrite W. auto.
Qed.

(** ** Offers *)

(** The loop leaves alone what it does not visit, and creates nothing. *)
Lemma offer_loop_other tenant endpoint d now draws items n bytes offers s id :
  id ∉ map j_ID items -> jobs (fst (offer_loop tenant endpoint d now draws items n bytes offers s)) !! id = jobs s !! id.
Proof.
  revert n bytes offers s. induction items as [|it items IH]; intros n bytes offers s Hn; [done|].
  cbn [map] in Hn. apply not_elem_of_cons in Hn as [Hne Hn]. cbn [offer_loop].
  repeat case_match; try done; rewrite IH by done; rewrite ?record_jobs; try done; by apply set_job_other.
Qed.

Lemma set_job_none id i f s : jobs s !! i = None -> jobs (set_job id f s) !! i = None.
Proof. intros Hi. change (alter f id (jobs s) !! i = None). by apply lookup_alter_None. Qed.

Lemma offer_loop_none tenant endpoint d now draws items n bytes offers s id :
  jobs s !! id = None -> jobs (fst (offer_loop tenant endpoint d now draws items n bytes offers s)) !! id = None.
Proof.
  revert n bytes offers s. induction items as [|it items IH]; intros n bytes offers s Hn; [done|].
  cbn [offer_loop]. repeat case_match; try done; apply IH; try done; rewrite record_jobs; by apply set_job_none.
Qed.

Definition of_endpoint (tenant endpoint : string) (j : JobRecord) : Prop :=
  j_TenantID j = tenant /\ j_EndpointID j = endpoint.

(** The job was asked for before every other job of its endpoint that has not
    ended. *)
Definition oldest (tenant endpoint id : string) (s : Store) : Prop :=
  exists j, jobs s !! id = Some j /\ of_endpoint tenant endpoint j /\
    forall i j', i <> id -> jobs s !! i = Some j' -> of_endpoint tenant endpoint j' -> is_terminal (j_State j') = false ->
      j_RequestedAt j < j_RequestedAt j'.

(** The oldest pending job heads the rows read. *)
Lemma oldest_head tenant endpoint id now s j :
  Inv s -> oldest tenant endpoint id s -> jobs s !! id = Some j -> pending tenant endpoint now j = true ->
  exists rest, select_by j_RequestedAt (pending tenant endpoint now) s = j :: rest.
Proof.
  intros Hs (j0 & Hj0 & Ho & Hold) Hj Hp. rewrite Hj in Hj0. injection Hj0 as <-.
  pose proof (inv_job s Hs id j Hj) as [Hid _ _ _].
  assert (j ∈ select_by j_RequestedAt (pending tenant endpoint now) s) as Hin
    by (apply select_by_elem; [done|]; by rewrite Hid).
  pose proof (rows_by_sorted j_RequestedAt (filter (fun j => pending tenant endpoint now j = true) (rows s))) as Hsort.
  fold (select_by j_RequestedAt (pending tenant endpoint now) s) in Hsort.
  destruct (select_by j_RequestedAt (pending tenant endpoint now) s) as [|h rest] eqn:Esel; [by apply not_elem_of_nil in Hin|].
  apply StronglySorted_inv in Hsort as [_ Hall]. exists rest. f_equal.
  apply elem_of_cons in Hin as [<-|Hin]; [done|]. exfalso.
  assert (h ∈ select_by j_RequestedAt (pending tenant endpoint now) s) as Hh by (rewrite Esel; by left).
  apply select_by_elem in Hh as [Hh Hph]; [|done]. apply pending_owner in Hph as (Ht & He & Hst).
  rewrite Forall_forall in Hall. specialize (Hall j Hin). simpl in Hall.
  destruct (decide (j_ID h = id)) as [E|E].
  - pose proof (select_by_nodup j_RequestedAt (pending tenant endpoint now) s Hs) as Hnd. rewrite Esel in Hnd.
    cbn [map] in Hnd. apply NoDup_cons in Hnd as [Hnh _]. apply Hnh. rewrite E, <- Hid. by apply list_elem_of_fmap_2.
  - assert (j_RequestedAt j < j_RequestedAt h) by (apply (Hold (j_ID h)); [done|done|by split|by destruct Hst as [-> | ->]]). lia.
Qed.

Lemma offer_limit k : exists n, Z.to_nat (if (k <=? 0) || (10 <? k) then 4 else k) = S n.
Proof. case_match eqn:E; [by exists 3%nat|]. bools. exists (Z.to_nat (k - 1)). lia. Qed.

(** The lease a call gives. *)
Definition lease_for (d : Z) : Z := if d <=? 0 then 2 * Minute else d.

(** What a call does to the oldest pending job. *)
Lemma offer_oldest tenant endpoint id k d draws now s j g p :
  Inv s -> oldest tenant endpoint id s -> jobs s !! id = Some j -> pending tenant endpoint now j = true ->
  unmarshal_request (j_RequestJSON j) = Some (g, p) ->
  jobs (fst (OfferPendingJobs tenant endpoint k d draws now s)) !! id =
    Some (if bool_decide (j_State j = StateOffered) && (offerAttemptsMax <=? j_Attempt j)
          then fail_never_taken now j else lease_out (draws 0%nat) (now + lease_for d) (j_Attempt j + 1) now j).
Proof.
  intros Hs Hold Hj Hp Hdec. pose proof (inv_job s Hs id j Hj) as [Hid _ _ _].
  unfold OfferPendingJobs. fold (lease_for d). destruct (offer_limit k) as [n ->].
  pose proof (select_by_nodup j_RequestedAt (pending tenant endpoint now) s Hs) as Hnd.
  destruct (oldest_head tenant endpoint id now s j Hs Hold Hj Hp) as [rest Hsel]. rewrite Hsel in Hnd |- *.
  cbn [map] in Hnd. apply NoDup_cons in Hnd as [Hni _].
  assert (id ∉ map j_ID (take n rest)) as Hnot.
  { intros Hin. apply Hni. rewrite Hid. apply list_elem_of_fmap in Hin as (x & -> & Hx). apply list_elem_of_fmap_2.
    by eapply elem_of_sublist, sublist_take. }
  cbn [take offer_loop]. rewrite Hid, Hdec. case_match.
  - rewrite offer_loop_other, record_jobs by done. by apply set_job_self.
  - cbn [bool_decide andb]. rewrite bool_decide_eq_false_2 by (by intros []). cbn [andb].
    rewrite offer_loop_other, record_jobs by done. by apply set_job_self.
Qed.

(** A call does not touch a job it does not find pending. *)
Lemma offer_skips tenant endpoint id k d draws now s j :
  Inv s -> jobs s !! id = Some j -> pending tenant endpoint now j = false ->
  jobs (fst (OfferPendingJobs tenant endpoint k d draws now s)) !! id = Some j.
Proof.
  intros Hs Hj Hp. unfold OfferPendingJobs. rewrite offer_loop_other; [done|]. intros Hin.
  apply list_elem_of_fmap in Hin as (x & Hx & Hin). eapply elem_of_sublist in Hin; [|apply sublist_take].
  apply select_by_elem in Hin as [Hx' Hp']; [|done]. rewrite <- Hx in Hx'. congruence.
Qed.

(** The job an operation names, other than by offering or creating it. *)
Definition names (o : op) : option string :=
  match o with
  | OAck _ _ id _ _ _ | OProgress _ _ id _ _ | OComplete _ _ id _ _ | OCancel _ id _ | OEndSession id _ _ => Some id
  | OHeartbeat _ _ (Some hb) => Some (hb_JobID hb)
  | _ => None
  end.

Lemma jobs_record_set id f t e jid g st st' a d now s i :
  (i <> id -> jobs (recordAudit t e jid g st st' a d now (set_job id f s)) !! i = jobs s !! i)
  /\ (jobs s !! i = None -> jobs (recordAudit t e jid g st st' a d now (set_job id f s)) !! i = None).
Proof. rewrite record_jobs. split; [apply set_job_other|apply set_job_none]. Qed.

(** An operation that neither offers nor creates changes at most the job it
    names. *)
Lemma exec_elsewhere now o s i :
  match o with
  | OCreate _ _ _ _ _ _ _ _ | OOffer _ _ _ _ _ => True
  | _ => (names o <> Some i -> jobs (exec now o s) !! i = jobs s !! i) /\ (jobs s !! i = None -> jobs (exec now o s) !! i = None)
  end.
Proof.
  assert (Y : forall id, Some id <> Some i -> i <> id) by congruence.
  destruct o as [| |t e id l acc why|t e id l p|t e id l r|t id by'|id c d|t e hb|t e d u|id t e d]; try done; cbn [names exec].
  - unfold AcknowledgeJob. repeat (case_match; try done); cbn [fst];
      (split; [intros Ne%Y; by apply jobs_record_set|by apply jobs_record_set]).
  - unfold RecordProgress. repeat (case_match; try done); cbn [fst];
      (split; [intros Ne%Y; by apply jobs_record_set|by apply jobs_record_set]).
  - unfold CompleteJob. repeat (case_match; try done); cbn [fst];
      (split; [intros Ne%Y; by apply jobs_record_set|by apply jobs_record_set]).
  - unfold CancelJob. repeat (case_match; try done); cbn [fst];
      (split; [intros Ne%Y; by apply jobs_record_set|by apply jobs_record_set]).
  - unfold EndSessionJob. destruct (jobs s !! id); [|done]. do 2 (destruct (_ : bool); [done|]). cbn [fst].
    split; [intros Ne%Y; by apply jobs_record_set|by apply jobs_record_set].
  - destruct hb as [hb|]; [|done]. unfold RecordHeartbeat. destruct (_ || _); [done|].
    destruct (clean hb) as [hb'|] eqn:K; [|done]. destruct (clean_ids hb hb' K) as [-> ->].
    destruct (jobs s !! hb_JobID hb) as [j|]; [|done]. destruct (j_LeaseID j); [|done]. do 4 (destruct (_ : bool); [done|]). cbn [fst].
    case_bool_decide; [|by case_match]. set (s1 := s <| progress ::= _ |>). change (jobs s) with (jobs s1).
    split; [intros Ne%Y; by apply jobs_record_set|by apply jobs_record_set].
  - unfold ReserveJob. repeat (case_match; try done).
  - unfold TakeReservation. repeat (case_match; try done).
Qed.

(** Only a creation adds a job, of the endpoint and the time it was asked at. *)
Lemma exec_adds now o s i j' :
  jobs s !! i = None -> jobs (exec now o s) !! i = Some j' ->
  j_RequestedAt j' = now /\ exists kind by' g payload key u, o = OCreate (j_TenantID j') (j_EndpointID j') kind by' g payload key u.
Proof.
  intros N E. pose proof (exec_elsewhere now o s i) as X. destruct o as [t e k by' g pay key u|t e k d draws| | | | | | | |];
    try (destruct X as [_ X]; rewrite X in E by done; done); cbn [exec] in E.
  - unfold CreateJob in E. destruct g as [g|]; [|cbn in E; congruence]. destruct (_ || _); [cbn in E; congruence|].
    destruct (if String.eqb key EmptyString then None else _); [cbn in E; congruence|]. destruct (_ && _); [cbn in E; congruence|].
    set (id := if Version g =? GrantVersionJob then JobID g else u) in *. destruct (jobs s !! id); [cbn in E; congruence|].
    set (job := new_job _ _ _ _ _ _ _ _ _) in *. change (<[id := job]> (jobs s) !! i = Some j') in E.
    apply lookup_insert_Some in E as [[_ <-]|[_ E]]; [|congruence]. split; [done|]. by exists k, by', (Some g), pay, key, u.
  - unfold OfferPendingJobs in E. by rewrite offer_loop_none in E.
Qed.

Lemma create_keeps t e k by' g pay key u now s i j :
  jobs s !! i = Some j -> jobs (fst (CreateJob t e k by' g pay key u now s)) !! i = Some j.
Proof.
  intros E. unfold CreateJob. destruct g as [g|]; [|done]. destruct (_ || _); [done|].
  destruct (if String.eqb key EmptyString then None else _); [done|]. destruct (_ && _); [done|].
  set (id := if Version g =? GrantVersionJob then JobID g else u) in *. destruct (jobs s !! id) eqn:F; [done|].
  set (job := new_job _ _ _ _ _ _ _ _ _). change (<[id := job]> (jobs s) !! i = Some j).
  rewrite lookup_insert_ne; congruence.
Qed.

(** ** A job nobody takes *)

Section Untaken.

Context (tenant endpoint id : string).

(** The lease asked for, when an operation is a call for the endpoint. *)
Definition calls (o : op) : option Z :=
  match o with OOffer t e _ d _ => if String.eqb t tenant && String.eqb e endpoint then Some d else None | _ => None end.

Definition count_calls (l : list (Z * op)) : nat := length (omap (fun x => calls x.2) l).

(** Nothing names the job, and other jobs of the endpoint are asked for later. *)
Definition undisturbed (at_ : Z) (x : Z * op) : Prop :=
  names x.2 <> Some id /\
  match x.2 with OCreate t e _ _ _ _ _ _ => t = tenant -> e = endpoint -> at_ < x.1 | _ => True end.

(** Every call for the endpoint comes after the lease of the one before has
    run out; [out] is the end of the last one. *)
Fixpoint spaced (out : option Z) (l : list (Z * op)) : Prop :=
  match l with
  | [] => True
  | x :: l' =>
    match calls x.2 with
    | Some d => match out with Some t => t < x.1 | None => True end /\ spaced (Some (x.1 + lease_for d)) l'
    | None => spaced out l'
    end
  end.

Definition given_up (s : Store) : Prop :=
  exists j, jobs s !! id = Some j /\ j_State j = StateFailed /\ j_ErrorCode j = Some ErrNeverTaken /\
    j_Attempt j = offerAttemptsMax.

(** The job was leased [n] times, the last time until [out]. *)
Definition leased (n : nat) (out : option Z) (s : Store) : Prop :=
  exists j, jobs s !! id = Some j /\ j_Attempt j = Z.of_nat n
  /\ match out with
     | None => j_State j = StateQueued /\ n = 0%nat
     | Some t => j_State j = StateOffered /\ j_LeaseExpiresAt j = Some t /\ n <> 0%nat
     end.

(** The job waits at the head of the queue of its endpoint. *)
Record heads (at_ : Z) (s : Store) : Prop := {
  hd_inv : Inv s;
  hd_oldest : oldest tenant endpoint id s;
  hd_asked : exists j g p, jobs s !! id = Some j /\ j_RequestedAt j = at_ /\ unmarshal_request (j_RequestJSON j) = Some (g, p);
}.

Lemma heads_exec at_ x s : heads at_ s -> undisturbed at_ x -> heads at_ (exec x.1 x.2 s).
Proof.
  destruct x as [now o]. cbn [fst snd]. intros [Hs (j & Hj & Ho & Hold) (j' & g & p & Hj' & Ha & Hd)] [_ N]. cbn [fst snd] in N.
  rewrite Hj in Hj'. injection Hj' as <-. destruct (exec_good now o s Hs) as [Hs' X].
  destruct (X id j Hj) as (j1 & Hj1 & [I _ _ _]). split; [done| |].
  - exists j1. split; [done|]. destruct I as [_ It Ie _ Ir _ _ _ _]. unfold of_endpoint in *. split; [split; [rewrite It|rewrite Ie]; apply Ho|].
    intros i j2 Hi Hj2 Ho2 Te. rewrite Ir, Ha. destruct (jobs s !! i) as [j0|] eqn:E.
    + destruct (X i j0 E) as (j3 & Hj3 & [[_ It3 Ie3 _ Ir3 _ _ _ _] St _ _]). rewrite Hj2 in Hj3. injection Hj3 as <-. rewrite Ir3, <- Ha.
      apply (Hold i); [done|done|destruct Ho2; split; congruence|]. destruct (is_terminal (j_State j0)) eqn:T0; [|done].
      rewrite (St eq_refl) in Te. congruence.
    + destruct (exec_adds now o s i j2 E Hj2) as (-> & k & by' & g' & pay & key & u & ->). destruct Ho2. by apply N.
  - exists j1, g, p. split; [done|]. split; [by rewrite (id_RequestedAt _ _ I)|by rewrite (id_RequestJSON _ _ I)].
Qed.

Lemma not_called now o s j :
  Inv s -> jobs s !! id = Some j -> names o <> Some id -> (calls o = None -> of_endpoint tenant endpoint j) ->
  (calls o = None \/ pending tenant endpoint now j = false) -> jobs (exec now o s) !! id = Some j.
Proof.
  intros Hs Hj Hn Ho Hc. pose proof (exec_elsewhere now o s id) as X. destruct o as [t e k by' g pay key u|t e k d draws| | | | | | | |];
    try (destruct X as [X _]; by rewrite X); cbn [exec].
  - by apply create_keeps.
  - apply offer_skips; [done..|]. cbn in Hc, Ho. destruct (String.eqb_spec t tenant) as [->|Nt], (String.eqb_spec e endpoint) as [->|Ne]; cbn in *;
      try (by destruct Hc); destruct (Ho eq_refl) as [<- <-]; unfold pending; apply not_eq_sym, String.eqb_neq in Nt || apply not_eq_sym, String.eqb_neq in Ne;
      rewrite ?Nt, ?Ne, ?andb_false_r; done.
Qed.

Lemma given_up_exec at_ x s : heads at_ s -> undisturbed at_ x -> given_up s -> given_up (exec x.1 x.2 s).
Proof.
  destruct x as [now o]. intros [Hs (j0 & Hj0 & Ho & _) _] [N _] (j & Hj & St & R). exists j. split; [|done]. cbn [fst snd] in *.
  apply not_called; [done..|by assert (j = j0) as -> by congruence|]. right. unfold pending. rewrite St. cbn. by rewrite andb_false_r.
Qed.

Lemma leased_quiet at_ x s n out :
  heads at_ s -> undisturbed at_ x -> calls x.2 = None -> leased n out s -> leased n out (exec x.1 x.2 s).
Proof.
  destruct x as [now o]. intros [Hs (j0 & Hj0 & Ho & _) _] [N _] Hc (j & Hj & R). exists j. split; [|done]. cbn [fst snd] in *.
  apply not_called; [done..|by assert (j = j0) as -> by congruence|by left].
Qed.

Lemma leased_call at_ now o d s n out :
  heads at_ s -> calls o = Some d -> leased n out s -> match out with Some t => t < now | None => True end ->
  if (n <? 30)%nat then leased (S n) (Some (now + lease_for d)) (exec now o s) else given_up (exec now o s).
Proof.
  intros [Hs Hold (j & g & p & Hj & _ & Hd)] Hc (j' & Hj' & Ha & Hst) Hout. rewrite Hj in Hj'. injection Hj' as <-.
  destruct o as [|t e k d' draws| | | | | | | |]; try done. cbn in Hc. destruct (String.eqb_spec t tenant) as [->|]; [|done].
  destruct (String.eqb_spec e endpoint) as [->|]; [|done]. injection Hc as ->. cbn [exec].
  assert (of_endpoint tenant endpoint j) as [Ht He] by (destruct Hold as (j0 & Hj0 & Ho & _); congruence).
  assert (pending tenant endpoint now j = true) as Hp.
  { unfold pending. rewrite Ht, He, !String.eqb_refl. destruct out as [t|]; [|by destruct Hst as [-> _]].
    destruct Hst as (-> & -> & _). cbn. by apply Z.ltb_lt. }
  pose proof (offer_oldest tenant endpoint id k d draws now s j g p Hs Hold Hj Hp Hd) as Hn.
  pose proof (inv_job s Hs id j Hj) as [_ _ _ [Hb _ _]]. unfold offerAttemptsMax in Hn, Hb.
  assert (bool_decide (j_State j = StateOffered) && (30 <=? j_Attempt j) = negb (n <? 30)%nat) as Hq.
  { rewrite Ha. destruct out as [t|]; [destruct Hst as (-> & _)|destruct Hst as [-> ->]; done].
    rewrite bool_decide_true by done. cbn [andb]. destruct (Nat.ltb_spec n 30); cbn [negb]; [apply Z.leb_gt|apply Z.leb_le]; lia. }
  rewrite Hq in Hn. destruct (Nat.ltb_spec n 30); cbn [negb] in Hn.
  - eexists. split; [exact Hn|]. split; [cbn; lia|]. done.
  - eexists. split; [exact Hn|]. split; [done|]. split; [done|]. cbn. unfold offerAttemptsMax. lia.
Qed.

Lemma heads_run at_ l : forall s, heads at_ s -> Forall (undisturbed at_) l -> given_up s -> given_up (run l s).
Proof.
  induction l as [|x l IH]; intros s Hh Hf Hg; [done|]. apply Forall_cons in Hf as [Hx Hf]. cbn [run fold_left].
  apply IH; [by apply heads_exec|done|by eapply given_up_exec].
Qed.

Lemma untaken at_ l : forall s n out, heads at_ s -> Forall (undisturbed at_) l -> spaced out l -> leased n out s -> (n <= 30)%nat ->
  if (n + count_calls l <=? 30)%nat
  then exists out', leased (n + count_calls l) out' (run l s) else given_up (run l s).
Proof.
  induction l as [|x l IH]; intros s n out Hh Hf Hsp Hl Hn.
  { rewrite Nat.add_0_r. apply Nat.leb_le in Hn. rewrite Hn. by exists out. }
  apply Forall_cons in Hf as [Hx Hf]. pose proof (heads_exec at_ x s Hh Hx) as Hh'. cbn [spaced] in Hsp. cbn [run fold_left].
  unfold count_calls. cbn [omap list_omap]. destruct (calls x.2) as [d|] eqn:Hc.
  - destruct Hsp as [Ho Hsp]. pose proof (leased_call at_ x.1 x.2 d s n out Hh Hc Hl Ho) as Hs.
    cbn [length]. fold (count_calls l). destruct (Nat.ltb_spec n 30).
    + rewrite <- Nat.add_succ_comm. by eapply IH.
    + replace (n + S (count_calls l) <=? 30)%nat with false by (symmetry; apply Nat.leb_gt; lia). by eapply heads_run.
  - fold (count_calls l). eapply IH; [done..|by eapply leased_quiet|done].
Qed.

End Untaken.

(** C33: a job nobody takes is given up. Let a queued job have been asked for
    before every job of its endpoint that has not ended, and let nothing name it
    from then on, no acknowledgement, progress, result, heartbeat, cancellation
    or end of session, while any other operations go on, creations for its
    endpoint later than its own and offers to its endpoint with any parameters,
    each after the lease of the one before ran out. Then every one of the first
    thirty offers leases it, and the next one fails it with its reason, and it
    stays failed. *)
Theorem never_taken_fails tenant endpoint id l s j g p :
  Inv s -> oldest tenant endpoint id s -> jobs s !! id = Some j -> j_State j = StateQueued ->
  unmarshal_request (j_RequestJSON j) = Some (g, p) ->
  Forall (undisturbed tenant endpoint id (j_RequestedAt j)) l -> spaced tenant endpoint None l ->
  if (count_calls tenant endpoint l <=? 30)%nat
  then exists out, leased id (count_calls tenant endpoint l) out (run l s)
  else given_up id (run l s).
Proof.
  intros Hs Hold Hj Hst Hdec Hf Hsp. pose proof (inv_job s Hs id j Hj) as [_ _ _ [_ Hq _]]. destruct (Hq Hst) as [Ha _].
  apply (untaken tenant endpoint id (j_RequestedAt j) l s 0 None); [split; [done|done|by exists j, g, p]|done|done| |lia].
  exists j. split; [done|]. split; [by rewrite Ha|done].
Qed.

(** ** Reservations *)

Definition reserves (id : string) (o : op) : bool :=
  match o with OReserve _ _ _ u => String.eqb u id | _ => false end.

Lemma offer_loop_reservations tenant endpoint d now draws items n bytes offers s :
  reservations (fst (offer_loop tenant endpoint d now draws items n bytes offers s)) = reservations s.
Proof.
  revert n bytes offers s. induction items as [|it items IH]; intros n bytes offers s; [done|].
  cbn [offer_loop]. repeat case_match; try done; by rewrite IH.
Qed.

Lemma exec_unreserved now o s id :
  reserves id o = false -> reservations s !! id = None -> reservations (exec now o s) !! id = None.
Proof.
  intros Hr Hn. destruct o; simpl in *.
  - unfold CreateJob. by repeat case_match.
  - unfold OfferPendingJobs. by rewrite offer_loop_reservations.
  - unfold AcknowledgeJob. by repeat case_match.
  - unfold RecordProgress. by repeat case_match.
  - unfold CompleteJob. by repeat case_match.
  - unfold CancelJob. by repeat case_match.
  - unfold EndSessionJob. by repeat case_match.
  - unfold RecordHeartbeat. destruct hb; [|done]. case_match; [done|]. destruct (clean j); [|done].
    destruct (jobs s !! _); [|done]. destruct (j_LeaseID _); [|done]. repeat (case_match; [done|]). cbn [fst].
    repeat case_match; done.
  - apply String.eqb_neq in Hr. unfold ReserveJob. case_match; [done|].
    assert (reservations (s <| reservations ::= filter (fun kv => now <= rv_ExpiresAt kv.2) |>) !! id = None) as Hf.
    { change (filter (fun kv => now <= rv_ExpiresAt kv.2) (reservations s) !! id = None).
      apply map_lookup_filter_None. by left. }
    case_match; [done|]. cbn [fst]. set (s' := s <| reservations ::= _ |>) in *.
    set (r := mkReservation u _ _ _ _). change (<[u := r]> (reservations s') !! id = None). by rewrite lookup_insert_ne.
  - unfold TakeReservation. case_match; [|done]. repeat case_match; cbn [fst];
      change (delete id0 (reservations s) !! id = None); by apply lookup_delete_None; right.
Qed.

Lemma run_unreserved l s id :
  Forall (fun x => reserves id x.2 = false) l -> reservations s !! id = None -> reservations (run l s) !! id = None.
Proof.
  intros Hl. revert s. induction Hl as [|[now o] l Ho Hl IH]; intros s Hn; [done|].
  apply IH. by apply exec_unreserved.
Qed.

(** A reserved job id is used once. Taking it succeeds only while it is
    live and for the tenant, endpoint and payload digest it was reserved for;
    and whatever that call answered, no later call gets the id until it is
    reserved again. *)
Theorem reservation_one_use id tenant endpoint digest now s l tenant' endpoint' digest' now' :
  Forall (fun x => reserves id x.2 = false) l ->
  (snd (TakeReservation id tenant endpoint digest now s) = Ok tt ->
   exists r, reservations s !! id = Some r /\ rv_TenantID r = tenant /\ rv_EndpointID r = endpoint /\
     EqualFold (rv_ActionDigest r) digest = true /\ now <= rv_ExpiresAt r) /\
  snd (TakeReservation id tenant' endpoint' digest' now'
         (run l (fst (TakeReservation id tenant endpoint digest now s)))) = Err ErrReservationUnknown.
Proof.
  intros Hl. split.
  - unfold TakeReservation. destruct (reservations s !! id) as [r|]; [|done]. case_match eqn:He; [done|].
    case_match eqn:Hm; [done|]. intros _. exists r. split; [done|].
    apply orb_false_iff in Hm as [[Ht He']%orb_false_iff Hd]. bools. done.
  - assert (reservations (fst (TakeReservation id tenant endpoint digest now s)) !! id = None) as Hn.
    { unfold TakeReservation. destruct (reservations s !! id) as [r|] eqn:E; [|done].
      repeat case_match; cbn [fst]; change (delete id (reservations s) !! id = None); apply lookup_delete_eq. }
    unfold TakeReservation at 1. by rewrite (run_unreserved l _ id Hl Hn).
Qed.

(** ** Idempotency keys *)

Definition creates (o : op) : bool := match o with OCreate _ _ _ _ _ _ _ _ => true | _ => false end.

Lemma exec_none now o s i : creates o = false -> jobs s !! i = None -> jobs (exec now o s) !! i = None.
Proof.
  intros Hc Hn. destruct o; simpl in *; try done.
  - unfold OfferPendingJobs. by apply offer_loop_none.
  - unfold AcknowledgeJob. repeat case_match; try done; cbn [fst]; rewrite record_jobs; by apply set_job_none.
  - unfold RecordProgress. repeat case_match; try done; cbn [fst]; rewrite record_jobs; by apply set_job_none.
  - unfold CompleteJob. repeat case_match; try done; cbn [fst]; rewrite record_jobs; by apply set_job_none.
  - unfold CancelJob. repeat case_match; try done; cbn [fst]; rewrite record_jobs; by apply set_job_none.
  - unfold EndSessionJob. repeat case_match; try done; cbn [fst]; rewrite record_jobs; by apply set_job_none.
  - unfold RecordHeartbeat. destruct hb; [|done]. case_match; [done|]. destruct (clean j); [|done].
    destruct (jobs s !! hb_JobID _); [|done]. destruct (j_LeaseID _); [|done]. repeat (case_match; [done|]). cbn [fst].
    repeat case_match; try done; rewrite record_jobs; by apply set_job_none.
  - unfold ReserveJob. by repeat case_match.
  - unfold TakeReservation. by repeat case_match.
Qed.

(** A job is found by its tenant and key. *)
Definition keyed (tenant key : string) (j : JobRecord) : bool :=
  String.eqb (j_TenantID j) tenant && String.eqb (j_IdempotencyKey j) key.

Definition keys_unique (s : Store) : Prop :=
  forall tenant key i i' j j', key <> EmptyString -> jobs s !! i = Some j -> jobs s !! i' = Some j' ->
    keyed tenant key j = true -> keyed tenant key j' = true -> i = i'.

Lemma keyed_same tenant key j j' : same_identity j j' -> keyed tenant key j' = keyed tenant key j.
Proof. intros []. unfold keyed. congruence. Qed.

Lemma select_elem f s j : Inv s -> j ∈ select f s <-> jobs s !! j_ID j = Some j /\ f j = true.
Proof. apply select_by_elem. Qed.

(** What a create call does. *)
Lemma create_cases tenant endpoint kind by' g payload key u now s :
  Inv s ->
  let '(s', res) := CreateJob tenant endpoint kind by' g payload key u now s in
  (s' = s /\ forall j, res = Ok j -> key <> EmptyString /\ jobs s !! j_ID j = Some j /\ keyed tenant key j = true) \/
  (exists id job, res = Ok job /\ j_ID job = id /\ jobs s' = <[id := job]> (jobs s) /\ jobs s !! id = None /\
     keyed tenant key job = true /\
     (key <> EmptyString -> forall i j, jobs s !! i = Some j -> keyed tenant key j = false)).
Proof.
  intros Hs. unfold CreateJob. destruct g as [g|]; [|by left]. destruct (_ || _); [by left|].
  destruct (String.eqb_spec key EmptyString) as [->|Hk].
  2: destruct (head (select _ s)) as [j|] eqn:Hh.
  2: { left. split; [done|]. intros j' [= <-]. split; [done|]. apply head_Some_elem_of in Hh. by apply select_elem in Hh. }
  all: destruct (_ && _); [by left|];
    set (id := if Version g =? GrantVersionJob then JobID g else u); destruct (jobs s !! id) as [j|] eqn:Hid; [by left|];
    right; eexists id, _; split; [done|]; split; [done|]; split; [done|]; split; [done|];
    split; [unfold keyed; cbn [new_job j_TenantID j_IdempotencyKey]; by rewrite !String.eqb_refl|].
  { done. }
  intros _ i j Hj. destruct (keyed tenant key j) eqn:Ek; [|done]. exfalso.
  destruct (select (fun j => String.eqb (j_TenantID j) tenant && String.eqb (j_IdempotencyKey j) key) s) as [|h t] eqn:Esel; [|done].
  assert (j ∈ select (keyed tenant key) s) as Hin.
  { apply select_elem; [done|]. split; [|done]. pose proof (inv_job s Hs i j Hj) as [-> _ _ _]. done. }
  unfold keyed in Hin. rewrite Esel in Hin. by apply not_elem_of_nil in Hin.
Qed.

Lemma exec_keys now o s : Inv s -> keys_unique s -> keys_unique (exec now o s).
Proof.
  intros Hs Hu. destruct (creates o) eqn:Hc.
  - destruct o; try done. simpl.
    pose proof (create_cases tenant endpoint kind requestedBy grant payload key u now s Hs) as Hcs.
    destruct (CreateJob _ _ _ _ _ _ _ _ _ _) as [s' res]. cbn [fst].
    destruct Hcs as [[-> _]|(id & job & _ & _ & Hjobs & Hid & Hkj & Hno)]; [done|].
    intros t k i i' j j' Hk Hj Hj' E E'. rewrite Hjobs in Hj, Hj'.
    assert (keyed t k job = true -> t = tenant /\ k = key) as Hsame.
    { unfold keyed in Hkj |- *. intros [?%String.eqb_eq ?%String.eqb_eq]%andb_true_iff.
      apply andb_true_iff in Hkj as [?%String.eqb_eq ?%String.eqb_eq]. split; congruence. }
    apply lookup_insert_Some in Hj as [[<- <-]|[Hi Hj]], Hj' as [[<- <-]|[Hi' Hj']]; [done|..|by eapply Hu].
    + destruct (Hsame E) as [-> ->]. by rewrite (Hno Hk _ _ Hj') in E'.
    + destruct (Hsame E') as [-> ->]. by rewrite (Hno Hk _ _ Hj) in E.
  - destruct (exec_good now o s Hs) as [_ X]. intros t k i i' j j' Hk Hj Hj' E E'.
    assert (forall i j, jobs (exec now o s) !! i = Some j -> exists j0, jobs s !! i = Some j0 /\ same_identity j0 j) as Hback.
    { intros x y Hy. destruct (jobs s !! x) as [y0|] eqn:Ey; [|by rewrite (exec_none now o s x Hc Ey) in Hy].
      destruct (X x y0 Ey) as (y1 & Hy1 & [Hi _ _ _]). exists y0. split; [done|]. congruence. }
    destruct (Hback i j Hj) as (j0 & Hj0 & I0). destruct (Hback i' j' Hj') as (j1 & Hj1 & I1).
    rewrite (keyed_same _ _ _ _ I0) in E. rewrite (keyed_same _ _ _ _ I1) in E'. by eapply Hu.
Qed.

Lemma run_keys l s : Inv s -> keys_unique s -> keys_unique (run l s).
Proof.
  revert s. induction l as [|[now o] l IH]; intros s Hs Hu; [done|].
  apply IH; [by apply (exec_good now o)|by apply exec_keys].
Qed.

(** An idempotency key stands for one job. Once a create call with a
    key has answered, every later call of the tenant with that key answers
    with the same job, its current state included, and changes nothing. *)
Theorem create_idempotent l tenant endpoint kind by' g payload key u now j l' endpoint' kind' by'' g' payload' u' now' :
  let '(s, res) := CreateJob tenant endpoint kind by' g payload key u now (run l empty_store) in
  key <> EmptyString -> endpoint' <> EmptyString -> res = Ok j ->
  exists j', CreateJob tenant endpoint' kind' by'' (Some g') payload' key u' now' (run l' s) = (run l' s, Ok j') /\
    same_identity j j' /\ jobs (run l' s) !! j_ID j = Some j'.
Proof.
  set (s0 := run l empty_store). destruct (run_good l empty_store empty_Inv) as [Hs0 _]. fold s0 in Hs0.
  assert (keys_unique s0) as Hu0 by (apply run_keys; [apply empty_Inv|intros ? ? ? ? ? ?; done]).
  pose proof (create_cases tenant endpoint kind by' g payload key u now s0 Hs0) as Hcs.
  pose proof (create_good tenant endpoint kind by' g payload key u now s0 Hs0) as [Hs1 _].
  pose proof (exec_keys now (OCreate tenant endpoint kind by' g payload key u) s0 Hs0 Hu0) as Hu1. simpl in Hu1.
  assert (nonempty_tenant : is_ok (snd (CreateJob tenant endpoint kind by' g payload key u now s0)) -> tenant <> EmptyString).
  { unfold CreateJob. destruct g; [|done]. destruct (String.eqb_spec tenant EmptyString); [done|done]. }
  destruct (CreateJob tenant endpoint kind by' g payload key u now s0) as [s res]. cbn [fst snd] in *.
  intros Hk He ->. specialize (nonempty_tenant I).
  assert (jobs s !! j_ID j = Some j /\ keyed tenant key j = true) as [Hj Hkj].
  { destruct Hcs as [[-> Hc]|(id & job & [= <-] & <- & Hjobs & _ & Hkj & _)]; [by destruct (Hc j eq_refl) as (_ & ? & ?)|].
    by rewrite Hjobs, lookup_insert_eq. }
  destruct (run_good l' s Hs1) as [Hs2 X]. destruct (X _ _ Hj) as (j' & Hj' & [Hi _ _ _]).
  exists j'. split; [|done]. pose proof (run_keys l' s Hs1 Hu1) as Hu2.
  assert (keyed tenant key j' = true) as Hkj' by (by rewrite (keyed_same _ _ _ _ Hi)).
  unfold CreateJob. apply String.eqb_neq in nonempty_tenant as ->. apply String.eqb_neq in He as ->. cbn [orb].
  rewrite (proj2 (String.eqb_neq _ _) Hk).
  assert (j' ∈ select (keyed tenant key) (run l' s)) as Hin
    by (apply select_elem; [done|]; rewrite (id_ID _ _ Hi); done).
  change (fun j => String.eqb (j_TenantID j) tenant && String.eqb (j_IdempotencyKey j) key) with (keyed tenant key).
  destruct (select (keyed tenant key) (run l' s)) as [|h t] eqn:Esel; [by apply not_elem_of_nil in Hin|]. simpl.
  assert (h ∈ select (keyed tenant key) (run l' s)) as Hh by (rewrite Esel; by left).
  apply select_elem in Hh as [Hh Hkh]; [|done].
  assert (j_ID h = j_ID j) as E by (by eapply Hu2). rewrite E, Hj' in Hh. congruence.
Qed.

End Machine.

(** ** The guarantees on a small store *)

Module response_example.

Local Open Scope string_scope.
Local Open Scope Z_scope.

#[local] Existing Instance ascii_only.

Definition grant : EndpointGrant :=
  mkGrant 2 "grant-1" "acme" "pc-1" ActionKindScriptExec "" "ana" "session-1" 1000 2000 "0a" "" "4b" "".

(** Requests are stored as their payload. *)
#[export] Instance codec : JobCodec := {
  marshal_request g payload := payload;
  unmarshal_request s := Some (grant, s);
  unmarshal_payload s := Some s;
  unmarshal_session s := Some s;
  marshal_result r := res_ErrorCode r;
  marshal_session d := d;
  marshal_sup sup := sup_Phase sup;
  unmarshal_sup s := None;
  quote s := s;
  uuid_Parse s := true;
}.

Definition key_le (key : JobRecord -> Z) (a b : JobRecord) : Prop := key a <= key b.

#[local] Instance key_le_dec key : RelDecision (key_le key).
Proof. intros a b. unfold key_le. apply _. Defined.

#[local] Instance key_le_total key : Total (key_le key).
Proof. intros a b. unfold key_le. lia. Qed.

#[local] Instance key_le_trans key : Transitive (key_le key).
Proof. intros a b c. unfold key_le. lia. Qed.

#[export] Instance merge_order : RowOrder := {
  rows_by key := merge_sort (key_le key);
  rows_by_perm key := merge_sort_Permutation (key_le key);
  rows_by_sorted key := StronglySorted_merge_sort (key_le key);
}.

Definition create (id key : string) : op := OCreate "acme" "pc-1" ActionKindScriptExec "ana" (Some grant) "payload" key id.

Definition offer : op := OOffer "acme" "pc-1" 4 100 (fun n => "lease-1").

(** A job that was leased, taken and failed. *)
Definition failed_run : list (Z * op) :=
  [(1, create "job-1" "key-1"); (2, offer); (3, OAck "acme" "pc-1" "job-1" "lease-1" true "");
   (4, OComplete "acme" "pc-1" "job-1" "lease-1" (Some (mkResult "job-1" "lease-1" StateFailed "disk full" "" "" "" 1 20 "" false)))].

Definition failed_store : Store := run failed_run empty_store.

Lemma failed_Inv : Inv failed_store.
Proof. apply (run_good failed_run empty_store empty_Inv). Qed.

Definition view (j : JobRecord) : string * JobState * option string := (j_ID j, j_State j, j_ErrorCode j).

Lemma failed_view : view <$> jobs failed_store !! "job-1" = Some ("job-1", StateFailed, Some "disk full").
Proof. vm_compute. reflexivity. Qed.

Lemma job_outcome_final_witness :
  exists j', jobs (run [(5, OCancel "acme" "job-1" "ana"); (6, offer)] failed_store) !! "job-1" = Some j' /\
    j_State j' = StateFailed.
Proof.
  destruct (proj1 (fmap_Some _ _ _) failed_view) as (j & Hj & [= Hid Hst He]).
  destruct (job_outcome_final [(5, OCancel "acme" "job-1" "ana"); (6, offer)] failed_store "job-1" j failed_Inv Hj
    ltac:(by rewrite <- Hst)) as (j' & Hj' & Hst' & _).
  exists j'. split; [exact Hj'|]. congruence.
Defined.

Lemma failed_leased : view <$> (match leased_job "acme" "pc-1" "job-1" "lease-1" 9 failed_store with Ok j => Some j | Err _ => None end)
  = Some ("job-1", StateFailed, Some "disk full").
Proof. vm_compute. reflexivity. Qed.

Lemma rejection_rewrites_failure_witness :
  let '(s', res) := AcknowledgeJob "acme" "pc-1" "job-1" "lease-1" false "never heard of it" 9 failed_store in
  res = Ok tt /\ exists j', jobs s' !! "job-1" = Some j' /\ j_State j' = StateFailed /\
    j_ErrorCode j' = Some "never heard of it" /\ j_CompletedAt j' = Some 9.
Proof.
  destruct (leased_job "acme" "pc-1" "job-1" "lease-1" 9 failed_store) as [j|e] eqn:Hl.
  - apply (rejection_rewrites_failure "acme" "pc-1" "job-1" "lease-1" "never heard of it" 9 failed_store j Hl).
    pose proof failed_leased as Hv. rewrite Hl in Hv. by injection Hv.
  - exfalso. pose proof failed_leased as Hv. rewrite Hl in Hv. discriminate.
Defined.

(** A job nobody takes. *)
(** The job is out on its lease when another endpoint accepts it. *)
Definition offered_store : Store := run [(1, create "job-1" "key-1"); (2, offer)] empty_store.

Lemma offered_owner : (fun j => (j_EndpointID j, j_LeaseID j)) <$> jobs offered_store !! "job-1" = Some ("pc-1", Some "lease-1").
Proof. vm_compute. reflexivity. Qed.

Lemma foreign_report_refused_witness :
  exec 3 (OAck "acme" "pc-2" "job-1" "lease-1" true "") offered_store = offered_store.
Proof.
  refine (proj1 (foreign_report_refused 3 (OAck "acme" "pc-2" "job-1" "lease-1" true "") offered_store
    "acme" "pc-2" "job-1" "lease-1" eq_refl _)).
  intros j Hj. pose proof offered_owner as E. rewrite Hj in E. injection E as E _.
  right. left. rewrite E. reflexivity.
Defined.

Definition queued_store : Store := run [(1, create "job-1" "key-1")] empty_store.

Definition queued_job : JobRecord :=
  new_job "job-1" "acme" "pc-1" ActionKindScriptExec "ana" "key-1" "grant-1" "payload" 1.

Lemma queued_jobs : jobs queued_store = {["job-1" := queued_job]}.
Proof. vm_compute. reflexivity. Qed.

Lemma queued_Inv : Inv queued_store.
Proof. apply (run_good [(1, create "job-1" "key-1")] empty_store empty_Inv). Qed.

Lemma queued_oldest : oldest "acme" "pc-1" "job-1" queued_store.
Proof.
  exists queued_job. rewrite queued_jobs. split; [by rewrite lookup_singleton_eq|]. split; [done|].
  intros i j' Hi Hj'. by rewrite lookup_singleton_ne in Hj'.
Qed.

Definition draws (n : nat) : string := "lease-1".

(** Thirty-one offers, and meanwhile another job of the endpoint is asked for
    and cancelled. *)
Definition retries : list (Z * op) :=
  ((2, OOffer "acme" "pc-1" 4 100 draws) :: (3, create "job-2" "key-2") :: (4, OCancel "acme" "job-2" "ana")
   :: map (fun i => (200 * Z.of_nat i, OOffer "acme" "pc-1" 1 50 draws)) (seq 1 30))%list.

Lemma never_taken_fails_witness : given_up "job-1" (run retries queued_store).
Proof.
  apply (never_taken_fails "acme" "pc-1" "job-1" retries queued_store queued_job grant "payload").
  - exact queued_Inv.
  - exact queued_oldest.
  - rewrite queued_jobs. apply lookup_singleton_eq.
  - reflexivity.
  - reflexivity.
  - repeat (apply List.Forall_cons; [split; [vm_compute; discriminate|vm_compute; first [exact I|reflexivity]]|]). apply List.Forall_nil.
  - vm_compute. repeat split.
Defined.

(** A reserved id taken by a job for another payload. *)
Definition reserved_store : Store :=
  run [(1, OReserve "acme" "pc-1" (String.concat "" (repeat "A" 64)) "job-2")] empty_store.

Lemma reservation_one_use_witness :
  snd (TakeReservation "job-2" "acme" "pc-1" (String.concat "" (repeat "a" 64)) 7
    (run [(5, offer)] (fst (TakeReservation "job-2" "acme" "pc-1" "other" 4 reserved_store)))) = Err ErrReservationUnknown.
Proof.
  exact (proj2 (reservation_one_use "job-2" "acme" "pc-1" "other" 4 reserved_store [(5, offer)] "acme" "pc-1"
    (String.concat "" (repeat "a" 64)) 7 ltac:(by apply Forall_singleton))).
Defined.

Lemma create_idempotent_witness :
  exists j', CreateJob "acme" "pc-2" ActionKindScriptExec "bob" (Some grant) "other" "key-1" "job-9" 9
      (run [(5, offer)] queued_store) = (run [(5, offer)] queued_store, Ok j') /\
    same_identity queued_job j' /\ jobs (run [(5, offer)] queued_store) !! "job-1" = Some j'.
Proof.
  pose proof (create_idempotent [] "acme" "pc-1" ActionKindScriptExec "ana" (Some grant) "payload" "key-1" "job-1" 1
    queued_job [(5, offer)] "pc-2" ActionKindScriptExec "bob" grant "other" "job-9" 9) as Hc.
  destruct (CreateJob "acme" "pc-1" ActionKindScriptExec "ana" (Some grant) "payload" "key-1" "job-1" 1 (run [] empty_store))
    as [s res] eqn:Ec.
  assert (s = queued_store) as -> by (change queued_store with (fst (CreateJob "acme" "pc-1" ActionKindScriptExec "ana"
    (Some grant) "payload" "key-1" "job-1" 1 (run [] empty_store))); by rewrite Ec).
  apply Hc; [done|done|]. change res with (snd (queued_store, res)). rewrite <- Ec. vm_compute. reflexivity.
Defined.

End response_example.
