(* ===== verification/Credentials.v ===== *)
(** * Screen credentials: launch codes and watch tokens

    [hub/pkg/screen/credentials.go]: one-use codes that open a screen
    attachment, the rate limit on redeeming them, watch tokens and who minted
    a control token. Only hashes are kept; the hash is a parameter. *)

From Stdlib Require Import Ascii String.
From stdpp Require Import gmap.
From S2P Require Import Prelude.

Module credentials.

Local Open Scope string_scope.
Local Open Scope Z_scope.

Definition Second : Z := 1000000000.
Definition LaunchCodeTTL : Z := 60 * Second.
Definition WatchTokenTTL : Z := 300 * Second.
Definition RedeemLimit : nat := 10.
Definition SessionRedeemLimit : nat := 100.
Definition RedeemWindow : Z := 60 * Second.

Definition ErrCodeInvalid : string := "launch code invalid, expired, already used or for another session".
Definition ErrRedeemLimit : string := "too many launch code attempts; wait a minute".

Record launchEntry : Type := mkLaunch { le_session : string; le_operator : string; le_kind : string; le_expires : Z }.
Record watchEntry : Type := mkWatch { we_session : string; we_who : string; we_expires : Z }.

Record Credentials : Type := mkCredentials {
  codes : gmap string launchEntry;
  watch : gmap string watchEntry;
  attempts : gmap string (list Z);
  byAgent : gmap string string;
}.

#[export] Instance eta_Credentials : Eta Credentials :=
  fun x => mkCredentials (codes x) (watch x) (attempts x) (byAgent x).

Definition NewCredentials : Credentials := mkCredentials ∅ ∅ ∅ ∅.

(** The attempts of one key still inside the window. *)
Definition recent (now : Z) (ts : list Z) : list Z := within RedeemWindow now ts.

Definition sweepLocked (now : Z) (c : Credentials) : Credentials :=
  c <| codes ::= filter (fun kv => now <= le_expires kv.2) |>
    <| watch ::= filter (fun kv => now <= we_expires kv.2) |>
    <| attempts ::= omap (fun ts => match recent now ts with [] => None | keep => Some keep end) |>.

Definition tries (k : string) (c : Credentials) : list Z := default [] (attempts c !! k).

Section Credentials.
Context (hashOf : string -> string).

(** [code] is the secret drawn. *)
Definition IssueLaunchCode (sessionID operator kind code : string) (now : Z) (c : Credentials) : Credentials :=
  (sweepLocked now c) <| codes ::= insert (hashOf code) (mkLaunch sessionID operator kind (now + LaunchCodeTTL)) |>.

(** A redeem that names no live code of the session: [e] is what the hash
    [h] of its code holds. *)
Definition refuse (sessionID h ip : string) (now : Z) (e : option launchEntry) (c : Credentials)
    : Credentials * result string (string * string) :=
  let by_ip := "ip:" ++ ip in
  let by_session := "session:" ++ sessionID in
  if (RedeemLimit <=? length (tries by_ip c))%nat || (SessionRedeemLimit <=? length (tries by_session c))%nat
  then (c, Err ErrRedeemLimit) else
  let c := c <| attempts ::= insert by_ip (tries by_ip c ++ [now])%list |> in
  let c := c <| attempts ::= insert by_session (tries by_session c ++ [now])%list |> in
  (match e with Some _ => c <| codes ::= delete h |> | None => c end, Err ErrCodeInvalid).

Definition RedeemLaunchCode (sessionID code ip : string) (now : Z) (c : Credentials)
    : Credentials * result string (string * string) :=
  let c := sweepLocked now c in
  let h := hashOf code in
  match codes c !! h with
  | Some e =>
    if negb (String.eqb code "") && String.eqb (le_session e) sessionID && (now <=? le_expires e)
    then (c <| codes ::= delete h |>, Ok (le_operator e, le_kind e))
    else refuse sessionID h ip now (Some e) c
  | None => refuse sessionID h ip now None c
  end.

Definition ResetAttempts (c : Credentials) : Credentials := c <| attempts := ∅ |>.

Definition IssueWatchToken (sessionID who token : string) (now : Z) (c : Credentials) : Credentials :=
  (sweepLocked now c) <| watch ::= insert (hashOf token) (mkWatch sessionID who (now + WatchTokenTTL)) |>.

Definition TakeWatchToken (sessionID token : string) (now : Z) (c : Credentials) : Credentials * option string :=
  let h := hashOf token in
  match watch c !! h with
  | None => (c, None)
  | Some e =>
    if negb (String.eqb (we_session e) sessionID) || (we_expires e <? now) then (c, None)
    else (c <| watch ::= delete h |>, Some (we_who e))
  end.

Definition SetControlMinter (sessionID agent : string) (c : Credentials) : Credentials :=
  if String.eqb agent "" then c <| byAgent ::= delete sessionID |> else c <| byAgent ::= insert sessionID agent |>.

Definition ControlAgent (sessionID : string) (c : Credentials) : string := default "" (byAgent c !! sessionID).

Definition Forget (sessionID : string) (c : Credentials) : Credentials :=
  c <| byAgent ::= delete sessionID |>
    <| codes ::= filter (fun kv => le_session kv.2 <> sessionID) |>
    <| watch ::= filter (fun kv => we_session kv.2 <> sessionID) |>.

(** ** Operations *)

Inductive op : Type :=
| OIssue (sessionID operator kind code : string)
| ORedeem (sessionID code ip : string)
| OReset
| OIssueWatch (sessionID who token : string)
| OTakeWatch (sessionID token : string)
| OSetMinter (sessionID agent : string)
| OForget (sessionID : string).

Definition exec (now : Z) (o : op) (c : Credentials) : Credentials :=
  match o with
  | OIssue s operator kind code => IssueLaunchCode s operator kind code now c
  | ORedeem s code ip => fst (RedeemLaunchCode s code ip now c)
  | OReset => ResetAttempts c
  | OIssueWatch s who token => IssueWatchToken s who token now c
  | OTakeWatch s token => fst (TakeWatchToken s token now c)
  | OSetMinter s agent => SetControlMinter s agent c
  | OForget s => Forget s c
  end.

Definition run (l : list (Z * op)) (c : Credentials) : Credentials := fold_left (fun c x => exec x.1 x.2 c) l c.

(** The operations that make a code with this hash redeemable. *)
Definition reissues (h : string) (o : op) : bool :=
  match o with OIssue _ _ _ code => String.eqb (hashOf code) h | _ => false end.

(** ** What each operation does to one code *)

Lemma swept_code now c h e :
  codes (sweepLocked now c) !! h = Some e <-> codes c !! h = Some e /\ now <= le_expires e.
Proof.
  change (codes (sweepLocked now c)) with (filter (fun kv : string * launchEntry => now <= le_expires kv.2) (codes c)).
  by rewrite map_lookup_filter_Some.
Qed.

Lemma swept_none now c h : codes c !! h = None -> codes (sweepLocked now c) !! h = None.
Proof. intros N. apply eq_None_not_Some. intros [e E]. apply swept_code in E as [E _]. congruence. Qed.

Lemma refuse_codes s h ip now e c :
  codes (fst (refuse s h ip now e c)) = codes c \/ codes (fst (refuse s h ip now e c)) = delete h (codes c).
Proof. unfold refuse. case_match; [auto|]. destruct e; simpl; auto. Qed.

Lemma refuse_err s h ip now e c who : snd (refuse s h ip now e c) <> Ok who.
Proof. unfold refuse. by case_match. Qed.

(** A redeem leaves the codes it does not name as the sweep does. *)
Lemma redeem_codes s code ip now c :
  codes (fst (RedeemLaunchCode s code ip now c)) = codes (sweepLocked now c) \/
  codes (fst (RedeemLaunchCode s code ip now c)) = delete (hashOf code) (codes (sweepLocked now c)).
Proof.
  unfold RedeemLaunchCode. repeat case_match; auto using refuse_codes.
Qed.

Lemma redeem_ok s code ip now c who :
  snd (RedeemLaunchCode s code ip now c) = Ok who <->
  code <> "" /\ exists e, codes c !! hashOf code = Some e /\ le_session e = s /\ now <= le_expires e /\
    who = (le_operator e, le_kind e).
Proof.
  pose proof (swept_code now c (hashOf code)) as W. unfold RedeemLaunchCode.
  destruct (codes (sweepLocked now c) !! hashOf code) as [e|] eqn:E.
  - destruct (proj1 (W e) eq_refl) as [E1 E2].
    destruct (negb _ && _ && _) eqn:L.
    + rewrite !andb_true_iff, negb_true_iff, String.eqb_neq, String.eqb_eq in L. simpl.
      split; [intros [= <-]; naive_solver|]. intros (_ & e' & E' & _ & _ & ->). congruence.
    + split; [intros R; by apply refuse_err in R|]. intros (Ne & e' & E' & Es & _ & _).
      assert (e' = e) as -> by congruence.
      rewrite (proj2 (String.eqb_neq _ _) Ne), (proj2 (String.eqb_eq _ _) Es), (proj2 (Z.leb_le _ _) E2) in L. done.
  - split; [intros R; by apply refuse_err in R|]. intros (_ & e & E1 & _ & E2 & _).
    by assert (None = Some e) by (apply W; auto).
Qed.

Lemma redeem_spends s code ip now c who :
  snd (RedeemLaunchCode s code ip now c) = Ok who ->
  codes (fst (RedeemLaunchCode s code ip now c)) !! hashOf code = None.
Proof.
  unfold RedeemLaunchCode. repeat case_match; try (intros R; by apply refuse_err in R).
  intros _. apply lookup_delete_eq.
Qed.

(** A code that is not held stays so until one with its hash is issued. *)
Lemma exec_absent h now o c : reissues h o = false -> codes c !! h = None -> codes (exec now o c) !! h = None.
Proof.
  intros R N. pose proof (swept_none now c h N) as N'.
  destruct o as [s who kind code|s code ip| |s who tok|s tok|s agent|s]; simpl in *.
  - apply String.eqb_neq in R. by rewrite lookup_insert_ne.
  - destruct (redeem_codes s code ip now c) as [->| ->]; [done|]. rewrite lookup_delete_None. auto.
  - done.
  - done.
  - unfold TakeWatchToken. repeat case_match; done.
  - unfold SetControlMinter. by case_match.
  - apply map_lookup_filter_None. auto.
Qed.

Lemma run_absent h l c :
  Forall (fun x => reissues h x.2 = false) l -> codes c !! h = None -> codes (run l c) !! h = None.
Proof.
  intros F. revert c. induction F as [|[now o] l R F IH]; intros c N; [done|].
  apply IH, exec_absent; auto.
Qed.

(** ** The rate limit *)

Lemma swept_tries now c k : tries k (sweepLocked now c) = recent now (tries k c).
Proof.
  unfold tries.
  change (attempts (sweepLocked now c)) with
    (omap (fun ts => match recent now ts with [] => None | keep => Some keep end) (attempts c)).
  rewrite lookup_omap. destruct (attempts c !! k) as [ts|]; [|done]. simpl. by destruct (recent now ts).
Qed.

Lemma recent_later now now' ts : now <= now' -> recent now' (recent now ts) = recent now' ts.
Proof. apply within_later. Qed.

Lemma recent_app now ts us : recent now (ts ++ us) = (recent now ts ++ recent now us)%list.
Proof. apply within_app. Qed.

(** The answer that counts as a failed attempt. *)
Definition failed (r : result string (string * string)) : bool :=
  match r with Err e => String.eqb e ErrCodeInvalid | Ok _ => false end.

Lemma refuse_tries s h ip now e c a :
  let r := refuse s h ip now e c in
  tries ("ip:" ++ a) (fst r) =
    (tries ("ip:" ++ a) c ++ (if failed (snd r) && String.eqb ip a then [now] else []))%list /\
  (failed (snd r) = true -> (length (tries ("ip:" ++ ip) c) < RedeemLimit)%nat).
Proof.
  unfold refuse. cbv zeta. destruct (_ || _) eqn:L; simpl; [by rewrite app_nil_r|].
  apply orb_false_iff in L as [L _]. apply Nat.leb_gt in L. split; [|done].
  unfold tries at 1. destruct e; simpl; (rewrite lookup_insert_ne by (intros [=]));
    (destruct (String.eqb_spec ip a) as [->|Ne];
     [by rewrite lookup_insert_eq|rewrite lookup_insert_ne by (intros [= X]; done); by rewrite app_nil_r]).
Qed.

(** How a redeem counts against one address. *)
Lemma redeem_tries s code ip now c a :
  let r := RedeemLaunchCode s code ip now c in
  tries ("ip:" ++ a) (fst r) =
    (recent now (tries ("ip:" ++ a) c) ++ (if failed (snd r) && String.eqb ip a then [now] else []))%list /\
  (failed (snd r) = true -> (length (recent now (tries ("ip:" ++ ip) c)) < RedeemLimit)%nat).
Proof.
  unfold RedeemLaunchCode. rewrite <- !swept_tries. cbv zeta.
  destruct (codes _ !! _); [destruct (_ && _ && _)|]; try apply refuse_tries.
  split; [|done]. symmetry. apply app_nil_r.
Qed.

(** The times at which redeems from address [a] failed along a run. *)
Definition failure (a : string) (now : Z) (o : op) (c : Credentials) : list Z :=
  match o with
  | ORedeem s code ip => if failed (snd (RedeemLaunchCode s code ip now c)) && String.eqb ip a then [now] else []
  | _ => []
  end.

Fixpoint failures (a : string) (l : list (Z * op)) (c : Credentials) : list Z :=
  match l with
  | [] => []
  | (now, o) :: l => (failure a now o c ++ failures a l (exec now o c))%list
  end.

(** A clock that does not go back, and no reset of the counters. *)
Fixpoint clocked (from : Z) (l : list (Z * op)) : Prop :=
  match l with
  | [] => True
  | (now, o) :: l => from <= now /\ o <> OReset /\ clocked now l
  end.

Definition last_time (from : Z) (l : list (Z * op)) : Z := fold_left (fun _ x => x.1) l from.

(** One operation: the counter holds the attempts in the window. *)
Lemma exec_tries a now o c later :
  o <> OReset -> now <= later ->
  recent later (tries ("ip:" ++ a) (exec now o c)) =
    (recent later (tries ("ip:" ++ a) c) ++ recent later (failure a now o c))%list.
Proof.
  intros NR L. unfold exec, failure.
  destruct o as [s who kind code|s code ip| |s who tok|s tok|s agent|s]; rewrite ?app_nil_r; try done.
  - change (tries ("ip:" ++ a) (IssueLaunchCode s who kind code now c)) with (tries ("ip:" ++ a) (sweepLocked now c)).
    by rewrite swept_tries, recent_later.
  - destruct (redeem_tries s code ip now c a) as [-> _].
    by rewrite recent_app, recent_later.
  - change (tries ("ip:" ++ a) (IssueWatchToken s who tok now c)) with (tries ("ip:" ++ a) (sweepLocked now c)).
    by rewrite swept_tries, recent_later.
  - unfold TakeWatchToken. repeat case_match; done.
  - unfold SetControlMinter. by case_match.
Qed.

Lemma exec_bound a now o c :
  (length (tries ("ip:" ++ a) c) <= RedeemLimit)%nat ->
  (length (tries ("ip:" ++ a) (exec now o c)) <= RedeemLimit)%nat.
Proof.
  intros B. assert (Bs : (length (recent now (tries ("ip:" ++ a) c)) <= RedeemLimit)%nat)
    by (etransitivity; [apply length_filter|done]).
  destruct o as [s who kind code|s code ip| |s who tok|s tok|s agent|s]; unfold exec.
  - change (tries _ _) with (tries ("ip:" ++ a) (sweepLocked now c)). by rewrite swept_tries.
  - destruct (redeem_tries s code ip now c a) as [-> F]. rewrite length_app.
    destruct (failed _); simpl; [|lia]. destruct (String.eqb_spec ip a) as [<-|]; simpl; [|lia].
    specialize (F eq_refl). lia.
  - unfold tries, ResetAttempts. simpl. rewrite lookup_empty. simpl. lia.
  - change (tries _ _) with (tries ("ip:" ++ a) (sweepLocked now c)). by rewrite swept_tries.
  - unfold TakeWatchToken. repeat case_match; done.
  - unfold SetControlMinter. by case_match.
  - done.
Qed.

Lemma run_bound a l c :
  (length (tries ("ip:" ++ a) c) <= RedeemLimit)%nat ->
  (length (tries ("ip:" ++ a) (run l c)) <= RedeemLimit)%nat.
Proof. revert c. induction l as [|[now o] l IH]; intros c B; [done|]. apply IH, exec_bound, B. Qed.

Lemma last_time_from from l : clocked from l -> from <= last_time from l.
Proof.
  revert from. induction l as [|[now o] l IH]; intros from C; [reflexivity|].
  destruct C as (L & _ & C). apply IH in C. unfold last_time in *. simpl. lia.
Qed.

Lemma run_tries a l c from later :
  clocked from l -> last_time from l <= later ->
  recent later (tries ("ip:" ++ a) (run l c)) =
    (recent later (tries ("ip:" ++ a) c) ++ recent later (failures a l c))%list.
Proof.
  revert c from. induction l as [|[now o] l IH]; intros c from C L; [by rewrite app_nil_r|].
  destruct C as (_ & NR & C). change (run ((now, o) :: l) c) with (run l (exec now o c)).
  rewrite (IH _ _ C L). pose proof (last_time_from _ _ C).
  rewrite exec_tries by (done || (unfold last_time in *; simpl in *; lia)).
  simpl. by rewrite recent_app, app_assoc.
Qed.

(** ** A refused guess *)

(** The address is at its limit. *)
Definition at_limit (ip : string) (now : Z) (c : Credentials) : Prop :=
  (RedeemLimit <= length (recent now (tries ("ip:" ++ ip) c)))%nat.

Lemma redeem_at_limit s code ip now c e :
  at_limit ip now c -> codes c !! hashOf code = Some e -> now <= le_expires e -> le_session e <> s ->
  RedeemLaunchCode s code ip now c = (sweepLocked now c, Err ErrRedeemLimit).
Proof.
  intros A E L Ne. unfold RedeemLaunchCode.
  rewrite (proj2 (swept_code now c (hashOf code) e) (conj E L)).
  rewrite (proj2 (String.eqb_neq _ _) Ne), andb_false_r. simpl. unfold refuse. rewrite swept_tries.
  by rewrite (proj2 (Nat.leb_le _ _) A).
Qed.

Lemma guesses_spare code ip now s e guesses : forall c,
  at_limit ip now c -> codes c !! hashOf code = Some e -> now <= le_expires e -> le_session e = s ->
  Forall (fun g => g <> s) guesses ->
  codes (run (map (fun g => (now, ORedeem g code ip)) guesses) c) !! hashOf code = Some e.
Proof.
  induction guesses as [|g gs IH]; intros c A E L Es F; [done|].
  inversion_clear F as [|? ? Ng Fs].
  change (run _ c) with (run (map (fun g => (now, ORedeem g code ip)) gs) (fst (RedeemLaunchCode g code ip now c))).
  rewrite (redeem_at_limit g code ip now c e) by congruence. simpl. apply IH; auto.
  - unfold at_limit. by rewrite swept_tries, recent_later by reflexivity.
  - by apply swept_code.
Qed.

(** ** Properties *)

(** C34: A launch code redeems exactly when it is not empty, a code with its
    hash is held for that session and its minute has not passed, whatever
    failed attempts are counted against the address or the session, and it
    answers the operator and kind it was issued for; once redeemed, no later
    sequence of operations redeems it again, for any session or address,
    unless a code with the same hash is issued. *)
Theorem launch_code_one_use s code ip now c :
  let r := RedeemLaunchCode s code ip now c in
  (forall who, snd r = Ok who <->
    code <> "" /\ exists e, codes c !! hashOf code = Some e /\ le_session e = s /\ now <= le_expires e /\
      who = (le_operator e, le_kind e)) /\
  forall who, snd r = Ok who -> forall l, Forall (fun x => reissues (hashOf code) x.2 = false) l ->
    forall s' ip' now' who', snd (RedeemLaunchCode s' code ip' now' (run l (fst r))) <> Ok who'.
Proof.
  intros r. split; [intros who; apply redeem_ok|]. intros who R l F s' ip' now' who' R'.
  apply redeem_ok in R' as (_ & e & E & _).
  pose proof (run_absent _ l _ F (redeem_spends _ _ _ _ _ _ R)) as N. fold r in N. congruence.
Qed.

(** From an empty store, under a clock that does not go back and with
    the counters not reset, no address is answered more than [RedeemLimit]
    failed redeems within any [RedeemWindow]. *)
Theorem redeem_failures_limited a from l now :
  clocked from l -> last_time from l <= now ->
  (length (recent now (failures a l NewCredentials)) <= RedeemLimit)%nat.
Proof.
  intros C L. pose proof (run_tries a l NewCredentials from now C L) as E.
  assert (T : tries ("ip:" ++ a) NewCredentials = []) by (unfold tries; simpl; by rewrite lookup_empty).
  rewrite T in E. simpl in E. rewrite <- E. etransitivity; [apply length_filter|].
  apply run_bound. rewrite T. simpl. lia.
Qed.

(** From an address that has used up its failed attempts, redeems that
    name a live code under any number of wrong sessions do not spend it: the
    next redeem from there that names its session succeeds. *)
Theorem limited_guesses_spare_code code ip now c e guesses :
  code <> "" -> at_limit ip now c -> codes c !! hashOf code = Some e -> now <= le_expires e ->
  Forall (fun g => g <> le_session e) guesses ->
  snd (RedeemLaunchCode (le_session e) code ip now (run (map (fun g => (now, ORedeem g code ip)) guesses) c)) =
    Ok (le_operator e, le_kind e).
Proof.
  intros Ne A E L F. apply redeem_ok. split; [done|]. exists e.
  rewrite (guesses_spare code ip now (le_session e) e guesses c) by auto. auto.
Qed.

End Credentials.

End credentials.

(** ** Examples *)
Module credentials_example.
Import credentials.
Local Open Scope string_scope.
Local Open Scope Z_scope.

(** Hashes that keep the code. *)
Definition hash (s : string) : string := "h:" ++ s.

Definition issued : Credentials := IssueLaunchCode hash "s1" "ana" "control" "c0de" 0 NewCredentials.

(** An issued code, redeemed, a watch token issued and the session forgotten. *)
Lemma launch_code_one_use_witness :
  snd (RedeemLaunchCode hash "s1" "c0de" "::1" Second issued) = Ok ("ana", "control") /\
  snd (RedeemLaunchCode hash "s1" "c0de" "::1" Second
    (run hash [(Second, OIssueWatch "s1" "bo" "tok"); (Second, OForget "s2")]
      (fst (RedeemLaunchCode hash "s1" "c0de" "::1" Second issued)))) <> Ok ("ana", "control").
Proof.
  assert (R : snd (RedeemLaunchCode hash "s1" "c0de" "::1" Second issued) = Ok ("ana", "control")) by (vm_compute; reflexivity).
  split; [exact R|].
  apply (proj2 (launch_code_one_use hash "s1" "c0de" "::1" Second issued) ("ana", "control") R).
  repeat constructor.
Defined.

(** Twelve guesses from one address, a second apart: ten are answered as
    failures, and two are refused. *)
Definition guessing : list (Z * op) :=
  map (fun i : nat => (Z.of_nat i * Second, ORedeem "s1" "guess" "::1")) (seq 1 12).

Lemma guessing_failures : length (recent (12 * Second) (failures hash "::1" guessing NewCredentials)) = 10%nat.
Proof. vm_compute. reflexivity. Qed.

Lemma redeem_failures_limited_witness :
  (length (recent (12 * Second) (failures hash "::1" guessing NewCredentials)) <= RedeemLimit)%nat /\
  length (recent (12 * Second) (failures hash "::1" guessing NewCredentials)) = 10%nat.
Proof.
  split; [|exact guessing_failures].
  apply (redeem_failures_limited hash "::1" 0 guessing (12 * Second)).
  - repeat (split; [discriminate|split; [discriminate|]]). exact I.
  - vm_compute. discriminate.
Defined.

(** The same address, then a code for [s1] tried against two other sessions. *)
Definition exhausted : Credentials :=
  IssueLaunchCode hash "s1" "ana" "control" "c0de" (12 * Second) (run hash guessing NewCredentials).

Lemma exhausted_at_limit : at_limit "::1" (13 * Second) exhausted.
Proof. apply Nat.leb_le. vm_compute. reflexivity. Qed.

Lemma exhausted_code : codes exhausted !! hash "c0de" = Some (mkLaunch "s1" "ana" "control" (72 * Second)).
Proof. vm_compute. reflexivity. Qed.

Lemma limited_guesses_spare_code_witness :
  snd (RedeemLaunchCode hash "s1" "c0de" "::1" (13 * Second)
    (run hash (map (fun g => (13 * Second, ORedeem g "c0de" "::1")) ["s2"; "s3"]) exhausted)) = Ok ("ana", "control").
Proof.
  apply (limited_guesses_spare_code hash "c0de" "::1" (13 * Second) exhausted
    (mkLaunch "s1" "ana" "control" (72 * Second)) ["s2"; "s3"]).
  - discriminate.
  - exact exhausted_at_limit.
  - exact exhausted_code.
  - discriminate.
  - repeat constructor; discriminate.
Defined.

End credentials_example.
