(* ===== verification/Window.v ===== *)
(** * Maintenance windows

    [hub/pkg/scripts/window.go] and the choice of a machine's window in
    [hub/pkg/server/maintenance_window_settings.go]: daily ranges in the
    machine's own time or in UTC, whether an instant is inside them and when
    they next open. An index out of range, which panics in the code, is
    [None]. *)

From Stdlib Require Import Ascii String.
From stdpp Require Import gmap.
From S2P Require Import Prelude.

Module window.

Local Open Scope string_scope.
Local Open Scope Z_scope.

(** ** Instants

    Nanoseconds since 1970-01-01 UTC; that instant is a whole number of
    minutes after the zero time, from which [Truncate] counts. *)

Definition Minute : Z := 60 * 1000000000.

(** [t.Hour()*60 + t.Minute()] of a time in UTC. *)
Definition minute_of_day (t : Z) : Z := (t / Minute) mod 1440.

Definition Truncate (t d : Z) : Z := t - t mod d.

(** A [time.Duration] is an int64. *)
Definition duration (d : Z) : Z := (d + 2 ^ 63) mod 2 ^ 64 - 2 ^ 63.

(** ** [window.go] *)

Definition MaxWindowRanges : nat := 4.

Record Window : Type := mkWindow { Ranges : list string; UTC : bool }.

Definition hour_ok (a b : ascii) : bool :=
  ((Ascii.eqb a "0" || Ascii.eqb a "1") && is_digit b) || (Ascii.eqb a "2" && in_range 48 51 (byte_val b)).

Definition minute_ok (a b : ascii) : bool := in_range 48 53 (byte_val a) && is_digit b.

(** [rangeRe.FindStringSubmatch], without the whole match. *)
Definition rangeRe (r : string) : option (string * string * string * string) :=
  match list_ascii_of_string r with
  | [a; b; c1; c; d; dash; e; f; c2; g; h] =>
    if hour_ok a b && Ascii.eqb c1 ":" && minute_ok c d && Ascii.eqb dash "-"
       && hour_ok e f && Ascii.eqb c2 ":" && minute_ok g h
    then Some (string_of_list_ascii [a; b], string_of_list_ascii [c; d],
               string_of_list_ascii [e; f], string_of_list_ascii [g; h])
    else None
  | _ => None
  end.

Definition errRanges : string := "a maintenance window is 1 to 4 HH:MM-HH:MM ranges (24-hour)".
Definition errRange : string :=
  "each maintenance window range is HH:MM-HH:MM (24-hour), start and end different".

Definition range_ok (r : string) : bool :=
  match rangeRe r with
  | None => false
  | Some (m1, m2, m3, m4) => negb (String.eqb (m1 ++ m2) (m3 ++ m4))
  end.

Definition Check (w : Window) : result string unit :=
  if (length (Ranges w) =? 0)%nat || (MaxWindowRanges <? length (Ranges w))%nat then Err errRanges
  else if forallb range_ok (Ranges w) then Ok tt else Err errRange.

(** The window is returned whatever [Check] says of it. *)
Definition ParseWindow (v : string) : Window * result string unit :=
  let utc := HasSuffix v "Z" in
  let v := if utc then TrimSuffix v "Z" else v in
  let w := mkWindow (split_byte "," v) utc in
  (w, Check w).

Definition Param (w : Window) : string :=
  let s := join "," (Ranges w) in if UTC w then s ++ "Z" else s.

(** [int(b - '0')]: the subtraction is on a byte. *)
Definition digit_of (b : ascii) : Z := (byte_val b - 48) mod 256.

Definition minutesOf (hhmm : string) : option Z :=
  match String.get 0 hhmm, String.get 1 hhmm, String.get 3 hhmm, String.get 4 hhmm with
  | Some a, Some b, Some c, Some d => Some (digit_of a * 600 + digit_of b * 60 + digit_of c * 10 + digit_of d)
  | _, _, _, _ => None
  end.

(** [minutesOf(r[:5])] and [minutesOf(r[6:])]. *)
Definition range_start (r : string) : option Z :=
  if (5 <=? String.length r)%nat then minutesOf (string_take 5 r) else None.
Definition range_end (r : string) : option Z :=
  if (6 <=? String.length r)%nat then minutesOf (string_drop 6 r) else None.

Definition clockAt (w : Window) (now : Z) (offsetMinutes : option Z) : option Z :=
  if UTC w then Some now else
  match offsetMinutes with
  | None => None
  | Some m => Some (now + duration (m * Minute))
  end.

Definition inside (n s e : Z) : bool :=
  ((s <=? e) && (s <=? n) && (n <? e)) || ((e <? s) && ((s <=? n) || (n <? e))).

Fixpoint contains_loop (n : Z) (rs : list string) : option bool :=
  match rs with
  | [] => Some false
  | r :: rs =>
    match range_start r, range_end r with
    | Some s, Some e => if inside n s e then Some true else contains_loop n rs
    | _, _ => None
    end
  end.

(** [(in, known)]. *)
Definition Contains (w : Window) (now : Z) (offsetMinutes : option Z) : option (bool * bool) :=
  match clockAt w now offsetMinutes with
  | None => Some (false, false)
  | Some t => match contains_loop (minute_of_day t) (Ranges w) with
    | None => None
    | Some b => Some (b, true)
    end
  end.

Fixpoint next_loop (n best : Z) (rs : list string) : option Z :=
  match rs with
  | [] => Some best
  | r :: rs =>
    match range_start r with
    | None => None
    | Some s =>
      let d := Z.rem (s - n + 1440) 1440 in
      next_loop n (if (best <? 0) || (d <? best) then d else best) rs
    end
  end.

(** [(start, known)]; the zero time stands for no start. *)
Definition NextStart (w : Window) (now : Z) (offsetMinutes : option Z) : option (option Z * bool) :=
  match clockAt w now offsetMinutes with
  | None => Some (None, false)
  | Some t =>
    match Contains w now offsetMinutes with
    | None => None
    | Some (true, _) => Some (Some now, true)
    | Some (false, _) =>
      match next_loop (minute_of_day t) (-1) (Ranges w) with
      | None => None
      | Some best => Some (Some (Truncate now Minute + duration (best * Minute)), true)
      end
    end
  end.

(** ** [maintenance_window_settings.go]

    [setting] is the older single fleet window, [maintenance.window]. *)

Definition shippedMaintenanceWindow : Window := mkWindow ["01:00-05:00"] false.

Record maintenanceWindows : Type := mkWindows { Default : option Window; Endpoints : gmap string Window }.

(** [st] is the stored row, decoded; a row that does not decode is empty. *)
Definition loadMaintenanceWindows (st : maintenanceWindows) : maintenanceWindows :=
  mkWindows
    (match Default st with Some w => if is_ok (Check w) then Some w else None | None => None end)
    (filter (fun kw => is_ok (Check kw.2) = true) (Endpoints st)).

Definition fleetWindow (setting : string) (st : maintenanceWindows) : Window * string :=
  match Default st with
  | Some w => (w, "fleet")
  | None =>
    if negb (String.eqb setting "") && is_ok (snd (ParseWindow setting))
    then (fst (ParseWindow setting), "fleet")
    else (shippedMaintenanceWindow, "default")
  end.

Definition windowFor (setting : string) (st : maintenanceWindows) (endpointID : string) : Window * string :=
  match Endpoints st !! endpointID with
  | Some w => if String.eqb endpointID "" then fleetWindow setting st else (w, "endpoint")
  | None => fleetWindow setting st
  end.

Definition windowParams (setting : string) (st : maintenanceWindows) (ids : list string) : gmap string string :=
  let st := loadMaintenanceWindows st in
  fold_left (fun out id => <[id := Param (fst (windowFor setting st id))]> out) ids ∅.

(** [offset] is what [endpointUTCOffset] finds for the machine. *)
Definition windowOpenOrUnknown (param : string) (offset : option Z) (now : Z) : option bool :=
  let (w, err) := ParseWindow param in
  if negb (is_ok err) then Some true else
  match Contains w now offset with
  | None => None
  | Some (inw, known) => Some (inw || negb known)
  end.

(** ** Ranges that pass [Check] *)

Definition is_range (r : string) (s e : Z) : Prop :=
  range_start r = Some s /\ range_end r = Some e /\ 0 <= s < 1440 /\ 0 <= e < 1440 /\ s <> e.

Lemma byte_val_inj a b : byte_val a = byte_val b -> a = b.
Proof.
  unfold byte_val. intros E. apply N2Z.inj in E. by rewrite <- (ascii_N_embedding a), <- (ascii_N_embedding b), E.
Qed.

Lemma digit_small a : in_range 48 57 (byte_val a) = true -> digit_of a = byte_val a - 48 /\ 0 <= digit_of a <= 9.
Proof. unfold in_range, digit_of. intros H. bools. rewrite Z.mod_small; lia. Qed.

Lemma hour_digits a b : hour_ok a b = true ->
  in_range 48 57 (byte_val a) = true /\ in_range 48 57 (byte_val b) = true /\ 0 <= digit_of a * 10 + digit_of b < 24.
Proof.
  unfold hour_ok, is_digit. rewrite orb_true_iff, !andb_true_iff, orb_true_iff, !Ascii.eqb_eq.
  intros [[[->| ->] B]|[-> B]].
  1,2: split; [reflexivity|]; split; [exact B|]; destruct (digit_small b B) as [_ ?];
    match goal with |- context [digit_of ?c * 10] => let v := eval vm_compute in (digit_of c) in change (digit_of c) with v end; lia.
  unfold in_range in *. bools. assert (B' : in_range 48 57 (byte_val b) = true)
    by (unfold in_range; rewrite andb_true_iff, !Z.leb_le; lia).
  split; [reflexivity|]. split; [exact B'|]. destruct (digit_small b B') as [E ?].
  change (digit_of "2") with 2. lia.
Qed.

Lemma minute_digits a b : minute_ok a b = true ->
  in_range 48 57 (byte_val a) = true /\ in_range 48 57 (byte_val b) = true /\ 0 <= digit_of a * 10 + digit_of b < 60.
Proof.
  unfold minute_ok, is_digit. intros H. apply andb_true_iff in H as [A B].
  assert (A' : in_range 48 57 (byte_val a) = true)
    by (unfold in_range in *; bools; rewrite andb_true_iff, !Z.leb_le; lia).
  split; [done|]. split; [done|]. destruct (digit_small a A') as [E ?], (digit_small b B).
  unfold in_range in A. bools. lia.
Qed.

(** The minutes of two valid clock times, and that they tell them apart. *)
Definition clock (a b c d : ascii) : Z := digit_of a * 600 + digit_of b * 60 + digit_of c * 10 + digit_of d.

Lemma clock_bounds a b c d : hour_ok a b = true -> minute_ok c d = true -> 0 <= clock a b c d < 1440.
Proof. intros H M. apply hour_digits in H as (_ & _ & H). apply minute_digits in M as (_ & _ & M). unfold clock. lia. Qed.

Lemma clock_inj a b c d a' b' c' d' :
  hour_ok a b = true -> minute_ok c d = true -> hour_ok a' b' = true -> minute_ok c' d' = true ->
  clock a b c d = clock a' b' c' d' -> a = a' /\ b = b' /\ c = c' /\ d = d'.
Proof.
  intros H M H' M' E.
  apply hour_digits in H as (A & B & _). apply minute_digits in M as (C & D & M).
  apply hour_digits in H' as (A' & B' & _). apply minute_digits in M' as (C' & D' & M').
  destruct (digit_small a A), (digit_small b B), (digit_small c C), (digit_small d D).
  destruct (digit_small a' A'), (digit_small b' B'), (digit_small c' C'), (digit_small d' D').
  unfold clock in E. repeat split; apply byte_val_inj; lia.
Qed.

Lemma digit_no_mark a m : in_range 48 57 (byte_val a) = true -> in_range 48 57 (byte_val m) = false -> Ascii.eqb m a = false.
Proof. intros A M. apply Ascii.eqb_neq. intros ->. congruence. Qed.

(** A range that passes is eleven bytes that name two different minutes of
    the day, with no comma and no closing [Z]. *)
Lemma range_ok_is_range r : range_ok r = true ->
  (exists s e, is_range r s e) /\ no_byte "," r = true /\ forall p, HasSuffix (p ++ r) "Z" = false.
Proof.
  unfold range_ok, rangeRe. intros H. pose proof (string_of_list_ascii_of_string r) as R.
  destruct (list_ascii_of_string r) as [|a [|b [|c1 [|c [|d [|dash [|e [|f [|c2 [|g [|h [|]]]]]]]]]]]]; try done.
  destruct (_ && _) eqn:G; [|done]. rewrite !andb_true_iff, !Ascii.eqb_eq in G.
  destruct G as ((((((H1 & ->) & M1) & ->) & H2) & ->) & M2).
  apply negb_true_iff, String.eqb_neq in H. subst r. cbn [string_of_list_ascii]. repeat split.
  - exists (clock a b c d), (clock e f g h). repeat split; try apply (clock_bounds _ _ _ _ H1 M1);
      try apply (clock_bounds _ _ _ _ H2 M2).
    intros E. apply clock_inj in E as (-> & -> & -> & ->); auto.
  - apply hour_digits in H1 as (? & ? & _), H2 as (? & ? & _). apply minute_digits in M1 as (? & ? & _), M2 as (? & ? & _).
    unfold no_byte. cbn [string_forallb]. 
    by rewrite (digit_no_mark a), (digit_no_mark b), (digit_no_mark c), (digit_no_mark d),
      (digit_no_mark e), (digit_no_mark f), (digit_no_mark g), (digit_no_mark h).
  - intros p. apply minute_digits in M2 as (_ & M & _).
    set (q := String a _). set (z := String h EmptyString).
    assert (Q : exists q', q = (q' ++ z)%string).
    { exists (string_of_list_ascii [a; b; ":"; c; d; "-"; e; f; ":"; g]%char). reflexivity. }
    destruct Q as [q' ->]. rewrite <- app_assoc_str, suffix_eqb by done.
    apply String.eqb_neq. intros [= ->]. done.
Qed.

Lemma Check_ranges w : Check w = Ok tt -> Ranges w <> [] /\ Forall (fun r => range_ok r = true) (Ranges w).
Proof.
  unfold Check. destruct (Ranges w) as [|r l]; [done|]. intros H. split; [done|].
  destruct (_ || _); [done|]. destruct (forallb range_ok (r :: l)) eqn:F; [|done].
  apply Forall_forall. intros x X. rewrite forallb_forall in F. apply F, list_elem_of_In, X.
Qed.

(** ** The loops over ranges that pass *)

(** The ranges as pairs of minutes. *)
Definition reads (rs : list string) (ps : list (Z * Z)) : Prop := Forall2 (fun r p => is_range r p.1 p.2) rs ps.

Lemma Check_reads w : Check w = Ok tt -> exists ps, reads (Ranges w) ps /\ ps <> [].
Proof.
  intros C. apply Check_ranges in C as [Ne F]. assert (exists ps, reads (Ranges w) ps) as [ps R].
  { clear Ne. induction F as [|r l R F [ps IH]]; [by exists []; constructor|].
    destruct (range_ok_is_range r R) as [(s & e & I) _]. exists ((s, e) :: ps). by constructor. }
  exists ps. split; [done|]. intros ->. by inversion R; subst; congruence.
Qed.

Lemma contains_loop_reads n rs ps :
  reads rs ps -> contains_loop n rs = Some (existsb (fun p => inside n p.1 p.2) ps).
Proof.
  induction 1 as [|r [s e] rs ps (S & E & _) _ IH]; [done|]. simpl in *. rewrite S, E. by destruct (inside n s e).
Qed.

(** Minutes until the range that starts at [s] next opens. *)
Definition until (n s : Z) : Z := (s - n + 1440) mod 1440.

Lemma next_loop_reads n rs ps best :
  0 <= n < 1440 -> reads rs ps -> (best < 0 -> ps <> []) ->
  exists d, next_loop n best rs = Some d /\ 0 <= d /\ (0 <= best -> d <= best) /\
    Forall (fun p => d <= until n p.1) ps /\ (d = best \/ exists p, p ∈ ps /\ d = until n p.1).
Proof.
  intros N R. revert best. induction R as [|r [s e] rs ps (S & _ & B & _) R IH]; intros best Ne; simpl in *.
  { exists best. destruct (Z_lt_dec best 0) as [L|]; [by destruct (Ne L)|]. repeat split; auto; lia. }
  rewrite S. assert (U : Z.rem (s - n + 1440) 1440 = until n s) by (unfold until; apply Z.rem_mod_nonneg; lia).
  rewrite U. assert (P : 0 <= until n s) by (apply Z.mod_pos_bound; lia).
  set (b := if (best <? 0) || (until n s <? best) then until n s else best).
  assert (Hb : 0 <= b /\ b <= until n s /\ (0 <= best -> b <= best) /\ (b = best \/ b = until n s)).
  { subst b. destruct (Z.ltb_spec best 0); simpl; [repeat split; auto; lia|].
    destruct (Z.ltb_spec (until n s) best); repeat split; auto; lia. }
  destruct Hb as (B0 & B1 & B2 & B3). destruct (IH b) as (d & -> & D0 & D1 & D2 & D3); [lia|].
  exists d. split; [done|]. split; [done|]. split; [lia|]. split; [constructor; simpl; [lia|done]|].
  destruct D3 as [->|(p & Hp & ->)]; [|right; exists p; split; [by right|done]].
  destruct B3 as [->| ->]; [by left|]. right. exists (s, e). split; [by left|done].
Qed.

(** ** The arithmetic of one day *)

Lemma opens_at_start n s e : 0 <= n < 1440 -> 0 <= s < 1440 -> 0 <= e < 1440 -> s <> e ->
  inside ((n + until n s) mod 1440) s e = true.
Proof.
  intros N S E Ne. assert (X : (n + until n s) mod 1440 = s).
  { unfold until. rewrite Zplus_mod_idemp_r. replace (n + (s - n + 1440)) with (s + 1 * 1440) by lia.
    rewrite Z_mod_plus_full. apply Z.mod_small, S. }
  rewrite X. unfold inside. destruct (Z.leb_spec s e), (Z.ltb_spec e s), (Z.leb_spec s s), (Z.ltb_spec s e); simpl; try done; lia.
Qed.

Lemma closed_until n k s e : 0 <= n < 1440 -> 0 <= s < 1440 -> 0 <= e < 1440 ->
  inside n s e = false -> 0 <= k < until n s -> inside ((n + k) mod 1440) s e = false.
Proof.
  intros N S E I K. assert (U : until n s = if decide (n <= s) then s - n else s - n + 1440).
  { unfold until. case_decide; [|apply Z.mod_small; lia].
    replace (s - n + 1440) with ((s - n) + 1 * 1440) by lia. rewrite Z_mod_plus_full. apply Z.mod_small. lia. }
  assert (X : (n + k) mod 1440 = if decide (n + k < 1440) then n + k else n + k - 1440).
  { rewrite U in K. clear U. repeat case_decide; try (apply Z.mod_small; lia); try lia.
    replace (n + k) with ((n + k - 1440) + 1 * 1440) at 1 by lia. rewrite Z_mod_plus_full. apply Z.mod_small. lia. }
  rewrite X. rewrite U in K. clear U X. unfold inside in *. apply not_true_iff_false. apply not_true_iff_false in I.
  rewrite orb_true_iff, !andb_true_iff, orb_true_iff, !Z.leb_le, !Z.ltb_lt in *. repeat case_decide; lia.
Qed.

(** ** Properties *)

(** An offset that a [time.Duration] holds. *)
Definition offset_ok (off : Z) : Prop := - 2 ^ 63 <= off * Minute < 2 ^ 63.

Lemma duration_small d : - 2 ^ 63 <= d < 2 ^ 63 -> duration d = d.
Proof. intros D. unfold duration. rewrite Z.mod_small; lia. Qed.

Lemma clockAt_shift w now off t :
  clockAt w now off = Some t -> (forall m, off = Some m -> offset_ok m) ->
  exists m, forall x, clockAt w x off = Some (x + m * Minute).
Proof.
  unfold clockAt. destruct (UTC w); [intros _ _; exists 0; intros; f_equal; lia|].
  destruct off as [m|]; [|done]. intros _ O. exists m. intros x. by rewrite duration_small by (by apply O).
Qed.

Lemma minute_shift x m : minute_of_day (x + m * Minute) = (x / Minute + m) mod 1440.
Proof. unfold minute_of_day. by rewrite Z_div_plus_full by done. Qed.

Lemma minute_bounds t : 0 <= minute_of_day t < 1440.
Proof. apply Z.mod_pos_bound. lia. Qed.

(** The minute of an instant [k] whole minutes on. *)
Lemma minute_later q m k : (q + k + m) mod 1440 = ((q + m) mod 1440 + k) mod 1440.
Proof. rewrite Zplus_mod_idemp_l. f_equal. lia. Qed.

Lemma start_minutes now d : Truncate now Minute + d * Minute = (now / Minute + d) * Minute.
Proof. unfold Truncate. pose proof (Z.div_mod now Minute ltac:(done)). lia. Qed.

(** From a closed minute, the window stays closed for the shortest wait and
    is open at its end. *)
Lemma first_opening n d ps :
  0 <= n < 1440 -> Forall (fun p => 0 <= p.1 < 1440 /\ 0 <= p.2 < 1440 /\ p.1 <> p.2) ps ->
  existsb (fun p => inside n p.1 p.2) ps = false ->
  Forall (fun p => d <= until n p.1) ps -> (exists p, p ∈ ps /\ d = until n p.1) ->
  0 < d < 1440 /\ existsb (fun p => inside ((n + d) mod 1440) p.1 p.2) ps = true /\
  forall k, 0 <= k < d -> existsb (fun p => inside ((n + k) mod 1440) p.1 p.2) ps = false.
Proof.
  intros N W I L (p & Hp & E). rewrite Forall_forall in W, L.
  assert (F : forall q, q ∈ ps -> inside n q.1 q.2 = false).
  { intros q Hq. apply not_true_iff_false. intros X. apply not_true_iff_false in I. apply I, existsb_exists.
    exists q. split; [by apply list_elem_of_In|done]. }
  destruct (W p Hp) as (S & En & Ne). pose proof (opens_at_start n p.1 p.2 N S En Ne) as Op. rewrite <- E in Op.
  assert (D : 0 <= d < 1440) by (rewrite E; apply Z.mod_pos_bound; lia). split.
  { destruct (decide (d = 0)) as [->|]; [|lia]. rewrite Z.add_0_r, Z.mod_small, F in Op by done. done. }
  split.
  - apply existsb_exists. exists p. split; [by apply list_elem_of_In|done].
  - intros k K. apply not_true_iff_false. intros X. apply existsb_exists in X as (q & Hq & X).
    apply list_elem_of_In in Hq. destruct (W q Hq) as (S' & E' & _). pose proof (L q Hq) as Lq. simpl in Lq.
    rewrite closed_until in X; auto; lia.
Qed.

Lemma reads_bounds rs ps : reads rs ps -> Forall (fun p => 0 <= p.1 < 1440 /\ 0 <= p.2 < 1440 /\ p.1 <> p.2) ps.
Proof. induction 1 as [|r p rs ps (_ & _ & ?) _ IH]; constructor; auto. Qed.

(** C35: For a window that passes [Check], on a clock that is known, the hub
    computes a next start without a panic; it is not before now and within a
    day of it, the window is open then, and it is closed at every instant
    from now until then. *)
Theorem next_start_first w now off t :
  Check w = Ok tt -> clockAt w now off = Some t -> (forall m, off = Some m -> offset_ok m) ->
  exists start, NextStart w now off = Some (Some start, true) /\
    now <= start < now + 1440 * Minute /\
    Contains w start off = Some (true, true) /\
    forall x, now <= x < start -> Contains w x off = Some (false, true).
Proof.
  intros C T O. destruct (Check_reads w C) as (ps & R & Ne).
  destruct (clockAt_shift w now off t T O) as [m A].
  assert (CT : forall x, Contains w x off = Some (existsb (fun p => inside ((x / Minute + m) mod 1440) p.1 p.2) ps, true)).
  { intros x. unfold Contains. by rewrite A, (contains_loop_reads _ _ _ R), minute_shift. }
  unfold NextStart. rewrite (A now), !CT. destruct (existsb _ ps) eqn:I.
  { exists now. rewrite CT, I. repeat split; try (unfold Minute; lia); intros; lia. }
  pose proof (minute_bounds (now + m * Minute)) as N. rewrite minute_shift in *.
  set (n := (now / Minute + m) mod 1440) in *.
  destruct (next_loop_reads n _ ps (-1) N R) as (d & -> & D0 & _ & DL & [->|Dp]); [done|lia|].
  destruct (first_opening n d ps N (reads_bounds _ _ R) I DL Dp) as (D & Op & Cl).
  rewrite duration_small, start_minutes by (unfold Minute; lia).
  pose proof (Z.div_mod now Minute ltac:(done)) as Q. pose proof (Z.mod_pos_bound now Minute ltac:(done)) as M.
  eexists. split; [done|]. split; [unfold Minute in *; lia|]. rewrite CT, Z.div_mul, minute_later by done.
  fold n. rewrite Op. split; [done|]. intros x X. rewrite CT.
  assert (L : now / Minute <= x / Minute < now / Minute + d).
  { split; [apply Z.div_le_mono; [done|lia]|]. apply Z.div_lt_upper_bound; [done|]. lia. }
  replace (x / Minute + m) with (now / Minute + (x / Minute - now / Minute) + m) by lia.
  rewrite minute_later. fold n. by rewrite Cl by lia.
Qed.

(** A window that passes [Check] is what [ParseWindow] reads back from
    its run parameter, without an error. *)
Theorem window_param_roundtrip w : Check w = Ok tt -> ParseWindow (Param w) = (w, Ok tt).
Proof.
  intros C. destruct (Check_ranges w C) as [Ne F].
  assert (S : split_byte "," (join "," (Ranges w)) = Ranges w).
  { apply split_join; [done|]. eapply Forall_impl; [exact F|]. intros r H. by apply range_ok_is_range. }
  unfold ParseWindow, Param. destruct w as [rs [|]]; simpl in *.
  - rewrite suffix_eqb, TrimSuffix_app by done. cbn [String.eqb Ascii.eqb Bool.eqb]. by rewrite S, C.
  - destruct (join_last "," rs Ne) as (p & r & Hr & E). rewrite Forall_forall in F.
    destruct (range_ok_is_range r (F r Hr)) as (_ & _ & Nz).
    assert (HasSuffix (join "," rs) "Z" = false) as -> by (rewrite E; apply Nz). by rewrite S, C.
Qed.

End window.

(** ** Examples *)
Module window_example.
Import window.
Local Open Scope string_scope.
Local Open Scope Z_scope.

(** 22:30-02:00 and 12:00-13:00 machine time, at 1970-01-02 05:00 UTC on a
    machine at UTC-5. *)
Definition nightly : Window := mkWindow ["22:30-02:00"; "12:00-13:00"] false.
Definition five_utc : Z := (1440 + 300) * Minute.

Lemma offset_example m : Some (-300) = Some m -> offset_ok m.
Proof. intros [= <-]. split; vm_compute; congruence. Qed.

Lemma next_start_first_witness : exists start,
  NextStart nightly (five_utc + 180 * Minute) (Some (-300)) = Some (Some start, true) /\
  Contains nightly start (Some (-300)) = Some (true, true).
Proof.
  destruct (next_start_first nightly (five_utc + 180 * Minute) (Some (-300)) (1440 * Minute + 180 * Minute) eq_refl eq_refl offset_example)
    as (start & E & _ & I & _).
  exists start. split; [exact E|exact I].
Defined.

Lemma window_param_roundtrip_witness : ParseWindow "22:30-02:00,12:00-13:00" = (nightly, Ok tt).
Proof. exact (window_param_roundtrip nightly eq_refl). Defined.

End window_example.
