(* ===== verification/Action.v ===== *)
(** * Actions

    Stateful operations that can fail: a state monad over results, with the
    inversion of a successful run, forward execution, and what every run of an
    operation keeps. *)

From Stdlib Require Import Ascii String.
From S2P Require Import Prelude.

(** The state afterwards, and the answer. *)
Definition action (St A : Type) : Type := St -> St * result string A.

#[export] Instance action_ret {St} : MRet (action St) := fun A x a => (a, Ok x).
#[export] Instance action_bind {St} : MBind (action St) :=
  fun A B k m a => match m a with (a', Ok x) => k x a' | (a', Err e) => (a', Err e) end.

Definition fail {St A} (e : string) : action St A := fun a => (a, Err e).
Definition ensure {St} (b : bool) (e : string) : action St unit := if b then mret tt else fail e.
Definition of_result {St A} (r : result string A) : action St A := fun a => (a, r).
Definition gets {St A} (f : St -> A) : action St A := fun a => (a, Ok (f a)).
Definition modify {St} (f : St -> St) : action St unit := fun a => (f a, Ok tt).

(** The outcome of an action as a value. *)
Definition attempt {St A} (m : action St A) : action St (result string A) := fun a => let '(a, r) := m a in (a, Ok r).

(** ** Running backwards and forwards *)

Section Inversion.
Context {St : Type}.

Lemma act_bind_Ok {A B} (m : action St A) (k : A -> action St B) a a' b :
  (m ≫= k) a = (a', Ok b) -> exists a1 x, m a = (a1, Ok x) /\ k x a1 = (a', Ok b).
Proof. unfold mbind, action_bind. destruct (m a) as [a1 [x|e]]; [eauto|done]. Qed.

Lemma ensure_Ok b e (a : St) a' u : ensure b e a = (a', Ok u) -> b = true /\ a' = a.
Proof. unfold ensure. destruct b; cbn; [by intros [= <-]|done]. Qed.

Lemma of_result_Ok {A} (r : result string A) (a : St) a' x : of_result r a = (a', Ok x) -> r = Ok x /\ a' = a.
Proof. unfold of_result. intros [= <- ->]. done. Qed.

Lemma gets_Ok {A} (f : St -> A) a a' x : gets f a = (a', Ok x) -> x = f a /\ a' = a.
Proof. unfold gets. by intros [= <- <-]. Qed.

Lemma ret_Ok {A} (x y : A) (a : St) a' : (mret x : action St A) a = (a', Ok y) -> y = x /\ a' = a.
Proof. unfold mret, action_ret. by intros [= <- <-]. Qed.

Lemma modify_Ok (f : St -> St) a a' u : modify f a = (a', Ok u) -> a' = f a.
Proof. unfold modify. by intros [= <-]. Qed.

(** Run one action of a sequence. *)
Lemma bind_run {A B} (m : action St A) (k : A -> action St B) a a1 x : m a = (a1, Ok x) -> (m ≫= k) a = k x a1.
Proof. intros E. unfold mbind, action_bind. by rewrite E. Qed.

Lemma ensure_run b e (a : St) : b = true -> ensure b e a = (a, Ok tt).
Proof. by intros ->. Qed.

End Inversion.

(** Take apart a successful sequence of actions. *)
Ltac inv_act H :=
  repeat match type of H with
  | (_ ≫= _) _ = (_, Ok _) =>
      let a := fresh "a" in let x := fresh "x" in let E := fresh "E" in
      apply act_bind_Ok in H; destruct H as (a & x & E & H);
      first
      [ apply ensure_Ok in E; destruct E as [E ->]
      | apply gets_Ok in E; destruct E as [-> ->]
      | apply of_result_Ok in E; destruct E as [E ->]
      | apply ret_Ok in E; destruct E as [-> ->]
      | apply modify_Ok in E; subst a
      | idtac ]
  end.

(** ** What every operation keeps *)

Section Respects.
Context {St : Type} (R : relation St) `{!PreOrder R}.

Definition respects {A} (m : action St A) : Prop := forall a, R a (fst (m a)).

Lemma respects_run {A} (m : action St A) a a' r : respects m -> m a = (a', r) -> R a a'.
Proof. intros M E. specialize (M a). by rewrite E in M. Qed.

Lemma respects_bind {A B} (m : action St A) (k : A -> action St B) : respects m -> (forall x, respects (k x)) -> respects (m ≫= k).
Proof.
  intros M Q a. unfold mbind, action_bind. specialize (M a). destruct (m a) as [a1 [x|e]]; [|done].
  cbn in M. etransitivity; [exact M|apply Q].
Qed.

Lemma respects_ret {A} (x : A) : respects (mret x).
Proof. intros a. cbn. reflexivity. Qed.

Lemma respects_fail {A} e : respects (@fail St A e).
Proof. intros a. cbn. reflexivity. Qed.

Lemma respects_ensure b e : respects (ensure b e).
Proof. unfold ensure. destruct b; [apply respects_ret|apply respects_fail]. Qed.

Lemma respects_gets {A} (f : St -> A) : respects (gets f).
Proof. intros a. cbn. reflexivity. Qed.

Lemma respects_of_result {A} (r : result string A) : respects (of_result r).
Proof. intros a. cbn. reflexivity. Qed.

Lemma respects_modify f : (forall a, R a (f a)) -> respects (modify f).
Proof. intros F a. apply F. Qed.

Lemma respects_attempt {A} (m : action St A) : respects m -> respects (attempt m).
Proof. intros M a. unfold attempt. specialize (M a). by destruct (m a). Qed.

End Respects.

Create HintDb respects.
#[export] Hint Resolve respects_ret respects_fail respects_ensure respects_gets respects_of_result respects_modify
  respects_attempt : respects.

(** Follows the structure of an operation. *)
Ltac respects :=
  repeat first
  [ progress intros
  | solve [eauto 2 with respects typeclass_instances]
  | apply respects_bind; [typeclasses eauto| |]
  | match goal with |- respects _ (match ?x with _ => _ end) => destruct x end ].

(** ** Weakest preconditions

    [wp E m s Q]: from [s], the action [m] ends in [Q] when it answers and in
    [E] when it fails. *)

Section Wp.
Context {St : Type} (E : St -> Prop).

Definition wp {A} (m : action St A) (s : St) (Q : A -> St -> Prop) : Prop :=
  match m s with (s', Ok x) => Q x s' | (s', Err _) => E s' end.

Lemma wp_bind {A B} (m : action St A) (k : A -> action St B) s Q :
  wp m s (fun x s' => wp (k x) s' Q) -> wp (m ≫= k) s Q.
Proof. unfold wp, mbind, action_bind. by destruct (m s) as [s' [x|e]]. Qed.

Lemma wp_ret {A} (x : A) s Q : Q x s -> wp (mret x) s Q.
Proof. done. Qed.

Lemma wp_fail {A} e s (Q : A -> St -> Prop) : E s -> wp (fail e) s Q.
Proof. done. Qed.

Lemma wp_gets {A} (f : St -> A) s Q : Q (f s) s -> wp (gets f) s Q.
Proof. done. Qed.

Lemma wp_modify f s Q : Q tt (f s) -> wp (modify f) s Q.
Proof. done. Qed.

Lemma wp_ensure b e s Q : E s -> (b = true -> Q tt s) -> wp (ensure b e) s Q.
Proof. intros F T. unfold ensure. destruct b; [by apply T|done]. Qed.

Lemma wp_of_result {A} (r : result string A) s Q : E s -> (forall x, r = Ok x -> Q x s) -> wp (of_result r) s Q.
Proof. intros F T. unfold wp, of_result. destruct r; [by apply T|done]. Qed.

Lemma wp_mono {A} (m : action St A) s (Q Q' : A -> St -> Prop) :
  wp m s Q -> (forall x s', Q x s' -> Q' x s') -> wp m s Q'.
Proof. intros W M. unfold wp in *. destruct (m s) as [s' [x|e]]; [by apply M|done]. Qed.

Lemma wp_state {A} (m : action St A) s Q : wp m s Q -> (forall x s', Q x s' -> E s') -> E (fst (m s)).
Proof. intros W M. unfold wp in *. destruct (m s) as [s' [x|e]]; [by eapply M|done]. Qed.

Lemma wp_of_state {A} (m : action St A) s : E (fst (m s)) -> wp m s (fun _ s' => E s').
Proof. unfold wp. by destruct (m s) as [s' [x|e]]. Qed.

Lemma wp_Ok {A} (m : action St A) s s' x Q : wp m s Q -> m s = (s', Ok x) -> Q x s'.
Proof. intros W H. unfold wp in W. by rewrite H in W. Qed.

Lemma wp_Err {A} (m : action St A) s s' e Q : wp m s Q -> m s = (s', Err e) -> E s'.
Proof. intros W H. unfold wp in W. by rewrite H in W. Qed.

End Wp.

#[global] Opaque wp.

(** Executes the actions whose effect is known. *)
Ltac wp_step :=
  first
  [ apply wp_bind
  | apply wp_ret
  | apply wp_fail; try done
  | apply wp_gets
  | apply wp_modify
  | apply wp_ensure; [try done|intros ?]
  | apply wp_of_result; [try done|intros ? ?] ]; cbv beta.
