(* ===== verification/Platform.v ===== *)
(** * What the platform gives

    Parameters several components share: signing and sealing with the laws
    callers rely on, the order of the rows of a query, and Unix times. *)

From Stdlib Require Import Ascii String.
From stdpp Require Import gmap.
From S2P Require Import Prelude Canonical.

Module platform.
Import canonical.

Local Open Scope string_scope.
Local Open Scope Z_scope.

(** ** Times, in nanoseconds *)

Definition Second : Z := 1000000000.
Definition Hour : Z := 3600 * Second.

(** [now.Unix()]. *)
Definition Unix (now : Z) : Z := now / Second.

(** ** Cryptography *)

Class AuthCrypto := {
  ed25519_sign : string -> string -> string;
  hmac_sha1 : string -> string -> string;
  aes_gcm_seal : string -> string -> string -> string -> string;
  aes_gcm_open : string -> string -> string -> string -> option string;
  uni_upper : string -> string;
}.

(** [aes_gcm_seal key nonce aad m]. What callers rely on: a signature verifies, what was sealed opens, the
    sizes of a signature and of a SHA-1 digest. *)
Class AuthCryptoLaws `{Crypto} `{AuthCrypto} := {
  sign_verifies : forall priv m, String.length priv = 64%nat ->
    ed25519_verify (string_drop 32 priv) m (ed25519_sign priv m) = true;
  sign_length : forall priv m, String.length (ed25519_sign priv m) = 64%nat;
  open_seal : forall key nonce aad m, String.length key = 32%nat -> String.length nonce = 12%nat ->
    aes_gcm_open key nonce aad (aes_gcm_seal key nonce aad m) = Some m;
  hmac_sha1_length : forall k m, String.length (hmac_sha1 k m) = 20%nat;
}.

Definition PublicKeySize : nat := 32.
Definition PrivateKeySize : nat := 64.

(** [priv.Public()]: the second half of the private key. *)
Definition public_of (priv : string) : string := string_drop 32 priv.

Definition fingerprint `{Crypto} (pub : string) : string := hex_encode (sha256 pub).

Definition gcmNonceSize : nat := 12.

(** A nonce put in front of a sealed text is found again. *)
Lemma nonce_split nonce ct :
  String.length nonce = gcmNonceSize ->
  (String.length (nonce ++ ct) <? gcmNonceSize)%nat = false
  /\ string_take gcmNonceSize (nonce ++ ct) = nonce /\ string_drop gcmNonceSize (nonce ++ ct) = ct.
Proof.
  intros N. rewrite <- N, string_take_app, string_drop_app, length_app_str. split; [|done].
  apply Nat.ltb_ge. lia.
Qed.

(** ** The rows of a query *)

(** The order SQLite returns rows in when the query names none. *)
Class Rows := {
  in_row_order : forall {A : Type}, list A -> list A;
  in_row_order_perm : forall {A : Type} (l : list A), in_row_order l ≡ₚ l;
}.

Section Rows.
Context `{R : Rows}.

Definition rows_where {K A} `{Countable K} (f : A -> bool) (m : gmap K A) : list A :=
  in_row_order (filter (fun a => f a = true) (map snd (map_to_list m))).

Lemma rows_where_elem {K A} `{Countable K} f (m : gmap K A) a :
  a ∈ rows_where f m <-> f a = true /\ exists k, m !! k = Some a.
Proof.
  unfold rows_where. rewrite in_row_order_perm, list_elem_of_filter, list_elem_of_fmap. split.
  - intros (F & [k v] & -> & I). apply elem_of_map_to_list in I. eauto.
  - intros (F & k & E). split; [done|]. exists (k, a). split; [done|]. by apply elem_of_map_to_list.
Qed.

Lemma rows_where_insert {K A} `{Countable K} f (m : gmap K A) k x :
  m !! k = None -> rows_where f (<[k := x]> m) ≡ₚ (if f x then [x] else []) ++ rows_where f m.
Proof.
  intros N. unfold rows_where. rewrite !in_row_order_perm, map_to_list_insert by done. cbn [map snd].
  rewrite filter_cons. by destruct (f x).
Qed.

Lemma rows_where_nil {Key A} `{Countable Key} f (m : gmap Key A) :
  (forall k x, m !! k = Some x -> f x = false) -> rows_where f m = [].
Proof.
  intros F. destruct (rows_where f m) as [|x l] eqn:E; [done|].
  assert (I : x ∈ rows_where f m) by (rewrite E; set_solver).
  apply rows_where_elem in I as (T & k & Lk). by rewrite (F k x Lk) in T.
Qed.

End Rows.

End platform.
