(* ===== verification/Encoding.v ===== *)
(** * Base32 and base64

    The encodings of Go's [encoding/base32] and [encoding/base64] the response
    authority uses: unpadded and padded base32 of TOTP secrets, base64url and
    padded base64 of WebAuthn messages. Decoding is Go's: line breaks are
    skipped, the last bits of a short quantum are not checked. *)

From Stdlib Require Import Ascii String.
From S2P Require Import Prelude Canonical.

Module encoding.

Local Open Scope string_scope.
Local Open Scope Z_scope.

Definition base32_alphabet : string := "ABCDEFGHIJKLMNOPQRSTUVWXYZ234567".
Definition base64_std_alphabet : string := "ABCDEFGHIJKLMNOPQRSTUVWXYZabcdefghijklmnopqrstuvwxyz0123456789+/".
Definition base64_url_alphabet : string := "ABCDEFGHIJKLMNOPQRSTUVWXYZabcdefghijklmnopqrstuvwxyz0123456789-_".

Fixpoint list_of (s : string) : list ascii :=
  match s with EmptyString => [] | String c s' => c :: list_of s' end.

Fixpoint string_of (l : list ascii) : string :=
  match l with [] => EmptyString | c :: l' => String c (string_of l') end.

(** The symbols of an input: line breaks skipped. *)
Definition symbols (s : string) : list ascii :=
  filter (fun c => negb (Ascii.eqb c "010" || Ascii.eqb c "013") = true) (list_of s).

Definition symbol (alphabet : string) (c : ascii) : option Z := Z.of_nat <$> index_byte c alphabet.

Definition letter (alphabet : string) (v : Z) : ascii := default "?"%char (String.get (Z.to_nat v) alphabet).

(** The first [n] bytes of a number of [total] bits. *)
Fixpoint high_bytes (n : nat) (total v : Z) : string :=
  match n with
  | O => EmptyString
  | S n => String (canonical.byte_of (Z.shiftr v (total - 8))) (high_bytes n (total - 8) v)
  end.

Definition pack (width : Z) (vs : list Z) : Z := fold_left (fun acc v => acc * 2 ^ width + v) vs 0.

(** ** Base32 *)

(** The bytes a quantum of [dlen] symbols yields. A quantum of 1, 3 or 6
    symbols falls outside Go's switch and yields none. *)
Definition base32_bytes (dlen : nat) : nat :=
  match dlen with 8 => 5 | 7 => 4 | 5 => 3 | 4 => 2 | 2 => 1 | _ => 0 end%nat.

Definition base32_quantum (vs : list Z) : string :=
  let dlen := length vs in high_bytes (base32_bytes dlen) 40 (pack 5 (vs ++ repeat 0 (8 - dlen)%nat)%list).

(** One quantum from its place [j] on: its symbols, whether it ends the input,
    and what follows. The padding after the first [=] is checked up to the
    eighth place only. *)
Fixpoint base32_fill (padded : bool) (room : nat) (l : list ascii) : option (list Z * bool * list ascii) :=
  let j := (8 - room)%nat in
  match room, l with
  | O, _ => Some ([], false, l)
  | S _, [] => if padded then None else Some ([], true, [])
  | S room, c :: l' =>
    if padded && Ascii.eqb c "=" && (2 <=? j)%nat && (length l' <? 8)%nat then
      if (length l' + j <? 7)%nat then None
      else if negb (forallb (Ascii.eqb "=") (take (7 - j) l')) then None
      else if existsb (Nat.eqb j) [1; 3; 6]%nat then None
      else Some ([], true, [])
    else v ← symbol base32_alphabet c; '(vs, last, rest) ← base32_fill padded room l'; Some (v :: vs, last, rest)
  end.

Fixpoint base32_decode (fuel : nat) (padded : bool) (l : list ascii) : option string :=
  match fuel, l with
  | _, [] => Some EmptyString
  | O, _ => None
  | S fuel, _ =>
    '(vs, last, rest) ← base32_fill padded 8 l;
    if last : bool then Some (base32_quantum vs) else s ← base32_decode fuel padded rest; Some (base32_quantum vs ++ s)
  end.

(** [base32.StdEncoding.WithPadding(base32.NoPadding)] and
    [base32.StdEncoding]. *)
Definition base32_raw_decode (s : string) : option string :=
  let l := symbols s in base32_decode (length l) false l.

Definition base32_std_decode (s : string) : option string :=
  let l := symbols s in base32_decode (length l) true l.

Definition base32_letters (v : Z) : list ascii :=
  map (fun i => letter base32_alphabet (Z.land (Z.shiftr v (35 - 5 * i)) 31)) [0; 1; 2; 3; 4; 5; 6; 7].

(** Whole quanta, which is all the 20 bytes of a secret need. *)
Fixpoint base32_encode (s : string) : string :=
  match s with
  | String a (String b (String c (String d (String e s')))) =>
    string_of (base32_letters (pack 8 (map byte_val [a; b; c; d; e]))) ++ base32_encode s'
  | _ => EmptyString
  end.

(** ** Base64 *)

Definition base64_quantum (vs : list Z) : string :=
  high_bytes (length vs - 1)%nat 24 (pack 6 (vs ++ repeat 0 (4 - length vs)%nat)%list).

Fixpoint base64_decode (alphabet : string) (padded : bool) (l : list ascii) : option string :=
  match l with
  | [] => Some EmptyString
  | a :: b :: c :: d :: l' =>
    va ← symbol alphabet a; vb ← symbol alphabet b;
    match symbol alphabet c, symbol alphabet d with
    | Some vc, Some vd => s ← base64_decode alphabet padded l'; Some (base64_quantum [va; vb; vc; vd] ++ s)
    | Some vc, None =>
      if padded && Ascii.eqb d "=" && bool_decide (l' = []) then Some (base64_quantum [va; vb; vc]) else None
    | None, _ =>
      if padded && Ascii.eqb c "=" && Ascii.eqb d "=" && bool_decide (l' = []) then Some (base64_quantum [va; vb]) else None
    end
  | [_] => None
  | l => if padded then None else base64_quantum <$> mapM (symbol alphabet) l
  end.

(** [base64.RawURLEncoding] and [base64.StdEncoding]. *)
Definition base64_raw_url (s : string) : option string := base64_decode base64_url_alphabet false (symbols s).
Definition base64_std (s : string) : option string := base64_decode base64_std_alphabet true (symbols s).

Definition base64_letters (n : nat) (v : Z) : string :=
  string_of (take n (map (fun i => letter base64_url_alphabet (Z.land (Z.shiftr v (18 - 6 * i)) 63)) [0; 1; 2; 3])).

(** [base64.RawURLEncoding.EncodeToString]. *)
Fixpoint base64_raw_url_encode (s : string) : string :=
  match s with
  | String a (String b (String c s')) => base64_letters 4 (pack 8 (map byte_val [a; b; c])) ++ base64_raw_url_encode s'
  | String a (String b EmptyString) => base64_letters 3 (pack 8 [byte_val a; byte_val b; 0])
  | String a EmptyString => base64_letters 2 (pack 8 [byte_val a; 0; 0])
  | EmptyString => EmptyString
  end.

(** ** A secret can always be read back *)

Lemma letter_symbol v : 0 <= v < 32 -> is_Some (symbol base32_alphabet (letter base32_alphabet v)).
Proof.
  intros [L U].
  assert (F : Forall (fun n => is_Some (symbol base32_alphabet (letter base32_alphabet (Z.of_nat n)))) (seq 0 32)).
  { repeat constructor; vm_compute; eauto. }
  rewrite Forall_forall in F. specialize (F (Z.to_nat v)). rewrite Z2Nat.id in F by done.
  apply F. apply elem_of_seq. lia.
Qed.

Definition encodable (c : ascii) : Prop := is_Some (symbol base32_alphabet c).

Lemma list_of_app s t : list_of (s ++ t) = (list_of s ++ list_of t)%list.
Proof. induction s as [|c s IH]; [done|]. change (c :: list_of (s ++ t) = c :: list_of s ++ list_of t)%list. by rewrite IH. Qed.

Lemma list_of_string_of l : list_of (string_of l) = l.
Proof. induction l as [|c l IH]; [done|]. cbn. by rewrite IH. Qed.

Lemma base32_encode_quantum a b c d e s :
  base32_encode (String a (String b (String c (String d (String e s)))))
  = string_of (base32_letters (pack 8 (map byte_val [a; b; c; d; e]))) ++ base32_encode s.
Proof. reflexivity. Qed.

Lemma base32_encode_letters_aux n : forall s, (String.length s <= n)%nat -> Forall encodable (list_of (base32_encode s)).
Proof.
  induction n as [n IH] using lt_wf_ind. intros s L.
  destruct s as [|a [|b [|c [|d [|e s]]]]]; [constructor..|].
  rewrite base32_encode_quantum, list_of_app, list_of_string_of. apply Forall_app. split.
  - apply Forall_map, Forall_true. intros i. apply letter_symbol.
    change 31 with (Z.ones 5). rewrite Z.land_ones by done. apply Z.mod_pos_bound. done.
  - cbn in L. apply (IH (String.length s)); lia.
Qed.

Lemma fill_raw room l :
  Forall encodable l ->
  exists vs last rest, base32_fill false room l = Some (vs, last, rest) /\ Forall encodable rest
    /\ (length rest <= length l - room)%nat.
Proof.
  revert l. induction room as [|room IH]; intros l F; [do 3 eexists; split; [done|split; [done|lia]]|].
  destruct l as [|c l]; [do 3 eexists; repeat split; [constructor|cbn; lia]|].
  apply Forall_cons in F as [[v E] F]. destruct (IH l F) as (vs & last & rest & E' & F' & L).
  cbn [base32_fill andb]. rewrite E. cbn [mbind option_bind]. rewrite E'.
  do 3 eexists. split; [done|]. split; [done|]. cbn. lia.
Qed.

Lemma decode_raw fuel l : Forall encodable l -> (length l <= fuel)%nat -> is_Some (base32_decode fuel false l).
Proof.
  revert l. induction fuel as [|fuel IH]; intros [|c l] F L; cbn [length] in L; [eauto|lia|eauto|].
  cbn [base32_decode]. destruct (fill_raw 8 (c :: l) F) as (vs & last & rest & E & F' & L').
  rewrite E. cbn [mbind option_bind]. destruct last; [eauto|].
  destruct (IH rest F') as [s Es]; [cbn [length] in L'; lia|]. cbn. rewrite Es. cbn. eauto.
Qed.

Lemma base32_encode_decodes s : is_Some (base32_raw_decode (base32_encode s)).
Proof.
  apply decode_raw; [|done]. apply Forall_forall. intros c I. apply list_elem_of_filter in I as [_ I].
  revert c I. apply Forall_forall, (base32_encode_letters_aux (String.length s)). lia.
Qed.

(** ** Base64 without padding reads back what it wrote *)

Lemma url_letter_symbol v : 0 <= v < 64 ->
  symbol base64_url_alphabet (letter base64_url_alphabet v) = Some v /\ Ascii.eqb (letter base64_url_alphabet v) "010" = false
  /\ Ascii.eqb (letter base64_url_alphabet v) "013" = false /\ Ascii.eqb (letter base64_url_alphabet v) "." = false.
Proof.
  intros R. assert (I : In v (seqZ 0 64)) by (apply list_elem_of_In, elem_of_seqZ; lia).
  set (ok := fun v => let c := letter base64_url_alphabet v in
    bool_decide (symbol base64_url_alphabet c = Some v) && negb (Ascii.eqb c "010") && negb (Ascii.eqb c "013") && negb (Ascii.eqb c ".")).
  assert (F : forallb ok (seqZ 0 64) = true) by (vm_compute; reflexivity).
  rewrite forallb_forall in F. apply F in I. unfold ok in I. bools. auto.
Qed.

(** The six-bit digits of three bytes. *)
Definition sextets (v : Z) : list Z := map (fun i => Z.land (Z.shiftr v (18 - 6 * i)) 63) [0; 1; 2; 3].

Lemma sextets_div v : sextets v = [v / 2 ^ 18 mod 64; v / 2 ^ 12 mod 64; v / 2 ^ 6 mod 64; v mod 64].
Proof.
  unfold sextets. cbn [map]. change 63 with (Z.ones 6). rewrite !Z.land_ones, !Z.shiftr_div_pow2 by lia. cbn [Z.sub Z.mul Z.opp Z.add].
  change (2 ^ (18 - 6 * 0)) with (2 ^ 18). change (2 ^ (18 - 6 * 1)) with (2 ^ 12). change (2 ^ (18 - 6 * 2)) with (2 ^ 6).
  change (2 ^ (18 - 6 * 3)) with 1. by rewrite Z.div_1_r.
Qed.

Lemma sextets_range v : Forall (fun x => 0 <= x < 64) (sextets v).
Proof. rewrite sextets_div. repeat constructor; apply Z.mod_pos_bound; lia. Qed.

Lemma sextet_byte_val (c : ascii) : canonical.byte_of (byte_val c) = c.
Proof. destruct c as [[] [] [] [] [] [] [] []]; reflexivity. Qed.

Lemma byte_range (c : ascii) : 0 <= byte_val c < 256.
Proof. destruct c as [[] [] [] [] [] [] [] []]; vm_compute; split; congruence. Qed.

Lemma high_three a b c : high_bytes 3 24 (pack 8 (map byte_val [a; b; c])) = String a (String b (String c "")).
Proof.
  assert (Ra := byte_range a). assert (Rb := byte_range b). assert (Rc := byte_range c).
  unfold pack. cbn [map fold_left high_bytes]. rewrite !Z.shiftr_div_pow2 by lia.
  change (2 ^ 8) with 256. change (2 ^ (24 - 8)) with 65536. change (2 ^ (24 - 8 - 8)) with 256. change (2 ^ (24 - 8 - 8 - 8)) with 1.
  assert (M : forall x y, x mod 256 = byte_val y -> canonical.byte_of x = y).
  { intros x y E. rewrite <- (sextet_byte_val y), <- E. unfold canonical.byte_of. by rewrite Z.mod_mod. }
  f_equal; [|f_equal; [|f_equal]]; apply M; Z.to_euclidean_division_equations; lia.
Qed.

Lemma pack_sextets v : 0 <= v < 2 ^ 24 -> pack 6 (sextets v) = v.
Proof.
  intros R. rewrite sextets_div. unfold pack. cbn [fold_left]. change (2 ^ 6) with 64. change (2 ^ 18) with 262144 in *.
  change (2 ^ 12) with 4096. change (2 ^ 24) with 16777216 in R. Z.to_euclidean_division_equations. lia.
Qed.

Lemma pack_bytes a b c : 0 <= byte_val a * 65536 + byte_val b * 256 + byte_val c < 2 ^ 24
  /\ pack 8 (map byte_val [a; b; c]) = byte_val a * 65536 + byte_val b * 256 + byte_val c.
Proof.
  assert (Ra := byte_range a). assert (Rb := byte_range b). assert (Rc := byte_range c).
  unfold pack. cbn [map fold_left]. change (2 ^ 8) with 256. change (2 ^ 24) with 16777216. lia.
Qed.

Lemma letters_take n v : base64_letters n v = string_of (map (letter base64_url_alphabet) (take n (sextets v))).
Proof. unfold base64_letters, sextets. by rewrite <- firstn_map, map_map. Qed.

Definition plain_symbol (c : ascii) : Prop := Ascii.eqb c "010" = false /\ Ascii.eqb c "013" = false /\ Ascii.eqb c "." = false.

Lemma letters_plain n v : Forall plain_symbol (list_of (base64_letters n v)).
Proof.
  rewrite letters_take, list_of_string_of. apply Forall_map. eapply Forall_impl; [apply Forall_take, sextets_range|].
  intros x R. cbn in R. destruct (url_letter_symbol x R) as (_ & ?). done.
Qed.

(** Strings three bytes at a time. *)
Lemma three_bytes_ind (P : string -> Prop) :
  P "" -> (forall a, P (String a "")) -> (forall a b, P (String a (String b ""))) ->
  (forall a b c s, P s -> P (String a (String b (String c s)))) -> forall s, P s.
Proof. intros H0 H1 H2 H3. fix IH 1. intros [|a [|b [|c s]]]; [done|apply H1|apply H2|apply H3, IH]. Qed.

Lemma url_encode_plain s : Forall plain_symbol (list_of (base64_raw_url_encode s)).
Proof.
  induction s as [|a|a b|a b c s IH] using three_bytes_ind; [constructor|apply letters_plain..|].
  cbn [base64_raw_url_encode]. rewrite list_of_app. apply Forall_app. split; [apply letters_plain|done].
Qed.

Lemma url_encode_no_dot s : no_byte "." (base64_raw_url_encode s) = true.
Proof.
  assert (F := url_encode_plain s). revert F. generalize (base64_raw_url_encode s). intros t F.
  induction t as [|c t IH]; [done|]. inversion F as [|? ? (_ & _ & D) F']; subst. unfold no_byte in *. cbn [string_forallb].
  rewrite Ascii.eqb_sym, D. by apply IH.
Qed.

Lemma decode_letters n v : (2 <= n <= 4)%nat ->
  mapM (symbol base64_url_alphabet) (list_of (base64_letters n v)) = Some (take n (sextets v)).
Proof.
  intros _. rewrite letters_take, list_of_string_of. assert (F : Forall (fun x => 0 <= x < 64) (take n (sextets v))) by apply Forall_take, sextets_range.
  induction F as [|x l R F IH]; [done|]. cbn [map mapM]. destruct (url_letter_symbol x R) as (-> & _). cbn [mbind option_bind]. by rewrite IH.
Qed.

Lemma symbols_plain s : Forall plain_symbol (list_of s) -> symbols s = list_of s.
Proof. 
  unfold symbols. induction 1 as [|c l (A & B & _) F IH]; [done|]. rewrite filter_cons_True by (by rewrite A, B). by rewrite IH.
Qed.

(** What a quantum of [n] digits yields, the others being zero. *)
Lemma quantum_bytes n a b c : (2 <= n <= 4)%nat ->
  let v := pack 8 (map byte_val [a; b; c]) in
  (take n (sextets v) ++ repeat 0 (4 - n))%list = sextets v ->
  base64_quantum (take n (sextets v)) = string_take (n - 1) (String a (String b (String c ""))).
Proof.
  intros N v E. unfold base64_quantum. rewrite length_take, sextets_div. cbn [length]. rewrite <- sextets_div.
  replace (n `min` 4)%nat with n by lia. rewrite E, pack_sextets by (unfold v; rewrite (proj2 (pack_bytes a b c)); apply pack_bytes).
  rewrite <- (high_three a b c). fold v. destruct n as [|[|[|[|[|n]]]]]; try lia; reflexivity.
Qed.

Lemma quantum_decodes n a b c : (n = 2 \/ n = 3)%nat ->
  let v := pack 8 (map byte_val [a; b; c]) in
  (take n (sextets v) ++ repeat 0 (4 - n))%list = sextets v ->
  base64_decode base64_url_alphabet false (list_of (base64_letters n v)) = Some (string_take (n - 1) (String a (String b (String c "")))).
Proof.
  intros N v E. rewrite <- (quantum_bytes n a b c ltac:(lia) E). fold v. assert (D := decode_letters n v ltac:(lia)). revert D.
  rewrite letters_take, list_of_string_of, sextets_div. destruct N as [-> | ->]; cbn [take map base64_decode]; by intros ->.
Qed.

Lemma base64_url_roundtrip s : base64_raw_url (base64_raw_url_encode s) = Some s.
Proof.
  unfold base64_raw_url. rewrite symbols_plain by apply url_encode_plain.
  induction s as [|a|a b|a b c s IH] using three_bytes_ind.
  - done.
  - assert (Ra := byte_range a). apply (quantum_decodes 2 a "000" "000"); [by left|]. rewrite (proj2 (pack_bytes a "000" "000")), sextets_div.
    change (byte_val "000") with 0. cbn [take repeat app Nat.sub]. change (2 ^ 6) with 64. f_equal. f_equal.
    f_equal; [|f_equal]; Z.to_euclidean_division_equations; lia.
  - assert (Ra := byte_range a). assert (Rb := byte_range b). apply (quantum_decodes 3 a b "000"); [by right|].
    rewrite (proj2 (pack_bytes a b "000")), sextets_div. change (byte_val "000") with 0. cbn [take repeat app Nat.sub].
    f_equal. f_equal. f_equal. f_equal. Z.to_euclidean_division_equations; lia.
  - cbn [base64_raw_url_encode]. rewrite list_of_app. set (v := pack 8 _). assert (Q := quantum_bytes 4 a b c ltac:(lia)).
    cbv zeta in Q. fold v in Q. rewrite sextets_div in Q. cbn [take repeat app Nat.sub] in Q. specialize (Q eq_refl).
    assert (D := decode_letters 4 v ltac:(lia)). revert D. rewrite letters_take, list_of_string_of, sextets_div. cbn [take map mapM app].
    intros D. cbn [base64_decode]. revert D.
    destruct (symbol _ (letter _ (v / 2 ^ 18 mod 64))) as [va|]; [|done]. destruct (symbol _ (letter _ (v / 2 ^ 12 mod 64))) as [vb|]; [|done].
    destruct (symbol _ (letter _ (v / 2 ^ 6 mod 64))) as [vc|]; [|done]. destruct (symbol _ (letter _ (v mod 64))) as [vd|]; [|done].
    cbn [mbind option_bind]. intros [= -> -> -> ->]. rewrite IH. cbn [mbind option_bind]. by rewrite Q.
Qed.

Example base32_hello : base32_raw_decode (base32_encode "helloworld") = Some "helloworld".
Proof. vm_compute. reflexivity. Qed.

Example base64_hello : base64_raw_url (base64_raw_url_encode "hello") = Some "hello".
Proof. vm_compute. reflexivity. Qed.

Example base64_padded : base64_std "aGVsbG8=" = Some "hello".
Proof. vm_compute. reflexivity. Qed.

Example base32_padded : base32_std_decode "NBSWY3DP" = Some "hello" /\ base32_std_decode "NBSWY===" = Some "hel".
Proof. vm_compute. split; reflexivity. Qed.

End encoding.
