(* ===== verification/AuthBooks.v ===== *)
(** * The authority's books: issue times, trust epochs, isolation budget

    The small durable books of [hub/pkg/responseauth/trust.go]:
    [enforcementClock], [trustEpochs] and the budget of [autoIsolateBook].
    A file is what a restart would read; a write can fail with the old file in
    place or with the new one already renamed over it. *)

From Stdlib Require Import Ascii String.
From stdpp Require Import gmap.
From S2P Require Import Prelude Canonical CanonicalProps Platform.

Module books.
Import platform.

Local Open Scope string_scope.
Local Open Scope Z_scope.

(** ** Files *)

Inductive file (A : Type) : Type :=
| Missing
| Unreadable
| Corrupt
| Saved (a : A).
Arguments Missing {A}.
Arguments Unreadable {A}.
Arguments Corrupt {A}.
Arguments Saved {A} a.

(** How [writeDurable] ends. *)
Inductive write : Type :=
| WriteOk
| WriteLost (** an error, the old file in place *)
| WriteLate (** an error after the rename *).

Definition writeDurable {A} (w : write) (a : A) (f : file A) : file A * bool :=
  match w with
  | WriteOk => (Saved a, true)
  | WriteLost => (f, false)
  | WriteLate => (Saved a, false)
  end.

(** ** [enforcementClock] *)

Record enforcementClock : Type := mkClock { ec_path : bool; ec_last : gmap string Z; ec_broken : option string }.

#[export] Instance eta_enforcementClock : Eta enforcementClock :=
  fun x => mkClock (ec_path x) (ec_last x) (ec_broken x).

(** [path] says whether there is a state directory. *)
Definition newEnforcementClock (path : bool) (f : file (gmap string Z)) : enforcementClock :=
  if negb path then mkClock false ∅ None else
  match f with
  | Missing => mkClock true ∅ None
  | Unreadable => mkClock true ∅ (Some "enforcement clock unreadable")
  | Corrupt => mkClock true ∅ (Some "enforcement clock is corrupt")
  | Saved last => mkClock true last None
  end.

Definition maxClockLead : Z := 300 * Second.

(** [time.Unix(t, 0)]: the seconds are kept from the year 1 on, as an int64. *)
Definition unixToInternal : Z := 62135596800.
Definition unix_time (t : Z) : Z := (canonical.int64_wrap (t + unixToInternal) - unixToInternal) * Second.

Definition issue_time (tenantID : string) (now : Z) (c : enforcementClock) : Z :=
  let t := Unix now in
  let last := default 0 (ec_last c !! tenantID) in
  if t <=? last then canonical.int64_wrap (last + 1) else t.

Definition next (tenantID : string) (now : Z) (w : write) (c : enforcementClock) (f : file (gmap string Z))
    : enforcementClock * file (gmap string Z) * result string Z :=
  match ec_broken c with
  | Some e => (c, f, Err e)
  | None =>
    let t := issue_time tenantID now c in
    if maxClockLead <? unix_time t - now then (c, f, Err "the enforcement clock is ahead of real time") else
    let '(f, saved) := if ec_path c then writeDurable w (<[tenantID := t]> (ec_last c)) f else (f, true) in
    if negb saved then (c, f, Err "enforcement clock not persisted") else
    (c <| ec_last ::= insert tenantID t |>, f, Ok t)
  end.

(** ** [trustEpochs] *)

Record trustEpoch : Type := mkEpoch { te_Epoch : Z; te_Keys : string }.

Record trustEpochs : Type := mkEpochs {
  ep_path : bool;
  ep_items : gmap string trustEpoch;
  ep_floor : Z;
  ep_err : option string;
}.

#[export] Instance eta_trustEpochs : Eta trustEpochs :=
  fun x => mkEpochs (ep_path x) (ep_items x) (ep_floor x) (ep_err x).

Definition newTrustEpochs (path : bool) (f : file (gmap string trustEpoch)) (floor : Z) : trustEpochs :=
  if negb path then mkEpochs false ∅ floor None else
  match f with
  | Missing => mkEpochs true ∅ floor None
  | Unreadable => mkEpochs true ∅ floor (Some "trust epochs unreadable")
  | Corrupt => mkEpochs true ∅ floor (Some "trust epochs file is corrupt")
  | Saved items => mkEpochs true items floor None
  end.

(** [fp] is the fingerprint of the tenant's three keys. The epoch is an
    int64. *)
Definition next_epoch (tenantID fp : string) (e : trustEpochs) : trustEpoch :=
  let cur := ep_items e !! tenantID in
  let cur_epoch := match cur with Some c => te_Epoch c | None => 0 end in
  let epoch := match cur with
    | Some c => if String.eqb (te_Keys c) fp then te_Epoch c else canonical.int64_wrap (cur_epoch + 1)
    | None => canonical.int64_wrap (cur_epoch + 1)
    end in
  mkEpoch (if epoch <? ep_floor e then ep_floor e else epoch) fp.

Definition epoch_stands (tenantID fp : string) (e : trustEpochs) : option Z :=
  match ep_items e !! tenantID with
  | Some cur => if String.eqb (te_Keys cur) fp && (ep_floor e <=? te_Epoch cur) then Some (te_Epoch cur) else None
  | None => None
  end.

Definition epochFor (tenantID fp : string) (w : write) (e : trustEpochs) (f : file (gmap string trustEpoch))
    : trustEpochs * file (gmap string trustEpoch) * result string Z :=
  match ep_err e with
  | Some err => (e, f, Err err)
  | None =>
    match epoch_stands tenantID fp e with
    | Some epoch => (e, f, Ok epoch)
    | None =>
      let n := next_epoch tenantID fp e in
      let '(f, saved) := if ep_path e then writeDurable w (<[tenantID := n]> (ep_items e)) f else (f, true) in
      if negb saved then (e, f, Err "trust epoch not persisted") else
      (e <| ep_items ::= insert tenantID n |>, f, Ok (te_Epoch n))
    end
  end.

(** ** [autoIsolateBook] *)

Definition autoIsolatePerHour : nat := 6.
Definition autoIsolatePerEndpoint : Z := 600 * Second.

Record autoIsolateBook : Type := mkBook { byTenant : gmap string (list Z); byEndpoint : gmap string Z }.

#[export] Instance eta_autoIsolateBook : Eta autoIsolateBook := fun x => mkBook (byTenant x) (byEndpoint x).

Definition empty_book : autoIsolateBook := mkBook ∅ ∅.

(** The key of an endpoint: [req.TenantID + "\x00" + ep]. *)
Definition book_key (tenantID ep : string) : string := tenantID ++ String "000" ep.

(** One request against the budget; [Err] is the detail of the refusal that is
    audited. *)
Definition spend (tenantID ep : string) (now : Z) (b : autoIsolateBook) : autoIsolateBook * result string unit :=
  let recent := within Hour now (default [] (byTenant b !! tenantID)) in
  let key := book_key tenantID ep in
  let hit := match byEndpoint b !! key with Some last => now - last <? autoIsolatePerEndpoint | None => false end in
  if hit then (b, Err "one automatic isolation per endpoint per 10 minutes")
  else if (autoIsolatePerHour <=? length recent)%nat
  then (b <| byTenant ::= insert tenantID recent |>,
        Err "automatic isolation rate limit reached; isolate further hosts through the isolate route")
  else
    (b <| byTenant ::= insert tenantID (recent ++ [now])%list |>
       <| byEndpoint ::= fun m => filter (fun kv => kv.2 >= now - Hour) (<[key := now]> m) |>, Ok tt).

(** ** Issue times *)

Section Clock.

Inductive clock_op : Type :=
| CNext (tenantID : string) (now : Z) (w : write)
| CRestart (readable : bool).

Definition clock_state : Type := enforcementClock * file (gmap string Z).

Definition clock_restart (readable : bool) (s : clock_state) : clock_state :=
  (newEnforcementClock true (if readable then s.2 else Unreadable), s.2).

Definition clock_exec (o : clock_op) (s : clock_state) : clock_state :=
  match o with
  | CNext t now w => fst (next t now w s.1 s.2)
  | CRestart readable => clock_restart readable s
  end.

(** The issue times one tenant is given along a run, with the clock readings
    they were asked at. *)
Definition handed1 (tenantID : string) (o : clock_op) (s : clock_state) : list (Z * Z) :=
  match o with
  | CNext t now w =>
    match snd (next t now w s.1 s.2) with Ok x => if String.eqb t tenantID then [(now, x)] else [] | Err _ => [] end
  | CRestart _ => []
  end.

Fixpoint handed (tenantID : string) (l : list clock_op) (s : clock_state) : list (Z * Z) :=
  match l with
  | [] => []
  | o :: l => (handed1 tenantID o s ++ handed tenantID l (clock_exec o s))%list
  end.

(** Nothing up to [h] will be handed out again, also after a restart. *)
Record passed (k : string) (h : Z) (s : clock_state) : Prop := mkPassed {
  passed_path : ec_path s.1 = true;
  passed_last : ec_broken s.1 = None -> h <= default 0 (ec_last s.1 !! k);
  passed_file : forall m, s.2 = Saved m -> h <= default 0 (m !! k);
  passed_missing : s.2 = Missing -> h <= 0;
}.

(** The last time that is not near the end of an int64. *)
Definition far : Z := max_int64 - unixToInternal - 1.

Definition near (m : gmap string Z) : Prop := map_Forall (fun _ t => min_int64 <= t <= far) m.

(** A reading of the clock after 1970 and before [far]. *)
Definition timely (o : clock_op) : Prop :=
  match o with CNext _ now _ => 0 <= now /\ now + maxClockLead <= far * Second | CRestart _ => True end.

Record clock_near (s : clock_state) : Prop := mkNear {
  near_last : near (ec_last s.1);
  near_file : forall m, s.2 = Saved m -> near m;
}.

Lemma near_default m k : near m -> min_int64 <= default 0 (m !! k) <= far.
Proof. intros N. destruct (m !! k) as [t|] eqn:E; [by apply (N k)|]. vm_compute. split; discriminate. Qed.

Lemma unix_time_near t : min_int64 <= t <= far + 1 -> unix_time t = t * Second.
Proof. intros T. unfold unix_time. rewrite wrap_small; [lia|]. unfold far, unixToInternal in *. lia. Qed.

Lemma issue_time_range k now c : near (ec_last c) -> 0 <= now -> now + maxClockLead <= far * Second ->
  let t := issue_time k now c in
  default 0 (ec_last c !! k) < t /\ Unix now <= t /\ min_int64 <= t <= far + 1.
Proof.
  intros N P L. pose proof (near_default _ k N) as D. assert (U : 0 <= Unix now <= far).
  { unfold Unix. split; [apply Z.div_pos; [done|by vm_compute]|].
    apply Z.div_le_upper_bound; [by vm_compute|]. unfold maxClockLead in L. assert (0 < Second) by by vm_compute. lia. }
  unfold issue_time. cbv zeta. destruct (Z.leb_spec (Unix now) (default 0 (ec_last c !! k))) as [Q|Q].
  - rewrite wrap_small; [lia|]. unfold far, unixToInternal in *. lia.
  - unfold far, min_int64 in *. lia.
Qed.

(** What one call does. *)
Lemma next_cases k now w c f :
  let t := issue_time k now c in
  let m := <[k := t]> (ec_last c) in
  ec_path c = true -> near (ec_last c) -> timely (CNext k now w) ->
  (exists e, next k now w c f = (c, f, Err e)) \/
  ec_broken c = None /\ t * Second <= now + maxClockLead /\
   ((exists e, next k now w c f = (c, Saved m, Err e)) \/ next k now w c f = (c <| ec_last := m |>, Saved m, Ok t)).
Proof.
  intros t m P N [T1 T2]. destruct (issue_time_range k now c N T1 T2) as (_ & _ & Rg). fold t in Rg.
  unfold next. fold t. destruct (ec_broken c) eqn:B; [eauto|].
  destruct (Z.ltb_spec maxClockLead (unix_time t - now)) as [|L]; [eauto|]. rewrite unix_time_near in L by done.
  rewrite P. destruct w; simpl; [right|left|right]; eauto; (split; [done|]); (split; [lia|]); eauto.
Qed.

Lemma near_insert k t now m : near m -> min_int64 <= t -> t * Second <= now + maxClockLead -> now + maxClockLead <= far * Second -> near (<[k := t]> m).
Proof. intros N T L B. apply map_Forall_insert_2; [|done]. split; [done|]. assert (0 < Second) by by vm_compute. nia. Qed.

Lemma near_exec o s : ec_path s.1 = true -> clock_near s -> timely o -> clock_near (clock_exec o s).
Proof.
  destruct s as [c f]. intros P [L F] T. destruct o as [k now w|readable]; simpl in *.
  - destruct T as [T1 T2]. destruct (issue_time_range k now c L T1 T2) as (_ & _ & Rg & _).
    destruct (next_cases k now w c f P L (conj T1 T2)) as [(e & E)|(B & Le & [(e & E)|E])]; rewrite E; simpl; [done| |];
      (split; simpl; [|intros m [= <-]]); try done; by eapply near_insert.
  - split; simpl; [|done]. destruct readable; [|apply map_Forall_empty]. destruct f as [| | |m]; simpl; try apply map_Forall_empty. by apply F.
Qed.

Lemma passed_other k k' h t c f :
  passed k h (c, f) -> ec_broken c = None -> (k = k' -> h <= t) ->
  passed k h (c, Saved (<[k' := t]> (ec_last c))) /\
  passed k h (c <| ec_last := <[k' := t]> (ec_last c) |>, Saved (<[k' := t]> (ec_last c))).
Proof.
  intros [P L F M] B T. simpl in *.
  assert (X : h <= default 0 (<[k' := t]> (ec_last c) !! k)).
  { destruct (decide (k = k')) as [->|Ne]; [rewrite lookup_insert_eq; auto|rewrite lookup_insert_ne by done; auto]. }
  split; (split; simpl; [done| |intros m [= <-]; done|done]); auto.
Qed.

Lemma passed_exec k h o s : passed k h s -> clock_near s -> timely o -> handed1 k o s = [] -> passed k h (clock_exec o s).
Proof.
  destruct s as [c f]. intros A [N _] T H. destruct o as [k' now w|readable]; simpl in *.
  - destruct (issue_time_range k' now c N (proj1 T) (proj2 T)) as (New & _).
    destruct (next_cases k' now w c f (passed_path _ _ _ A) N T) as [(e & E)|(B & _ & [(e & E)|E])]; rewrite E in *; simpl; [done| |].
    + eapply passed_other; [done..|]. intros <-. pose proof (passed_last _ _ _ A B). simpl in *. lia.
    + simpl in H. destruct (String.eqb_spec k' k) as [|Ne]; [done|]. eapply passed_other; [done..|]. congruence.
  - destruct A as [P L F M]. unfold clock_restart. simpl in *.
    destruct readable; [|split; simpl; done]. destruct f as [| | |m]; (split; simpl; auto); done.
Qed.

(** An issue time is no earlier than the clock, and five minutes ahead at most. *)
Definition on_time (x : Z * Z) : Prop := Unix x.1 <= x.2 /\ x.2 * Second <= x.1 + maxClockLead.

Lemma passed_handed k h o s now t :
  passed k h s -> clock_near s -> timely o -> handed1 k o s = [(now, t)] -> h < t /\ on_time (now, t) /\ passed k t (clock_exec o s).
Proof.
  destruct s as [c f]. intros A [N _] T H. destruct o as [k' now' w|]; simpl in *; [|done].
  destruct (issue_time_range k' now' c N (proj1 T) (proj2 T)) as (New & Low & _).
  destruct (next_cases k' now' w c f (passed_path _ _ _ A) N T) as [(e & E)|(B & L & [(e & E)|E])]; rewrite E in *; simpl in *; try done.
  destruct (String.eqb_spec k' k) as [->|]; [|done]. injection H as <- <-.
  split; [|split; [done|]].
  - pose proof (passed_last _ _ _ A B). simpl in *. lia.
  - split; simpl; [apply A| |intros m [= <-]|done]; rewrite lookup_insert_eq; done.
Qed.

Lemma handed1_cases k o s : handed1 k o s = [] \/ exists x, handed1 k o s = [x].
Proof. unfold handed1. repeat case_match; eauto. Qed.

Lemma path_exec o s : ec_path s.1 = true -> ec_path (clock_exec o s).1 = true.
Proof.
  destruct s as [c f], o as [k now w|readable]; simpl; [|by destruct readable, f]. intros P. unfold next. destruct (ec_broken c); [done|]. destruct (_ <? _); [done|].
  destruct (if ec_path c then _ else _) as [f' b]. by destruct b.
Qed.

Lemma handed_increasing k l : forall h s, passed k h s -> clock_near s -> Forall timely l ->
  StronglySorted Z.lt (h :: map snd (handed k l s)) /\ Forall on_time (handed k l s).
Proof.
  induction l as [|o l IH]; intros h s A N F; simpl; [repeat constructor|]. inversion F as [|? ? To Fl]; subst.
  pose proof (near_exec o s (passed_path _ _ _ A) N To) as N'.
  destruct (handed1_cases k o s) as [E|[[now t] E]]; rewrite E; simpl.
  - apply IH; [by apply passed_exec|done..].
  - destruct (passed_handed k h o s now t A N To E) as (L & B & A'). destruct (IH t _ A' N' Fl) as [S G].
    split; [|by constructor]. constructor; [done|]. constructor; [done|].
    apply StronglySorted_inv in S as [_ S]. eapply Forall_impl; [exact S|]. simpl. lia.
Qed.

Definition clock_run (l : list clock_op) (s : clock_state) : clock_state := fold_left (fun s o => clock_exec o s) l s.

Lemma near_run l : forall s, ec_path s.1 = true -> clock_near s -> Forall timely l -> clock_near (clock_run l s).
Proof.
  induction l as [|o l IH]; intros s P N F; [done|]. inversion F; subst. apply IH; [by apply path_exec|by apply near_exec|done].
Qed.

End Clock.

(** ** Epochs *)

Section Epochs.

Inductive epoch_op : Type :=
| EFor (tenantID fp : string) (w : write)
| ERestart (readable : bool) (floor : Z).

Definition epoch_state : Type := trustEpochs * file (gmap string trustEpoch).

Definition epoch_exec (o : epoch_op) (s : epoch_state) : epoch_state :=
  match o with
  | EFor t fp w => fst (epochFor t fp w s.1 s.2)
  | ERestart readable floor => (newTrustEpochs true (if readable then s.2 else Unreadable) floor, s.2)
  end.

(** The epochs one tenant is told along a run, with the keys they stand for
    and the floor in force. *)
Definition told1 (tenantID : string) (o : epoch_op) (s : epoch_state) : list (trustEpoch * Z) :=
  match o with
  | EFor t fp w =>
    match snd (epochFor t fp w s.1 s.2) with
    | Ok x => if String.eqb t tenantID then [(mkEpoch x fp, ep_floor s.1)] else []
    | Err _ => []
    end
  | ERestart _ _ => []
  end.

Fixpoint told (tenantID : string) (l : list epoch_op) (s : epoch_state) : list (trustEpoch * Z) :=
  match l with
  | [] => []
  | o :: l => (told1 tenantID o s ++ told tenantID l (epoch_exec o s))%list
  end.

(** An epoch is followed by itself or by a higher one: the same number never
    stands for other keys. *)
Definition follows (a b : trustEpoch) : Prop := te_Epoch a < te_Epoch b \/ a = b.

Lemma follows_trans a b c : follows a b -> follows b c -> follows a c.
Proof. unfold follows. intros [H| ->] [H'| ->]; auto. left. lia. Qed.

(** Every epoch in memory and on disk is an int64 and at most [n]. *)
Definition low (n : Z) (m : gmap string trustEpoch) : Prop :=
  map_Forall (fun _ v => min_int64 <= te_Epoch v <= n) m.

Record epochs_low (n : Z) (s : epoch_state) : Prop := mkLow {
  low_path : ep_path s.1 = true;
  low_floor : ep_floor s.1 <= n;
  low_items : low n (ep_items s.1);
  low_file : forall m, s.2 = Saved m -> low n m;
  low_sync : ep_err s.1 = None -> forall k v, ep_items s.1 !! k = Some v ->
    exists m u, s.2 = Saved m /\ m !! k = Some u /\ follows v u;
}.

(** What was told last is in memory and on disk, or overtaken there. *)
Record told_last (k : string) (r : trustEpoch) (s : epoch_state) : Prop := mkTold {
  told_items : ep_err s.1 = None -> exists v, ep_items s.1 !! k = Some v /\ follows r v;
  told_file : forall m, s.2 = Saved m -> exists v, m !! k = Some v /\ follows r v;
  told_missing : s.2 <> Missing;
}.

Lemma next_epoch_higher n k fp e f v :
  epochs_low n (e, f) -> 0 <= n < max_int64 -> epoch_stands k fp e = None -> ep_items e !! k = Some v ->
  te_Epoch v < te_Epoch (next_epoch k fp e).
Proof.
  intros [_ _ I _ _] N S V. unfold epoch_stands, next_epoch in *. simpl in *. rewrite V in *.
  pose proof (I k v V) as B. destruct (String.eqb (te_Keys v) fp); simpl in *.
  - destruct (Z.leb_spec (ep_floor e) (te_Epoch v)); [done|]. destruct (Z.ltb_spec (te_Epoch v) (ep_floor e)); simpl; lia.
  - rewrite wrap_small by lia. destruct (Z.ltb_spec (te_Epoch v + 1) (ep_floor e)); simpl; lia.
Qed.

Lemma next_epoch_low n k fp e f :
  epochs_low n (e, f) -> 0 <= n < max_int64 -> min_int64 <= te_Epoch (next_epoch k fp e) <= n + 1 /\
    ep_floor e <= te_Epoch (next_epoch k fp e).
Proof.
  intros [_ Fl I _ _] N. unfold next_epoch. simpl in *. unfold min_int64 in *.
  assert (forall x, min_int64 <= x <= n + 1 -> min_int64 <= (if x <? ep_floor e then ep_floor e else x) <= n + 1 /\
    ep_floor e <= (if x <? ep_floor e then ep_floor e else x)) as X.
  { unfold min_int64. intros x Hx. destruct (Z.ltb_spec x (ep_floor e)); lia. }
  apply X. destruct (ep_items e !! k) as [v|] eqn:V.
  - pose proof (I k v V) as B. unfold min_int64 in *. destruct (String.eqb (te_Keys v) fp); [lia|]. rewrite wrap_small; unfold min_int64, max_int64 in *; lia.
  - rewrite wrap_small; unfold min_int64, max_int64 in *; lia.
Qed.

(** What one call does. *)
Lemma epochFor_cases k fp w e f :
  let v := next_epoch k fp e in
  let m := <[k := v]> (ep_items e) in
  ep_path e = true ->
  (exists err, epochFor k fp w e f = (e, f, Err err)) \/
  ep_err e = None /\
   ((exists x, epoch_stands k fp e = Some x /\ epochFor k fp w e f = (e, f, Ok x)) \/
    epoch_stands k fp e = None /\
     ((exists err, epochFor k fp w e f = (e, Saved m, Err err)) \/
      epochFor k fp w e f = (e <| ep_items := m |>, Saved m, Ok (te_Epoch v)))).
Proof.
  intros v m P. unfold epochFor. destruct (ep_err e) eqn:B; [eauto|].
  destruct (epoch_stands k fp e) as [x|] eqn:S; [eauto 6|].
  fold v. rewrite P. destruct w; simpl; [right|left|right]; eauto 6.
Qed.

Lemma low_insert n k v m : low n m -> min_int64 <= te_Epoch v <= n -> low n (<[k := v]> m).
Proof. intros M V. apply map_Forall_insert_2; done. Qed.

Lemma low_weaken n n' m : low n m -> n <= n' -> low n' m.
Proof. intros M L. eapply map_Forall_impl; [exact M|]. simpl. intros. lia. Qed.

Lemma epochs_low_weaken n n' s : epochs_low n s -> n <= n' -> epochs_low n' s.
Proof.
  intros [P Fl I D S] L. split; [done|lia|by eapply low_weaken| |done].
  intros m E. eapply low_weaken; [by apply D|done].
Qed.

(** After a call that wrote the next epoch to disk. *)
Lemma epochs_low_write n k fp e f :
  epochs_low n (e, f) -> 0 <= n < max_int64 -> epoch_stands k fp e = None ->
  let m := <[k := next_epoch k fp e]> (ep_items e) in
  epochs_low (n + 1) (e, Saved m) /\ epochs_low (n + 1) (e <| ep_items := m |>, Saved m).
Proof.
  intros A N S m. destruct (next_epoch_low n k fp e f A N) as [B _].
  pose proof (epochs_low_weaken n (n + 1) _ A ltac:(lia)) as [P Fl I _ _]. simpl in *.
  assert (M : low (n + 1) m) by (apply low_insert; done).
  split; (split; simpl; [done..|intros m' [= <-]; exact M|]); intros _ k' v V.
  - exists m. destruct (decide (k' = k)) as [->|Ne].
    + exists (next_epoch k fp e). unfold m. rewrite lookup_insert_eq. split; [done|]. split; [done|].
      left. eapply next_epoch_higher; done.
    + exists v. unfold m. rewrite lookup_insert_ne by done. split; [done|]. split; [done|]. by right.
  - exists m, v. split; [done|]. split; [done|]. by right.
Qed.

Lemma epochs_low_exec n o s :
  epochs_low n s -> 0 <= n < max_int64 -> (forall r fl, o = ERestart r fl -> fl <= n) -> epochs_low (n + 1) (epoch_exec o s).
Proof.
  destruct s as [e f]. intros A N R. pose proof (epochs_low_weaken n (n + 1) _ A ltac:(lia)) as A'.
  destruct o as [k fp w|readable floor]; simpl.
  - destruct (epochFor_cases k fp w e f (low_path _ _ A)) as [(err & E)|(_ & [(x & _ & E)|(S & [(err & E)|E])])];
      rewrite E; simpl; try done; by apply (epochs_low_write n k fp e f A N S).
  - specialize (R readable floor eq_refl). unfold newTrustEpochs. destruct readable; [destruct f as [| | |m]|];
      (split; simpl; [done|lia|first [by apply (low_file _ _ A')|apply map_Forall_empty]|intros m' Em; by apply (low_file _ _ A')|intros Br k v V; try done]).
    + exists m, v. split; [done|]. split; [done|]. by right.
Qed.

Lemma told_insert k k' r v e f :
  told_last k r (e, f) -> ep_err e = None -> (k = k' -> follows r v) ->
  told_last k r (e, Saved (<[k' := v]> (ep_items e))) /\
  told_last k r (e <| ep_items := <[k' := v]> (ep_items e) |>, Saved (<[k' := v]> (ep_items e))).
Proof.
  intros [I F M] B V. simpl in *.
  assert (X : exists u, <[k' := v]> (ep_items e) !! k = Some u /\ follows r u).
  { destruct (decide (k = k')) as [->|Ne]; [rewrite lookup_insert_eq; eauto|rewrite lookup_insert_ne by done; auto]. }
  split; (split; simpl; [auto|intros m [= <-]; exact X|done]).
Qed.

Lemma told_exec n k r o s :
  epochs_low n s -> 0 <= n < max_int64 -> told_last k r s -> told1 k o s = [] -> told_last k r (epoch_exec o s).
Proof.
  destruct s as [e f]. intros A N T H. destruct o as [k' fp w|readable floor]; simpl in *.
  - destruct (epochFor_cases k' fp w e f (low_path _ _ A)) as [(err & E)|(B & [(x & _ & E)|(S & [(err & E)|E])])];
      rewrite E in *; simpl in *; try done; eapply told_insert; try done.
    + intros ->. destruct (told_items _ _ _ T B) as (v & V & Fv). eapply follows_trans; [exact Fv|].
      left. eapply next_epoch_higher; done.
    + destruct (String.eqb_spec k' k) as [|Ne]; [done|]. congruence.
  - destruct T as [I F M]. simpl in *. unfold newTrustEpochs. destruct readable; [destruct f as [| | |m]|];
      [by destruct M|split; simpl; auto; done..].
Qed.

Lemma told_once n k o s a :
  epochs_low n s -> 0 <= n < max_int64 -> told1 k o s = [a] ->
  a.2 <= te_Epoch a.1 /\ told_last k a.1 (epoch_exec o s) /\ (forall r, told_last k r s -> follows r a.1).
Proof.
  destruct s as [e f]. intros A N H. destruct o as [k' fp w|]; simpl in *; [|done].
  destruct (epochFor_cases k' fp w e f (low_path _ _ A)) as [(err & E)|(B & [(x & S & E)|(S & [(err & E)|E])])];
    rewrite E in *; simpl in *; try done; (destruct (String.eqb_spec k' k) as [->|]; [|done]); injection H as <-; simpl.
  - unfold epoch_stands in S. destruct (ep_items e !! k) as [[ep ks]|] eqn:V; [|done].
    simpl in S. destruct (String.eqb_spec ks fp) as [->|]; [|done]. simpl in S. destruct (Z.leb_spec (ep_floor e) ep); [|done].
    injection S as <-. split; [done|]. split.
    + destruct (low_sync _ _ A B k _ V) as (m & u & Ef & Em & Fu). simpl in Ef. split; simpl; [|intros m' Em'|congruence].
      * intros _. exists (mkEpoch ep fp). split; [done|]. by right.
      * exists u. split; [congruence|done].
    + intros r T. destruct (told_items _ _ _ T B) as (v & Ev & Fv). simpl in Ev. congruence.
  - destruct (next_epoch_low n k fp e f A N) as [_ Fl]. split; [done|].
    split.
    + split; simpl; [intros _|intros m [= <-]|done]; rewrite lookup_insert_eq; eexists; (split; [done|by right]).
    + intros r T. destruct (told_items _ _ _ T B) as (v & V & Fv). eapply follows_trans; [exact Fv|].
      left. exact (next_epoch_higher n k fp e f v A N S V).
Qed.

Lemma told1_cases k o s : told1 k o s = [] \/ exists x, told1 k o s = [x].
Proof. unfold told1. repeat case_match; eauto. Qed.

(** The floors of a run are at most [n]. *)
Definition floors_low (n : Z) (l : list epoch_op) : Prop :=
  Forall (fun o => forall r fl, o = ERestart r fl -> fl <= n) l.

Lemma told_follows k l : forall n s,
  epochs_low n s -> 0 <= n -> n + Z.of_nat (length l) <= max_int64 -> floors_low n l ->
  (forall r, told_last k r s -> Forall (follows r) (map fst (told k l s))) /\
  StronglySorted follows (map fst (told k l s)) /\ Forall (fun x => x.2 <= te_Epoch x.1) (told k l s).
Proof.
  induction l as [|o l IH]; intros n s A N L F; simpl; [repeat constructor|].
  cbn [length] in L. inversion_clear F as [|? ? Ho Fl].
  assert (A' : epochs_low (n + 1) (epoch_exec o s)) by (apply epochs_low_exec; [done|lia|done]).
  assert (Fl' : floors_low (n + 1) l) by (eapply Forall_impl; [exact Fl|]; simpl; intros o' X r fl E; specialize (X r fl E); lia).
  destruct (IH (n + 1) _ A' ltac:(lia) ltac:(lia) Fl') as (IH1 & IH2 & IH3).
  destruct (told1_cases k o s) as [E|[a E]]; rewrite E; simpl.
  - split; [|done]. intros r T. apply IH1. eapply told_exec; [exact A|lia|done..].
  - destruct (told_once n k o s a A ltac:(lia) E) as (X1 & X2 & X3). specialize (IH1 _ X2). split; [|split].
    + intros r T. constructor; [auto|]. eapply Forall_impl; [exact IH1|]. intros b Fb. eapply follows_trans; [by apply X3|done].
    + by constructor.
    + by constructor.
Qed.

End Epochs.

(** ** The budget *)

Section Budget.

(** Requests: when, for which tenant, for which endpoint. *)
Definition request : Type := Z * string * string.

Definition spend1 (r : request) (b : autoIsolateBook) : autoIsolateBook * result string unit :=
  let '(now, t, ep) := r in spend t ep now b.

Fixpoint accepted (want : request -> bool) (l : list request) (b : autoIsolateBook) : list Z :=
  match l with
  | [] => []
  | r :: l => ((if is_ok (snd (spend1 r b)) && want r then [r.1.1] else [])
               ++ accepted want l (fst (spend1 r b)))%list
  end.

(** The accepted requests of a tenant, and of one endpoint of it. *)
Definition of_tenant (t : string) (r : request) : bool := String.eqb r.1.2 t.
Definition of_host (t ep : string) (r : request) : bool := String.eqb r.1.2 t && String.eqb r.2 ep.

(** The clock does not go back. *)
Fixpoint in_order (from : Z) (l : list request) : Prop :=
  match l with
  | [] => True
  | r :: l => from <= r.1.1 /\ in_order r.1.1 l
  end.

Definition last_request (from : Z) (l : list request) : Z := fold_left (fun _ r => r.1.1) l from.

Definition spent (t : string) (b : autoIsolateBook) : list Z := default [] (byTenant b !! t).

Lemma last_request_from from l : in_order from l -> from <= last_request from l.
Proof.
  revert from. induction l as [|r l IH]; intros from C; [reflexivity|]. destruct C as [L C]. apply IH in C.
  unfold last_request in *. simpl. lia.
Qed.

(** What one request does. *)
Lemma spend_cases t ep now b :
  let recent := within Hour now (spent t b) in
  let key := book_key t ep in
  (exists e, spend t ep now b = (b, Err e)) \/
  (exists e, spend t ep now b = (b <| byTenant ::= insert t recent |>, Err e)) \/
  spend t ep now b =
    (b <| byTenant ::= insert t (recent ++ [now])%list |>
       <| byEndpoint ::= fun m => filter (fun kv => kv.2 >= now - Hour) (<[key := now]> m) |>, Ok tt) /\
  (length recent < autoIsolatePerHour)%nat /\
  (forall last, byEndpoint b !! key = Some last -> last + autoIsolatePerEndpoint <= now).
Proof.
  intros recent key. unfold spend. fold (spent t b) recent key.
  set (hit := match byEndpoint b !! key with Some last => now - last <? autoIsolatePerEndpoint | None => false end).
  destruct hit eqn:H; [eauto|]. destruct (Nat.leb_spec autoIsolatePerHour (length recent)) as [|L]; [eauto|].
  right. right. split; [done|]. split; [done|]. intros last E. unfold hit in H. rewrite E in H.
  apply Z.ltb_ge in H. lia.
Qed.

Lemma spent_insert t t' ts f b : spent t (mkBook (<[t' := ts]> (byTenant b)) f) = if String.eqb t' t then ts else spent t b.
Proof.
  unfold spent. simpl. destruct (String.eqb_spec t' t) as [->|Ne]; [by rewrite lookup_insert_eq|by rewrite lookup_insert_ne].
Qed.

Lemma spend_tenant r b t later :
  r.1.1 <= later ->
  within Hour later (spent t (fst (spend1 r b))) =
    (within Hour later (spent t b) ++
     within Hour later (if is_ok (snd (spend1 r b)) && of_tenant t r then [r.1.1] else []))%list.
Proof.
  destruct r as [[now t'] ep]. intros L. cbn [fst snd] in L. unfold spend1, of_tenant. cbn [fst snd].
  destruct (spend_cases t' ep now b) as [(e & ->)|[(e & ->)|(-> & _ & _)]]; simpl; rewrite ?app_nil_r; [done|..];
    rewrite spent_insert; (destruct (String.eqb_spec t' t) as [->|]; simpl; [|by rewrite ?app_nil_r]).
  - by apply within_later.
  - by rewrite within_app, within_later.
Qed.

Lemma spend_bound r b t :
  (length (spent t b) <= autoIsolatePerHour)%nat -> (length (spent t (fst (spend1 r b))) <= autoIsolatePerHour)%nat.
Proof.
  destruct r as [[now t'] ep]. intros B. unfold spend1.
  destruct (spend_cases t' ep now b) as [(e & ->)|[(e & ->)|(-> & L & _)]]; simpl; [done|..];
    rewrite spent_insert; (destruct (String.eqb_spec t' t) as [->|]; [|done]).
  - etransitivity; [apply within_length|done].
  - rewrite length_app. simpl. lia.
Qed.

Lemma accepted_window t l : forall b from later,
  in_order from l -> last_request from l <= later ->
  within Hour later (spent t (fold_left (fun b r => fst (spend1 r b)) l b)) =
    (within Hour later (spent t b) ++ within Hour later (accepted (of_tenant t) l b))%list.
Proof.
  induction l as [|r l IH]; intros b from later C L; [by rewrite app_nil_r|]. destruct C as [F C].
  cbn [fold_left accepted]. rewrite (IH _ _ _ C L), spend_tenant, within_app, app_assoc; [done|].
  pose proof (last_request_from _ _ C). unfold last_request in *. simpl in *. lia.
Qed.

Lemma spent_bound t l : forall b,
  (length (spent t b) <= autoIsolatePerHour)%nat ->
  (length (spent t (fold_left (fun b r => fst (spend1 r b)) l b)) <= autoIsolatePerHour)%nat.
Proof. induction l as [|r l IH]; intros b B; [done|]. apply IH, spend_bound, B. Qed.

(** The last isolation of a host, at [a]: the book holds it or a later one,
    or it is over an hour old. *)
Definition remembered (key : string) (a now : Z) (b : autoIsolateBook) : Prop :=
  (exists last, byEndpoint b !! key = Some last /\ a <= last) \/ a + Hour < now.

Lemma spend_remembered r b key a from :
  from <= r.1.1 -> a <= from -> remembered key a from b -> remembered key a r.1.1 (fst (spend1 r b)).
Proof.
  destruct r as [[now t] ep]. intros F A R. cbn [fst snd] in *. unfold spend1.
  assert (R' : remembered key a now b) by (destruct R as [R|R]; [by left|right; lia]).
  destruct (spend_cases t ep now b) as [(e & ->)|[(e & ->)|(-> & _ & _)]]; [exact R'..|].
  destruct R' as [(last & E & L)|R']; [|by right].
  destruct (decide (last >= now - Hour)) as [G|G]; [|right; lia]. left. simpl.
  destruct (decide (key = book_key t ep)) as [->|Ne].
  - exists now. rewrite map_lookup_filter_Some, lookup_insert_eq. simpl. unfold Hour, Second. repeat split; lia.
  - exists last. rewrite map_lookup_filter_Some, lookup_insert_ne by done. done.
Qed.

Lemma accepted_apart t ep l : forall b from,
  in_order from l ->
  (forall a, a <= from -> remembered (book_key t ep) a from b ->
    Forall (fun x => a + autoIsolatePerEndpoint <= x) (accepted (of_host t ep) l b)) /\
  StronglySorted (fun x y => x + autoIsolatePerEndpoint <= y) (accepted (of_host t ep) l b).
Proof.
  induction l as [|[[now t'] ep'] l IH]; intros b from C; [repeat constructor|]. destruct C as [F C]. cbn [fst snd] in *.
  cbn [accepted]. cbn [fst snd]. destruct (IH (fst (spend1 (now, t', ep') b)) now C) as [IH1 IH2].
  assert (K : forall a, a <= from -> remembered (book_key t ep) a from b ->
    Forall (fun x => a + autoIsolatePerEndpoint <= x) (accepted (of_host t ep) l (fst (spend1 (now, t', ep') b)))).
  { intros a A R. apply IH1; [lia|]. by apply (spend_remembered (now, t', ep') b _ a from). }
  destruct (is_ok _ && _) eqn:E; [|simpl; auto]. apply andb_true_iff in E as [Ok' H].
  unfold of_host in H. cbn [fst snd] in H. apply andb_true_iff in H as [->%String.eqb_eq ->%String.eqb_eq]. unfold spend1 in *.
  destruct (spend_cases t ep now b) as [(e & X)|[(e & X)|(X & _ & Ap)]]; rewrite X in *; try done.
  assert (N : Forall (fun x => now + autoIsolatePerEndpoint <= x) (accepted (of_host t ep) l (fst (spend t ep now b)))).
  { rewrite X. apply IH1; [lia|]. left. exists now. simpl. rewrite map_lookup_filter_Some, lookup_insert_eq. simpl.
    unfold Hour, Second. repeat split; lia. }
  rewrite X in N. simpl. split; [|by constructor]. intros a A R. constructor; [|by apply K].
  destruct R as [(last & E & L)|R]; [specialize (Ap last E); lia|]. unfold Hour, autoIsolatePerEndpoint, Second in *. lia.
Qed.

End Budget.

(** ** Guarantees *)

(** C9: the issue times one tenant's enforcement grants are given strictly
    increase, whatever other tenants ask for, whichever writes fail, before or
    after the file is replaced, and across restarts, also ones that cannot
    read the file; none is earlier than the clock it was asked at, in seconds,
    or more than five minutes ahead of it. A time is given whenever the file
    could be read, the write succeeds and the last time of the tenant is less
    than five minutes ahead. The clock shows a time after 1970, and neither it
    nor the file is near the end of an int64. *)
Theorem enforcement_times_increase tenantID f l :
  (forall m, f = Saved m -> near m) -> Forall timely l ->
  let times := handed tenantID l (newEnforcementClock true f, f) in
  let s := clock_run l (newEnforcementClock true f, f) in
  StronglySorted Z.lt (map snd times) /\ Forall on_time times
  /\ forall now, timely (CNext tenantID now WriteOk) -> ec_broken s.1 = None ->
       (default 0 (ec_last s.1 !! tenantID) + 1) * Second <= now + maxClockLead ->
       is_ok (next tenantID now WriteOk s.1 s.2).2 = true.
Proof.
  intros Nf T times s. set (low := Z.min 0 (match f with Saved m => default 0 (m !! tenantID) | _ => 0 end)).
  assert (A : passed tenantID low (newEnforcementClock true f, f)).
  { unfold low. destruct f as [| | |m]; (split; simpl; [done|..]); intros; try done; simplify_eq; lia. }
  assert (N : clock_near (newEnforcementClock true f, f)).
  { split; [|done]. destruct f as [| | |m]; simpl; try apply map_Forall_empty. by apply Nf. }
  destruct (handed_increasing tenantID l low _ A N T) as [S F]. apply StronglySorted_inv in S as [S _]. split; [done|]. split; [done|].
  intros now [T1 T2] B L. destruct (near_run l _ (passed_path _ _ _ A) N T) as [Ns _]. fold s in Ns.
  destruct (issue_time_range tenantID now s.1 Ns T1 T2) as (_ & _ & Rg). unfold next. rewrite B, unix_time_near by done.
  assert (E : issue_time tenantID now s.1 * Second <= now + maxClockLead).
  { pose proof (near_default _ tenantID Ns). unfold issue_time. cbv zeta. case_match.
    - rewrite wrap_small; [done|]. unfold far, unixToInternal in *. lia.
    - unfold Unix. pose proof (Z.mul_div_le now Second ltac:(by vm_compute)). unfold maxClockLead. assert (0 < Second) by by vm_compute. lia. }
  destruct (Z.ltb_spec maxClockLead (issue_time tenantID now s.1 * Second - now)); [lia|]. by destruct (ec_path s.1).
Qed.

(** C10: the trust epochs a tenant is told never go down and an epoch never
    stands for two sets of keys, across failing writes and restarts with any
    floors, as long as floors and saved epochs leave room below the largest
    int64; each epoch is at least the floor in force. *)
Theorem trust_epochs_follow tenantID f floor n l :
  floor <= n -> (forall m, f = Saved m -> low n m) -> 0 <= n -> n + Z.of_nat (length l) <= max_int64 -> floors_low n l ->
  let epochs := told tenantID l (newTrustEpochs true f floor, f) in
  StronglySorted follows (map fst epochs) /\ Forall (fun x => x.2 <= te_Epoch x.1) epochs.
Proof.
  intros Fl M N L F epochs. apply (told_follows tenantID l n); [|done..].
  destruct f as [| | |m]; (split; simpl; [done|done| |done|]); try done; [apply map_Forall_empty..|by apply M|].
  intros _ k v V. exists m, v. split; [done|]. split; [done|]. by right.
Qed.

(** The detector's isolations are rationed. Under a clock that does not
    go back, at most six requests of a tenant are accepted within any hour,
    and two accepted requests for one host are at least ten minutes apart. *)
Lemma isolation_budget tenantID ep from l now :
  in_order from l -> last_request from l <= now ->
  (length (within Hour now (accepted (of_tenant tenantID) l empty_book)) <= autoIsolatePerHour)%nat /\
  StronglySorted (fun x y => x + autoIsolatePerEndpoint <= y) (accepted (of_host tenantID ep) l empty_book).
Proof.
  intros C L. split; [|by apply (accepted_apart tenantID ep l empty_book from)].
  pose proof (accepted_window tenantID l empty_book from now C L) as W.
  change (spent tenantID empty_book) with (@nil Z) in W. simpl in W. rewrite <- W.
  etransitivity; [apply within_length|]. apply spent_bound, Nat.le_0_l.
Qed.

End books.

(** ** Examples *)
Module books_example.
Import platform books.
Local Open Scope string_scope.
Local Open Scope Z_scope.

(** A saved epoch, a key change whose write is lost, the same again, and a
    restart under a higher floor. *)
Definition epochs_run : list epoch_op :=
  [EFor "acme" "k1" WriteOk; EFor "acme" "k2" WriteLate; EFor "acme" "k1" WriteOk; ERestart true 9; EFor "acme" "k2" WriteOk].

Lemma trust_epochs_follow_witness :
  StronglySorted follows (map fst (told "acme" epochs_run (newTrustEpochs true Missing 3, Missing))) /\
  map fst (told "acme" epochs_run (newTrustEpochs true Missing 3, Missing)) = [mkEpoch 3 "k1"; mkEpoch 3 "k1"; mkEpoch 9 "k2"].
Proof.
  split; [|vm_compute; reflexivity].
  refine (proj1 (trust_epochs_follow "acme" Missing 3 9 epochs_run _ _ _ _ _)).
  - discriminate.
  - intros m E. discriminate E.
  - discriminate.
  - vm_compute. discriminate.
  - repeat constructor; intros r fl E; inversion E; discriminate.
Defined.

(** Two grants in a second, a write lost after the file was replaced, and a
    restart. *)
Definition clock_ops : list clock_op :=
  [CNext "acme" (100 * Second) WriteOk; CNext "acme" (100 * Second) WriteOk; CNext "beta" (100 * Second) WriteOk;
   CNext "acme" (101 * Second) WriteLate; CRestart true; CNext "acme" (101 * Second) WriteOk].

Lemma enforcement_times_increase_witness :
  map snd (handed "acme" clock_ops (newEnforcementClock true Missing, Missing)) = [100; 101; 103]
  /\ StronglySorted Z.lt (map snd (handed "acme" clock_ops (newEnforcementClock true Missing, Missing))).
Proof.
  split; [vm_compute; reflexivity|]. refine (proj1 (enforcement_times_increase "acme" Missing clock_ops _ _)).
  - intros m E. discriminate E.
  - repeat (apply List.Forall_cons; [first [exact I|split; vm_compute; discriminate]|]). apply List.Forall_nil.
Defined.

(** Eight hosts in eight minutes. *)
Definition burst : list request :=
  map (fun i : nat => (Z.of_nat i * 60 * Second, "acme", "pc-" ++ pretty i)) (seq 1 8).

Lemma burst_accepted : length (accepted (of_tenant "acme") burst empty_book) = 6%nat.
Proof. vm_compute. reflexivity. Qed.

End books_example.
