(* ===== verification/AuthStore.v ===== *)
(** * The response authority's tables

    [hub/pkg/responseauth/store.go], the SQLite store, with the records of
    [authority.go] and [dto.go] it keeps: one finite map per table, keyed by
    its primary key, and one function per method. Times are compared as
    instants. The order of rows a query leaves open is a parameter. *)

From Stdlib Require Import Ascii String.
From stdpp Require Import gmap.
From S2P Require Import Prelude Canonical Platform.

Module authstore.
Import platform.

Local Open Scope string_scope.
Local Open Scope Z_scope.

Definition ErrNotFound : string := "record not found".
Definition ErrNonceReplayed : string := "nonce already used or replayed".
Definition ErrTokenExpired : string := "token expired".
Definition ErrTokenUsed : string := "token already used".

Definition RoleResponseAdmin : string := "response_admin".
Definition RoleResponseOperator : string := "response_operator".

Definition AuthMethodWebAuthn : string := "webauthn".
Definition AuthMethodTOTP : string := "totp".
Definition AuthMethodRecovery : string := "recovery".

(** ** Records *)

Record MembershipRecord : Type := mkMembership {
  mr_TenantID : string;
  mr_OperatorID : string;
  mr_Role : string;
  mr_Status : string;
  mr_CreatedAt : Z;
  mr_UpdatedAt : Z;
}.

Record TenantKeyRecord : Type := mkTenantKey {
  ky_TenantID : string;
  ky_KeyID : string;
  ky_PublicKey : string;
  ky_PrivateKey : string;
  ky_Partition : string;
  ky_Status : string;
  ky_CreatedAt : Z;
  ky_RotatedAt : option Z;
}.

Record AuthenticatorRecord : Type := mkAuthenticator {
  ar_ID : string;
  ar_OperatorID : string;
  ar_TenantID : string;
  ar_Type : string;
  ar_Label : string;
  ar_SecretOrKey : string;
  ar_Status : string;
  ar_EnrolledAt : Z;
  ar_LastUsedAt : option Z;
  ar_FailureCount : Z;
  ar_LockedUntil : option Z;
}.

Record MethodPolicyRecord : Type := mkPolicy {
  mp_TenantID : string;
  mp_AllowedMethods : list string;
  mp_RequireStepUp : bool;
  mp_MaxSessionTTLSec : Z;
  mp_MaxIdleTTLSec : Z;
  mp_UpdatedAt : Z;
}.

Record ResponseSession : Type := mkSession {
  rs_SessionID : string;
  rs_OperatorID : string;
  rs_TenantID : string;
  rs_BrowserSessionID : string;
  rs_BrowserPublicKey : string;
  rs_AllowedActionKinds : list string;
  rs_IssuedAt : Z;
  rs_IdleExpiresAt : Z;
  rs_AbsoluteExpiresAt : Z;
  rs_Locked : bool;
  rs_AuthMethod : string;
}.

Record NonceRow : Type := mkNonce { nr_purpose : string; nr_tenant : string; nr_seen_at : Z; nr_expires_at : Z }.

Record RecoveryTokenRecord : Type := mkRecovery {
  rt_TokenHash : string;
  rt_TenantID : string;
  rt_OperatorID : string;
  rt_CreatedAt : Z;
  rt_ExpiresAt : Z;
  rt_Used : bool;
  rt_UsedAt : option Z;
}.

Record SignerAuditEntry : Type := mkAudit {
  sa_Timestamp : Z;
  sa_TenantID : string;
  sa_OperatorID : string;
  sa_EventType : string;
  sa_ActionKind : string;
  sa_EndpointID : string;
  sa_GrantID : string;
  sa_Status : string;
  sa_Details : string;
}.

#[export] Instance eta_MembershipRecord : Eta MembershipRecord :=
  fun x => mkMembership (mr_TenantID x) (mr_OperatorID x) (mr_Role x) (mr_Status x) (mr_CreatedAt x) (mr_UpdatedAt x).
#[export] Instance eta_TenantKeyRecord : Eta TenantKeyRecord :=
  fun x => mkTenantKey (ky_TenantID x) (ky_KeyID x) (ky_PublicKey x) (ky_PrivateKey x) (ky_Partition x) (ky_Status x)
    (ky_CreatedAt x) (ky_RotatedAt x).
#[export] Instance eta_AuthenticatorRecord : Eta AuthenticatorRecord :=
  fun x => mkAuthenticator (ar_ID x) (ar_OperatorID x) (ar_TenantID x) (ar_Type x) (ar_Label x) (ar_SecretOrKey x)
    (ar_Status x) (ar_EnrolledAt x) (ar_LastUsedAt x) (ar_FailureCount x) (ar_LockedUntil x).
#[export] Instance eta_ResponseSession : Eta ResponseSession :=
  fun x => mkSession (rs_SessionID x) (rs_OperatorID x) (rs_TenantID x) (rs_BrowserSessionID x) (rs_BrowserPublicKey x)
    (rs_AllowedActionKinds x) (rs_IssuedAt x) (rs_IdleExpiresAt x) (rs_AbsoluteExpiresAt x) (rs_Locked x) (rs_AuthMethod x).
#[export] Instance eta_RecoveryTokenRecord : Eta RecoveryTokenRecord :=
  fun x => mkRecovery (rt_TokenHash x) (rt_TenantID x) (rt_OperatorID x) (rt_CreatedAt x) (rt_ExpiresAt x) (rt_Used x)
    (rt_UsedAt x).

(** [ResponseSession.IsValid]. *)
Definition session_IsValid (now : Z) (s : ResponseSession) : bool :=
  if rs_Locked s then false
  else if rs_AbsoluteExpiresAt s <? now then false
  else if rs_IdleExpiresAt s <? now then false
  else true.

(** ** The store *)

Record SQLiteStore : Type := mkSQLite {
  tenant_keys : gmap string TenantKeyRecord;
  memberships : gmap (string * string) MembershipRecord;
  authenticators : gmap string AuthenticatorRecord;
  method_policies : gmap string MethodPolicyRecord;
  response_sessions : gmap string ResponseSession;
  used_nonces : gmap string NonceRow;
  recovery_tokens : gmap string RecoveryTokenRecord;
  signer_audit : list SignerAuditEntry;
}.

#[export] Instance eta_SQLiteStore : Eta SQLiteStore :=
  fun x => mkSQLite (tenant_keys x) (memberships x) (authenticators x) (method_policies x) (response_sessions x)
    (used_nonces x) (recovery_tokens x) (signer_audit x).

Definition empty_tables : SQLiteStore := mkSQLite ∅ ∅ ∅ ∅ ∅ ∅ ∅ [].

Section SQLiteStore.
Context `{R : Rows}.

Definition GetTenantKey (tenantID : string) (s : SQLiteStore) : result string TenantKeyRecord :=
  match tenant_keys s !! tenantID with Some r => Ok r | None => Err ErrNotFound end.

Definition SaveTenantKey (key : TenantKeyRecord) (s : SQLiteStore) : SQLiteStore :=
  let created := match tenant_keys s !! ky_TenantID key with Some old => ky_CreatedAt old | None => ky_CreatedAt key end in
  s <| tenant_keys ::= insert (ky_TenantID key) (key <| ky_CreatedAt := created |>) |>.

Definition ListTenantKeys (s : SQLiteStore) : list TenantKeyRecord :=
  rows_where (fun r => String.eqb (ky_Status r) "active") (tenant_keys s).

Definition GetMembership (tenantID operatorID : string) (s : SQLiteStore) : result string MembershipRecord :=
  match memberships s !! (tenantID, operatorID) with Some r => Ok r | None => Err ErrNotFound end.

Definition SaveMembership (m : MembershipRecord) (s : SQLiteStore) : SQLiteStore :=
  let id := (mr_TenantID m, mr_OperatorID m) in
  let created := match memberships s !! id with Some old => mr_CreatedAt old | None => mr_CreatedAt m end in
  s <| memberships ::= insert id (m <| mr_CreatedAt := created |>) |>.

(** Only the active ones. *)
Definition ListMemberships (tenantID : string) (s : SQLiteStore) : list MembershipRecord :=
  rows_where (fun r => String.eqb (mr_TenantID r) tenantID && String.eqb (mr_Status r) "active") (memberships s).

Definition RevokeMembership_row (tenantID operatorID : string) (now : Z) (s : SQLiteStore) : SQLiteStore :=
  s <| memberships ::= alter (fun r => r <| mr_Status := "revoked" |> <| mr_UpdatedAt := now |>) (tenantID, operatorID) |>.

Definition GetAuthenticator (id : string) (s : SQLiteStore) : result string AuthenticatorRecord :=
  match authenticators s !! id with Some r => Ok r | None => Err ErrNotFound end.

Definition ListAuthenticators (tenantID operatorID : string) (s : SQLiteStore) : list AuthenticatorRecord :=
  rows_where (fun r => String.eqb (ar_TenantID r) tenantID && String.eqb (ar_OperatorID r) operatorID
                       && String.eqb (ar_Status r) "active") (authenticators s).

Definition SaveAuthenticator (auth : AuthenticatorRecord) (s : SQLiteStore) : SQLiteStore :=
  let row := match authenticators s !! ar_ID auth with
    | None => auth
    | Some old =>
      old <| ar_Label := ar_Label auth |> <| ar_SecretOrKey := ar_SecretOrKey auth |> <| ar_Status := ar_Status auth |>
          <| ar_LastUsedAt := ar_LastUsedAt auth |> <| ar_FailureCount := ar_FailureCount auth |>
          <| ar_LockedUntil := ar_LockedUntil auth |>
    end in
  s <| authenticators ::= insert (ar_ID auth) row |>.

Definition UpdateAuthenticatorUsage (id : string) (lastUsed failureCount : Z) (lockedUntil : option Z) (s : SQLiteStore)
    : SQLiteStore :=
  s <| authenticators ::= alter (fun r =>
    r <| ar_LastUsedAt := Some lastUsed |> <| ar_FailureCount := failureCount |> <| ar_LockedUntil := lockedUntil |>) id |>.

Definition RevokeAuthenticator (id : string) (s : SQLiteStore) : SQLiteStore :=
  s <| authenticators ::= alter (fun r => r <| ar_Status := "revoked" |>) id |>.

Definition GetPolicy (tenantID : string) (now : Z) (s : SQLiteStore) : MethodPolicyRecord :=
  default (mkPolicy tenantID [AuthMethodTOTP; AuthMethodWebAuthn] false 28800 1800 now) (method_policies s !! tenantID).

Definition SavePolicy (p : MethodPolicyRecord) (s : SQLiteStore) : SQLiteStore :=
  s <| method_policies ::= insert (mp_TenantID p) p |>.

Definition store_GetSession (sessionID : string) (s : SQLiteStore) : result string ResponseSession :=
  match response_sessions s !! sessionID with Some r => Ok r | None => Err ErrNotFound end.

(** An existing row keeps everything but its idle deadline and its lock. *)
Definition SaveSession (sess : ResponseSession) (s : SQLiteStore) : SQLiteStore :=
  let row := match response_sessions s !! rs_SessionID sess with
    | None => sess
    | Some old => old <| rs_IdleExpiresAt := rs_IdleExpiresAt sess |> <| rs_Locked := rs_Locked sess |>
    end in
  s <| response_sessions ::= insert (rs_SessionID sess) row |>.

Definition UpdateSession : ResponseSession -> SQLiteStore -> SQLiteStore := SaveSession.

Definition store_LockSession (sessionID : string) (s : SQLiteStore) : SQLiteStore * result string unit :=
  match response_sessions s !! sessionID with
  | None => (s, Err ErrNotFound)
  | Some _ => (s <| response_sessions ::= alter (fun r => r <| rs_Locked := true |>) sessionID |>, Ok tt)
  end.

Definition expired_row (now : Z) (r : ResponseSession) : bool :=
  (rs_AbsoluteExpiresAt r <? now) || ((rs_IdleExpiresAt r <? now) && rs_Locked r).

Definition PruneExpiredSessions (now : Z) (s : SQLiteStore) : SQLiteStore * Z :=
  (s <| response_sessions ::= filter (fun kv => expired_row now kv.2 = false) |>,
   Z.of_nat (length (rows_where (expired_row now) (response_sessions s)))).

(** The primary key refuses a nonce for good. *)
Definition CheckAndRecordNonce (nonce purpose tenantID : string) (expiresAt now : Z) (s : SQLiteStore)
    : SQLiteStore * result string unit :=
  match used_nonces s !! nonce with
  | Some _ => (s, Err ErrNonceReplayed)
  | None => (s <| used_nonces ::= insert nonce (mkNonce purpose tenantID now expiresAt) |>, Ok tt)
  end.

Definition SaveRecoveryToken (tok : RecoveryTokenRecord) (s : SQLiteStore) : SQLiteStore :=
  let row := match recovery_tokens s !! rt_TokenHash tok with
    | None => tok
    | Some old => old <| rt_Used := rt_Used tok |> <| rt_UsedAt := rt_UsedAt tok |>
    end in
  s <| recovery_tokens ::= insert (rt_TokenHash tok) row |>.

Definition GetRecoveryToken (tokenHash : string) (s : SQLiteStore) : result string RecoveryTokenRecord :=
  match recovery_tokens s !! tokenHash with Some r => Ok r | None => Err ErrNotFound end.

Definition ConsumeRecoveryToken (tokenHash : string) (usedAt : Z) (s : SQLiteStore) : SQLiteStore * result string unit :=
  match GetRecoveryToken tokenHash s with
  | Err e => (s, Err e)
  | Ok tok =>
    if rt_Used tok then (s, Err ErrTokenUsed)
    else if rt_ExpiresAt tok <? usedAt then (s, Err ErrTokenExpired)
    else (s <| recovery_tokens ::= alter (fun r => r <| rt_Used := true |> <| rt_UsedAt := Some usedAt |>) tokenHash |>, Ok tt)
  end.

Definition RecordAudit (entry : SignerAuditEntry) (s : SQLiteStore) : SQLiteStore :=
  s <| signer_audit ::= fun l => (l ++ [entry])%list |>.

(** [ORDER BY timestamp DESC LIMIT]; rows of one instant come in the order
    the table has them or not, which no caller relies on. *)
Definition QueryAudit (tenantID : string) (limit : Z) (s : SQLiteStore) : list SignerAuditEntry :=
  let limit := if (limit <=? 0) || (1000 <? limit) then 100 else limit in
  take (Z.to_nat limit)
    (sort_slice (fun a b => sa_Timestamp b <? sa_Timestamp a)
       (filter (fun e => String.eqb tenantID "" || String.eqb (sa_TenantID e) tenantID = true) (signer_audit s))).

Definition CountActiveSessions (tenantID : string) (now : Z) (s : SQLiteStore) : Z :=
  Z.of_nat (length (rows_where (fun r =>
    (String.eqb tenantID "" || String.eqb (rs_TenantID r) tenantID)
    && negb (rs_Locked r) && (now <? rs_IdleExpiresAt r) && (now <? rs_AbsoluteExpiresAt r)) (response_sessions s))).

Definition CountAuthenticators (tenantID : string) (s : SQLiteStore) : Z :=
  Z.of_nat (length (rows_where (fun r =>
    (String.eqb tenantID "" || String.eqb (ar_TenantID r) tenantID) && String.eqb (ar_Status r) "active") (authenticators s))).

End SQLiteStore.

End authstore.
