(* ===== verification/WebAuthn.v ===== *)
(** * WebAuthn challenges and assertions

    [hub/pkg/responseauth/webauthn.go]: the pending challenges of the
    [WebAuthnManager], the checks of a registration and of an assertion. JSON,
    URLs and the public key algorithms are parameters. *)

From Stdlib Require Import Ascii String.
From stdpp Require Import gmap.
From S2P Require Import Prelude Canonical Platform Encoding AuthBooks.

Module webauthn.
Import canonical platform encoding books.

Local Open Scope string_scope.
Local Open Scope Z_scope.

Definition ErrWebAuthnChallengeMismatch : string := "webauthn challenge mismatch or expired".
Definition ErrWebAuthnOriginMismatch : string := "webauthn origin mismatch".
Definition ErrWebAuthnRPIDMismatch : string := "webauthn RP ID mismatch".
Definition ErrWebAuthnUserNotPresent : string := "webauthn user presence flag not set".
Definition ErrWebAuthnSignatureInvalid : string := "webauthn signature verification failed".
Definition ErrWebAuthnCloned : string := "webauthn sign count not strictly incrementing; possible cloned authenticator".

Record WebAuthnRPConfig : Type := mkRPConfig { RPID : string; RPName : string; AllowedOrigins : list string }.

Record StoredWebAuthnCredential : Type := mkStored {
  sc_CredentialID : string;
  sc_KeyType : string;
  sc_PublicKeyPEM : string;
  sc_SignCount : Z;
  sc_AAGUID : string;
}.

Record ClientDataJSON : Type := mkClientData {
  cd_Type : string;
  cd_Challenge : string;
  cd_Origin : string;
  cd_CrossOrigin : bool;
}.

Record WebAuthnRegistrationRequest : Type := mkRegistration {
  wr_TenantID : string;
  wr_OperatorID : string;
  wr_CredentialID : string;
  wr_ClientDataJSON : string;
  wr_AttestationData : string;
  wr_PublicKeyPEM : string;
  wr_KeyType : string;
}.

Record WebAuthnAuthenticationRequest : Type := mkAssertion {
  wa_TenantID : string;
  wa_OperatorID : string;
  wa_BrowserSessionID : string;
  wa_BrowserPublicKey : string;
  wa_CredentialID : string;
  wa_ClientDataJSON : string;
  wa_AuthenticatorData : string;
  wa_Signature : string;
}.

Record pendingChallenge : Type := mkPending {
  pc_Challenge : string;
  pc_TenantID : string;
  pc_Operator : string;
  pc_Kind : string;
  pc_ExpiresAt : Z;
}.

Record WebAuthnManager : Type := mkManager { wm_cfg : WebAuthnRPConfig; wm_challenges : gmap string pendingChallenge }.

#[export] Instance eta_WebAuthnRPConfig : Eta WebAuthnRPConfig := fun x => mkRPConfig (RPID x) (RPName x) (AllowedOrigins x).
#[export] Instance eta_StoredWebAuthnCredential : Eta StoredWebAuthnCredential :=
  fun x => mkStored (sc_CredentialID x) (sc_KeyType x) (sc_PublicKeyPEM x) (sc_SignCount x) (sc_AAGUID x).
#[export] Instance eta_WebAuthnManager : Eta WebAuthnManager := fun x => mkManager (wm_cfg x) (wm_challenges x).

Definition NewWebAuthnManager (cfg : WebAuthnRPConfig) : WebAuthnManager :=
  let cfg := if String.eqb (RPID cfg) "" then cfg <| RPID := "localhost" |> else cfg in
  let cfg := if String.eqb (RPName cfg) "" then cfg <| RPName := "Ominull Response Authority" |> else cfg in
  let cfg := match AllowedOrigins cfg with
    | [] => cfg <| AllowedOrigins := ["http://localhost:9999"; "https://localhost:9999"; "https://ominull.example.invalid:8443"] |>
    | _ => cfg
    end in
  mkManager cfg ∅.

(** ** Challenges *)

Definition challengeTTL : Z := 300 * Second.

(** [b] is the 32 random bytes; expired challenges are dropped first. *)
Definition GenerateChallenge (b tenantID operatorID kind : string) (now : Z) (m : WebAuthnManager)
    : WebAuthnManager * string :=
  let ch := base64_raw_url_encode b in
  let live := filter (fun kv => now <= pc_ExpiresAt kv.2) (wm_challenges m) in
  (m <| wm_challenges := <[ch := mkPending ch tenantID operatorID kind (now + challengeTTL)]> live |>, ch).

Definition ConsumeChallenge (ch tenantID operatorID expectedKind : string) (now : Z) (m : WebAuthnManager)
    : WebAuthnManager * result string unit :=
  match wm_challenges m !! ch with
  | None => (m, Err ErrWebAuthnChallengeMismatch)
  | Some p =>
    (m <| wm_challenges ::= delete ch |>,
     if pc_ExpiresAt p <? now then Err ErrWebAuthnChallengeMismatch
     else if negb (String.eqb (pc_TenantID p) tenantID) || negb (String.eqb (pc_Operator p) operatorID)
             || negb (String.eqb (pc_Kind p) expectedKind)
     then Err ErrWebAuthnChallengeMismatch
     else Ok tt)
  end.

Record RegistrationOptions : Type := mkRegOptions {
  ro_Challenge : string;
  ro_RPID : string;
  ro_RPName : string;
  ro_UserID : string;
  ro_UserName : string;
  ro_Algs : list Z;
}.

Record AuthenticationOptions : Type := mkAuthOptions {
  ao_Challenge : string;
  ao_RPID : string;
  ao_AllowCredentials : list string;
}.

(** The fixed strings and the timeout of the options are left out. *)
Definition CreateRegistrationOptions (b tenantID operatorID : string) (now : Z) (m : WebAuthnManager)
    : WebAuthnManager * RegistrationOptions :=
  let '(m, ch) := GenerateChallenge b tenantID operatorID "create" now m in
  (m, mkRegOptions ch (RPID (wm_cfg m)) (RPName (wm_cfg m)) (base64_raw_url_encode operatorID) operatorID [-7; -8; -257]).

Definition CreateAuthenticationOptions (b tenantID operatorID : string) (credIDs : list string) (now : Z)
    (m : WebAuthnManager) : WebAuthnManager * AuthenticationOptions :=
  let '(m, ch) := GenerateChallenge b tenantID operatorID "get" now m in
  (m, mkAuthOptions ch (RPID (wm_cfg m)) credIDs).

(** ** Origins *)

Fixpoint trim_left_byte (c : ascii) (s : string) : string :=
  match s with
  | String d s' => if Ascii.eqb c d then trim_left_byte c s' else s
  | EmptyString => EmptyString
  end.

(** [strings.TrimRight(s, "/")]. *)
Definition trim_slashes (s : string) : string := string_rev (trim_left_byte "/" (string_rev s)).

Section WebAuthn.
Context `{U : Unicode}.

(** The prefix test is inside the loop over the allowed origins. *)
Definition validateOrigin (origin : string) (m : WebAuthnManager) : result string unit :=
  let origin := trim_slashes (ToLower origin) in
  guard_err (existsb (fun allowed =>
      String.eqb origin (trim_slashes (ToLower allowed))
      || HasPrefix origin "http://localhost" || HasPrefix origin "https://localhost") (AllowedOrigins (wm_cfg m)))
    ErrWebAuthnOriginMismatch.

(** ** Registration and assertion *)

(** A key [x509.ParsePKIXPublicKey] reads: its kind and itself. *)
Inductive pkix : Type :=
| PKIXEcdsa (key : string)
| PKIXRsa (key : string)
| PKIXOther.

Class WebAuthnLib := {
  unmarshal_client_data : string -> option ClientDataJSON;
  marshal_credential : StoredWebAuthnCredential -> string;
  unmarshal_credential : string -> option StoredWebAuthnCredential;
  url_hostname : string -> option string;
  parse_pkix : string -> option pkix;
  p256_point : string -> string -> string;
  ecdsa_verify_asn1 : string -> string -> string -> bool;
  ecdsa_verify : string -> string -> string -> string -> bool;
  rsa_verify_pkcs1 : string -> string -> string -> bool;
}.

Context `{K : Crypto} `{L : WebAuthnLib}.

(** base64url, or else padded base64. *)
Definition decode_either (s : string) : option string :=
  match base64_raw_url s with Some r => Some r | None => base64_std s end.

Definition es256_key (pubBytes : string) : option string :=
  match parse_pkix pubBytes with
  | Some (PKIXEcdsa k) => Some k
  | _ =>
    if (String.length pubBytes =? 65)%nat && HasPrefix pubBytes (String "004" EmptyString)
    then Some (p256_point (string_take 32 (string_drop 1 pubBytes)) (string_drop 33 pubBytes))
    else None
  end.

Definition verifyWebAuthnSignature (stored : StoredWebAuthnCredential) (signedData sigBytes : string)
    : result string unit :=
  let pubBytes := default (sc_PublicKeyPEM stored) (hex_decode (sc_PublicKeyPEM stored)) in
  let kt := sc_KeyType stored in
  if String.eqb kt "Ed25519" then
    _ ← guard_err (String.length pubBytes =? 32)%nat "invalid Ed25519 public key length";
    guard_err (ed25519_verify pubBytes signedData sigBytes) ErrWebAuthnSignatureInvalid
  else if String.eqb kt "ES256" then
    let hash := sha256 signedData in
    match es256_key pubBytes with
    | None => Err "unable to parse ES256 ECDSA public key"
    | Some k =>
      guard_err (ecdsa_verify_asn1 k hash sigBytes
                 || ((String.length sigBytes =? 64)%nat && ecdsa_verify k hash (string_take 32 sigBytes) (string_drop 32 sigBytes)))
        ErrWebAuthnSignatureInvalid
    end
  else if String.eqb kt "RS256" then
    match parse_pkix pubBytes with
    | None => Err "failed to parse RSA public key"
    | Some (PKIXRsa k) => guard_err (rsa_verify_pkcs1 k (sha256 signedData) sigBytes) ErrWebAuthnSignatureInvalid
    | Some _ => Err "key is not an RSA public key"
    end
  else Err ("unsupported WebAuthn key type: " ++ kt).

(** The client data of a request, checked for its type. *)
Definition client_data (encoded wantType : string) : result string (string * ClientDataJSON) :=
  match decode_either encoded with
  | None => Err "invalid base64 clientDataJSON"
  | Some raw =>
    match unmarshal_client_data raw with
    | None => Err "malformed clientDataJSON"
    | Some cd => if String.eqb (cd_Type cd) wantType then Ok (raw, cd) else Err "unexpected clientDataJSON type"
    end
  end.

Definition VerifyRegistration (req : WebAuthnRegistrationRequest) (now : Z) (m : WebAuthnManager)
    : WebAuthnManager * result string StoredWebAuthnCredential :=
  if String.eqb (wr_CredentialID req) "" || String.eqb (wr_ClientDataJSON req) ""
  then (m, Err "missing credential ID or clientDataJSON") else
  match client_data (wr_ClientDataJSON req) "webauthn.create" with
  | Err e => (m, Err e)
  | Ok (_, cd) =>
    let '(m, consumed) := ConsumeChallenge (cd_Challenge cd) (wr_TenantID req) (wr_OperatorID req) "create" now m in
    (m, _ ← consumed;
        _ ← validateOrigin (cd_Origin cd) m;
        let keyType := if String.eqb (wr_KeyType req) "" then "ES256" else wr_KeyType req in
        Ok (mkStored (wr_CredentialID req) keyType (wr_PublicKeyPEM req) 0 ""))
  end.

(** The relying party id, or else the host name of the origin. *)
Definition rp_matches (authData origin : string) (m : WebAuthnManager) : bool :=
  String.eqb (string_take 32 authData) (sha256 (RPID (wm_cfg m)))
  || match url_hostname origin with
     | Some host => String.eqb (string_take 32 authData) (sha256 host)
     | None => false
     end.

Definition flags_of (authData : string) : Z := default 0 (byte_val <$> String.get 32 authData).

(** [binary.BigEndian.Uint32(authData[33:37])]. *)
Definition sign_count (authData : string) : Z :=
  pack 8 (map byte_val (list_of (string_take 4 (string_drop 33 authData)))).

Definition VerifyAssertion (req : WebAuthnAuthenticationRequest) (now : Z) (stored : StoredWebAuthnCredential)
    (m : WebAuthnManager) : WebAuthnManager * result string StoredWebAuthnCredential :=
  if String.eqb (wa_CredentialID req) "" || String.eqb (wa_ClientDataJSON req) ""
     || String.eqb (wa_AuthenticatorData req) "" || String.eqb (wa_Signature req) ""
  then (m, Err "missing required assertion fields") else
  match client_data (wa_ClientDataJSON req) "webauthn.get" with
  | Err e => (m, Err e)
  | Ok (rawClientData, cd) =>
    let '(m, consumed) := ConsumeChallenge (cd_Challenge cd) (wa_TenantID req) (wa_OperatorID req) "get" now m in
    (m, _ ← consumed;
        _ ← validateOrigin (cd_Origin cd) m;
        match decode_either (wa_AuthenticatorData req) with
        | None => Err "invalid base64 authenticatorData"
        | Some authData =>
          _ ← guard_err (37 <=? String.length authData)%nat "authenticatorData too short";
          _ ← guard_err (rp_matches authData (cd_Origin cd) m) ErrWebAuthnRPIDMismatch;
          _ ← guard_err (Z.testbit (flags_of authData) 0) ErrWebAuthnUserNotPresent;
          let signCount := sign_count authData in
          _ ← guard_err (negb ((0 <? signCount) && (0 <? sc_SignCount stored) && (signCount <=? sc_SignCount stored)))
                ErrWebAuthnCloned;
          let stored := stored <| sc_SignCount := signCount |> in
          match decode_either (wa_Signature req) with
          | None => Err "invalid base64 signature"
          | Some sigBytes =>
            _ ← verifyWebAuthnSignature stored (authData ++ sha256 rawClientData) sigBytes;
            Ok stored
          end
        end)
  end.

(** ** Runs *)

Inductive webauthn_op : Type :=
| WBegin (b tenantID operatorID kind : string) (now : Z)
| WRegister (req : WebAuthnRegistrationRequest) (now : Z)
| WAssert (req : WebAuthnAuthenticationRequest) (now : Z) (stored : StoredWebAuthnCredential).

Definition webauthn_exec (o : webauthn_op) (m : WebAuthnManager) : WebAuthnManager :=
  match o with
  | WBegin b t op k now => fst (GenerateChallenge b t op k now m)
  | WRegister req now => fst (VerifyRegistration req now m)
  | WAssert req now stored => fst (VerifyAssertion req now stored m)
  end.

(** What a challenge is for: tenant, operator and kind. *)
Definition purpose : Type := string * string * string.

Definition challenge_in (encoded wantType : string) : string :=
  match client_data encoded wantType with Ok (_, cd) => cd_Challenge cd | Err _ => "" end.

(** The challenge an operation has accepted, what for and when. *)
Definition accepted1 (o : webauthn_op) (m : WebAuthnManager) : list (string * purpose * Z) :=
  match o with
  | WBegin _ _ _ _ _ => []
  | WRegister req now =>
    if is_ok (snd (VerifyRegistration req now m))
    then [(challenge_in (wr_ClientDataJSON req) "webauthn.create", (wr_TenantID req, wr_OperatorID req, "create"), now)]
    else []
  | WAssert req now stored =>
    if is_ok (snd (VerifyAssertion req now stored m))
    then [(challenge_in (wa_ClientDataJSON req) "webauthn.get", (wa_TenantID req, wa_OperatorID req, "get"), now)]
    else []
  end.

Fixpoint accepted_challenges (l : list webauthn_op) (m : WebAuthnManager) : list (string * purpose * Z) :=
  match l with
  | [] => []
  | o :: l => (accepted1 o m ++ accepted_challenges l (webauthn_exec o m))%list
  end.

(** The challenges a run issues. *)
Definition issued1 (o : webauthn_op) : list (string * purpose * Z) :=
  match o with
  | WBegin b t op k now => [(base64_raw_url_encode b, (t, op, k), now)]
  | _ => []
  end.

Definition issued_challenges (l : list webauthn_op) : list (string * purpose * Z) := l ≫= issued1.

Definition times (ch : string) (l : list (string * purpose * Z)) : nat :=
  length (filter (fun x => x.1.1 = ch) l).

Lemma times_app ch l l' : times ch (l ++ l') = (times ch l + times ch l')%nat.
Proof. unfold times. by rewrite filter_app, length_app. Qed.

Definition purpose_of (p : pendingChallenge) : purpose := (pc_TenantID p, pc_Operator p, pc_Kind p).

Lemma consume_ok ch t o k now m m' :
  ConsumeChallenge ch t o k now m = (m', Ok tt) ->
  m' = m <| wm_challenges ::= delete ch |>
  /\ exists p, wm_challenges m !! ch = Some p /\ purpose_of p = (t, o, k) /\ now <= pc_ExpiresAt p.
Proof.
  unfold ConsumeChallenge. destruct (wm_challenges m !! ch) as [p|] eqn:E; [|done].
  intros [= <- H]. split; [done|]. exists p. split; [done|].
  destruct (Z.ltb_spec (pc_ExpiresAt p) now) as [|Hl]; [done|]. split_match; [done|]. bools.
  unfold purpose_of. split; [congruence|done].
Qed.

Lemma consume_map ch t o k now m :
  wm_challenges (fst (ConsumeChallenge ch t o k now m)) ⊆ wm_challenges m.
Proof.
  unfold ConsumeChallenge. destruct (wm_challenges m !! ch); [|done]. cbn. apply delete_subseteq.
Qed.

(** An accepted operation took its challenge out of the pending ones. *)
Lemma accepted1_spec o m x :
  x ∈ accepted1 o m ->
  accepted1 o m = [x] /\ wm_challenges (webauthn_exec o m) = delete x.1.1 (wm_challenges m)
  /\ exists p, wm_challenges m !! x.1.1 = Some p /\ purpose_of p = x.1.2 /\ x.2 <= pc_ExpiresAt p.
Proof.
  destruct o as [| req now | req now stored]; cbn [accepted1 webauthn_exec]; [intros H; by apply not_elem_of_nil in H|..].
  - unfold VerifyRegistration, challenge_in.
    destruct (_ || _); [intros H; by apply not_elem_of_nil in H|].
    destruct (client_data (wr_ClientDataJSON req) "webauthn.create") as [[raw cd]|e]; [|intros H; by apply not_elem_of_nil in H].
    destruct (ConsumeChallenge _ _ _ _ _ _) as [m' [[]|e]] eqn:C; cbn; [|intros H; by apply not_elem_of_nil in H].
    apply consume_ok in C as [-> C].
    destruct (is_ok _); [|intros H; by apply not_elem_of_nil in H].
    intros ->%list_elem_of_singleton. cbn. eauto.
  - unfold VerifyAssertion, challenge_in.
    destruct (_ || _); [intros H; by apply not_elem_of_nil in H|].
    destruct (client_data (wa_ClientDataJSON req) "webauthn.get") as [[raw cd]|e]; [|intros H; by apply not_elem_of_nil in H].
    destruct (ConsumeChallenge _ _ _ _ _ _) as [m' [[]|e]] eqn:C; cbn; [|intros H; by apply not_elem_of_nil in H].
    apply consume_ok in C as [-> C].
    destruct (is_ok _); [|intros H; by apply not_elem_of_nil in H].
    intros ->%list_elem_of_singleton. cbn. eauto.
Qed.

(** Pending challenges only shrink, but for the one a begin issues. *)
Lemma exec_pending o m ch p :
  wm_challenges (webauthn_exec o m) !! ch = Some p ->
  wm_challenges m !! ch = Some p
  \/ exists now, issued1 o = [(ch, purpose_of p, now)] /\ pc_ExpiresAt p = now + challengeTTL.
Proof.
  destruct o as [b t op k now | req now | req now stored]; cbn [webauthn_exec issued1].
  - cbn. intros [[<- <-]|[_ F]]%lookup_insert_Some; [right; by exists now|].
    left. by apply map_lookup_filter_Some in F as [F _].
  - intros H. left. eapply lookup_weaken; [exact H|]. unfold VerifyRegistration.
    destruct (_ || _); [done|]. destruct (client_data _ _) as [[raw cd]|]; [|done].
    rewrite (surjective_pairing (ConsumeChallenge _ _ _ _ _ _)). apply consume_map.
  - intros H. left. eapply lookup_weaken; [exact H|]. unfold VerifyAssertion.
    destruct (_ || _); [done|]. destruct (client_data _ _) as [[raw cd]|]; [|done].
    rewrite (surjective_pairing (ConsumeChallenge _ _ _ _ _ _)). apply consume_map.
Qed.

Definition pending_once (ch : string) (m : WebAuthnManager) : nat :=
  if decide (is_Some (wm_challenges m !! ch)) then 1 else 0.

Lemma exec_pending_once ch o m :
  (times ch (accepted1 o m) + pending_once ch (webauthn_exec o m) <= pending_once ch m + times ch (issued1 o))%nat.
Proof.
  destruct (accepted1 o m) as [|x l] eqn:A.
  - unfold pending_once at 1. destruct (decide _) as [[p P]|]; [|cbn; lia].
    apply exec_pending in P as [P|(now & -> & _)].
    + unfold pending_once. rewrite decide_True by eauto. cbn. lia.
    + unfold times. rewrite filter_cons_True by done. cbn. lia.
  - destruct (accepted1_spec o m x) as (E & D & p & P & _); [rewrite A; set_solver|].
    rewrite A in E. injection E as ->. unfold times at 1. rewrite filter_cons, filter_nil.
    destruct (decide (x.1.1 = ch)) as [<-|N].
    + unfold pending_once. rewrite D. rewrite lookup_delete_eq, decide_False by (intros [? ?]; done).
      rewrite decide_True by eauto. cbn. lia.
    + unfold pending_once. rewrite D, lookup_delete_ne by done. cbn. lia.
Qed.

Lemma accepted_count ch l : forall m,
  (times ch (accepted_challenges l m) <= pending_once ch m + times ch (issued_challenges l))%nat.
Proof.
  induction l as [|o l IH]; intros m; [cbn; lia|].
  cbn [accepted_challenges]. change (issued_challenges (o :: l)) with (issued1 o ++ issued_challenges l)%list.
  rewrite !times_app. specialize (IH (webauthn_exec o m)). assert (S := exec_pending_once ch o m). lia.
Qed.

Lemma accepted_origin x l : forall m,
  x ∈ accepted_challenges l m ->
  (exists p, wm_challenges m !! x.1.1 = Some p /\ purpose_of p = x.1.2 /\ x.2 <= pc_ExpiresAt p)
  \/ (exists now, (x.1, now) ∈ issued_challenges l /\ x.2 <= now + challengeTTL).
Proof.
  induction l as [|o l IH]; intros m; [intros H; by apply not_elem_of_nil in H|].
  cbn [accepted_challenges]. intros [H|H]%elem_of_app.
  - left. apply accepted1_spec in H as (_ & _ & H). exact H.
  - change (issued_challenges (o :: l)) with (issued1 o ++ issued_challenges l)%list.
    apply IH in H as [(p & P & Q & T)|(now & I & T)]; [|right; exists now; set_solver].
    apply exec_pending in P as [P|(now & E & X)]; [left; eauto|].
    right. exists now. rewrite E, Q, X in *. destruct x as [[ch pu] at_]. set_solver.
Qed.

(** C36: WebAuthn challenges are single use. Along any sequence of begun
    ceremonies, registrations and assertions of a new manager, a challenge is
    accepted at most as often as it was issued, and every acceptance is of a
    challenge issued for that tenant, operator and ceremony no more than five
    minutes before. *)
Theorem challenge_one_use cfg l ch :
  (times ch (accepted_challenges l (NewWebAuthnManager cfg)) <= times ch (issued_challenges l))%nat
  /\ forall who now, (ch, who, now) ∈ accepted_challenges l (NewWebAuthnManager cfg) ->
       exists issued, (ch, who, issued) ∈ issued_challenges l /\ now <= issued + challengeTTL.
Proof.
  assert (N : forall k, wm_challenges (NewWebAuthnManager cfg) !! k = None).
  { intros k. unfold NewWebAuthnManager. cbn. apply lookup_empty. }
  split.
  - assert (C := accepted_count ch l (NewWebAuthnManager cfg)).
    unfold pending_once in C. rewrite N, decide_False in C by (intros [? ?]; done). lia.
  - intros who now [(p & P & _)|(t & I & T)]%accepted_origin; [by rewrite N in P|]. eauto.
Qed.

(** What an accepted assertion establishes. *)
Record assertion_holds (req : WebAuthnAuthenticationRequest) (stored stored' : StoredWebAuthnCredential)
    (m : WebAuthnManager) (raw : string) (cd : ClientDataJSON) (authData : string) : Prop := {
  ah_client : decode_either (wa_ClientDataJSON req) = Some raw /\ unmarshal_client_data raw = Some cd;
  ah_type : cd_Type cd = "webauthn.get";
  ah_origin : validateOrigin (cd_Origin cd) m = Ok tt;
  ah_data : decode_either (wa_AuthenticatorData req) = Some authData /\ (37 <= String.length authData)%nat;
  ah_rp : rp_matches authData (cd_Origin cd) m = true;
  ah_present : Z.testbit (flags_of authData) 0 = true;
  ah_count : sign_count authData <= 0 \/ sc_SignCount stored <= 0 \/ sc_SignCount stored < sign_count authData;
  ah_stored : stored' = stored <| sc_SignCount := sign_count authData |>;
  ah_signature : exists sig, decode_either (wa_Signature req) = Some sig
    /\ verifyWebAuthnSignature stored' (authData ++ sha256 raw) sig = Ok tt;
}.

(** An accepted assertion answers a challenge pending for that tenant and
    operator, which it uses up, and its signature by the stored credential
    covers exactly the authenticator data checked (relying party, user
    presence, counter) and the hash of exactly the client data checked (type,
    challenge, origin). A counter of zero, sent or stored, is taken. *)
Theorem assertion_sound req now stored m m' stored' :
  VerifyAssertion req now stored m = (m', Ok stored') ->
  exists raw cd authData p,
    assertion_holds req stored stored' m' raw cd authData
    /\ wm_challenges m !! cd_Challenge cd = Some p /\ purpose_of p = (wa_TenantID req, wa_OperatorID req, "get")
    /\ now <= pc_ExpiresAt p /\ m' = m <| wm_challenges ::= delete (cd_Challenge cd) |>.
Proof.
  unfold VerifyAssertion. destruct (_ || _); [done|].
  destruct (client_data _ _) as [[raw cd]|e] eqn:D; [|done].
  destruct (ConsumeChallenge _ _ _ _ _ _) as [m1 c] eqn:C. intros [= -> H]. inv_ok H. destruct x; subst c.
  apply consume_ok in C as (-> & p & P & Q & T).
  destruct (decode_either (wa_AuthenticatorData req)) as [authData|] eqn:A; [|done]. inv_ok H.
  destruct (decode_either (wa_Signature req)) as [sig|] eqn:S; [|done]. inv_ok H. injection H as <-.
  exists raw, cd, authData, p. split; [|done].
  unfold client_data in D. destruct (decode_either (wa_ClientDataJSON req)) as [raw'|] eqn:R; [|done].
  destruct (unmarshal_client_data raw') as [cd'|] eqn:J; [|done].
  destruct (String.eqb_spec (cd_Type cd') "webauthn.get") as [Ty|]; [|done]. injection D as <- <-.
  destruct x4. split; try done; bools.
  - unfold validateOrigin. by rewrite Hok0.
  - split; [done|]. by apply Nat.leb_le.
  - apply andb_false_iff in Hok3 as [B|B]; [apply andb_false_iff in B as [B|B]|]; bools; lia.
  - eauto.
Qed.

(** ** Origins that only look local *)

Lemma trim_left_stops c d a b : Ascii.eqb c d = false -> exists x, trim_left_byte c (a ++ String d b) = x ++ String d b.
Proof.
  intros N. induction a as [|e a IH].
  - exists "". change (trim_left_byte c (String d b) = String d b). cbn [trim_left_byte]. by rewrite N.
  - change (String e a ++ String d b) with (String e (a ++ String d b)). cbn [trim_left_byte].
    destruct (Ascii.eqb c e); [exact IH|]. by exists (String e a).
Qed.

Lemma trim_slashes_keeps p d t :
  Ascii.eqb "/" d = false -> exists x, trim_slashes ((p ++ String d "") ++ t) = (p ++ String d "") ++ x.
Proof.
  intros N. unfold trim_slashes. rewrite !string_rev_app.
  change (string_rev (String d "")) with (String d ""). change (String d "" ++ string_rev p) with (String d (string_rev p)).
  destruct (trim_left_stops "/" d (string_rev t) (string_rev p) N) as [x ->]. exists (string_rev x).
  rewrite string_rev_app. change (String d (string_rev p)) with (String d "" ++ string_rev p).
  by rewrite string_rev_app, string_rev_rev.
Qed.

(** The origin check takes every origin that merely begins with
    [https://localhost], such as [https://localhost.attacker.example], and the
    relying party check then accepts the hash of that host's name. *)
Theorem lookalike_origin_accepted s host authData m :
  is_ascii s = true -> AllowedOrigins (wm_cfg m) <> [] ->
  url_hostname ("https://localhost" ++ s) = Some host -> string_take 32 authData = sha256 host ->
  validateOrigin ("https://localhost" ++ s) m = Ok tt
  /\ rp_matches authData ("https://localhost" ++ s) m = true.
Proof.
  intros A O H D. split; [|unfold rp_matches; rewrite H, D, (proj2 (String.eqb_eq _ _) eq_refl); apply orb_true_r].
  unfold validateOrigin. replace (ToLower ("https://localhost" ++ s)) with ("https://localhost" ++ string_map lower_byte s).
  2: { unfold ToLower, is_ascii in *. by rewrite string_forallb_app, A, string_map_app. }
  destruct (trim_slashes_keeps "https://localhos" "t" (string_map lower_byte s) eq_refl) as [x E].
  change ("https://localhos" ++ "t") with "https://localhost" in E. rewrite E.
  destruct (AllowedOrigins (wm_cfg m)) as [|o l]; [done|]. cbn [existsb].
  unfold HasPrefix at 2. by rewrite prefix_self, !orb_true_r.
Qed.

End WebAuthn.

End webauthn.

(** ** Examples *)

Module webauthn_example.
Import canonical platform encoding books webauthn.

Local Open Scope string_scope.
Local Open Scope Z_scope.

#[local] Existing Instance ascii_only.

(** A digest and a signature to evaluate with. *)
Definition pad32 (s : string) : string := string_take 32 (s ++ string_of (repeat "."%char 32)).

#[local] Instance toy_crypto : Crypto := {|
  sha256 := pad32;
  ed25519_verify := fun pub msg sig => String.eqb sig (pad32 (pub ++ msg));
|}.

Definition lookalike : string := "https://localhost.attacker.example".

Definition challenge : string := base64_raw_url_encode "random bytes".

#[local] Instance toy_lib : WebAuthnLib := {|
  unmarshal_client_data := fun raw =>
    if String.eqb raw "client data" then Some (mkClientData "webauthn.get" challenge lookalike false) else None;
  marshal_credential := fun c => sc_CredentialID c ++ ":" ++ format_int (sc_SignCount c);
  unmarshal_credential := fun _ => None;
  url_hostname := fun o => if HasPrefix o "https://" then Some (string_drop 8 o) else None;
  parse_pkix := fun _ => None;
  p256_point := fun x y => x ++ y;
  ecdsa_verify_asn1 := fun _ _ _ => false;
  ecdsa_verify := fun _ _ _ _ => false;
  rsa_verify_pkcs1 := fun _ _ _ => false;
|}.

Definition manager : WebAuthnManager :=
  fst (GenerateChallenge "random bytes" "acme" "ana" "get" 0
    (NewWebAuthnManager (mkRPConfig "" "" ["https://ominull.example.invalid:8443"]))).

Definition auth_data : string :=
  pad32 (string_drop 8 lookalike) ++ string_of (map byte_of [1; 0; 0; 0; 7]).

Definition credential : StoredWebAuthnCredential := mkStored "cred" "Ed25519" (hex_encode (pad32 "key")) 6 "".

Definition assertion : WebAuthnAuthenticationRequest :=
  mkAssertion "acme" "ana" "browser" "" "cred" (base64_raw_url_encode "client data") (base64_raw_url_encode auth_data)
    (base64_raw_url_encode (pad32 (pad32 "key" ++ auth_data ++ pad32 "client data"))).

Lemma assertion_accepted :
  VerifyAssertion assertion Second credential manager
  = (fst (VerifyAssertion assertion Second credential manager), Ok (credential <| sc_SignCount := 7 |>)).
Proof. vm_compute. reflexivity. Qed.

(** The example is an assertion for the look-alike host, accepted in full. *)
Lemma assertion_sound_witness :
  exists raw cd authData p,
    assertion_holds assertion credential (credential <| sc_SignCount := 7 |>)
      (fst (VerifyAssertion assertion Second credential manager)) raw cd authData
    /\ wm_challenges manager !! cd_Challenge cd = Some p /\ purpose_of p = ("acme", "ana", "get")
    /\ Second <= pc_ExpiresAt p
    /\ fst (VerifyAssertion assertion Second credential manager)
       = manager <| wm_challenges ::= delete (cd_Challenge cd) |>.
Proof. exact (assertion_sound assertion Second credential manager _ _ assertion_accepted). Defined.

Lemma lookalike_origin_accepted_witness :
  validateOrigin lookalike manager = Ok tt /\ rp_matches auth_data lookalike manager = true.
Proof.
  apply (lookalike_origin_accepted ".attacker.example" "localhost.attacker.example"); [reflexivity|discriminate|reflexivity|].
  vm_compute. reflexivity.
Defined.

End webauthn_example.
