(* ===== verification/Authority.v ===== *)
(** * The response authority: keys, sessions and grants

    [hub/pkg/responseauth/authority.go], [totp.go] and the action proofs of
    [dto.go]: the whole [Authority] value with what it keeps on disk, and each
    of its operations as an action on it that returns a value or an error.
    Clock readings and random bytes are arguments; HMAC, AES-GCM and signing
    are parameters. Statements of the database succeed. *)

From Stdlib Require Import Ascii String.
From stdpp Require Import gmap.
From S2P Require Import Prelude Action NetIP Canonical Platform Encoding AuthBooks AuthStore WebAuthn.

Module authority.
Import canonical platform encoding books authstore webauthn.

Local Open Scope string_scope.
Local Open Scope Z_scope.

(** ** Strings *)

Definition upper_byte (c : ascii) : ascii :=
  if in_range 97 122 (byte_val c) then ascii_of_N (N_of_ascii c - 32) else c.

Definition ToUpper `{AuthCrypto} (s : string) : string :=
  if is_ascii s then string_map upper_byte s else uni_upper s.

(** [strings.ContainsAny(s, set)], for a set of ASCII bytes. *)
Definition ContainsAny (s set : string) : bool :=
  negb (string_forallb (fun c => string_forallb (fun d => negb (Ascii.eqb c d)) set) s).

(** ** TOTP *)

Definition SecurityLabelTOTP : string := "Phishing-Vulnerable (RFC 6238 Shared Secret)".
Definition SecurityLabelWebAuthn : string := "Phishing-Resistant (FIDO2 / WebAuthn Hardware Bound)".
Definition MaxFailedAttempts : Z := 5.
Definition LockoutDuration : Z := 900 * Second.
Definition ErrAuthenticatorLocked : string := "authenticator temporarily locked due to excessive failed attempts".
Definition ErrTOTPReplayed : string := "TOTP code already used for this 30-second window; wait for next timestep".
Definition ErrTOTPInvalid : string := "invalid or expired TOTP code".

(** [fmt.Sprintf("%06d", v)] of a number below a million. *)
Definition six_digits (v : Z) : string :=
  string_of (map (fun k => ascii_of_N (Z.to_N (48 + (v / 10 ^ k) mod 10))) [5; 4; 3; 2; 1; 0]).

Section TOTP.
Context `{K : Crypto} `{KA : AuthCrypto}.

(** [b] is the 20 random bytes. *)
Definition GenerateTOTPSecret (b : string) : string := base32_encode b.

(** [t.Unix() / 30]: Go's division rounds towards zero. *)
Definition timestep (t : Z) : Z := Z.quot (Unix t) 30.

Definition totp_truncate (h : string) : Z :=
  let offset := Z.land (default 0 (byte_val <$> String.get (String.length h - 1) h)) 15 in
  let word := pack 8 (map byte_val (list_of (string_take 4 (string_drop (Z.to_nat offset) h)))) in
  Z.land word (2 ^ 31 - 1) mod 1000000.

Definition totp_key (secret : string) : option string :=
  let secret := ToUpper (TrimSpace secret) in
  match base32_raw_decode secret with
  | Some k => Some k
  | None => base32_std_decode secret
  end.

Definition GenerateTOTPCode (secret : string) (t : Z) : result string string :=
  match totp_key secret with
  | None => Err "invalid base32 secret"
  | Some key =>
    let counter := uint64 (timestep t) in
    Ok (six_digits (totp_truncate (hmac_sha1 key (string_of_bytes (bytes_be 8 counter)))))
  end.

(** The steps the code is compared at: now, one before, one after. *)
Definition VerifyTOTPCodeWithStep (secret code : string) (now : Z) : option Z :=
  let code := TrimSpace code in
  if negb (String.length code =? 6)%nat then None else
  head (omap (fun offset =>
    let t := now + offset in
    match GenerateTOTPCode secret t with
    | Ok expected => if String.eqb expected code then Some (timestep t) else None
    | Err _ => None
    end) [0; - (30 * Second); 30 * Second]).

Definition VerifyTOTPCode (secret code : string) (now : Z) : bool :=
  bool_decide (is_Some (VerifyTOTPCodeWithStep secret code now)).

Definition EncryptSecret (nonce secret key : string) : result string string :=
  if negb (String.length key =? 32)%nat then Err "encryption key must be 32 bytes"
  else Ok (hex_encode (nonce ++ aes_gcm_seal key nonce "" secret)).

Definition DecryptSecret (ciphertextHex key : string) : result string string :=
  if negb (String.length key =? 32)%nat then Err "decryption key must be 32 bytes" else
  match hex_decode ciphertextHex with
  | None => Err "invalid hex ciphertext"
  | Some data =>
    if (String.length data <? gcmNonceSize)%nat then Err "ciphertext too short" else
    match aes_gcm_open key (string_take gcmNonceSize data) "" (string_drop gcmNonceSize data) with
    | None => Err "decryption failed"
    | Some plaintext => Ok plaintext
    end
  end.

(** [data] is the key file, if it can be read; [written] says whether a new
    one could be written. The key file afterwards, and the key. *)
Definition GetOrGenerateMasterKey (keyPath : string) (data : option string) (fresh : string) (written : bool)
    : option string * string :=
  match data ≫= fun d => hex_decode (TrimSpace d) with
  | Some k => if (String.length k =? 32)%nat then (data, k)
              else if written then (Some (hex_encode fresh), fresh) else (data, sha256 keyPath)
  | None => if written then (Some (hex_encode fresh), fresh) else (data, sha256 keyPath)
  end.

End TOTP.

(** ** Action proofs *)

Definition ProofVersion : Z := 2.

Record ActionProof : Type := mkProof {
  ap_Version : Z;
  ap_SessionID : string;
  ap_TenantID : string;
  ap_ActionKind : string;
  ap_ActionDigest : string;
  ap_TargetEndpoints : list string;
  ap_Timestamp : Z;
  ap_Nonce : string;
  ap_Signature : string;
}.

#[export] Instance eta_ActionProof : Eta ActionProof :=
  fun x => mkProof (ap_Version x) (ap_SessionID x) (ap_TenantID x) (ap_ActionKind x) (ap_ActionDigest x)
    (ap_TargetEndpoints x) (ap_Timestamp x) (ap_Nonce x) (ap_Signature x).

Record SignGrantRequest : Type := mkSignGrant {
  rq_TenantID : string;
  rq_OperatorID : string;
  rq_SessionID : string;
  rq_EndpointID : string;
  rq_ActionKind : string;
  rq_ActionDigest : string;
  rq_ActionPayload : string;
  rq_TTLSeconds : Z;
  rq_Proof : option ActionProof;
}.

#[export] Instance eta_SignGrantRequest : Eta SignGrantRequest :=
  fun x => mkSignGrant (rq_TenantID x) (rq_OperatorID x) (rq_SessionID x) (rq_EndpointID x) (rq_ActionKind x)
    (rq_ActionDigest x) (rq_ActionPayload x) (rq_TTLSeconds x) (rq_Proof x).

Section Proofs.
Context `{U : Unicode} `{K : Crypto}.

Definition proof_CanonicalBytes (p : ActionProof) : string :=
  let v := if ap_Version p =? 0 then ProofVersion else ap_Version p in
  let enc := NewCanonicalEncoder "OMINULL-ACTION-PROOF-V2" in
  let enc := WriteUint32 v enc in
  let enc := WriteString (ap_SessionID p) enc in
  let enc := WriteString (ap_TenantID p) enc in
  let enc := WriteString (ap_ActionKind p) enc in
  let enc := WriteHexNormalized (ap_ActionDigest p) enc in
  let enc := WriteStringSlice (ap_TargetEndpoints p) enc in
  let enc := WriteInt64 (ap_Timestamp p) enc in
  WriteHexNormalized (ap_Nonce p) enc.

Definition proof_Verify (browserPubKey : string) (now : Z) (p : ActionProof) : result string unit :=
  _ ← guard_err (nonempty (ap_SessionID p) && nonempty (ap_TenantID p) && nonempty (ap_ActionDigest p))
        "missing required proof fields";
  let nowSec := Unix now in
  _ ← guard_err ((int64_wrap (ap_Timestamp p - 60) <=? nowSec) && (nowSec <=? int64_wrap (ap_Timestamp p + 300)))
        "proof timestamp out of valid time window";
  match hex_decode (ap_Signature p) with
  | None => Err "invalid signature encoding"
  | Some sig =>
    _ ← guard_err (String.length sig =? SignatureSize)%nat "invalid signature length";
    guard_err (ed25519_verify browserPubKey (proof_CanonicalBytes p) sig) "browser proof signature verification failed"
  end.

End Proofs.

(** ** State *)

Record Config : Type := mkConfig {
  StateDir : string;
  SignerPartition : string;
  DefaultSessionTTL : Z;
  DefaultIdleTTL : Z;
  TrustEpochFloor : Z;
}.

#[export] Instance eta_Config : Eta Config :=
  fun x => mkConfig (StateDir x) (SignerPartition x) (DefaultSessionTTL x) (DefaultIdleTTL x) (TrustEpochFloor x).

(** [a_manifestFile], [a_clockFile], [a_epochFile] and [a_keyFiles] are the
    files under the state directory; the books hold what is in memory. *)
Record Authority : Type := mkAuthority {
  a_cfg : Config;
  a_store : SQLiteStore;
  a_tenantKeys : gmap string string;
  a_masterKey : string;
  a_webauthn : WebAuthnManager;
  a_autoIso : autoIsolateBook;
  a_manifests : gmap string CapabilityManifest;
  a_manifestFile : file (list CapabilityManifest);
  a_enfClock : enforcementClock;
  a_clockFile : file (gmap string Z);
  a_trustEpochs : trustEpochs;
  a_epochFile : file (gmap string trustEpoch);
  a_keyFiles : gmap string string;
}.

#[export] Instance eta_Authority : Eta Authority :=
  fun x => mkAuthority (a_cfg x) (a_store x) (a_tenantKeys x) (a_masterKey x) (a_webauthn x) (a_autoIso x) (a_manifests x)
    (a_manifestFile x) (a_enfClock x) (a_clockFile x) (a_trustEpochs x) (a_epochFile x) (a_keyFiles x).

(** An operation: the authority afterwards, and its answer. *)
Notation act := (action Authority).

Definition on_store (f : SQLiteStore -> SQLiteStore) : act unit := modify (fun a => a <| a_store ::= f |>).

Definition audit (e : SignerAuditEntry) : act unit := on_store (RecordAudit e).

(** An audited refusal. *)
Definition deny {A} (e : SignerAuditEntry) (err : string) : act A := _ ← audit e; fail err.

Section Operations.
Context `{U : Unicode} `{K : Crypto} `{KA : AuthCrypto} `{L : WebAuthnLib} `{R : Rows}.

(** ** Tenant keys *)

Definition key_ok (keyBytes : string) : bool := (String.length keyBytes =? PrivateKeySize)%nat.

Definition stored_key (rec : TenantKeyRecord) : option string :=
  keyBytes ← hex_decode (ky_PrivateKey rec); if key_ok keyBytes then Some keyBytes else None.

Definition new_key_record (tenantID priv keyHex partition : string) (now : Z) : TenantKeyRecord :=
  mkTenantKey tenantID (fingerprint (public_of priv)) (hex_encode (public_of priv)) keyHex partition "active" now None.

(** The usable key of the table, with its id. *)
Definition active_key (tenantID : string) (s : SQLiteStore) : option (string * string) :=
  match GetTenantKey tenantID s with
  | Ok rec => if String.eqb (ky_Status rec) "active" then priv ← stored_key rec; Some (priv, ky_KeyID rec) else None
  | Err _ => None
  end.

(** [fresh] is the private key [ed25519.GenerateKey] would make, [wrote] how
    the write of the legacy key file would end. *)
Definition getOrCreateKey (fresh : string) (wrote : bool) (now : Z) (tenantID : string) : act (string * string) :=
  _ ← ensure (negb (String.eqb tenantID "" || String.eqb tenantID "." || String.eqb tenantID ".."
                    || ContainsAny tenantID (String "/" (String "092" (String "000" ""))))) "invalid tenant ID";
  cached ← gets (fun a => a_tenantKeys a !! tenantID);
  match cached with
  | Some priv => mret (public_of priv, fingerprint (public_of priv))
  | None =>
    found ← gets (fun a => active_key tenantID (a_store a));
    match found with
    | Some (priv, keyID) =>
      _ ← modify (fun a => a <| a_tenantKeys ::= insert tenantID priv |>);
      mret (public_of priv, keyID)
    | None =>
      let keyHex := hex_encode fresh in
      let keyID := fingerprint (public_of fresh) in
      cfg ← gets a_cfg;
      _ ← on_store (SaveTenantKey (new_key_record tenantID fresh keyHex (SignerPartition cfg) now));
      _ ← (if String.eqb (StateDir cfg) "" then mret tt
           else if wrote then modify (fun a => a <| a_keyFiles ::= insert (tenantID ++ ".key") keyHex |>)
           else fail "write legacy tenant key");
      _ ← modify (fun a => a <| a_tenantKeys ::= insert tenantID fresh |>);
      _ ← audit (mkAudit now tenantID "system" "key_created" "" "" keyID "success" ("Partition: " ++ SignerPartition cfg));
      mret (public_of fresh, keyID)
    end
  end.

Definition GetOrCreateTenantKey (fresh : string) (wrote : bool) (now : Z) (tenantID : string) : act (string * string) :=
  _ ← ensure (negb (ContainsAny tenantID "#")) "invalid tenant ID";
  getOrCreateKey fresh wrote now tenantID.

(** ** Start *)

Definition config_defaults (cfg : Config) : Config :=
  let cfg := if DefaultSessionTTL cfg <=? 0 then cfg <| DefaultSessionTTL := 8 * Hour |> else cfg in
  let cfg := if DefaultIdleTTL cfg <=? 0 then cfg <| DefaultIdleTTL := 1800 * Second |> else cfg in
  if String.eqb (SignerPartition cfg) "" then cfg <| SignerPartition := "portable-local" |> else cfg.

(** A file of the key directory; [None] if it cannot be read. *)
Record dirEntry : Type := mkEntry { de_Name : string; de_IsDir : bool; de_Data : option string }.

Definition importKey (now : Z) (e : dirEntry) (a : Authority) : Authority :=
  if de_IsDir e || negb (HasSuffix (de_Name e) ".key") then a else
  let tenantID := TrimSuffix (de_Name e) ".key" in
  match a_tenantKeys a !! tenantID, de_Data e with
  | Some _, _ | _, None => a
  | None, Some data =>
    let rawHex := TrimSpace data in
    match hex_decode rawHex with
    | Some priv =>
      if key_ok priv
      then a <| a_store ::= SaveTenantKey (new_key_record tenantID priv rawHex (SignerPartition (a_cfg a)) now) |>
             <| a_tenantKeys ::= insert tenantID priv |>
      else a
    | None => a
    end
  end.

Definition importLegacyFileKeys (now : Z) (entries : list dirEntry) (a : Authority) : Authority :=
  fold_left (fun a e => importKey now e a) entries a.

Definition load_key (m : gmap string string) (rec : TenantKeyRecord) : gmap string string :=
  match stored_key rec with Some priv => <[ky_TenantID rec := priv]> m | None => m end.

(** [TenantID + "\x00" + EndpointID]. *)
Definition manifest_key (m : CapabilityManifest) : string := book_key (cm_TenantID m) (cm_EndpointID m).

(** An unreadable or corrupt file leaves the book empty. *)
Definition newManifestBook (stateDir : string) (f : file (list CapabilityManifest)) : gmap string CapabilityManifest :=
  if String.eqb stateDir "" then ∅ else
  match f with
  | Saved list => fold_left (fun b m => <[manifest_key m := m]> b) list ∅
  | _ => ∅
  end.

Definition authority_origins : list string :=
  ["http://localhost:9999"; "https://localhost:9999"; "https://ominull.example.invalid:8443"; "https://localhost:8443"].

(** What a start finds in the state directory. *)
Record disk : Type := mkDisk {
  dk_masterKey : option string;
  dk_manifests : file (list CapabilityManifest);
  dk_clock : file (gmap string Z);
  dk_epochs : file (gmap string trustEpoch);
  dk_keys : list dirEntry;
}.

Definition start_master_key (cfg : Config) (d : disk) (fresh : string) (written : bool) : string :=
  let mk := if String.eqb (StateDir cfg) "" then ""
            else snd (GetOrGenerateMasterKey (StateDir cfg ++ "/secret.key") (dk_masterKey d) fresh written) in
  if (String.length mk =? 32)%nat then mk else sha256 ("ominull-response-authority:" ++ SignerPartition cfg).

Definition NewAuthorityWithStore (cfg : Config) (store : SQLiteStore) (d : disk) (fresh : string) (written : bool) (now : Z)
    : Authority :=
  let cfg := config_defaults cfg in
  let have_dir := negb (String.eqb (StateDir cfg) "") in
  let a := {|
    a_cfg := cfg;
    a_store := store;
    a_tenantKeys := fold_left load_key (ListTenantKeys store) ∅;
    a_masterKey := start_master_key cfg d fresh written;
    a_webauthn := NewWebAuthnManager (mkRPConfig "localhost" "Ominull Response Authority" authority_origins);
    a_autoIso := empty_book;
    a_manifests := newManifestBook (StateDir cfg) (dk_manifests d);
    a_manifestFile := dk_manifests d;
    a_enfClock := newEnforcementClock have_dir (dk_clock d);
    a_clockFile := dk_clock d;
    a_trustEpochs := newTrustEpochs have_dir (dk_epochs d) (TrustEpochFloor cfg);
    a_epochFile := dk_epochs d;
    a_keyFiles := list_to_map (omap (fun e => data ← de_Data e; Some (de_Name e, data)) (dk_keys d));
  |} in
  if have_dir then importLegacyFileKeys now (dk_keys d) a else a.

(** ** Memberships *)

Definition GrantMembership (now : Z) (tenantID operatorID role : string) : act unit :=
  _ ← ensure (nonempty tenantID && nonempty operatorID) "empty tenant ID or operator ID";
  _ ← on_store (SaveMembership (mkMembership tenantID operatorID role "active" now now));
  audit (mkAudit now tenantID operatorID "membership_granted" "" "" "" "success" ("Role: " ++ role)).

Definition RevokeMembership (now : Z) (tenantID operatorID : string) : act unit :=
  _ ← on_store (RevokeMembership_row tenantID operatorID now);
  audit (mkAudit now tenantID operatorID "membership_revoked" "" "" "" "success" "").

(** The check in front of an enrolment: a member of a tenant that has active
    members, else the operator becomes its first administrator. *)
Definition active_member (tenantID operatorID : string) (s : SQLiteStore) : bool :=
  match GetMembership tenantID operatorID s with Ok mem => String.eqb (mr_Status mem) "active" | Err _ => false end.

Definition bootstrap_member (refused : option SignerAuditEntry) (now : Z) (tenantID operatorID : string) : act unit :=
  members ← gets (fun a => ListMemberships tenantID (a_store a));
  match members with
  | [] => on_store (SaveMembership (mkMembership tenantID operatorID RoleResponseAdmin "active" now now))
  | _ =>
    ok ← gets (fun a => active_member tenantID operatorID (a_store a));
    if ok : bool then mret tt else
    _ ← match refused with Some e => audit e | None => mret tt end;
    fail "operator is not an active member of tenant response authority"
  end.

(** ** TOTP *)

(** [b] is the random secret, [nonce] the one of its encryption, [id] the new
    uuid. *)
Definition EnrollTOTP (b nonce id : string) (now : Z) (tenantID operatorID : string) : act string :=
  _ ← ensure (nonempty tenantID && nonempty operatorID) "empty tenant ID or operator ID";
  _ ← bootstrap_member (Some (mkAudit now tenantID operatorID "auth_failed" "" "" "" "denied"
        "operator not an active member of tenant response authority")) now tenantID operatorID;
  let secret := GenerateTOTPSecret b in
  masterKey ← gets a_masterKey;
  let storedSecret := if (String.length masterKey =? 32)%nat
    then match EncryptSecret nonce secret masterKey with Ok enc => enc | Err _ => secret end
    else secret in
  _ ← on_store (SaveAuthenticator (mkAuthenticator id operatorID tenantID AuthMethodTOTP SecurityLabelTOTP storedSecret
        "active" now None 0 None));
  _ ← audit (mkAudit now tenantID operatorID "authenticator_enrolled" "" "" "" "success"
        ("Method: TOTP, Label: " ++ SecurityLabelTOTP));
  mret secret.

Definition is_active_totp (rec : AuthenticatorRecord) : bool :=
  String.eqb (ar_Type rec) AuthMethodTOTP && String.eqb (ar_Status rec) "active".

Definition is_locked (now : Z) (rec : AuthenticatorRecord) : bool :=
  match ar_LockedUntil rec with Some t => now <? t | None => false end.

Definition raw_secret (masterKey : string) (rec : AuthenticatorRecord) : string :=
  if (String.length masterKey =? 32)%nat
  then match DecryptSecret (ar_SecretOrKey rec) masterKey with Ok dec => dec | Err _ => ar_SecretOrKey rec end
  else ar_SecretOrKey rec.

(** The loop over the enrolled authenticators: the first match, or a stop at
    the first locked one. *)
Inductive totp_search : Type :=
| TLocked
| TMatch (rec : AuthenticatorRecord) (step : Z)
| TNone.

Fixpoint search_totp (masterKey totpCode : string) (now : Z) (recs : list AuthenticatorRecord) : totp_search :=
  match recs with
  | [] => TNone
  | rec :: recs =>
    if negb (is_active_totp rec) then search_totp masterKey totpCode now recs
    else if is_locked now rec then TLocked
    else match VerifyTOTPCodeWithStep (raw_secret masterKey rec) totpCode now with
      | Some step => TMatch rec step
      | None => search_totp masterKey totpCode now recs
      end
  end.

(** A failure counts on the first active TOTP authenticator. *)
Definition count_failure (now : Z) (recs : list AuthenticatorRecord) (s : SQLiteStore) : SQLiteStore :=
  match filter (fun r => is_active_totp r = true) recs with
  | [] => s
  | rec :: _ =>
    let newCount := ar_FailureCount rec + 1 in
    UpdateAuthenticatorUsage (ar_ID rec) now newCount
      (if MaxFailedAttempts <=? newCount then Some (now + LockoutDuration) else None) s
  end.

Definition policy_ttl (sec default_ : Z) : Z := if 0 <? sec then int64_wrap (sec * Second) else default_.

Definition session_kinds : list string :=
  [ActionKindForensicCollect; ActionKindScriptExec; ActionKindTerminalSession; ActionKindScreenSession].

(** The session both ways of unlocking end with. *)
Definition open_session (id : string) (now : Z) (tenantID operatorID browserSessionID browserPubKeyHex method details : string)
    : act ResponseSession :=
  cfg ← gets a_cfg;
  policy ← gets (fun a => GetPolicy tenantID now (a_store a));
  let sessionTTL := policy_ttl (mp_MaxSessionTTLSec policy) (DefaultSessionTTL cfg) in
  let idleTTL := policy_ttl (mp_MaxIdleTTLSec policy) (DefaultIdleTTL cfg) in
  let session := mkSession id operatorID tenantID browserSessionID browserPubKeyHex session_kinds now
    (now + idleTTL) (now + sessionTTL) false method in
  _ ← on_store (SaveSession session);
  _ ← audit (mkAudit now tenantID operatorID "session_unlocked" "" "" id "success" details);
  mret session.

Definition browser_key_ok (browserPubKeyHex : string) : bool :=
  match hex_decode browserPubKeyHex with Some pub => (String.length pub =? PublicKeySize)%nat | None => false end.

Definition totp_nonce (tenantID operatorID : string) (step : Z) : string :=
  "totp:" ++ tenantID ++ ":" ++ operatorID ++ ":" ++ format_int step.

(** [CheckAndRecordNonce] of the store. *)
Definition take_nonce (nonce purpose tenantID : string) (expiresAt now : Z) : act bool :=
  fun a => let '(s, r) := CheckAndRecordNonce nonce purpose tenantID expiresAt now (a_store a) in
           (a <| a_store := s |>, Ok (is_ok r)).

Definition UnlockSessionWithTOTP (id : string) (now : Z) (tenantID operatorID browserSessionID browserPubKeyHex totpCode : string)
    : act ResponseSession :=
  _ ← ensure (nonempty tenantID && nonempty operatorID) "empty tenant ID or operator ID";
  recs ← gets (fun a => ListAuthenticators tenantID operatorID (a_store a));
  let failed details := mkAudit now tenantID operatorID "auth_failed" "" "" "" "denied" details in
  _ ← match recs with
      | [] => deny (failed "no active authenticators enrolled") "no authenticators enrolled for operator"
      | _ => mret tt
      end;
  _ ← ensure (browser_key_ok browserPubKeyHex) "invalid browser public key encoding or length";
  masterKey ← gets a_masterKey;
  match search_totp masterKey totpCode now recs with
  | TLocked => deny (failed "authenticator locked") ErrAuthenticatorLocked
  | TNone => _ ← on_store (count_failure now recs); deny (failed "invalid TOTP code") ErrTOTPInvalid
  | TMatch matchedAuth matchedStep =>
    fresh ← take_nonce (totp_nonce tenantID operatorID matchedStep) "totp_timestep" tenantID (now + 90 * Second) now;
    if negb fresh then deny (failed "replayed TOTP code within same timestep") ErrTOTPReplayed else
    _ ← on_store (UpdateAuthenticatorUsage (ar_ID matchedAuth) now 0 None);
    open_session id now tenantID operatorID browserSessionID browserPubKeyHex AuthMethodTOTP "Method: TOTP"
  end.

(** ** WebAuthn *)

Definition on_webauthn {A} (f : WebAuthnManager -> WebAuthnManager * A) : act A :=
  fun a => let '(m, x) := f (a_webauthn a) in (a <| a_webauthn := m |>, Ok x).

Definition BeginWebAuthnRegistration (b : string) (now : Z) (tenantID operatorID : string) : act RegistrationOptions :=
  _ ← ensure (nonempty tenantID && nonempty operatorID) "empty tenant ID or operator ID";
  _ ← bootstrap_member None now tenantID operatorID;
  on_webauthn (CreateRegistrationOptions b tenantID operatorID now).

Definition FinishWebAuthnRegistration (id : string) (now : Z) (req : WebAuthnRegistrationRequest) : act AuthenticatorRecord :=
  r ← on_webauthn (VerifyRegistration req now);
  cred ← of_result r;
  let rec := mkAuthenticator id (wr_OperatorID req) (wr_TenantID req) AuthMethodWebAuthn SecurityLabelWebAuthn
    (marshal_credential cred) "active" now None 0 None in
  _ ← on_store (SaveAuthenticator rec);
  _ ← audit (mkAudit now (wr_TenantID req) (wr_OperatorID req) "authenticator_enrolled" "" "" "" "success"
        ("Method: WebAuthn, Label: " ++ SecurityLabelWebAuthn ++ ", CredentialID: " ++ wr_CredentialID req));
  mret rec.

(** The WebAuthn credentials among the authenticators of an operator. *)
Definition webauthn_credentials (recs : list AuthenticatorRecord) : list (AuthenticatorRecord * StoredWebAuthnCredential) :=
  omap (fun rec =>
    if String.eqb (ar_Type rec) AuthMethodWebAuthn && String.eqb (ar_Status rec) "active"
    then cred ← unmarshal_credential (ar_SecretOrKey rec); Some (rec, cred) else None) recs.

Definition BeginWebAuthnAuthentication (b : string) (now : Z) (tenantID operatorID : string) : act AuthenticationOptions :=
  _ ← ensure (nonempty tenantID && nonempty operatorID) "empty tenant ID or operator ID";
  auths ← gets (fun a => ListAuthenticators tenantID operatorID (a_store a));
  _ ← ensure (0 <? length auths)%nat "no authenticators enrolled for operator";
  let credIDs := map (fun rc => sc_CredentialID rc.2) (webauthn_credentials auths) in
  _ ← ensure (0 <? length credIDs)%nat "no active WebAuthn credentials registered for operator";
  on_webauthn (CreateAuthenticationOptions b tenantID operatorID credIDs now).

Definition FinishWebAuthnAuthentication (id : string) (now : Z) (req : WebAuthnAuthenticationRequest) : act ResponseSession :=
  auths ← gets (fun a => ListAuthenticators (wa_TenantID req) (wa_OperatorID req) (a_store a));
  _ ← ensure (0 <? length auths)%nat "no authenticators enrolled for operator";
  match filter (fun rc => sc_CredentialID rc.2 = wa_CredentialID req) (webauthn_credentials auths) with
  | [] => fail "matching WebAuthn credential not found"
  | (matchedRec, matchedCred) :: _ =>
    _ ← ensure (browser_key_ok (wa_BrowserPublicKey req)) "invalid browser public key encoding or length";
    r ← on_webauthn (VerifyAssertion req now matchedCred);
    match r with
    | Err e =>
      deny (mkAudit now (wa_TenantID req) (wa_OperatorID req) "auth_failed" "" "" "" "denied"
              ("WebAuthn assertion failed: " ++ e)) e
    | Ok cred =>
      _ ← on_store (SaveAuthenticator (matchedRec <| ar_SecretOrKey := marshal_credential cred |>));
      open_session id now (wa_TenantID req) (wa_OperatorID req) (wa_BrowserSessionID req) (wa_BrowserPublicKey req)
        AuthMethodWebAuthn "Method: WebAuthn (Phishing-Resistant Hardware Bound)"
    end
  end.

(** ** Grants *)

Definition proof_nonce (tenantID nonce : string) : string := "proof:" ++ tenantID ++ ":" ++ nonce.

Definition digest_check (req : SignGrantRequest) (proof : ActionProof) : result string unit :=
  if (0 <? String.length (rq_ActionPayload req))%nat then
    let computed := hex_encode (sha256 (rq_ActionPayload req)) in
    _ ← guard_err (EqualFold computed (rq_ActionDigest req)) "action payload digest does not match requested action digest";
    guard_err (EqualFold computed (ap_ActionDigest proof)) "action payload digest does not match proof action digest"
  else
    _ ← guard_err (String.length (rq_ActionDigest req) =? 64)%nat "invalid action digest length";
    guard_err (bool_decide (is_Some (hex_decode (rq_ActionDigest req)))) "invalid hex encoding in action digest".

(** The key in memory, else the one of the store. *)
Definition signing_key (tenantID : string) : act string :=
  cached ← gets (fun a => a_tenantKeys a !! tenantID);
  match cached with
  | Some priv => mret priv
  | None =>
    found ← gets (fun a => GetTenantKey tenantID (a_store a));
    match found with
    | Err _ => fail "no response signing key found for tenant"
    | Ok rec =>
      match stored_key rec with
      | None => fail "corrupted tenant private key in store"
      | Some priv => _ ← modify (fun a => a <| a_tenantKeys ::= insert tenantID priv |>); mret priv
      end
    end
  end.

Definition sign_ttl (ttl : Z) : Z := if (ttl <=? 0) || (3600 <? ttl) then 300 else ttl.

Definition sign_with (priv : string) (g : EndpointGrant) : EndpointGrant :=
  mkGrant (Version g) (GrantID g) (TenantID g) (EndpointID g) (ActionKind g) (ActionDigest g) (OperatorID g)
    (ResponseSessionID g) (IssuedAt g) (ExpiresAt g) (Nonce g) (JobID g) (SignerKeyID g)
    (hex_encode (ed25519_sign priv (grant_CanonicalBytes g))).

Definition grant_denied (now : Z) (req : SignGrantRequest) (details : string) : SignerAuditEntry :=
  mkAudit now (rq_TenantID req) (rq_OperatorID req) "grant_denied" (rq_ActionKind req) (rq_EndpointID req) "" "denied" details.

(** Everything up to the record of the nonce, for a session already read. *)
Definition check_request (now : Z) (req : SignGrantRequest) (proof : ActionProof) (session : ResponseSession) : act unit :=
  _ ← (if String.eqb (rs_TenantID session) (rq_TenantID req) && String.eqb (rs_OperatorID session) (rq_OperatorID req)
       then mret tt else deny (grant_denied now req "session tenant or operator mismatch") "session tenant or operator mismatch");
  let kind := rq_ActionKind req in
  _ ← ensure (existsb (String.eqb kind) (rs_AllowedActionKinds session)) "action kind not permitted by response session";
  _ ← ensure (negb (String.eqb kind ActionKindTerminalSession))
        "terminal sessions are authorized one by one, not from a response session";
  _ ← ensure (negb (String.eqb kind ActionKindScreenSession))
        "screen sessions are authorized one by one, not from a response session";
  _ ← ensure (String.eqb kind ActionKindForensicCollect || String.eqb kind ActionKindScriptExec)
        "unrecognized or unsupported action kind";
  _ ← ensure (String.eqb (ap_TenantID proof) (rq_TenantID req))
        "cross-tenant grant signing denied; proof tenant does not match requested tenant";
  _ ← ensure (String.eqb (ap_ActionKind proof) kind) "action kind mismatch";
  _ ← ensure (0 <? length (ap_TargetEndpoints proof))%nat
        "unbounded target sets are denied; proof must specify explicit target endpoints";
  _ ← ensure (length (ap_TargetEndpoints proof) <=? 1000)%nat
        "target endpoints count exceeds maximum allowable limit of 1000";
  _ ← (if existsb (String.eqb (rq_EndpointID req)) (ap_TargetEndpoints proof) then mret tt
       else deny (grant_denied now req "requested endpoint not in proof target list")
              "requested endpoint is not in proof's authorized target endpoints list");
  _ ← of_result (digest_check req proof);
  match hex_decode (rs_BrowserPublicKey session) with
  | None => fail "invalid browser public key"
  | Some browserPub =>
    _ ← match proof_Verify browserPub now proof with
        | Ok _ => mret tt
        | Err e => deny (grant_denied now req ("proof verification failed: " ++ e)) ("action proof verification failed: " ++ e)
        end;
    _ ← ensure (EqualFold (ap_ActionDigest proof) (rq_ActionDigest req)) "proof action digest does not match requested action digest";
    fresh ← take_nonce (proof_nonce (rq_TenantID req) (ap_Nonce proof)) "action_proof" (rq_TenantID req) (now + 600 * Second) now;
    if fresh : bool then mret tt else deny (grant_denied now req "proof nonce replayed") "action proof nonce already used"
  end.

(** The rest: the session's idle deadline, the key, the grant. [id] is the
    new uuid, [nonce] 16 random bytes. *)
Definition issue_grant (id nonce : string) (now : Z) (req : SignGrantRequest) (session : ResponseSession) : act EndpointGrant :=
  cfg ← gets a_cfg;
  policy ← gets (fun a => GetPolicy (rq_TenantID req) now (a_store a));
  let idleTTL := policy_ttl (mp_MaxIdleTTLSec policy) (DefaultIdleTTL cfg) in
  _ ← on_store (UpdateSession (session <| rs_IdleExpiresAt := now + idleTTL |>));
  priv ← signing_key (rq_TenantID req);
  let ttl := sign_ttl (rq_TTLSeconds req) in
  let grant := sign_with priv (mkGrant GrantVersion id (rq_TenantID req) (rq_EndpointID req) (rq_ActionKind req)
    (rq_ActionDigest req) (rq_OperatorID req) (rs_SessionID session) (Unix now) (Unix now + ttl) (hex_encode nonce) ""
    (fingerprint (public_of priv)) "") in
  _ ← audit (mkAudit now (rq_TenantID req) (rq_OperatorID req) "grant_signed" (rq_ActionKind req) (rq_EndpointID req) id
        "success" ("TTL: " ++ format_int ttl ++ "s, Nonce: " ++ hex_encode nonce));
  mret grant.

Definition sign_from (id nonce : string) (now : Z) (req : SignGrantRequest) (proof : ActionProof) (session : ResponseSession)
    : act EndpointGrant :=
  _ ← check_request now req proof session; issue_grant id nonce now req session.

(** The session as [GetSession] finds it, if it is valid. *)
Definition read_session (now : Z) (req : SignGrantRequest) : act ResponseSession :=
  found ← gets (fun a => store_GetSession (rq_SessionID req) (a_store a));
  match found with
  | Ok session =>
    if session_IsValid now session then mret session
    else deny (grant_denied now req "invalid or expired response session") "invalid or expired response session"
  | Err _ => deny (grant_denied now req "invalid or expired response session") "invalid or expired response session"
  end.

Definition SignGrant (id nonce : string) (now : Z) (req : SignGrantRequest) : act EndpointGrant :=
  match rq_Proof req with
  | None => fail "missing sign grant request or proof"
  | Some proof =>
    _ ← ensure (negb (ContainsAny (rq_TenantID req) "#")) "invalid tenant ID";
    session ← read_session now req;
    sign_from id nonce now req proof session
  end.

Definition LockSession (now : Z) (sessionID : string) : act unit :=
  r ← (fun a => let '(s, r) := store_LockSession sessionID (a_store a) in (a <| a_store := s |>, Ok r));
  _ ← of_result r;
  found ← gets (fun a => store_GetSession sessionID (a_store a));
  match found with
  | Ok sess => audit (mkAudit now (rs_TenantID sess) (rs_OperatorID sess) "session_locked" "" "" sessionID "success" "")
  | Err _ => mret tt
  end.

(** ** Recovery *)

(** [b] is the 24 random bytes. *)
Definition GenerateRecoveryToken (b : string) (now : Z) (tenantID operatorID : string) : act string :=
  let token := hex_encode b in
  _ ← on_store (SaveRecoveryToken (mkRecovery (hex_encode (sha256 token)) tenantID operatorID now (now + 900 * Second) false None));
  _ ← audit (mkAudit now tenantID operatorID "recovery_generated" "" "" "" "success" "");
  mret token.

Definition clear_lockouts (now : Z) (auths : list AuthenticatorRecord) (s : SQLiteStore) : SQLiteStore :=
  fold_left (fun s rec =>
    if (0 <? ar_FailureCount rec) || bool_decide (is_Some (ar_LockedUntil rec))
    then UpdateAuthenticatorUsage (ar_ID rec) now 0 None s else s) auths s.

Definition ResetLockoutWithRecovery (now : Z) (tenantID operatorID recoveryToken : string) : act unit :=
  _ ← ensure (nonempty tenantID && nonempty operatorID && nonempty recoveryToken) "missing parameters";
  let hashHex := hex_encode (sha256 recoveryToken) in
  r ← (fun a => let '(s, r) := ConsumeRecoveryToken hashHex now (a_store a) in (a <| a_store := s |>, Ok r));
  match r with
  | Err e =>
    deny (mkAudit now tenantID operatorID "recovery_failed" "" "" "" "denied" ("consume error: " ++ e))
      ("invalid or expired recovery token: " ++ e)
  | Ok _ =>
    _ ← on_store (fun s => clear_lockouts now (ListAuthenticators tenantID operatorID s) s);
    audit (mkAudit now tenantID operatorID "recovery_consumed" "" "" "" "success"
      "lockout reset via root emergency recovery token")
  end.

(** ** Queries *)

Definition authority_GetSession (sessionID : string) (a : Authority) : result string ResponseSession :=
  store_GetSession sessionID (a_store a).

Record ResponseAuthorityStatus : Type := mkStatus {
  st_SignerPartition : string;
  st_TenantKeyID : string;
  st_TenantPublicKey : string;
  st_AuthenticatorsCount : Z;
  st_ActiveSessions : Z;
}.

Definition Status (tenantID : string) (now : Z) (a : Authority) : ResponseAuthorityStatus :=
  let pub := public_of <$> a_tenantKeys a !! tenantID in
  mkStatus (SignerPartition (a_cfg a)) (default "" (fingerprint <$> pub)) (default "" (hex_encode <$> pub))
    (CountAuthenticators tenantID (a_store a)) (CountActiveSessions tenantID now (a_store a)).

Definition GetAuditLog (tenantID : string) (limit : Z) (a : Authority) : list SignerAuditEntry :=
  QueryAudit tenantID limit (a_store a).

End Operations.

End authority.
