(* ===== verification/AuthTrust.v ===== *)
(** * The response authority: trust keys, automatic isolation, manifests

    [hub/pkg/responseauth/trust.go] and the signing half of [authorize.go] on
    the authority of [Authority]: the narrow keys of a tenant, the detector's
    isolation grants, capability manifests and the grants of an authorized
    action. Reading a JSON payload is a parameter. *)

From Stdlib Require Import Ascii String.
From stdpp Require Import gmap.
From S2P Require Import Prelude Action NetIP Canonical Utf8 Platform Encoding AuthBooks AuthStore WebAuthn Authority.

Module authtrust.
Import canonical platform utf8 encoding books authstore webauthn authority.

Local Open Scope string_scope.
Local Open Scope Z_scope.

Definition ActionKindIsolationChange : string := "isolation_change".
Definition ActionKindAgentUpdate : string := "agent_update".
Definition ActionKindMeshQuarantine : string := "mesh_quarantine".
Definition ActionKindAutoIsolate : string := "auto_isolate".
Definition ActionKindCapability : string := "capability_change".
Definition ActionKindDetectionPolicy : string := "detection_policy".
Definition AutoIsolateRoute : string := "auto-isolate".

Definition keySlotAutoIsolate : string := "#auto-isolate".
Definition keySlotPolicy : string := "#policy".
Definition autoIsolateTTL : Z := 600 * Second.
Definition autoIsolateMaxReasonLen : nat := 200.
Definition enforcementGrantTTL : Z := 24 * Hour.
Definition updateGrantTTL : Z := 7 * 24 * Hour.
Definition ErrAutoIsolateRateLimit : string :=
  "automatic isolation rate limit reached; isolate further hosts through the isolate route".
Definition ErrManifestNeedsRoute : string :=
  "this capability change goes through the capabilities route (POST /api/v1/endpoints/capabilities)".

(** What an operation finds outside: the time, fresh keys by slot, random ids
    and nonces by number, and how its writes end. *)
Record env : Type := mkEnv {
  e_now : Z;
  e_key : string -> string;
  e_wrote : bool;
  e_id : nat -> string;
  e_nonce : nat -> string;
  e_clock : write;
  e_epoch : write;
  e_saved : bool;
}.

(** ** Checks of a request *)

Definition enforcementKind (k : string) : bool :=
  String.eqb k ActionKindIsolationChange || String.eqb k ActionKindMeshQuarantine || String.eqb k ActionKindAutoIsolate.

Definition validTenant (t : string) : bool :=
  nonempty t && negb (ContainsAny t (String "#" (String "/" (String "092" (String "000" ""))))).

(** The category Cf of the Unicode tables, and the JSON the authority reads
    and writes. *)
Record capabilityPayload : Type := mkCapability { cp_EndpointID : string; cp_Profile : string; cp_Reason : string }.

Record IsolationRule : Type := mkRule { ir_Destination : string; ir_Port : Z; ir_Protocol : string; ir_Service : string }.

Record IsolationBaseline : Type := mkBaseline { ib_Endpoints : list string; ib_Rules : list IsolationRule }.

Class AuthJson := {
  is_Cf : rune -> bool;
  decode_routed : string -> option (string * string);
  decode_capability : string -> option capabilityPayload;
  marshal_isolation : string -> string -> string -> list IsolationBaseline -> string;
}.

Section Trust.
Context `{U : Unicode} `{K : Crypto} `{KA : AuthCrypto} `{R : Rows} `{J : AuthJson}.

Definition blank (r : rune) : rune := if IsControl r || IsSpace r || is_Cf r then space else r.

Definition cleanText (s : string) (max : nat) : string :=
  let l := join_words (Fields (map blank (range_runes s))) in
  string_of_runes (take max l).

Definition MaxIsolationRules : nat := 64.

Definition service_byte (c : ascii) : bool :=
  in_range 97 122 (byte_val c) || is_digit c || Ascii.eqb c "-" || Ascii.eqb c "_".

Definition destination_byte (c : ascii) : bool :=
  is_digit c || in_range 97 102 (byte_val c) || in_range 65 70 (byte_val c) || Ascii.eqb c "." || Ascii.eqb c ":".

(** [net.ParseIP] of a string without a zone. *)
Definition rule_Valid (r : IsolationRule) : bool :=
  nonempty (ir_Service r) && (String.length (ir_Service r) <=? 15)%nat && (String.length (ir_Destination r) <? 64)%nat
  && string_forallb service_byte (ir_Service r) && string_forallb destination_byte (ir_Destination r)
  && bool_decide (is_Some (ParseAddr (ir_Destination r)))
  && negb (ContainsAny (ir_Destination r) ":" && ContainsAny (ir_Destination r) ".")
  && (String.eqb (ir_Protocol r) "tcp" || String.eqb (ir_Protocol r) "udp") && (1 <=? ir_Port r) && (ir_Port r <=? 65535).

(** The endpoints of one entry, each a target and not seen before; the
    endpoints seen so far. *)
Fixpoint baseline_endpoints (targets : list string) (seen : list string) (eps : list string) : option (list string) :=
  match eps with
  | [] => Some seen
  | ep :: eps =>
    if existsb (String.eqb ep) targets && negb (existsb (String.eqb ep) seen)
    then baseline_endpoints targets (ep :: seen) eps else None
  end.

(** The summary [checkBaselines] returns for the audit is left out. *)
Fixpoint checkBaselines (targets seen : list string) (l : list IsolationBaseline) : result string unit :=
  match l with
  | [] => Ok tt
  | b :: l =>
    _ ← guard_err ((0 <? length (ib_Endpoints b))%nat && (0 <? length (ib_Rules b))%nat
                   && (length (ib_Rules b) <=? MaxIsolationRules)%nat)
          "isolation exceptions must name endpoints and 1..64 rules";
    match baseline_endpoints targets seen (ib_Endpoints b) with
    | None => Err "isolation exceptions name an endpoint which is not a target or is named twice"
    | Some seen =>
      _ ← guard_err (forallb rule_Valid (ib_Rules b)) "isolation exceptions carry a rule agents refuse";
      checkBaselines targets seen l
    end
  end.

Definition endpoint_ok (ep : string) : bool :=
  nonempty ep && (String.length ep <=? 128)%nat && String.eqb (cleanText ep 128) ep && negb (HasPrefix ep "mesh:").

Definition auditAction (now : Z) (tenant operator event kind endpoint id status details : string) : act unit :=
  audit (mkAudit now tenant operator event kind endpoint id status details).

(** ** Keys *)

Definition slotKey (v : env) (tenantID slot : string) : act (string * string) :=
  _ ← ensure (validTenant tenantID) "invalid tenant ID";
  let id := tenantID ++ slot in
  _ ← getOrCreateKey (e_key v id) (e_wrote v) (e_now v) id;
  found ← gets (fun a => a_tenantKeys a !! id);
  match found with
  | None => fail ("no " ++ slot ++ " key for tenant")
  | Some priv => mret (priv, fingerprint (public_of priv))
  end.

Definition tenantSigningKey (v : env) (tenantID : string) : act (string * string) :=
  _ ← GetOrCreateTenantKey (e_key v tenantID) (e_wrote v) (e_now v) tenantID;
  found ← gets (fun a => a_tenantKeys a !! tenantID);
  match found with
  | None => fail "no response signing key for tenant"
  | Some priv => mret (priv, fingerprint (public_of priv))
  end.

Definition hasTenantKey (tenantID : string) (a : Authority) : bool :=
  bool_decide (is_Some (a_tenantKeys a !! tenantID))
  || match GetTenantKey tenantID (a_store a) with Ok rec => String.eqb (ky_Status rec) "active" | Err _ => false end.

Definition epoch_fingerprint (k : TrustKeys) : string :=
  hex_encode (sha256 (ToLower (ResponseKey k ++ "|" ++ AutoIsolateKey k ++ "|" ++ PolicyKey k))).

Definition next_trust_epoch (v : env) (tenantID fp : string) : act Z :=
  fun a => let '(e, f, r) := epochFor tenantID fp (e_epoch v) (a_trustEpochs a) (a_epochFile a) in
           (a <| a_trustEpochs := e |> <| a_epochFile := f |>, r).

Definition TrustKeys_of (v : env) (tenantID : string) : act TrustKeys :=
  _ ← ensure (validTenant tenantID) "invalid tenant ID";
  resp ← GetOrCreateTenantKey (e_key v tenantID) (e_wrote v) (e_now v) tenantID;
  auto ← slotKey v tenantID keySlotAutoIsolate;
  pol ← slotKey v tenantID keySlotPolicy;
  let k epoch := mkTrustKeys (hex_encode resp.1) (hex_encode (public_of auto.1)) (hex_encode (public_of pol.1)) tenantID epoch "" in
  epoch ← next_trust_epoch v tenantID (epoch_fingerprint (k 0));
  mret (k epoch).

(** ** The detector's isolation *)

Record AutoIsolateRequest : Type := mkAutoIsolate {
  ai_TenantID : string;
  ai_EndpointID : string;
  ai_Reason : string;
  ai_Baselines : list IsolationBaseline;
}.

Definition next_issue_time (v : env) (tenantID : string) : act Z :=
  fun a => let '(c, f, r) := next tenantID (e_now v) (e_clock v) (a_enfClock a) (a_clockFile a) in
           (a <| a_enfClock := c |> <| a_clockFile := f |>, r).

Definition on_budget (tenantID ep : string) (now : Z) : act (result string unit) :=
  fun a => let '(b, r) := spend tenantID ep now (a_autoIso a) in (a <| a_autoIso := b |>, Ok r).

(** The checks before the budget, which change nothing. *)
Definition auto_isolation_refused (req : AutoIsolateRequest) (a : Authority) : option string :=
  let ep := TrimSpace (ai_EndpointID req) in
  if negb (validTenant (ai_TenantID req)) then Some "invalid tenant ID"
  else if negb (endpoint_ok ep) then Some "invalid endpoint ID"
  else if (1 <? length (ai_Baselines req))%nat then Some "an automatic isolation carries one host's exceptions"
  else if negb (hasTenantKey (ai_TenantID req) a) then Some "tenant has no response key"
  else match checkBaselines [ep] [] (ai_Baselines req) with Err e => Some e | Ok _ => None end.

Definition SignAutoIsolation (v : env) (req : AutoIsolateRequest) : act (EndpointGrant * string) :=
  refused ← gets (auto_isolation_refused req);
  match refused with
  | Some e => fail e
  | None =>
    let tenantID := ai_TenantID req in
    let ep := TrimSpace (ai_EndpointID req) in
    spent ← on_budget tenantID ep (e_now v);
    match spent with
    | Err details =>
      _ ← auditAction (e_now v) tenantID "detector" "auto_isolate_refused" ActionKindAutoIsolate ep "" "denied" details;
      fail ErrAutoIsolateRateLimit
    | Ok _ =>
      key ← slotKey v tenantID keySlotAutoIsolate;
      let reason := cleanText (ai_Reason req) autoIsolateMaxReasonLen in
      let payload := marshal_isolation AutoIsolateRoute ep reason (ai_Baselines req) in
      issued ← next_issue_time v tenantID;
      let g := sign_with key.1 (mkGrant GrantVersion (e_id v 0) tenantID ep ActionKindAutoIsolate
        (hex_encode (sha256 payload)) "detector" "auto-isolate" issued (issued + autoIsolateTTL / Second)
        (hex_encode (e_nonce v 0)) "" key.2 "") in
      _ ← auditAction (e_now v) tenantID "detector" "auto_isolate_signed" ActionKindAutoIsolate ep (GrantID g) "success" reason;
      mret (g, payload)
    end
  end.

(** ** Manifests *)

Definition manifest_Sign (priv : string) (m : CapabilityManifest) : CapabilityManifest :=
  let m := mkManifest (cm_V m) (cm_TenantID m) (cm_EndpointID m) (cm_Profile m) (cm_Caps m) (cm_Seq m) (cm_IssuedAt m)
    (fingerprint (public_of priv)) (cm_Signature m) in
  mkManifest (cm_V m) (cm_TenantID m) (cm_EndpointID m) (cm_Profile m) (cm_Caps m) (cm_Seq m) (cm_IssuedAt m)
    (cm_SignerKeyID m) (hex_encode (ed25519_sign priv (manifest_CanonicalBytes m))).

(** The list [saveLocked] writes. *)
Definition manifest_list (items : gmap string CapabilityManifest) : list CapabilityManifest :=
  sort_slice (fun m n => string_lt (cm_TenantID m ++ cm_EndpointID m) (cm_TenantID n ++ cm_EndpointID n))
    (map snd (map_to_list items)).

(** The item is put back when it cannot be saved. *)
Definition save_manifest (v : env) (key : string) (m : CapabilityManifest) : act unit :=
  fun a =>
    let items := <[key := m]> (a_manifests a) in
    if String.eqb (StateDir (a_cfg a)) "" then (a <| a_manifests := items |>, Ok tt)
    else if e_saved v then (a <| a_manifests := items |> <| a_manifestFile := Saved (manifest_list items) |>, Ok tt)
    else (a, Err "persist manifest").

Definition signManifestLocked (v : env) (tenantID ep profile : string) (seq : Z) : act CapabilityManifest :=
  match ProfileCaps profile with
  | None => fail "unknown profile"
  | Some caps =>
    key ← slotKey v tenantID keySlotPolicy;
    let m := manifest_Sign key.1 (mkManifest 1 tenantID ep profile caps seq (Unix (e_now v)) "" "") in
    _ ← save_manifest v (book_key tenantID ep) m;
    mret m
  end.

Definition next_seq (m : CapabilityManifest) : Z := int64_wrap (cm_Seq m + 1).

(** A manifest signed by a retired policy key. *)
Definition resign_retired (v : env) (tenantID ep : string) (m : CapabilityManifest) : act CapabilityManifest :=
  key ← attempt (slotKey v tenantID keySlotPolicy);
  if match key with Ok k => negb (String.eqb (cm_SignerKeyID m) k.2) | Err _ => false end then
    n ← signManifestLocked v tenantID ep (cm_Profile m) (next_seq m);
    _ ← auditAction (e_now v) tenantID "authority" "manifest_resigned" ActionKindCapability ep "" "success"
          ("profile " ++ cm_Profile n ++ " under the current policy key, seq " ++ format_int (cm_Seq n));
    mret n
  else mret m.

(** A manifest whose profile holds something else by now. *)
Definition refresh_profile (v : env) (tenantID ep : string) (m : CapabilityManifest) : act CapabilityManifest :=
  if bool_decide (is_Some (ProfileCaps (cm_Profile m))) && negb (MatchesProfile m) then
    n ← signManifestLocked v tenantID ep (cm_Profile m) (next_seq m);
    _ ← auditAction (e_now v) tenantID "authority" "manifest_refreshed" ActionKindCapability ep "" "success"
          ("profile " ++ cm_Profile n ++ " now holds " ++ join ", " (cm_Caps n) ++ " (was " ++ join ", " (cm_Caps m)
           ++ "), seq " ++ format_int (cm_Seq n));
    mret n
  else mret m.

Definition ProfileInitialAllowed (profile : string) : bool := String.eqb profile "monitor" || String.eqb profile "respond".

Record ManifestRequest : Type := mkManifestRequest { mq_TenantID : string; mq_EndpointID : string; mq_Profile : string }.

Definition EndpointManifest (v : env) (req : ManifestRequest) : act CapabilityManifest :=
  let tenantID := mq_TenantID req in
  let ep := TrimSpace (mq_EndpointID req) in
  _ ← ensure (validTenant tenantID) "invalid tenant ID";
  _ ← ensure (endpoint_ok ep) "invalid endpoint ID";
  current ← gets (fun a => a_manifests a !! book_key tenantID ep);
  match current with
  | Some m =>
    m ← resign_retired v tenantID ep m;
    m ← refresh_profile v tenantID ep m;
    if nonempty (mq_Profile req) && ProfileNarrows (cm_Profile m) (mq_Profile req) then
      n ← signManifestLocked v tenantID ep (mq_Profile req) (next_seq m);
      _ ← auditAction (e_now v) tenantID "hub" "manifest_narrowed" ActionKindCapability ep "" "success"
            ("profile " ++ cm_Profile m ++ " -> " ++ mq_Profile req ++ ", seq " ++ format_int (cm_Seq n));
      mret n
    else mret m
  | None =>
    let profile := if nonempty (mq_Profile req) then mq_Profile req else "respond" in
    _ ← ensure (ProfileInitialAllowed profile) ErrManifestNeedsRoute;
    m ← signManifestLocked v tenantID ep profile 1;
    _ ← auditAction (e_now v) tenantID "hub" "manifest_initial" ActionKindCapability ep "" "success" ("profile " ++ profile);
    mret m
  end.

(** ** Authorized actions *)

Definition allowIsolationRoute : string := "/api/v1/endpoints/allow-isolation".

Definition changesManifest (kind payload : string) : bool :=
  if String.eqb kind ActionKindCapability then true
  else if negb (String.eqb kind ActionKindIsolationChange) then false
  else match decode_routed payload with Some (route, _) => String.eqb route allowIsolationRoute | None => false end.

Record authorized : Type := mkAuthorized {
  au_ID : string;
  au_TenantID : string;
  au_Requester : string;
  au_Kind : string;
  au_Digest : string;
  au_Payload : string;
  au_Targets : list string;
  au_TTLSeconds : Z;
}.

Definition read_capability (au : authorized) : result string (string * capabilityPayload) :=
  match decode_routed (au_Payload au) with
  | None => Err "payload unreadable"
  | Some (route, body) =>
    match decode_capability body with
    | None => Err "payload body unreadable"
    | Some b =>
      if bool_decide (au_Targets au = [cp_EndpointID b]) then Ok (route, b) else Err "capability change names another endpoint"
    end
  end.

Definition applyCapabilityChange (v : env) (au : authorized) : act unit :=
  rb ← of_result (read_capability au);
  let '(route, body) := rb in
  let tenantID := au_TenantID au in
  let ep := cp_EndpointID body in
  cur ← gets (fun a => a_manifests a !! book_key tenantID ep);
  let seq := match cur with Some m => next_seq m | None => 1 end in
  let lifting := String.eqb route allowIsolationRoute in
  if lifting && match cur with Some m => ProfileHas (cm_Profile m) CapIsolate | None => false end then mret tt else
  let profile := if lifting then "respond" else cp_Profile body in
  m ← signManifestLocked v tenantID ep profile seq;
  auditAction (e_now v) tenantID (au_Requester au) "manifest_changed" ActionKindCapability ep (au_ID au) "success"
    ("profile " ++ cm_Profile m ++ ", seq " ++ format_int (cm_Seq m)).

Definition grantTTL (kind : string) (requested : Z) : Z :=
  if String.eqb kind ActionKindIsolationChange || String.eqb kind ActionKindMeshQuarantine then enforcementGrantTTL / Second
  else if String.eqb kind ActionKindAgentUpdate then updateGrantTTL / Second
  else if (requested <=? 0) || (3600 <? requested) then 300
  else requested.

(** One grant for each target, numbered from [i]. *)
Fixpoint sign_targets (v : env) (au : authorized) (priv keyID : string) (issued ttl : Z) (i : nat) (targets : list string)
    : act (list EndpointGrant) :=
  match targets with
  | [] => mret []
  | ep :: targets =>
    let g := sign_with priv (mkGrant GrantVersion (e_id v i) (au_TenantID au) ep (au_Kind au) (au_Digest au) (au_Requester au)
      ("approval:" ++ au_ID au) issued (issued + ttl) (hex_encode (e_nonce v i)) "" keyID "") in
    _ ← auditAction (e_now v) (au_TenantID au) (au_Requester au) "grant_signed" (au_Kind au) ep (au_ID au) "success"
          ("authorization " ++ au_ID au ++ " grant " ++ GrantID g);
    gs ← sign_targets v au priv keyID issued ttl (S i) targets;
    mret (g :: gs)
  end.

(** [signAuthorized], but for package runs, which have grants of their own. *)
Definition signAuthorized (v : env) (au : authorized) : act (list EndpointGrant) :=
  if String.eqb (au_Kind au) ActionKindDetectionPolicy then
    _ ← auditAction (e_now v) (au_TenantID au) (au_Requester au) "detection_policy_authorized" (au_Kind au)
          (join "," (au_Targets au)) (au_ID au) "success" ("digest " ++ au_Digest au);
    mret []
  else
    key ← tenantSigningKey v (au_TenantID au);
    let ttl := grantTTL (au_Kind au) (au_TTLSeconds au) in
    issued ← (if enforcementKind (au_Kind au) then next_issue_time v (au_TenantID au) else mret (Unix (e_now v)));
    _ ← (if changesManifest (au_Kind au) (au_Payload au) then
           r ← attempt (applyCapabilityChange v au);
           match r with
           | Ok _ => mret tt
           | Err e =>
             _ ← auditAction (e_now v) (au_TenantID au) (au_Requester au) "manifest_refused" (au_Kind au)
                   (join "," (au_Targets au)) (au_ID au) "denied" e;
             fail e
           end
         else mret tt);
    sign_targets v au key.1 key.2 issued ttl 0 (au_Targets au).

(** [sortedUnique]: trimmed, without blanks and repeats, sorted. *)
Fixpoint unique_trimmed (seen : list string) (l : list string) : list string :=
  match l with
  | [] => []
  | t :: l =>
    let t := TrimSpace t in
    if String.eqb t "" || existsb (String.eqb t) seen then unique_trimmed seen l
    else t :: unique_trimmed (t :: seen) l
  end.

Definition sortedUnique (l : list string) : list string := sort_slice string_lt (unique_trimmed [] l).

Definition authorizeKindAllowed (k : string) : bool :=
  existsb (String.eqb k)
    [ActionKindIsolationChange; ActionKindAgentUpdate; ActionKindMeshQuarantine; ActionKindCapability;
     ActionKindDetectionPolicy; ActionKindTerminalSession; ActionKindScreenSession; ActionKindScriptExec].

End Trust.

End authtrust.
