(* ===== verification/AuthorityProps.v ===== *)
(** * Grants, sessions and enrolment of the response authority

    What the operations keep, what a signed grant establishes, that nonces are
    used once, and where the authority's checks leave gaps. *)

From Stdlib Require Import Ascii String.
From stdpp Require Import gmap.
From S2P Require Import Prelude Action NetIP Canonical CanonicalProps Platform Encoding AuthBooks AuthStore WebAuthn Authority AuthTrust.

Import canonical platform encoding books authstore webauthn authority authtrust.

Local Open Scope string_scope.
Local Open Scope Z_scope.

(** ** What the operations keep *)

(** A relation that holds whenever no used nonce is forgotten and the
    authenticators are the same: what lies outside those two tables does not
    matter to it. *)
Class Ambient (Q : relation Authority) : Prop := {
  ambient_preorder :: PreOrder Q;
  ambient_holds a a' : used_nonces (a_store a) ⊆ used_nonces (a_store a') ->
    authenticators (a_store a') = authenticators (a_store a) -> Q a a';
}.

Section Ambient.
Context `{U : Unicode} `{K : Crypto} `{KA : AuthCrypto} `{L : WebAuthnLib} `{R : Rows} `{J : AuthJson}.
Context (Q : relation Authority) `{!Ambient Q}.

#[local] Instance ambient_order : PreOrder Q := ambient_preorder.

Lemma kept_on_store f :
  (forall s, used_nonces (f s) = used_nonces s) -> (forall s, authenticators (f s) = authenticators s) -> respects Q (on_store f).
Proof. intros F G a. apply ambient_holds; cbn; [by rewrite F|apply G]. Qed.

Lemma kept_audit e : respects Q (audit e).
Proof. by apply kept_on_store. Qed.

Lemma kept_deny {A} e err : respects Q (@deny A e err).
Proof. unfold deny. apply respects_bind; [typeclasses eauto|apply kept_audit|]. intros; apply respects_fail; typeclasses eauto. Qed.

Lemma kept_take n p t e now : respects Q (take_nonce n p t e now).
Proof.
  intros a. unfold take_nonce, CheckAndRecordNonce.
  destruct (used_nonces (a_store a) !! n) eqn:E; cbn; [by apply ambient_holds|]. apply ambient_holds; [by apply insert_subseteq|done].
Qed.

Lemma kept_modify f : (forall a, a_store (f a) = a_store a) -> respects Q (modify f).
Proof. intros F a. apply ambient_holds; cbn; by rewrite F. Qed.

Hint Resolve kept_on_store kept_audit kept_deny kept_take kept_modify : respects.

Lemma kept_getOrCreateKey f w now t : respects Q (getOrCreateKey f w now t).
Proof. unfold getOrCreateKey. respects. Qed.

Lemma kept_on_webauthn {A} (f : WebAuthnManager -> WebAuthnManager * A) : respects Q (on_webauthn f).
Proof. intros a. apply ambient_holds; unfold on_webauthn; by destruct (f (a_webauthn a)). Qed.

Lemma kept_next_issue v t : respects Q (next_issue_time v t).
Proof. intros a. apply ambient_holds; unfold next_issue_time; by destruct (next _ _ _ _ _) as [[c f] r]. Qed.

Lemma kept_next_epoch v t fp : respects Q (next_trust_epoch v t fp).
Proof. intros a. apply ambient_holds; unfold next_trust_epoch; by destruct (epochFor _ _ _ _ _) as [[c f] r]. Qed.

Lemma kept_on_budget t ep now : respects Q (on_budget t ep now).
Proof. intros a. apply ambient_holds; unfold on_budget; by destruct (spend _ _ _ _). Qed.

Lemma kept_save_manifest v k m : respects Q (save_manifest v k m).
Proof. intros a. apply ambient_holds; unfold save_manifest; (destruct (String.eqb _ _); [done|]; by destruct (e_saved v)). Qed.

Lemma kept_lock now id : respects Q (LockSession now id).
Proof.
  unfold LockSession. apply respects_bind; [typeclasses eauto| |respects].
  intros a. apply ambient_holds; unfold store_LockSession; by destruct (response_sessions (a_store a) !! id).
Qed.

Lemma kept_consume h now :
  respects Q (fun a => let '(s, r) := ConsumeRecoveryToken h now (a_store a) in (a <| a_store := s |>, Ok r)).
Proof.
  intros a. unfold ConsumeRecoveryToken.
  destruct (GetRecoveryToken _ _) as [tok'|]; [|by apply ambient_holds].
  destruct (rt_Used tok'); [by apply ambient_holds|]. destruct (_ <? _); by apply ambient_holds.
Qed.

Hint Resolve kept_getOrCreateKey kept_on_webauthn kept_next_issue kept_next_epoch kept_on_budget kept_save_manifest kept_lock
  : respects.

Lemma kept_bootstrap e now t o : respects Q (bootstrap_member e now t o).
Proof. unfold bootstrap_member. respects. Qed.

Lemma kept_open_session id now t o b k m d : respects Q (open_session id now t o b k m d).
Proof. unfold open_session. respects. Qed.

Lemma kept_slotKey v t s : respects Q (slotKey v t s).
Proof. unfold slotKey. respects. Qed.

Lemma kept_tenantKey f w now t : respects Q (GetOrCreateTenantKey f w now t).
Proof. unfold GetOrCreateTenantKey. respects. Qed.

Lemma kept_signing_key t : respects Q (signing_key t).
Proof. unfold signing_key. respects. Qed.

Hint Resolve kept_bootstrap kept_open_session kept_slotKey kept_tenantKey kept_signing_key : respects.

Lemma kept_signManifest v t ep p seq : respects Q (signManifestLocked v t ep p seq).
Proof. unfold signManifestLocked. respects. Qed.

Lemma kept_auditAction now t o e k ep id st d : respects Q (auditAction now t o e k ep id st d).
Proof. unfold auditAction. apply kept_audit. Qed.

Hint Resolve kept_signManifest kept_auditAction : respects.

Lemma kept_sign_targets v au p k i ttl n l : respects Q (sign_targets v au p k i ttl n l).
Proof. revert n. induction l as [|t l IH]; intros n; cbn [sign_targets]; respects. Qed.

Lemma kept_apply v au : respects Q (applyCapabilityChange v au).
Proof. unfold applyCapabilityChange. respects. Qed.

Hint Resolve kept_sign_targets kept_apply : respects.

Lemma kept_signAuthorized v au : respects Q (signAuthorized v au).
Proof. unfold signAuthorized, tenantSigningKey. respects. Qed.

Lemma kept_manifest v req : respects Q (EndpointManifest v req).
Proof. unfold EndpointManifest, resign_retired, refresh_profile. respects. Qed.

Lemma kept_autoiso v req : respects Q (SignAutoIsolation v req).
Proof. unfold SignAutoIsolation. respects. Qed.

Lemma kept_trustkeys v t : respects Q (TrustKeys_of v t).
Proof. unfold TrustKeys_of. respects. Qed.

Lemma kept_check now req p s : respects Q (check_request now req p s).
Proof. unfold check_request. respects. Qed.

Lemma kept_issue id n now req s : respects Q (issue_grant id n now req s).
Proof. unfold issue_grant. respects. Qed.

Lemma kept_read now req : respects Q (read_session now req).
Proof. unfold read_session. respects. Qed.

Hint Resolve kept_check kept_issue kept_read : respects.

Lemma kept_sign id n now req : respects Q (SignGrant id n now req).
Proof. unfold SignGrant, sign_from. respects. Qed.

Lemma kept_start cfg a d f w now : Q a (NewAuthorityWithStore cfg (a_store a) d f w now).
Proof.
  assert (X : forall b l, a_store b = a_store a -> used_nonces (a_store (importLegacyFileKeys now l b)) = used_nonces (a_store a)
    /\ authenticators (a_store (importLegacyFileKeys now l b)) = authenticators (a_store a)).
  { intros b l <-. unfold importLegacyFileKeys. revert b. induction l as [|e l IH]; intros b; [done|]. cbn [fold_left].
    destruct (IH (importKey now e b)) as [-> ->]. unfold importKey.
    destruct (_ || _); [done|]. destruct (a_tenantKeys b !! _), (de_Data e); try done.
    destruct (hex_decode _) as [k|]; [|done]. by destruct (key_ok k). }
  unfold NewAuthorityWithStore. destruct (negb _); [|by apply ambient_holds].
  match goal with |- Q _ (importLegacyFileKeys _ ?l ?b) => destruct (X b l eq_refl) as [E F] end.
  apply ambient_holds; by rewrite ?E, ?F.
Qed.

End Ambient.

#[export] Hint Resolve kept_on_store kept_audit kept_deny kept_take kept_modify kept_getOrCreateKey kept_on_webauthn
  kept_lock kept_consume kept_bootstrap kept_open_session kept_tenantKey kept_sign kept_trustkeys kept_autoiso
  kept_manifest kept_signAuthorized : respects.

(** ** Used nonces are kept *)

Definition nonces_kept (a a' : Authority) : Prop := used_nonces (a_store a) ⊆ used_nonces (a_store a').

#[export] Instance nonces_kept_preorder : PreOrder nonces_kept.
Proof. split; [intros a; unfold nonces_kept; done|intros a b c; unfold nonces_kept; by etransitivity]. Qed.

#[export] Instance nonces_kept_ambient : Ambient nonces_kept.
Proof. split; [typeclasses eauto|done]. Qed.

Section Nonces.
Context `{U : Unicode} `{K : Crypto} `{KA : AuthCrypto} `{L : WebAuthnLib} `{R : Rows} `{J : AuthJson}.

Lemma nonces_on_store f : (forall s, used_nonces (f s) = used_nonces s) -> respects nonces_kept (on_store f).
Proof. intros F a. unfold nonces_kept. cbn. by rewrite F. Qed.

Lemma clear_lockouts_nonces now l : forall s, used_nonces (clear_lockouts now l s) = used_nonces s.
Proof. unfold clear_lockouts. induction l as [|r l IH]; intros s; [done|]. cbn. rewrite IH. by destruct (_ || _). Qed.

Lemma count_failure_nonces now l s : used_nonces (count_failure now l s) = used_nonces s.
Proof. unfold count_failure. by destruct (filter _ l). Qed.

Hint Resolve nonces_on_store clear_lockouts_nonces count_failure_nonces : respects.

(** ** Runs of the authority *)

Inductive auth_op : Type :=
| AKey (fresh : string) (wrote : bool) (now : Z) (tenantID : string)
| AGrant (now : Z) (tenantID operatorID role : string)
| ARevoke (now : Z) (tenantID operatorID : string)
| AEnroll (b nonce id : string) (now : Z) (tenantID operatorID : string)
| AUnlock (id : string) (now : Z) (tenantID operatorID browser key code : string)
| ABeginReg (b : string) (now : Z) (tenantID operatorID : string)
| AFinishReg (id : string) (now : Z) (req : WebAuthnRegistrationRequest)
| ABeginAuth (b : string) (now : Z) (tenantID operatorID : string)
| AFinishAuth (id : string) (now : Z) (req : WebAuthnAuthenticationRequest)
| ASign (id nonce : string) (now : Z) (req : SignGrantRequest)
| ALock (now : Z) (sessionID : string)
| ARecover (b : string) (now : Z) (tenantID operatorID : string)
| AReset (now : Z) (tenantID operatorID token : string)
| ATrustKeys (v : env) (tenantID : string)
| AIsolate (v : env) (req : AutoIsolateRequest)
| AManifest (v : env) (req : ManifestRequest)
| AAuthorized (v : env) (au : authorized)
| ARestart (cfg : Config) (d : disk) (fresh : string) (written : bool) (now : Z).

Definition auth_exec (o : auth_op) (a : Authority) : Authority :=
  match o with
  | AKey f w now t => fst (GetOrCreateTenantKey f w now t a)
  | AGrant now t op r => fst (GrantMembership now t op r a)
  | ARevoke now t op => fst (RevokeMembership now t op a)
  | AEnroll b n id now t op => fst (EnrollTOTP b n id now t op a)
  | AUnlock id now t op br k c => fst (UnlockSessionWithTOTP id now t op br k c a)
  | ABeginReg b now t op => fst (BeginWebAuthnRegistration b now t op a)
  | AFinishReg id now req => fst (FinishWebAuthnRegistration id now req a)
  | ABeginAuth b now t op => fst (BeginWebAuthnAuthentication b now t op a)
  | AFinishAuth id now req => fst (FinishWebAuthnAuthentication id now req a)
  | ASign id n now req => fst (SignGrant id n now req a)
  | ALock now id => fst (LockSession now id a)
  | ARecover b now t op => fst (GenerateRecoveryToken b now t op a)
  | AReset now t op tok => fst (ResetLockoutWithRecovery now t op tok a)
  | ATrustKeys v t => fst (TrustKeys_of v t a)
  | AIsolate v req => fst (SignAutoIsolation v req a)
  | AManifest v req => fst (EndpointManifest v req a)
  | AAuthorized v au => fst (signAuthorized v au a)
  | ARestart cfg d f w now => NewAuthorityWithStore cfg (a_store a) d f w now
  end.

Lemma exec_nonces o a : nonces_kept a (auth_exec o a).
Proof.
  destruct o; cbn [auth_exec]; try apply (kept_start nonces_kept);
    match goal with |- nonces_kept _ (fst (?m _)) => revert a; change (respects nonces_kept m) end;
    unfold GrantMembership, RevokeMembership, EnrollTOTP, UnlockSessionWithTOTP, BeginWebAuthnRegistration,
      FinishWebAuthnRegistration, BeginWebAuthnAuthentication, FinishWebAuthnAuthentication, GenerateRecoveryToken,
      ResetLockoutWithRecovery; respects.
Qed.

(** The nonce a successful unlock or grant has used. *)
Definition consumed1 (o : auth_op) (a : Authority) : list string :=
  match o with
  | AUnlock id now t op br k c =>
    if is_ok (snd (UnlockSessionWithTOTP id now t op br k c a))
    then match search_totp (a_masterKey a) c now (ListAuthenticators t op (a_store a)) with
         | TMatch _ step => [totp_nonce t op step]
         | _ => []
         end
    else []
  | ASign id n now req =>
    if is_ok (snd (SignGrant id n now req a))
    then match rq_Proof req with Some p => [proof_nonce (rq_TenantID req) (ap_Nonce p)] | None => [] end
    else []
  | _ => []
  end.

Fixpoint consumed (l : list auth_op) (a : Authority) : list string :=
  match l with
  | [] => []
  | o :: l => (consumed1 o a ++ consumed l (auth_exec o a))%list
  end.

Lemma take_nonce_fresh n p t e now a a' :
  take_nonce n p t e now a = (a', Ok true) ->
  used_nonces (a_store a) !! n = None /\ is_Some (used_nonces (a_store a') !! n).
Proof.
  unfold take_nonce, CheckAndRecordNonce. destruct (used_nonces (a_store a) !! n); cbn; [done|].
  intros [= <-]. cbn. rewrite lookup_insert_eq. eauto.
Qed.

Lemma deny_Ok {A} e err a a' (x : A) : deny e err a <> (a', Ok x).
Proof. done. Qed.

(** A guard whose failure is audited. *)
Lemma guard_deny_Ok (b : bool) e err a a' (x : unit) :
  (if b then mret tt else deny e err) a = (a', Ok x) -> b = true /\ a' = a.
Proof. destruct b; [|done]. by intros [_ ->]%ret_Ok. Qed.

(** What [check_request] has checked when it lets a request pass. *)
Record request_checked (now : Z) (req : SignGrantRequest) (proof : ActionProof) (session : ResponseSession)
    (pub : string) : Prop := {
  rc_tenant : rs_TenantID session = rq_TenantID req;
  rc_operator : rs_OperatorID session = rq_OperatorID req;
  rc_allowed : rq_ActionKind req ∈ rs_AllowedActionKinds session;
  rc_kind : rq_ActionKind req = ActionKindForensicCollect \/ rq_ActionKind req = ActionKindScriptExec;
  rc_proof_tenant : ap_TenantID proof = rq_TenantID req;
  rc_proof_kind : ap_ActionKind proof = rq_ActionKind req;
  rc_target : rq_EndpointID req ∈ ap_TargetEndpoints proof;
  rc_targets : (length (ap_TargetEndpoints proof) <= 1000)%nat;
  rc_payload : digest_check req proof = Ok tt;
  rc_key : hex_decode (rs_BrowserPublicKey session) = Some pub;
  rc_verified : proof_Verify pub now proof = Ok tt;
  rc_digest : EqualFold (ap_ActionDigest proof) (rq_ActionDigest req) = true;
}.

Lemma existsb_eqb x l : existsb (String.eqb x) l = true -> x ∈ l.
Proof. intros (y & I & E)%existsb_exists. bools. subst. by apply list_elem_of_In. Qed.

Lemma check_request_Ok now req proof session a a' u :
  check_request now req proof session a = (a', Ok u) ->
  (exists pub, request_checked now req proof session pub)
  /\ used_nonces (a_store a) !! proof_nonce (rq_TenantID req) (ap_Nonce proof) = None
  /\ take_nonce (proof_nonce (rq_TenantID req) (ap_Nonce proof)) "action_proof" (rq_TenantID req) (now + 600 * Second) now a
     = (a', Ok true).
Proof.
  unfold check_request. intros H. inv_act H.
  apply guard_deny_Ok in E as [E ->]. apply guard_deny_Ok in E8 as [E8 ->]. destruct x9.
  destruct (hex_decode (rs_BrowserPublicKey session)) as [pub|] eqn:D; [|done]. inv_act H.
  destruct (proof_Verify pub now proof) as [[]|] eqn:V; [|done]. apply ret_Ok in E10 as [_ ->].
  destruct x11; [|done]. apply ret_Ok in H as [_ ->].
  split; [|split; [by apply take_nonce_fresh in E12 as [? _]|done]].
  exists pub. apply orb_true_iff in E3. bools.
  split; try done; try by apply existsb_eqb. by destruct E3; bools; auto.
Qed.

Lemma digest_check_Ok req proof :
  digest_check req proof = Ok tt ->
  rq_ActionPayload req = "" \/ EqualFold (hex_encode (sha256 (rq_ActionPayload req))) (rq_ActionDigest req) = true.
Proof.
  unfold digest_check. destruct (rq_ActionPayload req) as [|c s]; [by left|]. intros H. right. cbn [String.length Nat.ltb Nat.leb] in H.
  by apply result_bind_Ok in H as (u & E%guard_err_Ok & _).
Qed.

Lemma read_session_Ok now req a a' s :
  read_session now req a = (a', Ok s) ->
  a' = a /\ response_sessions (a_store a) !! rq_SessionID req = Some s /\ session_IsValid now s = true.
Proof.
  unfold read_session. intros H. inv_act H. unfold store_GetSession in H.
  destruct (response_sessions (a_store a) !! rq_SessionID req) as [s'|]; [|done].
  destruct (session_IsValid now s') eqn:V; [|done]. by apply ret_Ok in H as [-> ->].
Qed.

Lemma SignGrant_Ok id nonce now req a a' g :
  SignGrant id nonce now req a = (a', Ok g) ->
  exists proof session a1,
    rq_Proof req = Some proof /\ response_sessions (a_store a) !! rq_SessionID req = Some session /\ session_IsValid now session = true
    /\ check_request now req proof session a = (a1, Ok tt) /\ issue_grant id nonce now req session a1 = (a', Ok g).
Proof.
  unfold SignGrant, sign_from. destruct (rq_Proof req) as [proof|]; [|done]. intros H. inv_act H.
  apply read_session_Ok in E0 as (-> & S & V). destruct x1. eauto 8.
Qed.

Lemma unlock_Ok id now t op br k c a a' s :
  UnlockSessionWithTOTP id now t op br k c a = (a', Ok s) ->
  exists rec step a1,
    search_totp (a_masterKey a) c now (ListAuthenticators t op (a_store a)) = TMatch rec step
    /\ browser_key_ok k = true
    /\ take_nonce (totp_nonce t op step) "totp_timestep" t (now + 90 * Second) now a = (a1, Ok true)
    /\ open_session id now t op br k AuthMethodTOTP "Method: TOTP"
         (a1 <| a_store ::= UpdateAuthenticatorUsage (ar_ID rec) now 0 None |>) = (a', Ok s).
Proof.
  unfold UnlockSessionWithTOTP. intros H. inv_act H.
  destruct (ListAuthenticators t op (a_store a)) as [|r recs]; [done|]. apply ret_Ok in E0 as [_ ->].
  destruct (search_totp _ _ _ _) as [|rec step|]; [done| |done]. inv_act H.
  match goal with b : bool |- _ => destruct b; cbn in H; [|done] end.
  inv_act H. eauto 10.
Qed.

Lemma consumed1_fresh o a n :
  n ∈ consumed1 o a ->
  consumed1 o a = [n] /\ used_nonces (a_store a) !! n = None /\ is_Some (used_nonces (a_store (auth_exec o a)) !! n).
Proof.
  destruct o as [| | | |id now t op br k c| | | | |id nc now req| | | | | | | |]; cbn [consumed1 auth_exec];
    try (intros H; by apply not_elem_of_nil in H).
  - destruct (UnlockSessionWithTOTP id now t op br k c a) as [a' [s|]] eqn:E; cbn; [|intros H; by apply not_elem_of_nil in H].
    apply unlock_Ok in E as (rec & step & a1 & -> & _ & N & O). intros ->%list_elem_of_singleton.
    apply take_nonce_fresh in N as [N S]. split; [done|]. split; [done|].
    eapply lookup_weaken_is_Some; [exact S|].
    apply (respects_run _ _ _ _ _ (kept_open_session nonces_kept _ _ _ _ _ _ _ _)) in O. exact O.
  - destruct (SignGrant id nc now req a) as [a' [g|]] eqn:E; cbn; [|intros H; by apply not_elem_of_nil in H].
    apply SignGrant_Ok in E as (proof & session & a1 & -> & _ & _ & C & I).
    intros ->%list_elem_of_singleton. apply check_request_Ok in C as (_ & N & T).
    split; [done|]. split; [done|]. apply take_nonce_fresh in T as [_ S].
    eapply lookup_weaken_is_Some; [exact S|]. change (nonces_kept a1 a'). eapply respects_run; [|exact I]. apply kept_issue, _.
Qed.

Lemma consumed_fresh l : forall a n, n ∈ consumed l a -> used_nonces (a_store a) !! n = None.
Proof.
  induction l as [|o l IH]; intros a n; cbn [consumed]; [intros H; by apply not_elem_of_nil in H|].
  intros [H|H]%elem_of_app; [by apply consumed1_fresh in H as (_ & H & _)|].
  apply IH in H. eapply lookup_weaken_None; [exact H|]. apply exec_nonces.
Qed.

(** C4: no nonce is used twice. Over any sequence of the authority's
    operations, restarts included, each time step of an operator's TOTP codes
    opens at most one session and each proof nonce of a tenant signs at most
    one grant, whatever the times of the calls. *)
Theorem nonces_used_once l a : NoDup (consumed l a).
Proof.
  revert a. induction l as [|o l IH]; intros a; cbn [consumed]; [constructor|].
  destruct (consumed1 o a) as [|n m] eqn:E; [apply IH|].
  destruct (consumed1_fresh o a n) as (E' & _ & S); [rewrite E; set_solver|]. rewrite E in E'. injection E' as ->.
  constructor; [|apply IH]. intros I. apply consumed_fresh in I. rewrite I in S. by destruct S.
Qed.

End Nonces.

(** ** Signed proofs *)

Section SignedProofs.
Context `{U : Unicode} `{K : Crypto} `{KA : AuthCrypto} `{L : WebAuthnLib} `{R : Rows} `{J : AuthJson}.

Lemma fields_inj l : forall l' x y,
  length l = length l' -> Forall fits l -> Forall fits l' -> (fields l ++ x = fields l' ++ y)%string -> l = l' /\ x = y.
Proof.
  induction l as [|s l IH]; intros [|s' l'] x y E F F' H; try discriminate; [done|].
  injection E as E. apply Forall_cons in F as [F0 F], F' as [F0' F'].
  change (fields (s :: l)) with (field s ++ fields l) in H. change (fields (s' :: l')) with (field s' ++ fields l') in H.
  rewrite !app_assoc_str in H. apply field_inj in H as [-> H]; [|done..].
  destruct (IH l' x y E F F' H) as [-> ->]. done.
Qed.

Definition proof_version (p : ActionProof) : Z := if ap_Version p =? 0 then ProofVersion else ap_Version p.

(** The fields of a proof are representable. *)
Record proof_fits (p : ActionProof) : Prop := {
  pf_time : int64_ok (ap_Timestamp p);
  pf_count : Z.of_nat (length (ap_TargetEndpoints p)) < 2 ^ 32;
  pf_targets : Forall fits (ap_TargetEndpoints p);
  pf_strings : Forall fits [ap_SessionID p; ap_TenantID p; ap_ActionKind p; hex_normal (ap_ActionDigest p); hex_normal (ap_Nonce p)];
}.

(** The same statement of the browser: the digest and the nonce up to case and
    surrounding space. *)
Record same_proof (p q : ActionProof) : Prop := {
  sp_session : ap_SessionID p = ap_SessionID q;
  sp_tenant : ap_TenantID p = ap_TenantID q;
  sp_kind : ap_ActionKind p = ap_ActionKind q;
  sp_digest : hex_normal (ap_ActionDigest p) = hex_normal (ap_ActionDigest q);
  sp_targets : ap_TargetEndpoints p = ap_TargetEndpoints q;
  sp_time : ap_Timestamp p = ap_Timestamp q;
  sp_nonce : hex_normal (ap_Nonce p) = hex_normal (ap_Nonce q);
}.

Lemma proof_bytes p :
  proof_CanonicalBytes p =
  (field "OMINULL-ACTION-PROOF-V2" ++ (u32 (proof_version p) ++ (field (ap_SessionID p) ++ (field (ap_TenantID p) ++
   (field (ap_ActionKind p) ++ (field (hex_normal (ap_ActionDigest p)) ++
   (u32 (Z.of_nat (length (ap_TargetEndpoints p))) ++ (fields (ap_TargetEndpoints p) ++
   (i64 (ap_Timestamp p) ++ field (hex_normal (ap_Nonce p)))))))))))%string.
Proof.
  unfold proof_CanonicalBytes, WriteHexNormalized. fold (proof_version p). autorewrite with canonical. done.
Qed.

(** The signed bytes determine the proof. *)
Lemma proof_bytes_inj p q :
  proof_fits p -> proof_fits q -> proof_CanonicalBytes p = proof_CanonicalBytes q -> same_proof p q.
Proof.
  intros [Ht Hc Hl Hs] [Ht' Hc' Hl' Hs']. rewrite !proof_bytes. intros H.
  repeat match goal with HF : Forall _ (_ :: _) |- _ => apply Forall_cons in HF as [? HF] end. clear Hs Hs'.
  apply field_inj in H as [_ H]; [|by vm_compute..]. do 6 peel H.
  assert (length (ap_TargetEndpoints p) = length (ap_TargetEndpoints q)) as EL
    by (unfold uint32 in *; rewrite !Z.mod_small in * by lia; lia).
  apply fields_inj in H as [EF H]; [|done..]. peel H.
  rewrite <- (string_app_nil (field (hex_normal (ap_Nonce p)))), <- (string_app_nil (field (hex_normal (ap_Nonce q)))) in H.
  apply field_inj in H as [EN _]; [|done..]. constructor; assumption.
Qed.

(** The grant [issue_grant] hands out, signed with the tenant's key. *)
Definition issued_grant (id nonce : string) (now : Z) (req : SignGrantRequest) (session : ResponseSession) (priv : string)
    : EndpointGrant :=
  sign_with priv (mkGrant GrantVersion id (rq_TenantID req) (rq_EndpointID req) (rq_ActionKind req) (rq_ActionDigest req)
    (rq_OperatorID req) (rs_SessionID session) (Unix now) (Unix now + sign_ttl (rq_TTLSeconds req)) (hex_encode nonce) ""
    (fingerprint (public_of priv)) "").

Lemma signing_key_Ok t a a' priv :
  signing_key t a = (a', Ok priv) -> a_tenantKeys a' !! t = Some priv /\ a_store a' = a_store a /\ a_cfg a' = a_cfg a.
Proof.
  unfold signing_key. intros H. inv_act H. destruct (a_tenantKeys a !! t) as [k|] eqn:C.
  - apply ret_Ok in H as [-> ->]. done.
  - inv_act H. destruct (GetTenantKey t (a_store a)) as [rec|]; [|done]. destruct (stored_key rec) as [k|]; [|done].
    inv_act H. apply ret_Ok in H as [-> ->]. split; [|done]. cbn. apply lookup_insert_eq.
Qed.

Lemma issue_grant_Ok id nonce now req session a a' g :
  issue_grant id nonce now req session a = (a', Ok g) ->
  exists priv, a_tenantKeys a' !! rq_TenantID req = Some priv /\ g = issued_grant id nonce now req session priv.
Proof.
  unfold issue_grant. intros H. inv_act H. apply ret_Ok in H as [-> ->].
  match goal with E : signing_key _ _ = _ |- _ => apply signing_key_Ok in E as [E _] end. eauto.
Qed.

Lemma sign_ttl_bounds ttl : 1 <= sign_ttl ttl <= 3600.
Proof. unfold sign_ttl. destruct (_ || _) eqn:E; [lia|]. bools. lia. Qed.

(** C3: a grant is signed only for what the operator's browser signed. If
    signatures of the session's browser key cannot be forged, a grant comes
    only from a valid session of the same tenant and operator, and that
    browser signed a proof naming this tenant, this kind (a collection or a
    script, never a terminal or screen), this endpoint among at most 1000
    targets and the digest of the grant, no earlier than five minutes and no
    later than one minute ahead; a payload sent along hashes to that digest,
    and the grant lives at most an hour. *)
Theorem grant_signed_for_proof (signed : ActionProof -> Prop) id nonce now req a a' g :
  SignGrant id nonce now req a = (a', Ok g) ->
  (forall s pub msg sig, response_sessions (a_store a) !! rq_SessionID req = Some s ->
     hex_decode (rs_BrowserPublicKey s) = Some pub -> ed25519_verify pub msg sig = true ->
     exists p, signed p /\ proof_fits p /\ msg = proof_CanonicalBytes p) ->
  (forall p, rq_Proof req = Some p -> proof_fits p /\ int64_ok (ap_Timestamp p + 300) /\ int64_ok (ap_Timestamp p - 60)) ->
  exists session p q priv,
    response_sessions (a_store a) !! rq_SessionID req = Some session /\ session_IsValid now session = true
    /\ rs_TenantID session = TenantID g /\ rs_OperatorID session = OperatorID g
    /\ rq_Proof req = Some q /\ signed p /\ same_proof q p
    /\ ap_TenantID p = TenantID g /\ ap_ActionKind p = ActionKind g
    /\ (ActionKind g = ActionKindForensicCollect \/ ActionKind g = ActionKindScriptExec)
    /\ EndpointID g ∈ ap_TargetEndpoints p /\ (length (ap_TargetEndpoints p) <= 1000)%nat
    /\ EqualFold (ap_ActionDigest q) (ActionDigest g) = true
    /\ (rq_ActionPayload req = "" \/ EqualFold (hex_encode (sha256 (rq_ActionPayload req))) (ActionDigest g) = true)
    /\ ap_Timestamp p - 60 <= Unix now <= ap_Timestamp p + 300
    /\ 1 <= ExpiresAt g - IssuedAt g <= 3600
    /\ a_tenantKeys a' !! TenantID g = Some priv /\ Signature g = hex_encode (ed25519_sign priv (grant_CanonicalBytes g)).
Proof.
  intros (q & session & a1 & P & S & V & C & I)%SignGrant_Ok Hsig Hfit.
  apply check_request_Ok in C as ((pub & [rt ro ra rk rpt rpk rtg rtl rp rkey rv rd]) & _ & _).
  apply issue_grant_Ok in I as (priv & Kp & ->). apply digest_check_Ok in rp.
  destruct (Hfit q P) as (Fq & Tq & Tq'). unfold proof_Verify in rv. inv_ok rv.
  destruct (hex_decode (ap_Signature q)) as [sig|]; [|done]. inv_ok rv. apply guard_err_Ok in rv.
  destruct (Hsig session pub _ _ S rkey rv) as (p & Sp & Fp & Eq).
  apply proof_bytes_inj in Eq; [|done..]. destruct Eq as [e1 e2 e3 e4 e5 e6 e7].
  assert (W : forall v, int64_ok v -> int64_wrap v = v) by (intros v [? ?]; by apply wrap_small).
  bools. rewrite !W in * by done.
  exists session, p, q, priv. cbn. rewrite <- e2, <- e3, <- e5, <- e6. assert (B := sign_ttl_bounds (rq_TTLSeconds req)).
  repeat (split; [done || congruence || lia|]). done.
Qed.

(** ** Running forward *)

Lemma guard_deny_run (b : bool) e err a : b = true -> (if b then mret tt else deny e err : act unit) a = (a, Ok tt).
Proof. by intros ->. Qed.

Lemma existsb_in x l : x ∈ l -> existsb (String.eqb x) l = true.
Proof. intros I. apply existsb_exists. exists x. split; [by apply list_elem_of_In|apply String.eqb_refl]. Qed.

Lemma kind_not_live k : k = ActionKindForensicCollect \/ k = ActionKindScriptExec ->
  String.eqb k ActionKindTerminalSession = false /\ String.eqb k ActionKindScreenSession = false
  /\ (String.eqb k ActionKindForensicCollect || String.eqb k ActionKindScriptExec) = true.
Proof. intros [-> | ->]; vm_compute; done. Qed.

Definition with_nonce (n t : string) (now : Z) (a : Authority) : Authority :=
  a <| a_store ::= fun s => s <| used_nonces ::= insert n (mkNonce "action_proof" t now (now + 600 * Second)) |> |>.

Lemma check_request_run now req proof session pub a :
  request_checked now req proof session pub ->
  used_nonces (a_store a) !! proof_nonce (rq_TenantID req) (ap_Nonce proof) = None ->
  check_request now req proof session a
  = (with_nonce (proof_nonce (rq_TenantID req) (ap_Nonce proof)) (rq_TenantID req) now a, Ok tt).
Proof.
  intros [rt ro ra rk rpt rpk rtg rtl rp rkey rv rd] N. destruct (kind_not_live _ rk) as (k1 & k2 & k3).
  unfold check_request.
  erewrite bind_run by (apply guard_deny_run; by rewrite rt, ro, !String.eqb_refl).
  erewrite bind_run by (by apply ensure_run, existsb_in).
  erewrite bind_run by (apply ensure_run; by rewrite k1).
  erewrite bind_run by (apply ensure_run; by rewrite k2).
  erewrite bind_run by (by apply ensure_run).
  erewrite bind_run by (apply ensure_run; by rewrite rpt, String.eqb_refl).
  erewrite bind_run by (apply ensure_run; by rewrite rpk, String.eqb_refl).
  erewrite bind_run by (apply ensure_run, Nat.ltb_lt; destruct (ap_TargetEndpoints proof); [by apply not_elem_of_nil in rtg|cbn; lia]).
  erewrite bind_run by (by apply ensure_run, Nat.leb_le).
  erewrite bind_run by (by apply guard_deny_run, existsb_in).
  erewrite bind_run by (unfold of_result; by rewrite rp).
  rewrite rkey, rv. erewrite bind_run by reflexivity. erewrite bind_run by (by apply ensure_run).
  erewrite bind_run by (unfold take_nonce, CheckAndRecordNonce; rewrite N; reflexivity). done.
Qed.

Definition idle_ttl (now : Z) (tenantID : string) (a : Authority) : Z :=
  policy_ttl (mp_MaxIdleTTLSec (GetPolicy tenantID now (a_store a))) (DefaultIdleTTL (a_cfg a)).

Definition after_issue (id nonce : string) (now : Z) (req : SignGrantRequest) (session : ResponseSession) (a : Authority)
    : SQLiteStore :=
  RecordAudit (mkAudit now (rq_TenantID req) (rq_OperatorID req) "grant_signed" (rq_ActionKind req) (rq_EndpointID req) id
    "success" ("TTL: " ++ format_int (sign_ttl (rq_TTLSeconds req)) ++ "s, Nonce: " ++ hex_encode nonce))
    (UpdateSession (session <| rs_IdleExpiresAt := now + idle_ttl now (rq_TenantID req) a |>) (a_store a)).

Lemma issue_grant_store id nonce now req session a a' g :
  issue_grant id nonce now req session a = (a', Ok g) ->
  a_store a' = after_issue id nonce now req session a /\ a_cfg a' = a_cfg a.
Proof.
  unfold issue_grant. intros H. inv_act H. apply ret_Ok in H as [-> ->].
  match goal with E : signing_key _ _ = _ |- _ => apply signing_key_Ok in E as (_ & Es & Ec) end.
  cbn. by rewrite Es, Ec.
Qed.

Lemma issue_grant_run id nonce now req session priv a :
  a_tenantKeys a !! rq_TenantID req = Some priv ->
  exists a', issue_grant id nonce now req session a = (a', Ok (issued_grant id nonce now req session priv)).
Proof.
  intros Kp. unfold issue_grant, mbind, action_bind. cbn.
  unfold signing_key, mbind, action_bind. cbn. rewrite Kp. eauto.
Qed.

(** The session row after a grant. *)
Lemma after_issue_session id nonce now req session a row :
  rs_SessionID session = rq_SessionID req -> response_sessions (a_store a) !! rq_SessionID req = Some row ->
  response_sessions (after_issue id nonce now req session a) !! rq_SessionID req
  = Some (row <| rs_IdleExpiresAt := now + idle_ttl now (rq_TenantID req) a |> <| rs_Locked := rs_Locked session |>).
Proof.
  intros E S. unfold after_issue, RecordAudit, UpdateSession, SaveSession. cbn. rewrite E, S. by rewrite lookup_insert_eq.
Qed.

Lemma proof_nonce_inj t n n' : proof_nonce t n = proof_nonce t n' -> n' = n.
Proof.
  unfold proof_nonce. rewrite <- !app_assoc_str. intros Eq.
  apply (f_equal (string_drop (String.length (("proof:" ++ t) ++ ":")))) in Eq. by rewrite !string_drop_app in Eq.
Qed.

(** Changing the case of its nonce replays a proof. A proof that has
    signed a grant signs another as soon as its nonce is spelt differently,
    in other case or with space around it: the signed bytes normalise the
    nonce, the record of used nonces does not. *)
Theorem proof_replayed_by_case id nonce id' nonce' now req q n' session a a' g :
  rq_Proof req = Some q -> SignGrant id nonce now req a = (a', Ok g) ->
  hex_normal n' = hex_normal (ap_Nonce q) -> n' <> ap_Nonce q ->
  used_nonces (a_store a) !! proof_nonce (rq_TenantID req) n' = None ->
  response_sessions (a_store a) !! rq_SessionID req = Some session -> rs_SessionID session = rq_SessionID req ->
  0 <= idle_ttl now (rq_TenantID req) a ->
  exists a'' g', SignGrant id' nonce' now (req <| rq_Proof := Some (q <| ap_Nonce := n' |>) |>) a' = (a'', Ok g').
Proof.
  intros P H Hn Nn Un S Sid Idle.
  assert (TN := H). apply SignGrant_Ok in H as (q' & session' & a1 & P' & S' & V & C & I).
  rewrite P in P'. injection P' as <-. rewrite S in S'. injection S' as <-.
  unfold SignGrant in TN. rewrite P in TN.
  apply act_bind_Ok in TN as (? & ? & TN%ensure_Ok & _). destruct TN as [TN _].
  destruct (check_request_Ok _ _ _ _ _ _ _ C) as ((pub & Q) & N & _).
  rewrite (check_request_run _ _ _ _ _ _ Q N) in C. injection C as <-.
  destruct (issue_grant_Ok _ _ _ _ _ _ _ _ I) as (priv & Kp & _). apply issue_grant_store in I as [St _].
  set (q' := q <| ap_Nonce := n' |>). set (req' := req <| rq_Proof := Some q' |>).
  set (row := session <| rs_IdleExpiresAt := now + idle_ttl now (rq_TenantID req) a |> <| rs_Locked := rs_Locked session |>).
  assert (Row : response_sessions (a_store a') !! rq_SessionID req = Some row).
  { rewrite St. rewrite (after_issue_session _ _ _ _ _ _ session) by done. reflexivity. }
  assert (Q' : request_checked now req' q' row pub).
  { destruct Q as [rt ro ra rk rpt rpk rtg rtl rp rkey rv rd]. split; try done.
    unfold proof_Verify in *. rewrite proof_bytes in *. cbn. rewrite Hn. exact rv. }
  assert (Un' : used_nonces (a_store a') !! proof_nonce (rq_TenantID req') (ap_Nonce q') = None).
  { rewrite St. cbn. rewrite lookup_insert_ne; [exact Un|]. intros Eq. by apply Nn, (proof_nonce_inj (rq_TenantID req)). }
  destruct (issue_grant_run id' nonce' now req' row priv
    (with_nonce (proof_nonce (rq_TenantID req') (ap_Nonce q')) (rq_TenantID req') now a')) as [a'' I']; [exact Kp|].
  exists a'', (issued_grant id' nonce' now req' row priv). unfold SignGrant. cbn [rq_Proof].
  change (rq_Proof req') with (Some q'). cbn match. erewrite bind_run by (apply ensure_run; exact TN).
  erewrite bind_run.
  2: { unfold read_session. erewrite bind_run by reflexivity. unfold store_GetSession.
       change (rq_SessionID req') with (rq_SessionID req). rewrite Row.
       replace (session_IsValid now row) with true; [reflexivity|]. symmetry. unfold session_IsValid in *. cbn.
       destruct (rs_Locked session); [done|]. destruct (_ <? now); [done|].
       by destruct (Z.ltb_spec (now + idle_ttl now (rq_TenantID req) a) now); [lia|]. }
  unfold sign_from. erewrite bind_run by (by apply (check_request_run _ _ _ _ pub)). exact I'.
Qed.

(** A lock can be lost. When a session is locked after [SignGrant] has
    read it and before the grant is issued, the grant is still signed and the
    write of the idle deadline puts the session back to unlocked. *)
Theorem lock_lost id nonce now now' req proof a a0 session a1 a2 g :
  read_session now req a = (a0, Ok session) -> rs_SessionID session = rq_SessionID req ->
  LockSession now' (rq_SessionID req) a0 = (a1, Ok tt) ->
  sign_from id nonce now req proof session a1 = (a2, Ok g) ->
  (exists row, response_sessions (a_store a1) !! rq_SessionID req = Some row /\ rs_Locked row = true)
  /\ (exists row, response_sessions (a_store a2) !! rq_SessionID req = Some row /\ rs_Locked row = false).
Proof.
  intros (-> & S & V)%read_session_Ok Sid Lk Sg.
  assert (S1 : response_sessions (a_store a1) !! rq_SessionID req = Some (session <| rs_Locked := true |>)).
  { unfold LockSession, mbind, action_bind in Lk. unfold store_LockSession in Lk. rewrite S in Lk. cbn in Lk.
    unfold store_GetSession in Lk. cbn in Lk. rewrite lookup_alter_eq, S in Lk. cbn in Lk. injection Lk as <-.
    cbn. by rewrite lookup_alter_eq, S. }
  split; [eauto|]. unfold sign_from in Sg. apply act_bind_Ok in Sg as (a3 & u & E & Sg).
  apply check_request_Ok in E as (_ & _ & T). apply issue_grant_store in Sg as [-> _].
  assert (S2 : response_sessions (a_store a3) !! rq_SessionID req = Some (session <| rs_Locked := true |>)).
  { unfold take_nonce, CheckAndRecordNonce in T. destruct (used_nonces (a_store a1) !! _); [done|]. by injection T as <-. }
  rewrite (after_issue_session _ _ _ _ _ _ _ Sid S2). eexists. split; [done|]. cbn.
  unfold session_IsValid in V. by destruct (rs_Locked session).
Qed.

End SignedProofs.

(** ** Enrolment, memberships and recovery *)

Section Enrolment.
Context `{U : Unicode} `{K : Crypto} `{KA : AuthCrypto} `{L : WebAuthnLib} `{R : Rows}.

Lemma bootstrap_run e now t op a :
  ListMemberships t (a_store a) = [] ->
  bootstrap_member e now t op a
  = (a <| a_store ::= SaveMembership (mkMembership t op RoleResponseAdmin "active" now now) |>, Ok tt).
Proof. intros E. unfold bootstrap_member. erewrite bind_run by reflexivity. by rewrite E. Qed.

(** Once no member of a tenant is active, the next operator to enrol is
    made its administrator. Revoking the last member does not close the
    tenant: any operator id, the revoked one included, enrols a fresh
    authenticator and holds an active administrator membership. *)
Theorem revoked_tenant_bootstraps b nonce id now t op a :
  nonempty t && nonempty op = true ->
  (forall k m, memberships (a_store a) !! k = Some m -> mr_TenantID m = t -> mr_Status m <> "active") ->
  exists a' secret m,
    EnrollTOTP b nonce id now t op a = (a', Ok secret)
    /\ memberships (a_store a') !! (t, op) = Some m /\ mr_Role m = RoleResponseAdmin /\ mr_Status m = "active"
    /\ (exists rec, authenticators (a_store a') !! id = Some rec /\ ar_Status rec = "active").
Proof.
  intros NE F.
  assert (E : ListMemberships t (a_store a) = []).
  { apply rows_where_nil. intros k m Lk. destruct (String.eqb_spec (mr_TenantID m) t) as [T|]; [|done].
    by apply String.eqb_neq, (F k m Lk). }
  unfold EnrollTOTP. erewrite bind_run by (by apply ensure_run). erewrite bind_run by (by apply bootstrap_run).
  erewrite bind_run by reflexivity. erewrite bind_run by reflexivity. erewrite bind_run by reflexivity.
  do 3 eexists. split; [done|]. cbn -[insert]. rewrite lookup_insert_eq. split; [done|].
  split; [done|]. split; [done|]. rewrite lookup_insert_eq. eexists. split; [done|]. by destruct (authenticators _ !! id).
Qed.

Lemma clear_lockouts_table now l : forall s s',
  authenticators s = authenticators s' -> authenticators (clear_lockouts now l s) = authenticators (clear_lockouts now l s').
Proof.
  unfold clear_lockouts. induction l as [|r l IH]; intros s s' E; [done|]. cbn [fold_left]. apply IH.
  destruct (_ || _); [|done]. cbn. by rewrite E.
Qed.

(** A recovery token opens any lockout. A token made for one operator of
    one tenant clears, within its quarter of an hour, the lockouts of every
    other operator of every other tenant it is presented for. *)
Theorem recovery_token_unbound b now now' t op t' op' a a1 token :
  GenerateRecoveryToken b now t op a = (a1, Ok token) -> recovery_tokens (a_store a) !! hex_encode (sha256 token) = None ->
  now' <= now + 900 * Second -> nonempty t' && nonempty op' && nonempty token = true ->
  exists a2, ResetLockoutWithRecovery now' t' op' token a1 = (a2, Ok tt)
    /\ authenticators (a_store a2)
       = authenticators (clear_lockouts now' (ListAuthenticators t' op' (a_store a)) (a_store a)).
Proof.
  intros G N T NE. unfold GenerateRecoveryToken in G. inv_act G. apply ret_Ok in G as [-> ->].
  unfold ResetLockoutWithRecovery. erewrite bind_run by (by apply ensure_run).
  erewrite bind_run. 2: { unfold ConsumeRecoveryToken, GetRecoveryToken. cbn -[insert]. rewrite N, lookup_insert_eq. cbn -[insert].
    destruct (Z.ltb_spec (now + 900 * Second) now'); [lia|]. reflexivity. }
  cbn match. eexists. split; [reflexivity|].
  apply (clear_lockouts_table now' (ListAuthenticators t' op' (a_store a))). reflexivity.
Qed.

End Enrolment.
