(* ===== verification/AuthorityTotp.v ===== *)
(** * TOTP codes of the response authority

    How many wrong codes an operator's authenticator takes, and that the
    secret handed out at enrolment opens a session. *)

From Stdlib Require Import Ascii String.
From stdpp Require Import gmap.
From S2P Require Import Prelude Action NetIP Canonical CanonicalProps Platform Encoding AuthBooks AuthStore WebAuthn AuthTrust Authority AuthorityProps.

Import canonical platform encoding books authstore webauthn authtrust authority.

Local Open Scope string_scope.
Local Open Scope Z_scope.

(** ** Wrong codes *)

Section Guesses.
Context `{U : Unicode} `{K : Crypto} `{KA : AuthCrypto} `{L : WebAuthnLib} `{R : Rows} `{J : AuthJson}.

(** A call of [UnlockSessionWithTOTP]. *)
Record attempt_at : Type := mkAttempt {
  at_now : Z;
  at_tenant : string;
  at_operator : string;
  at_id : string;
  at_browser : string;
  at_key : string;
  at_code : string;
}.

Definition try_unlock (x : attempt_at) : act ResponseSession :=
  UnlockSessionWithTOTP (at_id x) (at_now x) (at_tenant x) (at_operator x) (at_browser x) (at_key x) (at_code x).

Definition at_operator_of (t op : string) (x : attempt_at) : bool :=
  String.eqb (at_tenant x) t && String.eqb (at_operator x) op.

Definition is_wrong (r : result string ResponseSession) : bool :=
  match r with Err e => String.eqb e ErrTOTPInvalid | Ok _ => false end.

(** The unlock attempt an operation of the authority is, when it is one of this
    operator. *)
Definition own_attempt (t op : string) (o : auth_op) : option attempt_at :=
  match o with
  | AUnlock id now t' op' br k c =>
    let x := mkAttempt now t' op' id br k c in if at_operator_of t op x then Some x else None
  | _ => None
  end.

(** The times at which a code of this operator was compared and was wrong. *)
Definition wrong_code (t op : string) (o : auth_op) (a : Authority) : list Z :=
  match own_attempt t op o with
  | Some x => if is_wrong (snd (try_unlock x a)) then [at_now x] else []
  | None => []
  end.

Fixpoint wrong_codes (t op : string) (l : list auth_op) (a : Authority) : list Z :=
  match l with
  | [] => []
  | o :: l => wrong_code t op o a ++ wrong_codes t op l (auth_exec o a)
  end%list.

(** What sets the operator's counter back: a session opened with a code, or a
    recovery token used. *)
Definition clears (t op : string) (o : auth_op) (a : Authority) : bool :=
  match o with
  | AReset now t' op' tok =>
    String.eqb t' t && String.eqb op' op && is_ok (snd (ResetLockoutWithRecovery now t' op' tok a))
  | _ => match own_attempt t op o with Some x => is_ok (snd (try_unlock x a)) | None => false end
  end.

Fixpoint clearings (t op : string) (l : list auth_op) (a : Authority) : nat :=
  match l with
  | [] => 0
  | o :: l => (if clears t op o a then 1 else 0) + clearings t op l (auth_exec o a)
  end.

(** The attempts of the operator come in the order of time. *)
Fixpoint in_time_order (t op : string) (from : Z) (l : list auth_op) (until : Z) : Prop :=
  match l with
  | [] => from <= until
  | o :: l =>
    match own_attempt t op o with
    | Some x => from <= at_now x /\ in_time_order t op (at_now x) l until
    | None => in_time_order t op from l until
    end
  end.

(** New rows get new ids, and the operator enrols no other TOTP
    authenticator. *)
Definition adds_safely (t op : string) (o : auth_op) (a : Authority) : Prop :=
  match o with
  | AEnroll _ _ id _ t' op' => authenticators (a_store a) !! id = None /\ (t', op') <> (t, op)
  | AFinishReg id _ _ => authenticators (a_store a) !! id = None
  | _ => True
  end.

Fixpoint stays_sole (t op : string) (l : list auth_op) (a : Authority) : Prop :=
  match l with
  | [] => True
  | o :: l => adds_safely t op o a /\ stays_sole t op l (auth_exec o a)
  end.

(** Rows are stored under their id, and [r] is the only active TOTP
    authenticator of the operator. *)
Record sole_totp (t op r : string) (s : SQLiteStore) : Prop := {
  so_keyed : forall id rec, authenticators s !! id = Some rec -> ar_ID rec = id;
  so_row : exists rec, authenticators s !! r = Some rec /\ ar_TenantID rec = t /\ ar_OperatorID rec = op
    /\ is_active_totp rec = true /\ 0 <= ar_FailureCount rec;
  so_only : forall id rec, authenticators s !! id = Some rec -> ar_TenantID rec = t -> ar_OperatorID rec = op ->
    is_active_totp rec = true -> id = r;
}.

Lemma search_none_unlocked mk c now recs rec :
  search_totp mk c now recs = TNone -> rec ∈ recs -> is_active_totp rec = true -> is_locked now rec = false.
Proof.
  induction recs as [|x recs IH]; intros H I A; [by apply not_elem_of_nil in I|]. cbn in H.
  apply elem_of_cons in I as [<-|I].
  - rewrite A in H. cbn in H. by destruct (is_locked now rec).
  - destruct (is_active_totp x); cbn in H; [|by apply IH]. destruct (is_locked now x); [done|].
    destruct (VerifyTOTPCodeWithStep _ _ _); [done|]. by apply IH.
Qed.

Lemma search_match_in mk c now recs rec step :
  search_totp mk c now recs = TMatch rec step -> rec ∈ recs /\ is_active_totp rec = true.
Proof.
  induction recs as [|x recs IH]; [done|]. cbn. intros H. destruct (is_active_totp x) eqn:A; cbn in H.
  - destruct (is_locked now x); [done|]. destruct (VerifyTOTPCodeWithStep _ _ _); [injection H as <- _; set_solver|].
    apply IH in H. set_solver.
  - apply IH in H. set_solver.
Qed.

(** What one attempt does to the table of authenticators. *)
Lemma unlock_cases x a :
  let recs := ListAuthenticators (at_tenant x) (at_operator x) (a_store a) in
  let s := a_store a in
  let a' := fst (try_unlock x a) in
  let r := snd (try_unlock x a) in
  (is_wrong r = true /\ search_totp (a_masterKey a) (at_code x) (at_now x) recs = TNone
   /\ authenticators (a_store a') = authenticators (count_failure (at_now x) recs s))
  \/ (is_wrong r = false /\ is_ok r = false /\ authenticators (a_store a') = authenticators s)
  \/ (is_wrong r = false /\ is_ok r = true
      /\ exists rec step, search_totp (a_masterKey a) (at_code x) (at_now x) recs = TMatch rec step
         /\ authenticators (a_store a') = authenticators (UpdateAuthenticatorUsage (ar_ID rec) (at_now x) 0 None s)).
Proof.
  cbn zeta. unfold try_unlock, UnlockSessionWithTOTP, mbind, action_bind, ensure.
  destruct (nonempty _ && nonempty _); cbn; [|right; left; repeat split].
  destruct (ListAuthenticators _ _ _) as [|r0 recs'] eqn:E; [right; left; repeat split|].
  remember (r0 :: recs') as recs eqn:Er. clear Er. cbn.
  destruct (browser_key_ok _); cbn; [|right; left; repeat split].
  destruct (search_totp _ _ _ _) as [|rec step|] eqn:S; [right; left; repeat split| |left; repeat split].
  unfold take_nonce, CheckAndRecordNonce. destruct (used_nonces _ !! _); cbn; [right; left; repeat split|].
  right; right. split; [done|]. split; [done|]. eauto.
Qed.

Lemma list_elem t op s rec :
  rec ∈ ListAuthenticators t op s ->
  (exists id, authenticators s !! id = Some rec) /\ ar_TenantID rec = t /\ ar_OperatorID rec = op.
Proof. intros (F & k & E)%rows_where_elem. bools. eauto. Qed.

Lemma row_in_list t op r s rec :
  sole_totp t op r s -> authenticators s !! r = Some rec -> rec ∈ ListAuthenticators t op s.
Proof.
  intros [_ (rec' & E' & T & O & A & _) _] E. rewrite E in E'. injection E' as <-.
  apply rows_where_elem. split; [|eauto]. rewrite T, O, !String.eqb_refl. apply andb_prop in A as [_ A]. exact A.
Qed.

(** A change of one row's use, with the counter not negative. *)
Lemma sole_usage t op r s s' id now n lock :
  (id = r -> 0 <= n) -> authenticators s' = authenticators (UpdateAuthenticatorUsage id now n lock s) ->
  sole_totp t op r s -> sole_totp t op r s'.
Proof.
  intros N E [k (rec & Er & T & O & A & F) o]. cbn in E. split; rewrite E.
  - intros i x. rewrite lookup_alter_Some. intros [(<- & y & Ey & ->)|[_ Ex]]; cbn; eauto.
  - destruct (decide (id = r)) as [->|Hn].
    + rewrite lookup_alter_eq, Er. eexists. split; [done|]. cbn. auto.
    + rewrite lookup_alter_ne by done. eauto 10.
  - intros i x. rewrite lookup_alter_Some. intros [(<- & y & Ey & ->)|[_ Ex]]; cbn; eauto.
Qed.

Lemma first_totp t op r s y l :
  sole_totp t op r s -> filter (fun x => is_active_totp x = true) (ListAuthenticators t op s) = y :: l ->
  authenticators s !! r = Some y.
Proof.
  intros [_ _ o] E. assert (I : y ∈ filter (fun x => is_active_totp x = true) (ListAuthenticators t op s)) by (rewrite E; set_solver).
  apply list_elem_of_filter in I as [A ((id & Ei) & T & O)%list_elem]. by rewrite <- (o id y Ei T O A).
Qed.

(** The ledger of wrong codes behind the row of the authenticator. *)
Record ledger (g : list Z) (last : Z) (rec : AuthenticatorRecord) : Prop := {
  lg_past : forall x, x ∈ g -> x <= last;
  lg_count : Z.of_nat (length (within LockoutDuration last g)) <= Z.min 5 (ar_FailureCount rec);
  lg_locked : MaxFailedAttempts <= ar_FailureCount rec -> forall x, x ∈ g ->
    exists until, ar_LockedUntil rec = Some until /\ x + LockoutDuration <= until;
}.

Lemma within_nil span now ts : (forall x, x ∈ ts -> x + span <= now) -> within span now ts = [].
Proof.
  intros F. unfold within. induction ts as [|x ts IH]; [done|]. rewrite filter_cons, decide_False.
  - apply IH. intros y I. apply F. set_solver.
  - specialize (F x). intros ?. enough (x + span <= now) by lia. apply F. set_solver.
Qed.

Lemma within_shorter span now now' ts : now <= now' -> (length (within span now' ts) <= length (within span now ts))%nat.
Proof. intros Le. rewrite <- (within_later span now now' ts Le). apply within_length. Qed.

Lemma ledger_later g last now rec : last <= now -> ledger g last rec -> ledger g now rec.
Proof.
  intros Le [p c l]. split; [|pose proof (within_shorter LockoutDuration last now g Le); lia|done].
  intros x I. specialize (p x I). lia.
Qed.

(** A wrong code on an unlocked row. *)
Lemma ledger_wrong g last now rec rec' :
  last <= now -> ledger g last rec -> is_locked now rec = false ->
  ar_FailureCount rec' = ar_FailureCount rec + 1 ->
  ar_LockedUntil rec' = (if MaxFailedAttempts <=? ar_FailureCount rec + 1 then Some (now + LockoutDuration) else None) ->
  0 <= ar_FailureCount rec -> ledger (g ++ [now])%list now rec'.
Proof.
  intros Le G Un C Lk P. apply (ledger_later _ _ now) in G; [|done]. destruct G as [p c l]. unfold MaxFailedAttempts in *. split.
  - intros x [I|I]%elem_of_app; [by apply p|]. apply list_elem_of_singleton in I. lia.
  - rewrite within_app, length_app, C.
    assert (length (within LockoutDuration now [now]) <= 1)%nat by apply within_length.
    destruct (Z.leb_spec 5 (ar_FailureCount rec)) as [H5|H5]; [|lia].
    rewrite within_nil; [cbn [length]; lia|]. intros x I. destruct (l H5 x I) as (u & Eu & Lu).
    unfold is_locked in Un. rewrite Eu in Un. bools. lia.
  - rewrite C, Lk. intros H5. unfold MaxFailedAttempts in H5. destruct (Z.leb_spec 5 (ar_FailureCount rec + 1)); [|lia].
    intros x I. eexists. split; [done|]. apply elem_of_app in I as [I|I]; [specialize (p x I); lia|].
    apply list_elem_of_singleton in I. lia.
Qed.

Lemma other_row t op r s y t' op' :
  sole_totp t op r s -> y ∈ ListAuthenticators t' op' s -> String.eqb t' t && String.eqb op' op = false -> ar_ID y <> r.
Proof.
  intros [k (rec & E & T & O & _) _] ((id & Ei) & T' & O')%list_elem N Er.
  rewrite (k id y Ei) in Er. subst id. rewrite E in Ei. injection Ei as <-.
  by rewrite <- T', <- O', T, O, !String.eqb_refl in N.
Qed.

Lemma usage_other r s id now n lock :
  id <> r -> authenticators (UpdateAuthenticatorUsage id now n lock s) !! r = authenticators s !! r.
Proof. intros N. cbn. by rewrite lookup_alter_ne. Qed.

Lemma sole_active t op r s rec :
  sole_totp t op r s -> authenticators s !! r = Some rec -> is_active_totp rec = true /\ 0 <= ar_FailureCount rec.
Proof. intros [_ (y & Ey & ?) _] E. rewrite E in Ey. injection Ey as <-. tauto. Qed.

Definition totp_rows (t op : string) (s : SQLiteStore) : list AuthenticatorRecord :=
  filter (fun z => is_active_totp z = true) (ListAuthenticators t op s).

(** A wrong code counts on the operator's row. *)
Lemma own_failure t op r mk c now s s' g last rec :
  sole_totp t op r s -> authenticators s !! r = Some rec -> ledger g last rec -> last <= now ->
  search_totp mk c now (ListAuthenticators t op s) = TNone ->
  authenticators s' = authenticators (count_failure now (ListAuthenticators t op s) s) ->
  sole_totp t op r s' /\ exists rec', authenticators s' !! r = Some rec' /\ ledger (g ++ [now])%list now rec'.
Proof.
  intros S E G Le T A. destruct (sole_active _ _ _ _ _ S E) as [Act P].
  assert (I := row_in_list _ _ _ _ _ S E). assert (Un := search_none_unlocked _ _ _ _ _ T I Act).
  unfold count_failure in A. destruct (filter _ _) as [|y l] eqn:F.
  { assert (I' : rec ∈ totp_rows t op s) by (by apply list_elem_of_filter).
    unfold totp_rows in I'. rewrite F in I'. by apply not_elem_of_nil in I'. }
  assert (Y := first_totp _ _ _ _ _ _ S F). rewrite E in Y. injection Y as <-.
  assert (Id : ar_ID rec = r) by (destruct S as [k _ _]; by apply k). rewrite Id in A.
  split; [eapply sole_usage; [|exact A|exact S]; intros _; lia|].
  rewrite A. cbn. rewrite lookup_alter_eq, E. eexists. split; [done|].
  by apply (ledger_wrong g last now rec).
Qed.

(** ** The other operations *)

Definition auths_same (a a' : Authority) : Prop := authenticators (a_store a') = authenticators (a_store a).

#[local] Instance auths_same_preorder : PreOrder auths_same.
Proof. split; [done|]. intros a b c X Y. unfold auths_same in *. congruence. Qed.

#[local] Instance auths_same_ambient : Ambient auths_same.
Proof. split; [typeclasses eauto|done]. Qed.

(** The table has the same rows, of which the one of the operator is as it was. *)
Definition row_kept (t op r : string) (s s' : SQLiteStore) : Prop :=
  sole_totp t op r s -> sole_totp t op r s' /\ authenticators s' !! r = authenticators s !! r.

Lemma same_row t op r s s' : authenticators s' = authenticators s -> row_kept t op r s s'.
Proof. intros E [k w o]. split; [split; rewrite E; done|by rewrite E]. Qed.

Lemma usage_row t op r s s' id now n lock :
  id <> r -> authenticators s' = authenticators (UpdateAuthenticatorUsage id now n lock s) -> row_kept t op r s s'.
Proof. intros D A S. split; [by eapply sole_usage; [|exact A|exact S]|]. rewrite A. by apply usage_other. Qed.

(** A row is written that is no TOTP authenticator of the operator. *)
Lemma insert_row t op r s s' id row :
  authenticators s' = <[id := row]> (authenticators s) -> ar_ID row = id -> id <> r ->
  (ar_TenantID row, ar_OperatorID row) <> (t, op) \/ ar_Type row <> AuthMethodTOTP -> row_kept t op r s s'.
Proof.
  intros E Id D N [k (rec & Er & W) o]. split; [split; rewrite E|by rewrite E, lookup_insert_ne].
  - intros i x. rewrite lookup_insert_Some. intros [[<- <-]|[_ Ex]]; eauto.
  - exists rec. by rewrite lookup_insert_ne.
  - intros i x. rewrite lookup_insert_Some. intros [[<- <-]|[_ Ex]] T O A; [|eauto].
    apply andb_prop in A as [A _]. apply String.eqb_eq in A. destruct N; congruence.
Qed.

Lemma new_row t op r s s' auth :
  authenticators s' = authenticators (SaveAuthenticator auth s) -> authenticators s !! ar_ID auth = None ->
  (ar_TenantID auth, ar_OperatorID auth) <> (t, op) \/ ar_Type auth <> AuthMethodTOTP -> row_kept t op r s s'.
Proof.
  intros E F N S. unfold SaveAuthenticator in E. rewrite F in E. eapply insert_row; [exact E|done| |exact N|exact S].
  intros <-. destruct S as [_ (rec & Er & _) _]. congruence.
Qed.

(** A changed row. *)
Lemma changed_row t op r s s' rec key :
  authenticators s' = authenticators (SaveAuthenticator (rec <| ar_SecretOrKey := key |>) s) ->
  authenticators s !! ar_ID rec = Some rec -> ar_Type rec = AuthMethodWebAuthn -> row_kept t op r s s'.
Proof.
  intros E F N S. unfold SaveAuthenticator in E. cbn [ar_ID] in E. change (ar_ID (rec <| ar_SecretOrKey := key |>)) with (ar_ID rec) in E.
  rewrite F in E. eapply insert_row; [exact E|done| |right; cbn; rewrite N; discriminate|exact S].
  intros D. destruct S as [_ (rec' & Er & _ & _ & A & _) _]. rewrite <- D, F in Er. injection Er as <-.
  unfold is_active_totp in A. by rewrite N in A.
Qed.

(** An attempt of another operator leaves the row alone. *)
Lemma other_attempt t op r x a : at_operator_of t op x = false -> row_kept t op r (a_store a) (a_store (fst (try_unlock x a))).
Proof.
  intros N S. revert S.
  destruct (unlock_cases x a) as [(_ & _ & A)|[(_ & _ & A)|(_ & _ & rec & step & T & A)]]; [|by apply same_row|]; intros S.
  - unfold count_failure in A. destruct (filter _ _) as [|y l] eqn:F; [by apply same_row|].
    eapply usage_row; [|exact A|exact S]. apply (other_row t op r (a_store a) y (at_tenant x) (at_operator x)); [done| |done].
    assert (I : y ∈ totp_rows (at_tenant x) (at_operator x) (a_store a)) by (unfold totp_rows; rewrite F; set_solver).
    by apply list_elem_of_filter in I as [_ I].
  - apply search_match_in in T as [I _]. eapply usage_row; [|exact A|exact S]. by eapply other_row.
Qed.

Lemma enroll_row t op r b nonce id now t' op' a :
  authenticators (a_store a) !! id = None -> (t', op') <> (t, op) ->
  row_kept t op r (a_store a) (a_store (fst (EnrollTOTP b nonce id now t' op' a))).
Proof.
  intros F N. unfold EnrollTOTP, mbind, action_bind, ensure. destruct (_ && _); cbn; [|by apply same_row].
  match goal with |- context [bootstrap_member ?e now t' op' a] =>
    assert (B := kept_bootstrap auths_same e now t' op' a); destruct (bootstrap_member e now t' op' a) as [a1 [[]|]] end;
    cbn in B |- *; [|by apply same_row].
  intros S. destruct (same_row t op r _ _ B S) as [S1 <-]. revert S1.
  match goal with |- _ -> _ _ _ _ ?s /\ _ => refine (new_row t op r (a_store a1) s (mkAuthenticator id op' t' _ _ _ _ _ _ _ _) eq_refl _ _) end;
    [cbn; unfold auths_same in B; by rewrite B|by left].
Qed.

Lemma finish_reg_row t op r id now req a :
  authenticators (a_store a) !! id = None -> row_kept t op r (a_store a) (a_store (fst (FinishWebAuthnRegistration id now req a))).
Proof.
  intros F. unfold FinishWebAuthnRegistration, mbind, action_bind, on_webauthn.
  destruct (VerifyRegistration req now (a_webauthn a)) as [m [cred|]]; cbn; [|by apply same_row].
  eapply new_row; [reflexivity|done|by right].
Qed.

Lemma finish_auth_row t op r id now req a :
  row_kept t op r (a_store a) (a_store (fst (FinishWebAuthnAuthentication id now req a))).
Proof.
  intros S. assert (k := so_keyed _ _ _ _ S). revert S. unfold FinishWebAuthnAuthentication, mbind, action_bind, ensure, gets. cbv beta iota zeta.
  destruct (0 <? _)%nat; cbn; [|by apply same_row].
  destruct (filter _ _) as [|[rec cred] l] eqn:E; [by apply same_row|].
  destruct (browser_key_ok _); cbn; [|by apply same_row]. unfold on_webauthn.
  destruct (VerifyAssertion _ _ _ _) as [m [cred'|e]]; cbn; [|by apply same_row].
  match goal with |- context [open_session ?i ?n ?t ?o ?b ?k ?m ?d ?a1] =>
    pose proof (kept_open_session auths_same i n t o b k m d a1) as B; destruct (open_session i n t o b k m d a1) as [a2 r2] end.
  assert (I : (rec, cred) ∈ webauthn_credentials (ListAuthenticators (wa_TenantID req) (wa_OperatorID req) (a_store a))).
  { eapply list_elem_of_filter. rewrite E. left. }
  unfold webauthn_credentials in I. apply list_elem_of_omap in I as (y & Iy & Hy). apply list_elem in Iy as [(i & Ei) _].
  destruct (String.eqb (ar_Type y) AuthMethodWebAuthn) eqn:Ty; [|done]. destruct (String.eqb (ar_Status y) "active"); [|done].
  cbn in Hy. destruct (unmarshal_credential _); [|done]. injection Hy as -> _. apply String.eqb_eq in Ty.
  eapply changed_row; [exact B| |done]. by rewrite (k i rec Ei).
Qed.

(** ** Recovery *)

Lemma reset_cases now t op tok a :
  let a' := fst (ResetLockoutWithRecovery now t op tok a) in
  if is_ok (snd (ResetLockoutWithRecovery now t op tok a))
  then authenticators (a_store a') = authenticators (clear_lockouts now (ListAuthenticators t op (a_store a)) (a_store a))
  else authenticators (a_store a') = authenticators (a_store a).
Proof.
  cbn zeta. unfold ResetLockoutWithRecovery, mbind, action_bind, ensure. destruct (_ && _ && _); [|done]. cbn.
  pose proof (kept_consume auths_same (hex_encode (sha256 tok)) now a) as B. unfold auths_same in B.
  destruct (ConsumeRecoveryToken _ _ _) as [s [u|e]]; cbn in B |- *; [|done].
  unfold ListAuthenticators. rewrite B. clear - B. revert B. generalize (rows_where
    (fun r => String.eqb (ar_TenantID r) t && String.eqb (ar_OperatorID r) op && String.eqb (ar_Status r) "active") (authenticators (a_store a))).
  intros l. unfold clear_lockouts. revert s. generalize (a_store a). induction l as [|x l IH]; intros s0 s B; [done|]. cbn.
  apply IH. destruct (_ || _); [|done]. cbn. by rewrite B.
Qed.

Lemma cleared_sole t op r now l : forall s, sole_totp t op r s -> sole_totp t op r (clear_lockouts now l s).
Proof.
  unfold clear_lockouts. induction l as [|x l IH]; intros s S; [done|]. cbn. apply IH. destruct (_ || _); [|done].
  eapply sole_usage; [|reflexivity|exact S]. done.
Qed.

Lemma cleared_other t op r now l : forall s, (forall y, y ∈ l -> ar_ID y <> r) -> row_kept t op r s (clear_lockouts now l s).
Proof.
  unfold clear_lockouts. induction l as [|x l IH]; intros s F S; [done|]. cbn.
  set (s1 := if _ : bool then _ else _). assert (X : row_kept t op r s s1).
  { subst s1. destruct (_ || _); [|by apply same_row]. eapply usage_row; [|reflexivity]. apply F. left. }
  destruct (X S) as [S1 <-]. apply IH; [|done]. intros y I. apply F. by right.
Qed.

Lemma reset_row t op r now t' op' tok a :
  String.eqb t' t && String.eqb op' op && is_ok (snd (ResetLockoutWithRecovery now t' op' tok a)) = false ->
  row_kept t op r (a_store a) (a_store (fst (ResetLockoutWithRecovery now t' op' tok a))).
Proof.
  intros N S. revert S. pose proof (reset_cases now t' op' tok a) as C. cbn zeta in C.
  destruct (is_ok _); [|by apply same_row]. rewrite andb_true_r in N. intros S.
  destruct (cleared_other t op r now (ListAuthenticators t' op' (a_store a)) (a_store a)) as [S' E]; [|done|].
  - intros y I. by eapply other_row.
  - destruct (same_row t op r _ _ C S') as [S'' E']. split; [done|congruence].
Qed.

(** ** One operation *)

(** Operations that neither try a code of the operator nor set its counter
    back. *)
Lemma exec_row_kept t op r o a :
  adds_safely t op o a -> own_attempt t op o = None -> clears t op o a = false ->
  row_kept t op r (a_store a) (a_store (auth_exec o a)).
Proof.
  assert (X : forall A (m : act A), respects auths_same m -> row_kept t op r (a_store a) (a_store (fst (m a)))).
  { intros A m M. apply same_row, M. }
  destruct o as [| | |b n id now t' op'|id now t' op' br k c| |id now req| |id now req| | | |now t' op' tok| | | | |];
    intros Ad Ow Cl; cbn [auth_exec]; try (apply same_row, (kept_start auths_same)).
  4: by destruct Ad; apply enroll_row.
  4: { cbn in Ow. destruct (at_operator_of _ _ _) eqn:Q; [done|]. exact (other_attempt t op r _ a Q). }
  5: by apply finish_reg_row.
  6: apply finish_auth_row.
  9: by apply reset_row.
  all: apply X; unfold GrantMembership, RevokeMembership, BeginWebAuthnRegistration, BeginWebAuthnAuthentication,
    GenerateRecoveryToken; respects.
Qed.

Lemma own_attempt_exec t op o x a :
  own_attempt t op o = Some x ->
  auth_exec o a = fst (try_unlock x a) /\ at_tenant x = t /\ at_operator x = op /\ clears t op o a = is_ok (snd (try_unlock x a)).
Proof.
  destruct o; try done. cbn. destruct (at_operator_of _ _ _) eqn:Q; [|done]. intros [= <-].
  unfold at_operator_of in Q. cbn in Q. bools. done.
Qed.

Lemma exec_cleared t op r o a :
  sole_totp t op r (a_store a) -> clears t op o a = true ->
  sole_totp t op r (a_store (auth_exec o a)) /\ wrong_code t op o a = [].
Proof.
  intros S Cl. unfold wrong_code. destruct (own_attempt t op o) as [x|] eqn:Ow.
  - destruct (own_attempt_exec t op o x a Ow) as (-> & _ & _ & E). rewrite E in Cl.
    destruct (unlock_cases x a) as [(W & _ & A)|[(_ & W & A)|(W & _ & rec & step & T & A)]]; [|congruence|].
    + destruct (snd (try_unlock x a)); done.
    + rewrite W. split; [|done]. eapply sole_usage; [|exact A|exact S]. done.
  - split; [|done]. destruct o; try (cbn in Cl; cbn in Ow; by rewrite ?Ow in Cl). cbn [auth_exec]. cbn in Cl.
    apply andb_prop in Cl as [Q Cl]. bools. match goal with |- context [ResetLockoutWithRecovery ?n ?t ?o ?k a] =>
      pose proof (reset_cases n t o k a) as C end. cbn zeta in C. rewrite Cl in C.
    eapply (same_row _ _ _ _ _ C). by apply cleared_sole.
Qed.

(** The time after an operation. *)
Definition last_of (t op : string) (last : Z) (o : auth_op) : Z :=
  match own_attempt t op o with Some x => at_now x | None => last end.

Lemma exec_counted t op r o a g last rec :
  sole_totp t op r (a_store a) -> adds_safely t op o a -> clears t op o a = false ->
  authenticators (a_store a) !! r = Some rec -> ledger g last rec -> last <= last_of t op last o ->
  sole_totp t op r (a_store (auth_exec o a)) /\ exists rec', authenticators (a_store (auth_exec o a)) !! r = Some rec'
    /\ ledger (g ++ wrong_code t op o a)%list (last_of t op last o) rec'.
Proof.
  intros S Ad Cl E G Le. unfold wrong_code, last_of in *. destruct (own_attempt t op o) as [x|] eqn:Ow.
  - destruct (own_attempt_exec t op o x a Ow) as (-> & Et & Eo & C). rewrite C in Cl. subst t op.
    destruct (unlock_cases x a) as [(-> & T & A)|[(-> & _ & A)|(_ & O & _)]]; [by eapply own_failure| |congruence].
    destruct (same_row _ _ _ _ _ A S) as [S' ->]. split; [done|]. exists rec. rewrite app_nil_r. split; [done|]. by apply (ledger_later _ last).
  - destruct (exec_row_kept t op r o a Ad Ow Cl S) as [S' ->]. split; [done|]. exists rec. by rewrite app_nil_r.
Qed.

Lemma time_order_step t op from o l until :
  in_time_order t op from (o :: l) until -> from <= last_of t op from o /\ in_time_order t op (last_of t op from o) l until.
Proof. cbn. unfold last_of. destruct (own_attempt t op o); [done|]. split; [lia|done]. Qed.

Lemma time_order_ends t op l until : forall from, in_time_order t op from l until -> from <= until.
Proof.
  induction l as [|o l IH]; intros from O; [done|]. apply time_order_step in O as [Le O]. apply IH in O. lia.
Qed.

Lemma ledger_bound g last until rec : last <= until -> ledger g last rec -> (length (within LockoutDuration until g) <= 5)%nat.
Proof. intros Le G. apply (ledger_later _ _ until) in G; [|done]. destruct G as [_ c _]. lia. Qed.

Lemma ledger_nil last rec : 0 <= ar_FailureCount rec -> ledger [] last rec.
Proof. split; [intros x I; by apply not_elem_of_nil in I|cbn; lia|intros _ x I; by apply not_elem_of_nil in I]. Qed.

Lemma sole_ledger t op r s last : sole_totp t op r s -> exists rec, authenticators s !! r = Some rec /\ ledger [] last rec.
Proof. intros [_ (rec & E & _ & _ & _ & W) _]. exists rec. split; [done|by apply ledger_nil]. Qed.

Lemma wrong_codes_bound t op r l : forall a g last rec until,
  sole_totp t op r (a_store a) -> stays_sole t op l a -> authenticators (a_store a) !! r = Some rec -> ledger g last rec ->
  in_time_order t op last l until ->
  (length (within LockoutDuration until (g ++ wrong_codes t op l a)%list) <= 5 * (1 + clearings t op l a))%nat.
Proof.
  induction l as [|o l IH]; intros a g last rec until S Ad E G O.
  { cbn. rewrite app_nil_r. pose proof (ledger_bound g last until rec O G). lia. }
  assert (En := time_order_ends _ _ _ _ _ O). apply time_order_step in O as [Le O]. destruct Ad as [Ad Ads].
  cbn [wrong_codes clearings]. destruct (clears t op o a) eqn:Cl.
  - destruct (exec_cleared t op r o a S Cl) as [S' ->].
    destruct (sole_ledger t op r _ (last_of t op last o) S') as (rec' & E' & G').
    specialize (IH _ [] _ rec' until S' Ads E' G' O). cbn [app] in IH |- *. rewrite within_app, length_app.
    pose proof (ledger_bound g last until rec En G). lia.
  - destruct (exec_counted t op r o a g last rec S Ad Cl E G Le) as (S' & rec' & E' & G').
    rewrite app_assoc. by eapply IH.
Qed.

(** C7: wrong TOTP codes are rationed. Take an operator with one active TOTP
    authenticator and any run of operations of the authority, of this and of
    other operators and tenants, in which the operator enrols no second one, new
    rows get ids not yet in the table, and the operator's attempts come in the
    order of time. In any quarter of an hour at most five wrong codes are
    compared, and five more for each time the counter was set back: by a session
    opened with a right code or by a recovery token. *)
Theorem totp_guesses_limited t op r l a from until :
  sole_totp t op r (a_store a) -> stays_sole t op l a -> in_time_order t op from l until ->
  (length (within LockoutDuration until (wrong_codes t op l a)) <= 5 * (1 + clearings t op l a))%nat.
Proof.
  intros S Ad O. destruct (sole_ledger t op r _ from S) as (rec & E & G).
  by apply (wrong_codes_bound t op r l a [] from rec until).
Qed.

End Guesses.

(** ** Enrolment and unlocking *)

Section Enrolment.
Context `{U : Unicode} `{K : Crypto} `{KA : AuthCrypto} `{L : WebAuthnLib} `{R : Rows} `{Laws : !AuthCryptoLaws}.

Lemma encodable_byte c : encodable c -> plain_byte c = true /\ is_ascii_byte c = true /\ upper_byte c = c.
Proof.
  unfold encodable. destruct c as [[] [] [] [] [] [] [] []]; vm_compute; intros [x H]; try done; discriminate H.
Qed.

Lemma encodable_string s : Forall encodable (list_of s) ->
  string_forallb plain_byte s = true /\ is_ascii s = true /\ string_map upper_byte s = s.
Proof.
  unfold is_ascii. induction s as [|c s IH]; cbn; [done|]. intros [E F]%Forall_cons.
  destruct (encodable_byte c E) as (-> & -> & ->), (IH F) as (-> & -> & ->). done.
Qed.

Lemma secret_key b : is_Some (totp_key (GenerateTOTPSecret b)).
Proof.
  destruct (encodable_string (base32_encode b)) as (P & A & M); [by eapply base32_encode_letters_aux|].
  unfold totp_key, GenerateTOTPSecret, ToUpper. rewrite (TrimSpace_plain _ P), A, M.
  destruct (base32_encode_decodes b) as [k ->]. eauto.
Qed.

Lemma secret_code b t : exists code, GenerateTOTPCode (GenerateTOTPSecret b) t = Ok code.
Proof. unfold GenerateTOTPCode. destruct (secret_key b) as [k ->]. eauto. Qed.

Lemma digit_plain v : 0 <= v < 10 -> plain_byte (ascii_of_N (Z.to_N (48 + v))) = true.
Proof.
  intros B. assert (F : Forall (fun n => plain_byte (ascii_of_N (Z.to_N (48 + Z.of_nat n))) = true) (seq 0 10)).
  { repeat constructor. }
  rewrite Forall_forall in F. specialize (F (Z.to_nat v)). rewrite Z2Nat.id in F by lia. apply F, elem_of_seq. lia.
Qed.

Lemma six_digits_plain v : string_forallb plain_byte (six_digits v) = true /\ String.length (six_digits v) = 6%nat.
Proof.
  split; [|done]. unfold six_digits. cbn [map string_of string_forallb].
  by rewrite !digit_plain by (apply Z.mod_pos_bound; done).
Qed.

Lemma code_plain secret t code : GenerateTOTPCode secret t = Ok code -> TrimSpace code = code /\ String.length code = 6%nat.
Proof.
  unfold GenerateTOTPCode. destruct (totp_key secret); [|done]. intros [= <-].
  split; [apply TrimSpace_plain|]; apply six_digits_plain.
Qed.

(** The code of an instant verifies at that instant. *)
Lemma own_code_verifies secret now code :
  GenerateTOTPCode secret now = Ok code -> VerifyTOTPCodeWithStep secret code now = Some (timestep now).
Proof.
  intros G. destruct (code_plain _ _ _ G) as [T Len]. unfold VerifyTOTPCodeWithStep. rewrite T, Len. cbn [Nat.eqb negb].
  cbn [omap list_omap]. by rewrite Z.add_0_r, G, String.eqb_refl.
Qed.

(** What is stored at enrolment decrypts to the secret handed out. *)
Definition stored_secret (mk nonce secret : string) : string :=
  if (String.length mk =? 32)%nat
  then match EncryptSecret nonce secret mk with Ok enc => enc | Err _ => secret end else secret.

Lemma stored_secret_reads mk nonce secret rec :
  String.length nonce = 12%nat -> ar_SecretOrKey rec = stored_secret mk nonce secret -> raw_secret mk rec = secret.
Proof.
  intros N E. unfold raw_secret. rewrite E. unfold stored_secret. destruct (Nat.eqb_spec (String.length mk) 32) as [M|]; [|done].
  unfold EncryptSecret, DecryptSecret. rewrite M. cbn [Nat.eqb negb]. rewrite hex_decode_encode.
  destruct (nonce_split nonce (aes_gcm_seal mk nonce "" secret) N) as (-> & -> & ->). by rewrite open_seal.
Qed.

Lemma enrolled_state b nonce id now t op a a1 secret :
  EnrollTOTP b nonce id now t op a = (a1, Ok secret) ->
  secret = GenerateTOTPSecret b /\ nonempty t && nonempty op = true /\ a_masterKey a1 = a_masterKey a
  /\ used_nonces (a_store a1) = used_nonces (a_store a)
  /\ authenticators (a_store a1) = authenticators (SaveAuthenticator (mkAuthenticator id op t AuthMethodTOTP SecurityLabelTOTP
       (stored_secret (a_masterKey a) nonce secret) "active" now None 0 None) (a_store a)).
Proof.
  unfold EnrollTOTP. intros H. apply act_bind_Ok in H as (a0 & ? & [NE ->]%ensure_Ok & H).
  apply act_bind_Ok in H as (a2 & ? & B & H). inv_act H. apply ret_Ok in H as [-> ->].
  assert (Q : a_masterKey a2 = a_masterKey a /\ used_nonces (a_store a2) = used_nonces (a_store a)
              /\ authenticators (a_store a2) = authenticators (a_store a)).
  { unfold bootstrap_member in B. inv_act B. destruct (ListMemberships t (a_store a)); [by apply modify_Ok in B as ->|].
    inv_act B. destruct (active_member _ _ _); [by apply ret_Ok in B as [_ ->]|]. inv_act B. done. }
  destruct Q as (Qm & Qn & Qa). unfold stored_secret. rewrite <- Qm. cbn. by rewrite Qn, Qa.
Qed.

Lemma open_session_run id now t op br k m d a :
  exists a' s, open_session id now t op br k m d a = (a', Ok s)
    /\ rs_TenantID s = t /\ rs_OperatorID s = op /\ rs_BrowserPublicKey s = k
    /\ is_Some (response_sessions (a_store a') !! id).
Proof.
  unfold open_session. do 4 erewrite bind_run by reflexivity. do 2 eexists. split; [reflexivity|].
  repeat (split; [done|]). cbn -[insert]. rewrite lookup_insert_eq. eauto.
Qed.

(** The secret handed out at enrolment opens a session. For an operator
    with no other authenticator, the code computed from it at any instant
    whose time step is unused unlocks a session at that instant, bound to the
    tenant, the operator and the browser key presented. *)
Theorem enrolled_secret_opens b nonce id now t op a a1 secret now' sid br k :
  EnrollTOTP b nonce id now t op a = (a1, Ok secret) ->
  ListAuthenticators t op (a_store a) = [] -> authenticators (a_store a) !! id = None -> String.length nonce = 12%nat ->
  browser_key_ok k = true -> used_nonces (a_store a) !! totp_nonce t op (timestep now') = None ->
  exists code a2 session,
    GenerateTOTPCode secret now' = Ok code
    /\ UnlockSessionWithTOTP sid now' t op br k code a1 = (a2, Ok session)
    /\ rs_TenantID session = t /\ rs_OperatorID session = op /\ rs_BrowserPublicKey session = k
    /\ is_Some (response_sessions (a_store a2) !! sid).
Proof.
  intros En Em Fr Nl Bk Un. apply enrolled_state in En as (-> & NE & Mk & Nn & Au).
  destruct (secret_code b now') as [code Gc]. exists code.
  set (rec := mkAuthenticator id op t AuthMethodTOTP SecurityLabelTOTP
    (stored_secret (a_masterKey a) nonce (GenerateTOTPSecret b)) "active" now None 0 None) in Au.
  assert (Li : ListAuthenticators t op (a_store a1) = [rec]).
  { unfold ListAuthenticators. rewrite Au. cbn -[insert rows_where]. rewrite Fr. apply Permutation_singleton_r.
    rewrite rows_where_insert by done. fold (ListAuthenticators t op (a_store a)). rewrite Em. cbn. by rewrite !String.eqb_refl. }
  unfold UnlockSessionWithTOTP. erewrite bind_run by (by apply ensure_run). erewrite bind_run by reflexivity. rewrite Li.
  erewrite bind_run by reflexivity. erewrite bind_run by (by apply ensure_run). erewrite bind_run by reflexivity.
  cbn [search_totp]. change (is_active_totp rec) with true. change (is_locked now' rec) with false. cbn [negb].
  rewrite Mk, (stored_secret_reads _ nonce (GenerateTOTPSecret b)) by done. rewrite (own_code_verifies _ _ _ Gc).
  erewrite bind_run by (unfold take_nonce, CheckAndRecordNonce; rewrite Nn, Un; reflexivity).
  cbn [is_ok negb]. erewrite bind_run by reflexivity.
  destruct (open_session_run sid now' t op br k AuthMethodTOTP "Method: TOTP"
    (a1 <| a_store ::= fun s => UpdateAuthenticatorUsage (ar_ID rec) now' 0 None (s <| used_nonces ::=
       insert (totp_nonce t op (timestep now')) (mkNonce "totp_timestep" t now' (now' + 90 * Second)) |>) |>))
    as (a2 & s & O & P).
  exists a2, s. split; [done|]. split; [exact O|exact P].
Qed.

End Enrolment.
