(* ===== verification/AuthTrustProps.v ===== *)
(** * Keys, isolations and manifests of the response authority

    That a tenant's keys outlive restarts, that the detector's isolations are
    rationed, what a manifest request can change, and what an authorized
    action signs. *)

From Stdlib Require Import Ascii String Sorted.
From stdpp Require Import gmap.
From S2P Require Import Prelude Action NetIP Canonical CanonicalProps Platform Encoding AuthBooks AuthStore WebAuthn Authority AuthTrust AuthorityProps.

Import canonical platform encoding books authstore webauthn authority authtrust.

Local Open Scope string_scope.
Local Open Scope Z_scope.

Section Keys.
Context `{U : Unicode} `{K : Crypto} `{KA : AuthCrypto} `{L : WebAuthnLib} `{R : Rows} `{J : AuthJson}.

(** ** What key operations leave alone *)

(** Everything but the keys, the key files and the audit log. *)
Record same_books (a a' : Authority) : Prop := {
  sb_cfg : a_cfg a' = a_cfg a;
  sb_autoIso : a_autoIso a' = a_autoIso a;
  sb_manifests : a_manifests a' = a_manifests a;
  sb_manifestFile : a_manifestFile a' = a_manifestFile a;
}.

#[local] Instance same_books_preorder : PreOrder same_books.
Proof.
  split; [intros a; by split|]. intros a b c [? ? ? ?] [? ? ? ?]. split; congruence.
Qed.

Lemma books_on_store f : respects same_books (on_store f).
Proof. intros a. by split. Qed.

Lemma books_modify f : (forall a, same_books a (f a)) -> respects same_books (modify f).
Proof. intros F a. apply F. Qed.

Lemma books_modify_keys f : respects same_books (modify (fun a => a <| a_tenantKeys ::= f |>)).
Proof. intros a. by split. Qed.

Lemma books_modify_files f : respects same_books (modify (fun a => a <| a_keyFiles ::= f |>)).
Proof. intros a. by split. Qed.

Lemma books_audit e : respects same_books (audit e).
Proof. apply books_on_store. Qed.

Lemma books_auditAction now t o e k ep id st d : respects same_books (auditAction now t o e k ep id st d).
Proof. apply books_audit. Qed.

Hint Resolve books_on_store books_modify_keys books_modify_files books_audit books_auditAction : respects.

Lemma books_getOrCreateKey f w now t : respects same_books (getOrCreateKey f w now t).
Proof. unfold getOrCreateKey. respects. Qed.

Hint Resolve books_getOrCreateKey : respects.

Lemma books_slotKey v t s : respects same_books (slotKey v t s).
Proof. unfold slotKey. respects. Qed.

Lemma books_tenantKey v t : respects same_books (tenantSigningKey v t).
Proof. unfold tenantSigningKey, GetOrCreateTenantKey. respects. Qed.

Lemma books_issue v t : respects same_books (next_issue_time v t).
Proof. intros a. unfold next_issue_time. by destruct (next _ _ _ _ _) as [[c f] r]. Qed.

Hint Resolve books_slotKey books_tenantKey books_issue : respects.

Lemma books_run {A} (m : act A) a a' r : respects same_books m -> m a = (a', r) -> same_books a a'.
Proof. intros M E. specialize (M a). by rewrite E in M. Qed.

(** ** The detector's isolations *)

Lemma isolation_refused v req a e : auto_isolation_refused req a = Some e -> SignAutoIsolation v req a = (a, Err e).
Proof. intros E. unfold SignAutoIsolation. erewrite bind_run by reflexivity. by rewrite E. Qed.

Definition isolation_request (v : env) (req : AutoIsolateRequest) : request :=
  (e_now v, ai_TenantID req, TrimSpace (ai_EndpointID req)).

(** A grant of the detector: isolation of the host named, for ten minutes. *)
Record detector_grant (req : AutoIsolateRequest) (g : EndpointGrant) : Prop := {
  dg_kind : ActionKind g = ActionKindAutoIsolate;
  dg_operator : OperatorID g = "detector";
  dg_tenant : TenantID g = ai_TenantID req;
  dg_endpoint : EndpointID g = TrimSpace (ai_EndpointID req);
  dg_life : ExpiresAt g = IssuedAt g + 600;
}.

Lemma isolation_step v req a :
  auto_isolation_refused req a = None ->
  let '(a', r) := SignAutoIsolation v req a in
  a_autoIso a' = fst (spend1 (isolation_request v req) (a_autoIso a))
  /\ (forall g p, r = Ok (g, p) -> is_ok (snd (spend1 (isolation_request v req) (a_autoIso a))) = true /\ detector_grant req g).
Proof.
  intros E. unfold SignAutoIsolation. erewrite bind_run by reflexivity. rewrite E.
  unfold isolation_request, spend1. destruct (spend _ _ _ (a_autoIso a)) as [b r0] eqn:Sp.
  erewrite bind_run by (unfold on_budget; rewrite Sp; reflexivity).
  destruct r0 as [u|details]; [|split; done].
  set (a0 := a <| a_autoIso := b |>).
  match goal with |- let '(_, _) := ?m a0 in _ => destruct (m a0) as [a' r] eqn:X end.
  split.
  - change (a_autoIso a' = a_autoIso a0). apply (sb_autoIso a0 a'). eapply books_run; [|exact X]. respects.
  - intros g p ->. split; [done|]. inv_act X. apply ret_Ok in X as [[= -> ->] ->].
    split; try done.
Qed.

Fixpoint isolations (want : AutoIsolateRequest -> bool) (l : list (env * AutoIsolateRequest)) (a : Authority)
    : list (Z * AutoIsolateRequest * EndpointGrant) :=
  match l with
  | [] => []
  | (v, req) :: l =>
    let '(a', r) := SignAutoIsolation v req a in
    (match r with Ok (g, _) => if want req then [(e_now v, req, g)] else [] | Err _ => [] end
     ++ isolations want l a')%list
  end.

(** The requests that reach the budget. *)
Fixpoint reached (l : list (env * AutoIsolateRequest)) (a : Authority) : list request :=
  match l with
  | [] => []
  | (v, req) :: l =>
    (match auto_isolation_refused req a with Some _ => [] | None => [isolation_request v req] end
     ++ reached l (fst (SignAutoIsolation v req a)))%list
  end.

Fixpoint clock_ordered (from : Z) (l : list (env * AutoIsolateRequest)) (until : Z) : Prop :=
  match l with
  | [] => from <= until
  | (v, _) :: l => from <= e_now v /\ clock_ordered (e_now v) l until
  end.

Lemma reached_in_order l : forall a from until, clock_ordered from l until ->
  in_order from (reached l a) /\ last_request from (reached l a) <= until.
Proof.
  induction l as [|[v req] l IH]; intros a from until C; [done|]. destruct C as [F C].
  destruct (IH (fst (SignAutoIsolation v req a)) _ _ C) as [I M]. cbn [reached].
  destruct (auto_isolation_refused req a) as [e|]; cbn [app]; [|done].
  split.
  - destruct (reached l _) as [|r0 l0]; [done|]. destruct I as [I0 I]. split; [lia|done].
  - destruct (reached l _) as [|r0 l0] eqn:E; [|exact M]. cbn in M |- *. lia.
Qed.

(** Signed isolations are among the accepted requests. *)
Lemma isolations_accepted (want : AutoIsolateRequest -> bool) (wantr : request -> bool) l : forall a,
  (forall v req, want req = true -> wantr (isolation_request v req) = true) ->
  map (fun x => x.1.1) (isolations want l a) `sublist_of` accepted wantr (reached l a) (a_autoIso a).
Proof.
  induction l as [|[v req] l IH]; intros a W; [constructor|]. cbn [isolations reached].
  destruct (auto_isolation_refused req a) as [e|] eqn:E.
  - rewrite (isolation_refused v req a e E). cbn [app fst]. by apply IH.
  - assert (S := isolation_step v req a E). destruct (SignAutoIsolation v req a) as [a' r]. destruct S as [Sb Sr].
    cbn [fst app]. change (accepted wantr (?x :: ?y) ?z) with
      ((if is_ok (snd (spend1 x z)) && wantr x then [x.1.1] else []) ++ accepted wantr y (fst (spend1 x z)))%list.
    rewrite <- Sb, map_app. apply sublist_app; [|by apply IH].
    destruct r as [[g p]|]; [|apply sublist_nil_l]. destruct (want req) eqn:Q; [|apply sublist_nil_l].
    destruct (Sr g p eq_refl) as [-> _]. rewrite (W v req Q). cbn. done.
Qed.

Lemma within_sublist span now l l' :
  l `sublist_of` l' -> (length (within span now l) <= length (within span now l'))%nat.
Proof. intros S. induction S; unfold within in *; rewrite ?filter_cons; repeat case_decide; cbn; lia. Qed.

Lemma sorted_sublist (P : Z -> Z -> Prop) l l' : l `sublist_of` l' -> StronglySorted P l' -> StronglySorted P l.
Proof.
  intros S. induction S as [|x l l' S IH|x l l' S IH]; intros H; [done|..]; apply StronglySorted_inv in H as [H F]; [|by apply IH].
  constructor; [by apply IH|]. rewrite Forall_forall in *. intros y I. apply F. by eapply elem_of_sublist.
Qed.

Lemma isolations_of want l : forall a, Forall (fun x => want x.1.2 = true /\ detector_grant x.1.2 x.2) (isolations want l a).
Proof.
  induction l as [|[v req] l IH]; intros a; [constructor|]. cbn [isolations].
  destruct (SignAutoIsolation v req a) as [a' r] eqn:E. apply Forall_app. split; [|apply IH].
  destruct r as [[g p]|e]; [|constructor]. destruct (want req) eqn:Q; [|constructor]. constructor; [|constructor].
  split; [done|]. destruct (auto_isolation_refused req a) as [e|] eqn:F.
  - by rewrite (isolation_refused v req a e F) in E.
  - assert (S := isolation_step v req a F). rewrite E in S. by apply (proj2 S g p).
Qed.

Definition for_tenant (t : string) (req : AutoIsolateRequest) : bool := String.eqb (ai_TenantID req) t.
Definition for_host (t ep : string) (req : AutoIsolateRequest) : bool :=
  String.eqb (ai_TenantID req) t && String.eqb (TrimSpace (ai_EndpointID req)) ep.

(** The detector's isolations are rationed. Over any sequence of its
    requests to a newly started authority, under a clock that does not go
    back, at most six isolations of a tenant are signed within any hour and
    two for one host are at least ten minutes apart; each grant isolates just
    the host named, for ten minutes, in the detector's name. *)
Theorem auto_isolation_rationed t ep l a from until :
  a_autoIso a = empty_book -> clock_ordered from l until ->
  (length (within Hour until (map (fun x => x.1.1) (isolations (for_tenant t) l a))) <= 6)%nat
  /\ StronglySorted (fun x y => x + autoIsolatePerEndpoint <= y) (map (fun x => x.1.1) (isolations (for_host t ep) l a))
  /\ Forall (fun x => detector_grant x.1.2 x.2) (isolations (for_tenant t) l a).
Proof.
  intros B C. destruct (reached_in_order l a from until C) as [I M].
  destruct (isolation_budget t ep from (reached l a) until I M) as [P S]. rewrite <- B in P, S.
  split; [|split].
  - etransitivity; [|exact P]. apply within_sublist, isolations_accepted. done.
  - eapply sorted_sublist; [|exact S]. apply isolations_accepted. done.
  - eapply Forall_impl; [apply isolations_of|]. by intros x [_ ?].
Qed.

(** ** Manifests *)

Record signed_manifest (t ep profile : string) (seq : Z) (a a' : Authority) (m : CapabilityManifest) : Prop := {
  sm_tenant : cm_TenantID m = t;
  sm_endpoint : cm_EndpointID m = ep;
  sm_profile : cm_Profile m = profile;
  sm_caps : ProfileCaps profile = Some (cm_Caps m);
  sm_seq : cm_Seq m = seq;
  sm_book : a_manifests a' = <[book_key t ep := m]> (a_manifests a);
}.

Lemma save_manifest_Ok v k m a a' u : save_manifest v k m a = (a', Ok u) -> a_manifests a' = <[k := m]> (a_manifests a).
Proof.
  unfold save_manifest. destruct (String.eqb _ _); [by intros [= <-]|]. destruct (e_saved v); [by intros [= <-]|done].
Qed.

Lemma signManifest_Ok v t ep p seq a a' m :
  signManifestLocked v t ep p seq a = (a', Ok m) -> signed_manifest t ep p seq a a' m.
Proof.
  unfold signManifestLocked. destruct (ProfileCaps p) as [caps|] eqn:C; [|done]. intros H.
  apply act_bind_Ok in H as (a1 & key & S & H). apply act_bind_Ok in H as (a2 & u & Sv & H). apply ret_Ok in H as [-> ->].
  apply save_manifest_Ok in Sv. split; try done. rewrite Sv. f_equal.
  apply (sb_manifests a a1). eapply books_run; [|exact S]. apply books_slotKey.
Qed.

(** The manifest [n] in place of [m]: the same one, or signed anew for the
    same profile with the next number. *)
Definition renewed (t ep : string) (m : CapabilityManifest) (a a' : Authority) (n : CapabilityManifest) : Prop :=
  (n = m /\ a_manifests a' = a_manifests a) \/ signed_manifest t ep (cm_Profile m) (next_seq m) a a' n.

Lemma audited_manifest v t ep p seq (e : CapabilityManifest -> SignerAuditEntry) a a' m :
  (n ← signManifestLocked v t ep p seq; _ ← audit (e n); mret n) a = (a', Ok m) -> signed_manifest t ep p seq a a' m.
Proof.
  intros H. apply act_bind_Ok in H as (a1 & n & S & H). inv_act H. apply ret_Ok in H as [-> ->].
  apply signManifest_Ok in S. by destruct S.
Qed.

Lemma resign_renewed v t ep m a a' n : resign_retired v t ep m a = (a', Ok n) -> renewed t ep m a a' n.
Proof.
  unfold resign_retired. intros H. apply act_bind_Ok in H as (a1 & r & S & H).
  assert (B : a_manifests a1 = a_manifests a).
  { apply (sb_manifests a a1). eapply books_run; [|exact S]. apply respects_attempt, books_slotKey. }
  destruct (match r with Ok k => negb (String.eqb (cm_SignerKeyID m) k.2) | Err _ => false end).
  - right. apply audited_manifest in H as [h1 h2 h3 h4 h5 h6]. split; try done. by rewrite h6, B.
  - apply ret_Ok in H as [-> ->]. by left.
Qed.

Lemma refresh_renewed v t ep m a a' n : refresh_profile v t ep m a = (a', Ok n) -> renewed t ep m a a' n.
Proof.
  unfold refresh_profile. destruct (_ && _); intros H; [right; by apply audited_manifest in H|].
  apply ret_Ok in H as [-> ->]. by left.
Qed.

(** [n] grants nothing that [m] or its profile did not. *)
Record not_raised (k : Z) (m n : CapabilityManifest) : Prop := {
  nr_profile : cm_Profile n = cm_Profile m \/ ProfileNarrows (cm_Profile m) (cm_Profile n) = true;
  nr_caps : forall c, manifest_Has (Some n) c = true -> manifest_Has (Some m) c = true \/ ProfileHas (cm_Profile m) c = true;
  nr_order : n = m \/ cm_Seq m < cm_Seq n <= cm_Seq m + k;
}.

Lemma profile_caps_has p caps c :
  ProfileCaps p = Some caps -> existsb (fun x => String.eqb x c) caps = true -> ProfileHas p c = true.
Proof.
  unfold ProfileCaps, ProfileHas. destruct (profileCaps p) as [l|]; cbn; [|done]. intros [= <-] (x & I & E)%existsb_exists.
  bools. subst x. apply existsb_in. apply list_elem_of_In in I. by rewrite sort_slice_perm in I.
Qed.

Lemma narrows_has f t c : ProfileNarrows f t = true -> ProfileHas t c = true -> ProfileHas f c = true.
Proof.
  unfold ProfileNarrows. destruct (profileCaps f) eqn:F; [|done]. destruct (profileCaps t) as [g|] eqn:G; [|done].
  intros [_ A]%andb_prop H. unfold ProfileHas at 1 in H. rewrite G in H. apply existsb_eqb in H.
  apply (proj1 (forallb_forall _ _) A). by apply list_elem_of_In.
Qed.

Lemma next_seq_small m : min_int64 <= cm_Seq m < max_int64 -> next_seq m = cm_Seq m + 1.
Proof. intros B. unfold next_seq. apply wrap_small. unfold min_int64, max_int64 in *. lia. Qed.

Lemma renewed_not_raised t ep k m0 m a a' n :
  renewed t ep m a a' n -> not_raised k m0 m -> cm_Profile m = cm_Profile m0 -> 0 <= k ->
  min_int64 <= cm_Seq m0 -> cm_Seq m0 + k < max_int64 ->
  not_raised (k + 1) m0 n /\ cm_Profile n = cm_Profile m0.
Proof.
  intros [[-> _]|[h1 h2 h3 h4 h5 h6]] [p c o] P K0 Lo Hi.
  - split; [|done]. split; [done|done|]. destruct o; [by left|right; lia].
  - split; [|congruence]. split; [left; congruence| |].
    + intros x H. right. rewrite <- P. by eapply profile_caps_has.
    + right. rewrite h5, next_seq_small; destruct o as [->|o]; lia.
Qed.

(** C8: outside the capabilities route a manifest only shrinks. A request
    for an endpoint's manifest answers with the pinned one, or one signed
    anew with a higher number whose profile is the same or strictly narrower:
    no capability appears that neither the manifest nor its profile had. An
    endpoint without one starts at number 1 with monitor or respond. *)
Theorem manifest_never_raised v req a a' n :
  let key := book_key (mq_TenantID req) (TrimSpace (mq_EndpointID req)) in
  EndpointManifest v req a = (a', Ok n) ->
  (forall m, a_manifests a !! key = Some m -> min_int64 <= cm_Seq m <= max_int64 - 3) ->
  match a_manifests a !! key with
  | Some m => not_raised 3 m n
  | None => ProfileInitialAllowed (cm_Profile n) = true /\ cm_Seq n = 1 /\ a_manifests a' !! key = Some n
  end.
Proof.
  intros key H B. unfold EndpointManifest in H. inv_act H. fold key in H.
  destruct (a_manifests a !! key) as [m|] eqn:M.
  - specialize (B m eq_refl). apply act_bind_Ok in H as (a1 & m1 & H1%resign_renewed & H).
    apply act_bind_Ok in H as (a2 & m2 & H2%refresh_renewed & H).
    assert (N0 : not_raised 0 m m) by (split; auto).
    destruct (renewed_not_raised _ _ 0 m _ _ _ _ H1 N0) as [N1 P1]; [done|lia..|].
    destruct (renewed_not_raised _ _ _ m _ _ _ _ H2 N1) as [N2 P2]; [done|lia..|].
    destruct (_ && _) eqn:Q; [|apply ret_Ok in H as [-> ->]; destruct N2 as [p c o]; split; [done|done|]; destruct o; [by left|right; lia]].
    apply audited_manifest in H as [h1 h2 h3 h4 h5 h6]. bools. rewrite P2 in *. split.
    + right. congruence.
    + intros c Hc. right. eapply narrows_has; [eassumption|]. by eapply profile_caps_has.
    + right. destruct N2 as [_ _ o]. rewrite h5, next_seq_small; destruct o as [->|o]; lia.
  - apply act_bind_Ok in H as (a1 & u & [Al ->]%ensure_Ok & H).
    apply audited_manifest in H as [h1 h2 h3 h4 h5 h6]. rewrite h3, h5, h6. unfold key.
    rewrite lookup_insert_eq. done.
Qed.

(** ** Keys outlive a restart *)

(** Every key in memory is an active row of the table, and rows are stored
    under their tenant. *)
Record keys_stored (a : Authority) : Prop := {
  ks_row : forall t priv, a_tenantKeys a !! t = Some priv -> exists rec, tenant_keys (a_store a) !! t = Some rec
    /\ ky_Status rec = "active" /\ stored_key rec = Some priv /\ ky_KeyID rec = fingerprint (public_of priv);
  ks_table : forall t rec, tenant_keys (a_store a) !! t = Some rec -> ky_TenantID rec = t;
  ks_ids : forall t rec priv, tenant_keys (a_store a) !! t = Some rec -> stored_key rec = Some priv ->
    ky_KeyID rec = fingerprint (public_of priv);
}.

Lemma stored_key_length rec priv : stored_key rec = Some priv -> String.length priv = 64%nat.
Proof.
  unfold stored_key. destruct (hex_decode (ky_PrivateKey rec)) as [k|]; cbn; [|done].
  destruct (key_ok k) eqn:E; [|done]. intros [= <-]. unfold key_ok in E. by bools.
Qed.

Lemma save_key_table t priv rawHex part now s :
  hex_decode rawHex = Some priv -> String.length priv = 64%nat ->
  exists rec, tenant_keys (SaveTenantKey (new_key_record t priv rawHex part now) s) = <[t := rec]> (tenant_keys s)
    /\ ky_TenantID rec = t /\ ky_Status rec = "active" /\ stored_key rec = Some priv
    /\ ky_KeyID rec = fingerprint (public_of priv).
Proof.
  intros H Len. unfold SaveTenantKey. eexists. split; [reflexivity|]. cbn. repeat (split; [done|]). split; [|done].
  unfold stored_key. cbn. rewrite H. cbn. unfold key_ok. by rewrite Len.
Qed.

(** A new key row, and the key perhaps in memory. *)
Lemma keys_stored_insert a a' t priv rec :
  keys_stored a -> tenant_keys (a_store a') = <[t := rec]> (tenant_keys (a_store a)) ->
  ky_TenantID rec = t -> ky_Status rec = "active" -> stored_key rec = Some priv -> ky_KeyID rec = fingerprint (public_of priv) ->
  a_tenantKeys a' = <[t := priv]> (a_tenantKeys a) -> keys_stored a'.
Proof.
  intros [r tb i] E T S Sk F M. split; rewrite E.
  - intros t' p'. rewrite M. intros [[<- <-]|[N Lk]]%lookup_insert_Some; [rewrite lookup_insert_eq; eauto|].
    rewrite lookup_insert_ne by done. by apply r.
  - intros t' rec' [[<- <-]|[N Lk]]%lookup_insert_Some; [done|by apply tb].
  - intros t' rec' p' [[<- <-]|[N Lk]]%lookup_insert_Some Sk'; [congruence|by apply (i t')].
Qed.

Definition bad_key_id (t : string) : bool :=
  String.eqb t "" || String.eqb t "." || String.eqb t ".." || ContainsAny t (String "/" (String "092" (String "000" ""))).

Lemma cached_key_run f w now t a priv :
  bad_key_id t = false -> a_tenantKeys a !! t = Some priv ->
  getOrCreateKey f w now t a = (a, Ok (public_of priv, fingerprint (public_of priv))).
Proof.
  intros B C. unfold getOrCreateKey. unfold bad_key_id in B. erewrite bind_run by (apply ensure_run; by rewrite B).
  erewrite bind_run by reflexivity. by rewrite C.
Qed.

Lemma getOrCreateKey_Ok f w now t a a' pub id :
  keys_stored a -> String.length f = 64%nat -> getOrCreateKey f w now t a = (a', Ok (pub, id)) ->
  keys_stored a' /\ bad_key_id t = false
  /\ exists priv, a_tenantKeys a' !! t = Some priv /\ pub = public_of priv /\ id = fingerprint (public_of priv).
Proof.
  intros S Len H. unfold getOrCreateKey in H. apply act_bind_Ok in H as (a0 & u & [B ->]%ensure_Ok & H).
  apply negb_true_iff in B. fold (bad_key_id t) in B. inv_act H. destruct (a_tenantKeys a !! t) as [priv|] eqn:C.
  { apply ret_Ok in H as [[= -> ->] ->]. split; [done|]. split; [done|]. exists priv. done. }
  inv_act H. unfold active_key, GetTenantKey in H. destruct (tenant_keys (a_store a) !! t) as [rec|] eqn:Tr; cbn in H.
  1: destruct (String.eqb_spec (ky_Status rec) "active") as [St|]; cbn in H; [destruct (stored_key rec) as [priv|] eqn:Sk; cbn in H|].
  1: { injection H as <- <- <-. assert (Id := ks_ids a S t rec priv Tr Sk).
       split; [|split; [done|]; exists priv; cbn; by rewrite lookup_insert_eq].
       apply (keys_stored_insert a _ t priv rec); try done; [cbn; symmetry; by apply insert_id|by apply (ks_table a S)]. }
  all: destruct (save_key_table t f (hex_encode f) (SignerPartition (a_cfg a)) now (a_store a) (hex_decode_encode f) Len)
    as (rec' & E & T & St' & Sk' & Id).
  all: unfold mbind, action_bind in H; cbn in H; destruct (String.eqb (StateDir (a_cfg a)) ""); cbn in H;
    [|destruct w; cbn in H; [|discriminate H]]; injection H as <- <- <-.
  all: split; [|split; [done|]; exists f; cbn; by rewrite lookup_insert_eq].
  all: by apply (keys_stored_insert a _ t f rec').
Qed.

Lemma load_key_other l t : forall m, (forall rec, rec ∈ l -> ky_TenantID rec <> t) -> fold_left load_key l m !! t = m !! t.
Proof.
  induction l as [|r l IH]; intros m N; [done|]. cbn [fold_left]. rewrite IH by (intros rec I; apply N; set_solver).
  unfold load_key. destruct (stored_key r); [|done]. rewrite lookup_insert_ne; [done|]. apply N. set_solver.
Qed.

Lemma load_key_found l t priv : forall m,
  (forall rec, rec ∈ l -> ky_TenantID rec = t -> stored_key rec = Some priv) ->
  (exists rec, rec ∈ l /\ ky_TenantID rec = t) \/ m !! t = Some priv -> fold_left load_key l m !! t = Some priv.
Proof.
  induction l as [|r l IH]; intros m A [(rec & I & T)|E]; [by apply not_elem_of_nil in I|done|..]; cbn [fold_left]; apply IH;
    try (intros x Ix; apply A; set_solver).
  - apply elem_of_cons in I as [<-|I]; [|left; eauto]. right. unfold load_key.
    rewrite (A rec) by (done || set_solver). rewrite T. apply lookup_insert_eq.
  - right. unfold load_key. destruct (stored_key r) as [p|] eqn:Sk; [|done].
    destruct (decide (ky_TenantID r = t)) as [<-|N]; [|by rewrite lookup_insert_ne].
    rewrite (A r) in Sk by (done || set_solver). rewrite lookup_insert_eq. congruence.
Qed.

Lemma import_keeps now l t priv : forall a, a_tenantKeys a !! t = Some priv -> a_tenantKeys (importLegacyFileKeys now l a) !! t = Some priv.
Proof.
  unfold importLegacyFileKeys. induction l as [|e l IH]; intros a E; [done|]. cbn [fold_left]. apply IH. unfold importKey.
  destruct (_ || _); [done|]. destruct (a_tenantKeys a !! TrimSuffix (de_Name e) ".key") eqn:X; [done|].
  destruct (de_Data e); [|done]. destruct (hex_decode _) as [k|]; [|done]. destruct (key_ok k); [|done].
  cbn. rewrite lookup_insert_ne by congruence. done.
Qed.

(** A start loads the keys of the table. *)
Lemma start_loads cfg a d f w now t priv :
  keys_stored a -> a_tenantKeys a !! t = Some priv -> a_tenantKeys (NewAuthorityWithStore cfg (a_store a) d f w now) !! t = Some priv.
Proof.
  intros [r tb _] C. destruct (r t priv C) as (rec & E & St & Sk & _).
  assert (X : fold_left load_key (ListTenantKeys (a_store a)) ∅ !! t = Some priv).
  { apply load_key_found.
    - intros x (_ & k & Ek)%rows_where_elem T. rewrite (tb k x Ek) in T. subst k. congruence.
    - left. exists rec. split; [|by apply tb]. apply rows_where_elem. rewrite St. eauto. }
  unfold NewAuthorityWithStore. destruct (negb _); [by apply import_keeps|done].
Qed.

(** A tenant's key outlives restarts. The public key handed out once is
    handed out by every later start on the same database, under its SHA-256
    fingerprint, whatever the key directory, the configuration or the random
    source then are. *)
Theorem tenant_key_survives f w now t a a1 pub id cfg d mk wk now1 f' w' now2 :
  keys_stored a -> String.length f = 64%nat -> getOrCreateKey f w now t a = (a1, Ok (pub, id)) ->
  let restarted := NewAuthorityWithStore cfg (a_store a1) d mk wk now1 in
  id = fingerprint pub /\ getOrCreateKey f' w' now2 t restarted = (restarted, Ok (pub, id)).
Proof.
  intros S Len H restarted. destruct (getOrCreateKey_Ok _ _ _ _ _ _ _ _ S Len H) as (S' & B & priv & C & -> & ->).
  split; [done|]. apply cached_key_run; [done|]. by apply start_loads.
Qed.

(** ** Keys are there when asked for *)

Lemma forallb_impl f g s : (forall c, f c = true -> g c = true) -> string_forallb f s = true -> string_forallb g s = true.
Proof. intros I. induction s as [|c s IH]; [done|]. cbn. intros [A B]%andb_prop. by rewrite I, IH. Qed.

Lemma contains_any_app x y set : ContainsAny (x ++ y) set = ContainsAny x set || ContainsAny y set.
Proof. unfold ContainsAny. rewrite string_forallb_app. apply negb_andb. Qed.

Lemma slot_id_ok t slot : validTenant t = true -> slot = keySlotAutoIsolate \/ slot = keySlotPolicy -> bad_key_id (t ++ slot) = false.
Proof.
  intros [N C]%andb_prop Sl. unfold bad_key_id. rewrite contains_any_app.
  assert (Ct : ContainsAny t (String "/" (String "092" (String "000" ""))) = false).
  { unfold ContainsAny in *. rewrite negb_involutive in C. rewrite negb_false_iff. eapply forallb_impl; [|exact C].
    intros c. cbn. destruct (Ascii.eqb c "#"); [done|]. by intros. }
  assert (Sh : forall x, (String.length x < 7)%nat -> String.eqb (t ++ slot) x = false).
  { intros x Hx. apply String.eqb_neq. intros E. apply (f_equal String.length) in E. rewrite length_app_str in E.
    destruct Sl as [-> | ->]; cbn in E; lia. }
  rewrite Ct, !Sh by (cbn; lia). by destruct Sl as [-> | ->].
Qed.

Lemma getOrCreateKey_run f now t a :
  bad_key_id t = false ->
  exists a' r, getOrCreateKey f true now t a = (a', Ok r) /\ is_Some (a_tenantKeys a' !! t).
Proof.
  intros B. unfold getOrCreateKey. unfold bad_key_id in B. erewrite bind_run by (apply ensure_run; by rewrite B).
  erewrite bind_run by reflexivity. destruct (a_tenantKeys a !! t) as [priv|] eqn:C; [do 2 eexists; split; [done|]; eauto|].
  erewrite bind_run by reflexivity. destruct (active_key t (a_store a)) as [[priv id]|].
  - do 2 eexists. split; [reflexivity|]. cbn. rewrite lookup_insert_eq. eauto.
  - erewrite bind_run by reflexivity. erewrite bind_run by reflexivity.
    destruct (String.eqb (StateDir (a_cfg a)) ""); erewrite bind_run by reflexivity; do 2 eexists; (split; [reflexivity|]); cbn;
      rewrite lookup_insert_eq; eauto.
Qed.

Lemma slotKey_run v t slot a :
  validTenant t = true -> slot = keySlotAutoIsolate \/ slot = keySlotPolicy -> e_wrote v = true ->
  exists a' key, slotKey v t slot a = (a', Ok key).
Proof.
  intros V Sl W. unfold slotKey. erewrite bind_run by (by apply ensure_run). rewrite W.
  destruct (getOrCreateKey_run (e_key v (t ++ slot)) (e_now v) (t ++ slot) a (slot_id_ok t slot V Sl)) as (a1 & r & E & [p P]).
  erewrite bind_run by exact E. erewrite bind_run by reflexivity. rewrite P. do 2 eexists. reflexivity.
Qed.

Lemma signManifest_run v t ep p caps seq a :
  validTenant t = true -> ProfileCaps p = Some caps -> e_wrote v = true -> e_saved v = true ->
  exists a' m, signManifestLocked v t ep p seq a = (a', Ok m).
Proof.
  intros V C W Sv. unfold signManifestLocked. rewrite C.
  destruct (slotKey_run v t keySlotPolicy a V) as (a1 & key & E); [by right|done|]. erewrite bind_run by exact E.
  unfold save_manifest. rewrite Sv. unfold mbind, action_bind. destruct (String.eqb _ ""); eauto.
Qed.

Lemma import_manifests now l : forall a, a_manifests (importLegacyFileKeys now l a) = a_manifests a.
Proof.
  unfold importLegacyFileKeys. induction l as [|e l IH]; intros a; [done|]. cbn [fold_left]. rewrite IH. unfold importKey.
  destruct (_ || _); [done|]. destruct (a_tenantKeys a !! _); [done|]. destruct (de_Data e); [|done].
  destruct (hex_decode _) as [k|]; [|done]. by destruct (key_ok k).
Qed.

(** A corrupt manifest book is forgotten. A start that cannot read or
    parse [manifests.json] goes on with an empty book, unlike one that cannot
    read the issue times or the trust epochs: the next request pins any
    endpoint, also one narrowed to monitor, to respond with number 1. *)
Theorem corrupt_manifests_forgotten cfg store d mk wk now v t ep :
  dk_manifests d = Corrupt \/ dk_manifests d = Unreadable ->
  validTenant t = true -> endpoint_ok (TrimSpace ep) = true -> e_wrote v = true -> e_saved v = true ->
  exists a' m,
    EndpointManifest v (mkManifestRequest t ep "") (NewAuthorityWithStore cfg store d mk wk now) = (a', Ok m)
    /\ cm_Profile m = "respond" /\ cm_Seq m = 1 /\ manifest_Has (Some m) CapIsolate = true.
Proof.
  intros Bad V E W Sv. set (a := NewAuthorityWithStore cfg store d mk wk now).
  assert (B : a_manifests a = ∅).
  { unfold a, NewAuthorityWithStore. set (a0 := mkAuthority _ _ _ _ _ _ _ _ _ _ _ _ _).
    assert (E0 : a_manifests a0 = ∅).
    { cbn. unfold newManifestBook. destruct (String.eqb _ ""); [done|]. by destruct Bad as [-> | ->]. }
    destruct (negb _); [by rewrite import_manifests|done]. }
  destruct (signManifest_run v t (TrimSpace ep) "respond" _ 1 a V eq_refl W Sv) as (a1 & m & S).
  unfold EndpointManifest. cbn [mq_TenantID mq_EndpointID mq_Profile].
  erewrite bind_run by (by apply ensure_run). erewrite bind_run by (by apply ensure_run). erewrite bind_run by reflexivity.
  rewrite B, lookup_empty. cbn [nonempty String.eqb negb]. erewrite bind_run by reflexivity. erewrite bind_run by exact S.
  erewrite bind_run by reflexivity. do 2 eexists. split; [reflexivity|].
  apply signManifest_Ok in S as [_ _ p c q _]. split; [done|]. split; [done|].
  cbn in c. injection c as c. cbn [manifest_Has]. rewrite <- c. done.
Qed.

(** ** Authorized actions *)

(** Keys in memory stay, and all have the size of an Ed25519 key. *)
Definition sized (a : Authority) : Prop := forall t k, a_tenantKeys a !! t = Some k -> String.length k = 64%nat.

Definition keys_kept (a a' : Authority) : Prop := a_tenantKeys a ⊆ a_tenantKeys a' /\ (sized a -> sized a').

#[local] Instance keys_kept_preorder : PreOrder keys_kept.
Proof. split; [intros a; split; done|]. intros a b c [? ?] [? ?]. split; [by etransitivity|auto]. Qed.

Lemma keys_same a a' : a_tenantKeys a' = a_tenantKeys a -> keys_kept a a'.
Proof. intros E. unfold keys_kept, sized. by rewrite E. Qed.

Lemma keys_add a a' t k :
  a_tenantKeys a !! t = None -> String.length k = 64%nat -> a_tenantKeys a' = <[t := k]> (a_tenantKeys a) -> keys_kept a a'.
Proof.
  intros N Len E. unfold keys_kept, sized. rewrite E. split; [by apply insert_subseteq|].
  intros S t' k' [[_ <-]|[_ Lk]]%lookup_insert_Some; eauto.
Qed.

Lemma keys_getOrCreateKey f w now t : String.length f = 64%nat -> respects keys_kept (getOrCreateKey f w now t).
Proof.
  intros Len a. unfold getOrCreateKey, mbind, action_bind, ensure. destruct (negb _); cbn; [|by apply keys_same].
  destruct (a_tenantKeys a !! t) as [p|] eqn:C; cbn; [by apply keys_same|].
  unfold active_key. destruct (GetTenantKey t (a_store a)) as [rec|]; cbn.
  1: destruct (String.eqb _ "active"); cbn; [destruct (stored_key rec) as [p|] eqn:Sk; cbn|].
  1: apply (keys_add _ _ t p); [done|by eapply stored_key_length|done].
  all: destruct (String.eqb (StateDir (a_cfg a)) ""); cbn; [|destruct w; cbn; [|by apply keys_same]]; by apply (keys_add _ _ t f).
Qed.

Lemma keys_on_store f : respects keys_kept (on_store f).
Proof. intros a. by apply keys_same. Qed.

Lemma keys_issue v t : respects keys_kept (next_issue_time v t).
Proof. intros a. unfold next_issue_time. destruct (next _ _ _ _ _) as [[c f] r]. by apply keys_same. Qed.

Lemma keys_save v k m : respects keys_kept (save_manifest v k m).
Proof. intros a. unfold save_manifest. destruct (String.eqb _ ""); [by apply keys_same|]. destruct (e_saved v); by apply keys_same. Qed.

Lemma keys_audit now t o e k ep id st d : respects keys_kept (auditAction now t o e k ep id st d).
Proof. apply keys_on_store. Qed.

Context (v : env) (fresh_sized : forall id, String.length (e_key v id) = 64%nat).

Lemma keys_fresh id w now t : respects keys_kept (getOrCreateKey (e_key v id) w now t).
Proof. by apply keys_getOrCreateKey. Qed.

Hint Resolve keys_fresh keys_on_store keys_issue keys_save keys_audit : respects.

Lemma keys_slotKey t s : respects keys_kept (slotKey v t s).
Proof. unfold slotKey. respects. Qed.

Lemma keys_tenantKey t : respects keys_kept (tenantSigningKey v t).
Proof. unfold tenantSigningKey, GetOrCreateTenantKey. respects. Qed.

Hint Resolve keys_slotKey keys_tenantKey : respects.

Lemma keys_signManifest t ep p seq : respects keys_kept (signManifestLocked v t ep p seq).
Proof. unfold signManifestLocked. respects. Qed.

Hint Resolve keys_signManifest : respects.

Lemma keys_apply au : respects keys_kept (applyCapabilityChange v au).
Proof. unfold applyCapabilityChange. respects. Qed.

Lemma keys_sign_targets au p k i ttl n l : respects keys_kept (sign_targets v au p k i ttl n l).
Proof. revert n. induction l as [|t l IH]; intros n; cbn [sign_targets]; respects. Qed.

Hint Resolve keys_apply : respects.

(** One grant of an authorization for one target. *)
Record target_grant (au : authorized) (priv : string) (issued : Z) (i : nat) (ep : string) (g : EndpointGrant) : Prop := {
  tg_id : GrantID g = e_id v i;
  tg_nonce : Nonce g = hex_encode (e_nonce v i);
  tg_endpoint : EndpointID g = ep;
  tg_tenant : TenantID g = au_TenantID au;
  tg_kind : ActionKind g = au_Kind au;
  tg_digest : ActionDigest g = au_Digest au;
  tg_operator : OperatorID g = au_Requester au;
  tg_times : IssuedAt g = issued /\ ExpiresAt g = issued + grantTTL (au_Kind au) (au_TTLSeconds au);
  tg_signer : SignerKeyID g = fingerprint (public_of priv);
  tg_signature : Signature g = hex_encode (ed25519_sign priv (grant_CanonicalBytes g));
}.

Lemma sign_targets_Ok au priv issued l : forall n a a' gs,
  sign_targets v au priv (fingerprint (public_of priv)) issued (grantTTL (au_Kind au) (au_TTLSeconds au)) n l a = (a', Ok gs) ->
  Forall2 (fun ie g => target_grant au priv issued ie.1 ie.2 g) (imap (fun i ep => ((n + i)%nat, ep)) l) gs.
Proof.
  induction l as [|ep l IH]; intros n a a' gs H; cbn [sign_targets] in H; [apply ret_Ok in H as [-> _]; constructor|].
  apply act_bind_Ok in H as (a1 & u & _ & H). apply act_bind_Ok in H as (a2 & gs' & S & H). apply ret_Ok in H as [-> ->].
  rewrite imap_cons, Nat.add_0_r. constructor; [by split|]. apply IH in S.
  erewrite imap_ext; [exact S|]. intros i e _. cbn. by rewrite Nat.add_succ_r.
Qed.

Lemma tenantKey_Ok t a a' p k :
  tenantSigningKey v t a = (a', Ok (p, k)) -> a_tenantKeys a' !! t = Some p /\ k = fingerprint (public_of p).
Proof.
  unfold tenantSigningKey. intros H. apply act_bind_Ok in H as (a1 & x & _ & H). inv_act H.
  destruct (a_tenantKeys a1 !! t) as [q|] eqn:E; [|done]. by apply ret_Ok in H as [[= -> ->] ->].
Qed.

(** An authorized action gets one grant per target, in the order of the
    targets, and nothing else. Each names its target, the action's kind and
    the digest of the payload that was checked, carries an identifier and a
    nonce drawn for it alone, lives exactly as long as its kind allows, and verifies under the tenant's response key. A
    detection-policy change signs none. *)
Theorem authorized_grants `{Laws : !AuthCryptoLaws} au a a' gs :
  signAuthorized v au a = (a', Ok gs) -> sized a ->
  if String.eqb (au_Kind au) ActionKindDetectionPolicy then gs = []
  else exists priv issued, a_tenantKeys a' !! au_TenantID au = Some priv
    /\ Forall2 (fun ie g => target_grant au priv issued ie.1 ie.2 g) (imap pair (au_Targets au)) gs
    /\ Forall (fun g => exists sig, hex_decode (Signature g) = Some sig
         /\ ed25519_verify (public_of priv) (grant_CanonicalBytes g) sig = true) gs.
Proof.
  intros H Sz. unfold signAuthorized in H. destruct (String.eqb _ _); [inv_act H; by apply ret_Ok in H as [-> _]|].
  apply act_bind_Ok in H as (a1 & [p k] & T & H). assert (K1 := respects_run _ _ _ _ _ (keys_tenantKey _) T).
  apply tenantKey_Ok in T as [P ->]. cbn [fst snd] in H.
  apply act_bind_Ok in H as (a2 & issued & I & H).
  assert (K2 : keys_kept a1 a2) by (eapply respects_run; [|exact I]; respects).
  apply act_bind_Ok in H as (a3 & u & C & H).
  assert (K3 : keys_kept a2 a3) by (eapply respects_run; [|exact C]; respects).
  assert (K4 := respects_run _ _ _ _ _ (keys_sign_targets _ _ _ _ _ _ _) H).
  assert (KK : keys_kept a1 a') by (etransitivity; [exact K2|]; etransitivity; [exact K3|exact K4]).
  assert (Len : String.length p = 64%nat) by (by apply (proj2 K1 Sz (au_TenantID au))).
  apply sign_targets_Ok in H. exists p, issued. split; [by eapply lookup_weaken; [exact P|apply KK]|]. split; [done|].
  apply Forall_forall. intros g (i & Gi)%list_elem_of_lookup. destruct (Forall2_lookup_r _ _ _ _ _ H Gi) as (ep & _ & G).
  rewrite (tg_signature _ _ _ _ _ _ G), hex_decode_encode. eexists. split; [done|]. by apply sign_verifies.
Qed.

End Keys.
