(* ===== verification/AuthExamples.v ===== *)
(** * Examples of the response authority

    Concrete authorities, sessions and requests on which the theorems of
    [AuthorityProps], [AuthorityTotp] and [AuthTrustProps] apply, with the
    cryptography replaced by functions that compute. *)

From Stdlib Require Import Ascii String Sorted.
From stdpp Require Import gmap.
From S2P Require Import Prelude Action NetIP Canonical CanonicalProps Utf8 Platform Encoding AuthBooks AuthStore WebAuthn Authority AuthTrust AuthorityProps AuthorityTotp AuthTrustProps.

Import canonical platform utf8 encoding books authstore webauthn authority authtrust.

Module authority_example.

Local Open Scope string_scope.
Local Open Scope Z_scope.

(** ** Cryptography that computes *)

#[export] Existing Instance ascii_only.

Fixpoint pad (n : nat) (s : string) : string :=
  match n, s with
  | O, _ => EmptyString
  | S n, EmptyString => String "." (pad n EmptyString)
  | S n, String c s => String c (pad n s)
  end.

Lemma pad_length n s : String.length (pad n s) = n.
Proof. revert s. induction n as [|n IH]; intros [|c s]; cbn; [done..|by rewrite IH|by rewrite IH]. Qed.

#[export] Instance toy_crypto : Crypto := {|
  sha256 := pad 32;
  ed25519_verify := fun pub msg sig => String.eqb sig (pad 64 (pub ++ msg));
|}.

#[export] Instance toy_auth : AuthCrypto := {|
  ed25519_sign := fun priv msg => pad 64 (string_drop 32 priv ++ msg);
  hmac_sha1 := fun key msg => pad 20 (msg ++ key);
  aes_gcm_seal := fun key nonce aad m => m;
  aes_gcm_open := fun key nonce aad m => Some m;
  uni_upper := string_map upper_byte;
|}.

#[export] Instance toy_laws : AuthCryptoLaws.
Proof. split; intros; [apply String.eqb_refl|apply pad_length|reflexivity|apply pad_length]. Qed.

#[export] Instance toy_rows : Rows := {| in_row_order := fun A l => l; in_row_order_perm := fun A l => Permutation_refl l |}.

#[export] Instance toy_lib : WebAuthnLib := {|
  unmarshal_client_data := fun _ => None;
  marshal_credential := sc_CredentialID;
  unmarshal_credential := fun _ => None;
  url_hostname := fun _ => None;
  parse_pkix := fun _ => None;
  p256_point := fun x y => x ++ y;
  ecdsa_verify_asn1 := fun _ _ _ => false;
  ecdsa_verify := fun _ _ _ _ => false;
  rsa_verify_pkcs1 := fun _ _ _ => false;
|}.

#[export] Instance toy_json : AuthJson := {|
  is_Cf := fun _ => false;
  decode_routed := fun _ => Some ("/api/v1/endpoints/capabilities", "");
  decode_capability := fun _ => Some (mkCapability "pc-1" "engagement" "");
  marshal_isolation := fun route ep reason _ => route ++ ep ++ reason;
|}.

(** ** An authority with an operator and a session *)

Definition cfg : Config := mkConfig "/var/lib/authority" "" 0 0 1.
Definition empty_disk : disk := mkDisk None Missing Missing Missing [].

Definition new_authority (s : SQLiteStore) : Authority := NewAuthorityWithStore cfg s empty_disk (pad 32 "master") true 0.

Definition fresh_key : string := pad 64 "seed".
Definition start : Authority := fst (GetOrCreateTenantKey fresh_key true 0 "acme" (new_authority empty_tables)).

Definition enrol := EnrollTOTP "twenty random bytes." "twelve bytes" "auth-1" 0 "acme" "ana".
Definition enrolled : Authority := fst (enrol start).
Definition secret : string := GenerateTOTPSecret "twenty random bytes.".
Definition browser_key : string := hex_encode (pad 32 "browser").
Definition noon : Z := 43200 * Second.
Definition right_code : string := match GenerateTOTPCode secret noon with Ok c => c | Err e => e end.

Definition unlocked : Authority :=
  fst (UnlockSessionWithTOTP "session-1" noon "acme" "ana" "browser-1" browser_key right_code enrolled).

Lemma enrol_ok : enrol start = (enrolled, Ok secret).
Proof. vm_compute. reflexivity. Qed.

Lemma enrolled_secret_opens_witness :
  exists code a2 session,
    GenerateTOTPCode secret noon = Ok code
    /\ UnlockSessionWithTOTP "session-1" noon "acme" "ana" "browser-1" browser_key code enrolled = (a2, Ok session)
    /\ rs_TenantID session = "acme" /\ rs_OperatorID session = "ana" /\ rs_BrowserPublicKey session = browser_key
    /\ is_Some (response_sessions (a_store a2) !! "session-1").
Proof.
  apply (enrolled_secret_opens "twenty random bytes." "twelve bytes" "auth-1" 0 "acme" "ana" start enrolled);
    [exact enrol_ok|vm_compute; reflexivity..].
Defined.

(** ** A signed grant and its replay *)

(** A payload is given, so its digest is the one to compare. *)
Definition payload_digest : string := hex_encode (pad 32 "collect").

Definition a_proof (nonce : string) : ActionProof :=
  let p sig := mkProof 2 "session-1" "acme" ActionKindForensicCollect payload_digest ["pc-1"] (Unix noon) nonce sig in
  p (hex_encode (pad 64 (pad 32 "browser" ++ proof_CanonicalBytes (p "")))).

Definition a_request (nonce : string) : SignGrantRequest :=
  mkSignGrant "acme" "ana" "session-1" "pc-1" ActionKindForensicCollect payload_digest "collect" 600 (Some (a_proof nonce)).

Definition signed_once : Authority * result string EndpointGrant := SignGrant "grant-1" "nonce" noon (a_request "ab01") unlocked.

Definition the_grant : EndpointGrant :=
  match snd signed_once with Ok g => g | Err _ => mkGrant 0 "" "" "" "" "" "" "" 0 0 "" "" "" "" end.

Lemma signed_once_ok : SignGrant "grant-1" "nonce" noon (a_request "ab01") unlocked = (fst signed_once, Ok the_grant).
Proof. vm_compute. reflexivity. Qed.

Definition the_session : ResponseSession :=
  mkSession "session-1" "ana" "acme" "browser-1" browser_key session_kinds noon (noon + 1800 * Second) (noon + 28800 * Second)
    false AuthMethodTOTP.

Lemma session_row : response_sessions (a_store unlocked) !! "session-1" = Some the_session.
Proof. vm_compute. reflexivity. Qed.

Lemma proof_replayed_by_case_witness :
  exists a'' g',
    SignGrant "grant-2" "nonce" noon ((a_request "ab01") <| rq_Proof := Some ((a_proof "ab01") <| ap_Nonce := "AB01" |>) |>)
      (fst signed_once) = (a'', Ok g').
Proof.
  apply (proof_replayed_by_case "grant-1" "nonce" "grant-2" "nonce" noon (a_request "ab01") (a_proof "ab01") "AB01"
           the_session unlocked (fst signed_once) the_grant);
    [reflexivity|exact signed_once_ok|vm_compute; reflexivity|discriminate|vm_compute; reflexivity|exact session_row|reflexivity|].
  vm_compute. discriminate.
Defined.

(** The session locked between the read and the write. *)
Definition locked : Authority := fst (LockSession noon "session-1" unlocked).

Definition signed_locked : Authority * result string EndpointGrant :=
  sign_from "grant-1" "nonce" noon (a_request "ab01") (a_proof "ab01") the_session locked.

Lemma lock_lost_witness :
  (exists row, response_sessions (a_store locked) !! "session-1" = Some row /\ rs_Locked row = true)
  /\ (exists row, response_sessions (a_store (fst signed_locked)) !! "session-1" = Some row /\ rs_Locked row = false).
Proof.
  apply (lock_lost "grant-1" "nonce" noon noon (a_request "ab01") (a_proof "ab01") unlocked unlocked the_session locked
           (fst signed_locked) the_grant); vm_compute; reflexivity.
Defined.

(** ** Revoked members and recovery tokens *)

Definition revoked : Authority := fst (RevokeMembership noon "acme" "ana" enrolled).

Lemma revoked_tenant_bootstraps_witness :
  exists a' secret m,
    EnrollTOTP "twenty other bytes.." "twelve bytes" "auth-2" noon "acme" "ana" revoked = (a', Ok secret)
    /\ memberships (a_store a') !! ("acme", "ana") = Some m /\ mr_Role m = RoleResponseAdmin /\ mr_Status m = "active"
    /\ (exists rec, authenticators (a_store a') !! "auth-2" = Some rec /\ ar_Status rec = "active").
Proof.
  apply (revoked_tenant_bootstraps "twenty other bytes.." "twelve bytes" "auth-2" noon "acme" "ana" revoked); [reflexivity|].
  assert (F : map_Forall (fun _ m => mr_Status m <> "active") (memberships (a_store revoked))).
  { change (memberships (a_store revoked)) with ({[ ("acme", "ana") := mkMembership "acme" "ana" RoleResponseAdmin "revoked" 0 noon ]}
      : gmap (string * string) MembershipRecord). apply map_Forall_singleton. discriminate. }
  intros k m E _. exact (F k m E).
Defined.

Definition token : string := hex_encode "twenty-four random bytes".
Definition with_token : Authority := fst (GenerateRecoveryToken "twenty-four random bytes" noon "acme" "ana" enrolled).

Lemma recovery_token_unbound_witness :
  exists a2, ResetLockoutWithRecovery noon "globex" "bob" token with_token = (a2, Ok tt)
    /\ authenticators (a_store a2)
       = authenticators (clear_lockouts noon (ListAuthenticators "globex" "bob" (a_store enrolled)) (a_store enrolled)).
Proof.
  apply (recovery_token_unbound "twenty-four random bytes" noon noon "acme" "ana" "globex" "bob" enrolled with_token token);
    [vm_compute; reflexivity|vm_compute; reflexivity|vm_compute; discriminate|reflexivity].
Defined.

(** ** Wrong codes *)

Definition guess (i : nat) : auth_op :=
  AUnlock "session" (noon + Z.of_nat i * 60 * Second) "acme" "ana" "browser" browser_key "000000".

(** Eight wrong codes in eight minutes; then a recovery token is made and used
    while another operator joins and enrols, and two more wrong codes follow. *)
Definition recovery_bytes : string := "twenty-four random bytes".

Definition guesses : list auth_op :=
  (map guess (seq 1 8)
   ++ [ARecover recovery_bytes (noon + 500 * Second) "acme" "ana"; AGrant (noon + 505 * Second) "acme" "bob" RoleResponseAdmin;
       AEnroll "another secret" "twelve bytes" "auth-2" (noon + 507 * Second) "acme" "bob";
       AReset (noon + 510 * Second) "acme" "ana" (hex_encode recovery_bytes)]
   ++ map guess (seq 9 2))%list.

Lemma enrolled_table :
  authenticators (a_store enrolled)
  = {[ "auth-1" := mkAuthenticator "auth-1" "ana" "acme" AuthMethodTOTP SecurityLabelTOTP
         (stored_secret (a_masterKey start) "twelve bytes" secret) "active" 0 None 0 None ]}.
Proof. vm_compute. reflexivity. Qed.

Lemma ana_sole : sole_totp "acme" "ana" "auth-1" (a_store enrolled).
Proof.
  split; rewrite enrolled_table.
  - intros id rec [<- <-]%lookup_singleton_Some. reflexivity.
  - eexists. split; [apply lookup_singleton_eq|]. vm_compute. repeat split; discriminate.
  - intros id rec [<- _]%lookup_singleton_Some. done.
Qed.

(** Five before the recovery, two after it. *)
Lemma seven_compared :
  length (wrong_codes "acme" "ana" guesses enrolled) = 7%nat /\ clearings "acme" "ana" guesses enrolled = 1%nat.
Proof. vm_compute. done. Qed.

Lemma totp_guesses_limited_witness :
  (length (within LockoutDuration (noon + 660 * Second) (wrong_codes "acme" "ana" guesses enrolled))
   <= 5 * (1 + clearings "acme" "ana" guesses enrolled))%nat
  /\ length (wrong_codes "acme" "ana" guesses enrolled) = 7%nat.
Proof.
  split; [|exact (proj1 seven_compared)].
  apply (totp_guesses_limited "acme" "ana" "auth-1" guesses enrolled 0); [exact ana_sole| |].
  - vm_compute. repeat split; discriminate.
  - repeat (split; [vm_compute; discriminate|]). vm_compute. discriminate.
Defined.

(** ** Keys, isolations and manifests *)

Definition world (now : Z) : env :=
  mkEnv now (fun id => pad 64 id) true (fun i => "id-" ++ pretty i) (fun i => "nonce-" ++ pretty i) WriteOk WriteOk true.

Definition isolate (i : nat) : env * AutoIsolateRequest :=
  (world (noon + Z.of_nat i * 60 * Second), mkAutoIsolate "acme" ("pc-" ++ pretty i) "sweep" []).

(** Eight hosts in eight minutes. *)
Definition sweep : list (env * AutoIsolateRequest) := map isolate (seq 1 8).

Lemma six_signed : length (isolations (for_tenant "acme") sweep start) = 6%nat.
Proof. vm_compute. reflexivity. Qed.

Lemma auto_isolation_rationed_witness :
  (length (within Hour (noon + 480 * Second) (map (fun x => x.1.1) (isolations (for_tenant "acme") sweep start))) <= 6)%nat
  /\ length (isolations (for_tenant "acme") sweep start) = 6%nat.
Proof.
  split; [|exact six_signed].
  refine (proj1 (auto_isolation_rationed "acme" "pc-1" sweep start 0 (noon + 480 * Second) _ _)); [vm_compute; reflexivity|].
  repeat (split; [vm_compute; discriminate|]). vm_compute. discriminate.
Defined.

Definition pinned : Authority := fst (EndpointManifest (world noon) (mkManifestRequest "acme" "pc-1" "") start).

Definition narrowing : Authority * result string CapabilityManifest :=
  EndpointManifest (world noon) (mkManifestRequest "acme" "pc-1" "monitor") pinned.

Definition no_manifest : CapabilityManifest := mkManifest 0 "" "" "" [] 0 0 "" "".

Definition pinned_manifest : CapabilityManifest := default no_manifest (a_manifests pinned !! book_key "acme" "pc-1").
Definition narrowed : CapabilityManifest := match snd narrowing with Ok m => m | Err _ => no_manifest end.

Lemma narrowing_ok :
  EndpointManifest (world noon) (mkManifestRequest "acme" "pc-1" "monitor") pinned = (fst narrowing, Ok narrowed).
Proof. vm_compute. reflexivity. Qed.

Lemma pinned_row : a_manifests pinned !! book_key "acme" (TrimSpace "pc-1") = Some pinned_manifest.
Proof. vm_compute. reflexivity. Qed.

Lemma manifest_never_raised_witness : not_raised 3 pinned_manifest narrowed /\ cm_Profile narrowed = "monitor" /\ cm_Seq narrowed = 2.
Proof.
  split; [|vm_compute; split; reflexivity].
  assert (M := manifest_never_raised (world noon) (mkManifestRequest "acme" "pc-1" "monitor") pinned (fst narrowing) narrowed
    narrowing_ok). cbn [mq_TenantID mq_EndpointID] in M. rewrite pinned_row in M. apply M.
  intros m [= <-]. vm_compute. split; discriminate.
Defined.

Definition corrupt_disk : disk := mkDisk None Corrupt Missing Missing [].

Lemma corrupt_manifests_forgotten_witness :
  exists a' m,
    EndpointManifest (world noon) (mkManifestRequest "acme" "pc-1" "")
      (NewAuthorityWithStore cfg (a_store (fst narrowing)) corrupt_disk (pad 32 "m") true noon) = (a', Ok m)
    /\ cm_Profile m = "respond" /\ cm_Seq m = 1 /\ manifest_Has (Some m) CapIsolate = true.
Proof.
  apply (corrupt_manifests_forgotten cfg (a_store (fst narrowing)) corrupt_disk (pad 32 "m") true noon (world noon) "acme" "pc-1");
    [left; reflexivity|vm_compute; reflexivity..].
Defined.

Lemma no_keys : keys_stored (new_authority empty_tables).
Proof.
  split; intros *.
  - change (a_tenantKeys (new_authority empty_tables)) with (∅ : gmap string string). by rewrite lookup_empty.
  - change (tenant_keys (a_store (new_authority empty_tables))) with (∅ : gmap string TenantKeyRecord). by rewrite lookup_empty.
  - change (tenant_keys (a_store (new_authority empty_tables))) with (∅ : gmap string TenantKeyRecord). by rewrite lookup_empty.
Qed.

Definition other_disk : disk := mkDisk None Missing Missing Missing [mkEntry "acme.key" false (Some (hex_encode (pad 64 "other")))].

Lemma tenant_key_survives_witness :
  let pub := public_of fresh_key in
  let restarted := NewAuthorityWithStore cfg (a_store start) other_disk (pad 32 "m") true noon in
  fingerprint pub = fingerprint pub
  /\ getOrCreateKey (pad 64 "new") true noon "acme" restarted = (restarted, Ok (pub, fingerprint pub)).
Proof.
  apply (tenant_key_survives fresh_key true 0 "acme" (new_authority empty_tables) start); [exact no_keys|..]; vm_compute; reflexivity.
Defined.

Definition isolation : authorized :=
  mkAuthorized "a1" "acme" "ana" ActionKindIsolationChange (pad 64 "") "{}" ["pc-1"; "pc-2"] 0.

Definition authorizing : Authority * result string (list EndpointGrant) := signAuthorized (world noon) isolation start.

Definition its_grants : list EndpointGrant := match snd authorizing with Ok gs => gs | Err _ => [] end.

Lemma authorizing_ok : signAuthorized (world noon) isolation start = (fst authorizing, Ok its_grants).
Proof. vm_compute. reflexivity. Qed.

Lemma start_sized : sized start.
Proof.
  intros t k. change (a_tenantKeys start) with ({[ "acme" := fresh_key ]} : gmap string string).
  intros [_ <-]%lookup_singleton_Some. reflexivity.
Qed.

Lemma authorized_grants_witness :
  exists priv issued, a_tenantKeys (fst authorizing) !! "acme" = Some priv
    /\ Forall2 (fun ie g => target_grant (world noon) isolation priv issued ie.1 ie.2 g) [(0%nat, "pc-1"); (1%nat, "pc-2")] its_grants
    /\ Forall (fun g => exists sig, hex_decode (Signature g) = Some sig
         /\ ed25519_verify (public_of priv) (grant_CanonicalBytes g) sig = true) its_grants.
Proof.
  apply (authorized_grants (world noon) (fun id => pad_length 64 id) isolation start (fst authorizing) its_grants authorizing_ok
    start_sized).
Defined.

End authority_example.

(** ** A browser that signed one proof *)

Module browser_example.
Import authority_example.

Local Open Scope string_scope.
Local Open Scope Z_scope.

Definition its_proof : ActionProof :=
  mkProof 2 "session-1" "acme" ActionKindScriptExec (hex_encode (pad 32 "script")) ["pc-1"; "pc-2"] (Unix noon) "ab01"
    (hex_encode (pad 64 "signature")).

(** Only the bytes of that proof verify. *)
#[local] Instance one_proof : Crypto := {|
  sha256 := pad 32;
  ed25519_verify := fun _ msg _ => String.eqb msg (proof_CanonicalBytes its_proof);
|}.

Definition its_request : SignGrantRequest :=
  mkSignGrant "acme" "ana" "session-1" "pc-2" ActionKindScriptExec (hex_encode (pad 32 "script")) "script" 7200 (Some its_proof).

Definition its_grant : EndpointGrant :=
  match snd (SignGrant "grant-1" "nonce" noon its_request unlocked) with Ok g => g | Err _ => the_grant end.

Lemma its_grant_ok :
  SignGrant "grant-1" "nonce" noon its_request unlocked = (fst (SignGrant "grant-1" "nonce" noon its_request unlocked), Ok its_grant).
Proof. vm_compute. reflexivity. Qed.

Lemma its_proof_fits : proof_fits its_proof.
Proof.
  split; [vm_compute; split; discriminate|vm_compute; reflexivity|..]; repeat constructor; vm_compute; reflexivity.
Qed.

Lemma grant_signed_for_proof_witness :
  exists session p q, response_sessions (a_store unlocked) !! "session-1" = Some session
    /\ p = its_proof /\ same_proof q p /\ EndpointID its_grant ∈ ap_TargetEndpoints p
    /\ 1 <= ExpiresAt its_grant - IssuedAt its_grant <= 3600.
Proof.
  destruct (grant_signed_for_proof (fun p => p = its_proof) "grant-1" "nonce" noon its_request unlocked _ its_grant its_grant_ok)
    as (s & p & q & priv & S & _ & _ & _ & _ & Sg & Sm & _ & _ & _ & T & _ & _ & _ & _ & X & _).
  - intros s pub msg sig _ _ E. exists its_proof. split; [reflexivity|]. split; [exact its_proof_fits|].
    apply String.eqb_eq. exact E.
  - intros p [= <-]. split; [exact its_proof_fits|]. vm_compute. repeat split; discriminate.
  - exists s, p, q. split; [exact S|]. split; [exact Sg|]. split; [exact Sm|]. split; [exact T|exact X].
Defined.

End browser_example.
