(* ===== verification/Evidence.v ===== *)
(** * The evidence store

    [hub/pkg/evidence]: bundles of artifacts collected from endpoints. Items
    arrive whole or in chunks, are encrypted into objects named by their
    digest, and are read, exported, held and pruned; finalizing a bundle
    checks its manifest and signs a receipt chained to the tenant's previous
    one. The tables and the files of the storage directory are the state.
    Statements of the database succeed unless a constraint stops them; file
    writes may fail, and a failed write of a chunk may leave part of it. *)

From Stdlib Require Import Ascii String.
From stdpp Require Import gmap.
From S2P Require Import Prelude NetIP Canonical Action Platform.

Module evidence.
Import canonical platform.

Local Open Scope string_scope.
Local Open Scope Z_scope.

Definition ErrNotFound : string := "not found".
Definition ErrTenantMismatch : string := "tenant mismatch".
Definition ErrQuotaExceeded : string := "evidence storage quota exceeded".
Definition ErrRangeOverlap : string := "chunk byte range overlaps existing chunk".
Definition ErrInvalidRange : string := "invalid chunk range".

Definition BundleStatusCollecting : string := "collecting".
Definition BundleStatusCompleted : string := "completed".

(** ** Paths: [path/filepath] on Unix *)

Definition slash : ascii := "/".

(** The elements kept so far, last first. *)
Definition clean_step (rooted : bool) (stack : list string) (elem : string) : list string :=
  if String.eqb elem "" || String.eqb elem "." then stack
  else if String.eqb elem ".." then
    match stack with
    | top :: rest => if String.eqb top ".." then elem :: stack else rest
    | [] => if rooted then [] else [elem]
    end
  else elem :: stack.

(** [filepath.Clean]. *)
Definition Clean (path : string) : string :=
  let rooted := HasPrefix path "/" in
  let elems := rev (fold_left (clean_step rooted) (split_byte slash path) []) in
  if rooted then "/" ++ join "/" elems
  else match elems with [] => "." | _ => join "/" elems end.

Definition IsAbs (path : string) : bool := HasPrefix path "/".

(** [filepath.Join] of two elements. *)
Definition Join (a b : string) : string :=
  if String.eqb a "" then (if String.eqb b "" then "" else Clean b)
  else if String.eqb b "" then Clean a else Clean (a ++ "/" ++ b).

(** [filepath.Base]: the last element, trailing slashes removed. *)
Definition Base (path : string) : string :=
  if String.eqb path "" then "."
  else match filter (fun e => negb (String.eqb e "") = true) (split_byte slash path) with
    | [] => "/"
    | elems => default "/" (last elems)
    end.

(** ** Records *)

Record EvidenceBundle : Type := mkBundle {
  eb_ID : string;
  eb_TenantID : string;
  eb_EndpointID : string;
  eb_JobID : string;
  eb_Profile : string;
  eb_Status : string;
  eb_TotalBytes : Z;
  eb_ItemCount : Z;
  eb_LegalHold : bool;
  eb_LegalHoldActor : string;
  eb_LegalHoldReason : string;
  eb_RetentionExpiresAt : Z;
  eb_ManifestSHA256 : string;
  eb_ReceiptSHA256 : string;
  eb_CreatedAt : Z;
  eb_CompletedAt : option Z;
  eb_manifest_raw : string;
}.

#[export] Instance eta_EvidenceBundle : Eta EvidenceBundle :=
  fun x => mkBundle (eb_ID x) (eb_TenantID x) (eb_EndpointID x) (eb_JobID x) (eb_Profile x) (eb_Status x) (eb_TotalBytes x)
    (eb_ItemCount x) (eb_LegalHold x) (eb_LegalHoldActor x) (eb_LegalHoldReason x) (eb_RetentionExpiresAt x)
    (eb_ManifestSHA256 x) (eb_ReceiptSHA256 x) (eb_CreatedAt x) (eb_CompletedAt x) (eb_manifest_raw x).

Record EvidenceItem : Type := mkItem {
  ei_ID : string;
  ei_BundleID : string;
  ei_Name : string;
  ei_ContentType : string;
  ei_SizeBytes : Z;
  ei_ReceivedBytes : Z;
  ei_SHA256 : string;
  ei_CollectorStatus : string;
  ei_StorageDigest : string;
  ei_EncryptedKey : string;
  ei_Status : string;
  ei_CreatedAt : Z;
  ei_CompletedAt : option Z;
}.

#[export] Instance eta_EvidenceItem : Eta EvidenceItem :=
  fun x => mkItem (ei_ID x) (ei_BundleID x) (ei_Name x) (ei_ContentType x) (ei_SizeBytes x) (ei_ReceivedBytes x)
    (ei_SHA256 x) (ei_CollectorStatus x) (ei_StorageDigest x) (ei_EncryptedKey x) (ei_Status x) (ei_CreatedAt x)
    (ei_CompletedAt x).

Record EvidenceChunk : Type := mkChunk {
  ck_ItemID : string;
  ck_ChunkIndex : Z;
  ck_Offset : Z;
  ck_Length : Z;
  ck_SHA256 : string;
  ck_CreatedAt : Z;
}.

Record EvidenceReceipt : Type := mkReceipt {
  er_ReceiptID : string;
  er_BundleID : string;
  er_TenantID : string;
  er_EndpointID : string;
  er_ManifestSHA256 : string;
  er_StorageObjectsSHA256 : string;
  er_PreviousReceiptSHA256 : string;
  er_IngestedAt : Z;
  er_ReceiptHash : string;
  er_ReceiptSignature : string;
}.

Record ManifestItem : Type := mkManifestItem {
  mi_Name : string; mi_SizeBytes : Z; mi_SHA256 : string; mi_CollectorStatus : string }.

Record Manifest : Type := mkManifest {
  em_BundleID : string; em_EndpointID : string; em_TenantID : string; em_JobID : string; em_Profile : string;
  em_CollectedAt : Z; em_Items : list ManifestItem; em_Signature : string }.

(** The store: its tables, the files of [storageDir], and its keys. *)
Record Store : Type := mkStore {
  bundles : gmap string EvidenceBundle;
  items : gmap string EvidenceItem;
  chunks : gmap (string * Z) EvidenceChunk;
  receipts : gmap string EvidenceReceipt;
  files : gmap string string;
  masterKey : string;
  maxTenantQuotaBytes : Z;
  receiptKey : string;
}.

#[export] Instance eta_Store : Eta Store :=
  fun x => mkStore (bundles x) (items x) (chunks x) (receipts x) (files x) (masterKey x) (maxTenantQuotaBytes x) (receiptKey x).

(** What one call draws and meets: identifiers, the clock, random bytes, free
    disk space if it is known, how much of a chunk was written before an
    error, and whether an object could be written. *)
Record call : Type := mkCall {
  c_id : string;
  c_now : Z;
  c_dataKey : string;
  c_keyNonce : string;
  c_dataNonce : string;
  c_free : option Z;
  c_torn : option nat;
  c_object : bool;
}.

(** JSON texts that are stored or exported and not read back. *)
Class EvidenceJson := {
  marshal_manifest : Manifest -> string;
  marshal_receipt : EvidenceReceipt -> string;
}.

Notation op := (action Store).

Section Operations.
Context `{U : Unicode} `{K : Crypto} `{KA : AuthCrypto} `{R : Rows} `{J : EvidenceJson}.

(** ** Keys and digests ([crypto.go]) *)

(** The file after the call, and the key. *)
Definition LoadOrCreateMasterKey (data : option string) (fresh : string) (written : bool) : option string * result string string :=
  match data ≫= hex_decode with
  | Some keyBytes =>
    if (String.length keyBytes =? 32)%nat then (data, Ok keyBytes)
    else if written then (Some (hex_encode fresh), Ok fresh) else (data, Err "failed to write master key file")
  | None => if written then (Some (hex_encode fresh), Ok fresh) else (data, Err "failed to write master key file")
  end.

Definition LoadOrCreateReceiptKey (keyPath fresh : string) (written : bool) (fs : gmap string string)
    : gmap string string * result string string :=
  let create :=
    if written then (<[keyPath ++ ".pub" := hex_encode (public_of fresh)]> (<[keyPath := hex_encode fresh]> fs), Ok fresh)
    else (fs, Err "failed to write receipt private key") in
  match fs !! keyPath ≫= fun data => hex_decode (TrimSpace data) with
  | Some keyBytes => if (String.length keyBytes =? PrivateKeySize)%nat then (fs, Ok keyBytes) else create
  | None => create
  end.

Definition WrapDataKey (key nonce dataKey : string) : string := hex_encode (nonce ++ aes_gcm_seal key nonce "" dataKey).

Definition UnwrapDataKey (key wrappedHex : string) : result string string :=
  match hex_decode wrappedHex with
  | None => Err "encoding/hex: invalid byte"
  | Some wrapped =>
    if (String.length wrapped <? gcmNonceSize)%nat then Err "wrapped key too short" else
    match aes_gcm_open key (string_take gcmNonceSize wrapped) "" (string_drop gcmNonceSize wrapped) with
    | None => Err "unwrap data key failed"
    | Some plaintext =>
      if (String.length plaintext =? 32)%nat then Ok plaintext else Err "invalid unwrapped key length"
    end
  end.

Definition CanonicalItemAAD (tenantID bundleID itemID name : string) (offset totalSize : Z) : string :=
  WriteInt64 totalSize (WriteInt64 offset (WriteString name (WriteString itemID (WriteString bundleID (WriteString tenantID
    ("OMINULL-EVIDENCE-ITEM-V1" ++ String "000" "")))))).

Definition EncryptItemData (nonce dataKey plaintext aad : string) : string := nonce ++ aes_gcm_seal dataKey nonce aad plaintext.

Definition DecryptItemData (dataKey ciphertext aad : string) : result string string :=
  if (String.length ciphertext <? gcmNonceSize)%nat then Err "ciphertext too short" else
  match aes_gcm_open dataKey (string_take gcmNonceSize ciphertext) aad (string_drop gcmNonceSize ciphertext) with
  | None => Err "cipher: message authentication failed"
  | Some plaintext => Ok plaintext
  end.

Definition ComputeDigest (data : string) : string := hex_encode (sha256 data).

(** ** Canonical bytes ([dto.go]) *)

Definition receipt_CanonicalBytes (r : EvidenceReceipt) : string :=
  WriteInt64 (Unix (er_IngestedAt r)) (WriteString (er_PreviousReceiptSHA256 r) (WriteString (er_StorageObjectsSHA256 r)
    (WriteString (er_ManifestSHA256 r) (WriteString (er_EndpointID r) (WriteString (er_TenantID r)
    (WriteString (er_BundleID r) (WriteString (er_ReceiptID r) ("OMINULL-RECEIPT-V2" ++ String "000" "")))))))).

Definition ComputeReceiptHash (r : EvidenceReceipt) : string := hex_encode (sha256 (receipt_CanonicalBytes r)).

Definition write_item (buf : string) (it : ManifestItem) : string :=
  WriteString (mi_CollectorStatus it) (WriteString (mi_SHA256 it) (WriteInt64 (mi_SizeBytes it) (WriteString (mi_Name it) buf))).

Definition manifest_CanonicalBytes (m : Manifest) : string :=
  fold_left write_item (em_Items m) (WriteUint32 (Z.of_nat (length (em_Items m)))
    (WriteInt64 (Unix (em_CollectedAt m)) (WriteString (em_Profile m) (WriteString (em_JobID m) (WriteString (em_TenantID m)
    (WriteString (em_EndpointID m) (WriteString (em_BundleID m) ("OMINULL-MANIFEST-V2" ++ String "000" "")))))))).

(** A key or a signature in hexadecimal, of a given size. *)
Definition hex_sized (size : nat) (s : string) : option string :=
  bytes ← hex_decode (TrimSpace s); if (String.length bytes =? size)%nat then Some bytes else None.

Definition VerifyManifestSignature (m : Manifest) (pubKeyHex : string) : result string unit :=
  match hex_sized PublicKeySize pubKeyHex with
  | None => Err "invalid Ed25519 public key"
  | Some pub =>
    match hex_sized SignatureSize (em_Signature m) with
    | None => Err "invalid Ed25519 signature format"
    | Some sig => guard_err (ed25519_verify pub (manifest_CanonicalBytes m) sig) "manifest signature verification failed"
    end
  end.

Definition VerifyReceiptSignature (r : EvidenceReceipt) (pubKeyHex : string) : result string unit :=
  match hex_sized PublicKeySize pubKeyHex with
  | None => Err "invalid hub Ed25519 public key"
  | Some pub =>
    match hex_sized SignatureSize (er_ReceiptSignature r) with
    | None => Err "invalid receipt signature format"
    | Some sig =>
      _ ← guard_err (ed25519_verify pub (receipt_CanonicalBytes r) sig) "receipt signature verification failed";
      guard_err (String.eqb (ComputeReceiptHash r) (er_ReceiptHash r)) "receipt hash does not match canonical receipt content"
    end
  end.

(** ** The store *)

Definition GB : Z := 1024 * 1024 * 1024.

(** A start on the tables and files of [s]; [fresh] is the receipt key it
    would make. *)
Definition NewStore (fresh : string) (written : bool) (key : string) (s : Store) : result string Store :=
  let '(fs, priv) := LoadOrCreateReceiptKey "receipt.key" fresh written (files s) in
  priv ← priv; Ok (mkStore (bundles s) (items s) (chunks s) (receipts s) fs key (10 * GB) priv).

Definition ReceiptPublicKeyHex (s : Store) : string := hex_encode (public_of (receiptKey s)).

Definition SetTenantQuota (maxBytes : Z) : op unit := modify (fun s => s <| maxTenantQuotaBytes := maxBytes |>).

(** [SUM(total_bytes)] over the bundles of a tenant. *)
Definition tenant_usage (tenantID : string) (s : Store) : Z :=
  foldr Z.add 0 (map eb_TotalBytes (rows_where (fun b => String.eqb (eb_TenantID b) tenantID) (bundles s))).

Definition over_quota (tenantID : string) (incomingBytes : Z) (s : Store) : bool :=
  (0 <? maxTenantQuotaBytes s) && (maxTenantQuotaBytes s <? int64_wrap (tenant_usage tenantID s + incomingBytes)).

Definition checkQuotaAndDisk (c : call) (tenantID : string) (incomingBytes : Z) : op unit :=
  over ← gets (over_quota tenantID incomingBytes);
  _ ← ensure (negb over) ErrQuotaExceeded;
  match c_free c with
  | Some freeBytes =>
    ensure (50 * 1024 * 1024 <=? int64_wrap (freeBytes - incomingBytes)) "insufficient server disk space for evidence storage"
  | None => mret tt
  end.

Definition set_file (name data : string) : op unit := modify (fun s => s <| files ::= insert name data |>).

Definition writeObjectAtomic (c : call) (digest data : string) : op unit :=
  found ← gets (fun s => files s !! digest);
  match found with
  | Some old => ensure (String.length old =? String.length data)%nat ("object exists but size mismatch for digest " ++ digest)
  | None => if c_object c then set_file digest data else fail "failed to write evidence payload"
  end.

Definition CreateBundleWithID (c : call) (id tenantID endpointID jobID profile : string) (retentionTTL : Z) : op EvidenceBundle :=
  let id := if String.eqb (TrimSpace id) "" then c_id c else id in
  let retentionTTL := if retentionTTL =? 0 then 30 * 24 * Hour else retentionTTL in
  let bundle := mkBundle id tenantID endpointID jobID profile BundleStatusCollecting 0 0 false "" "" (c_now c + retentionTTL)
                  "" "" (c_now c) None "" in
  _ ← modify (fun s => s <| bundles ::= fun m => match m !! id with Some _ => m | None => <[id := bundle]> m end |>);
  mret bundle.

Definition CreateBundle (c : call) (tenantID endpointID jobID profile : string) (retentionTTL : Z) : op EvidenceBundle :=
  CreateBundleWithID c (c_id c) tenantID endpointID jobID profile retentionTTL.

Definition owned_bundle (tenantID bundleID : string) : op EvidenceBundle :=
  found ← gets (fun s => bundles s !! bundleID);
  match found with
  | None => fail ErrNotFound
  | Some b => if String.eqb (eb_TenantID b) tenantID then mret b else fail ErrTenantMismatch
  end.

(** The cleaned name of an artifact, if it stays below the bundle. *)
Definition artifact_name (name : string) : result string string :=
  let cleanName := Clean name in
  if contains_sub cleanName ".." || IsAbs cleanName || String.eqb cleanName "." || String.eqb cleanName ""
  then Err "invalid artifact name" else Ok cleanName.

Definition insert_item (it : EvidenceItem) : op unit :=
  taken ← gets (fun s => bool_decide (is_Some (items s !! ei_ID it)));
  _ ← ensure (negb taken) "UNIQUE constraint failed: evidence_items.id";
  modify (fun s => s <| items ::= insert (ei_ID it) it |>).

Definition CreateItem (c : call) (tenantID bundleID name contentType : string) (expectedSize : Z) (collectorStatus : string)
    : op EvidenceItem :=
  _ ← owned_bundle tenantID bundleID;
  cleanName ← of_result (artifact_name name);
  _ ← checkQuotaAndDisk c tenantID expectedSize;
  let item := mkItem (c_id c) bundleID cleanName contentType expectedSize 0 "" collectorStatus "" "" "uploading" (c_now c) None in
  _ ← insert_item item;
  mret item.

(** ** Chunks *)

(** The row of an item joined with its bundle. *)
Definition owned_item (tenantID itemID : string) : op EvidenceItem :=
  found ← gets (fun s => it ← items s !! itemID; b ← bundles s !! ei_BundleID it; Some (it, b));
  match found with
  | None => fail ErrNotFound
  | Some (it, b) => if String.eqb (eb_TenantID b) tenantID then mret it else fail ErrTenantMismatch
  end.

(** The chunks received so far: [true] for a retry of one of them. *)
Fixpoint scan_chunks (chunkIndex offset chunkLen : Z) (chunkSHA : string) (rows : list EvidenceChunk) : result string bool :=
  match rows with
  | [] => Ok false
  | r :: rows =>
    if ck_ChunkIndex r =? chunkIndex then
      if (ck_Offset r =? offset) && (ck_Length r =? chunkLen) && String.eqb (ck_SHA256 r) chunkSHA then Ok true
      else Err ("conflicting chunk " ++ format_int chunkIndex ++ " re-upload")
    else if negb ((int64_wrap (offset + chunkLen) <=? ck_Offset r) || (int64_wrap (ck_Offset r + ck_Length r) <=? offset))
    then Err ErrRangeOverlap
    else scan_chunks chunkIndex offset chunkLen chunkSHA rows
  end.

Definition staging_path (itemID : string) : string := "staging_" ++ itemID ++ ".bin".

Definition nul_bytes (n : nat) : string := string_of_list_ascii (repeat "000"%char n).

(** Bytes written at an offset of a file; a gap reads as zero bytes. *)
Definition write_at (offset : nat) (data old : string) : string :=
  string_take offset old ++ nul_bytes (offset - String.length old) ++ data ++ string_drop (offset + String.length data) old.

(** The write of a chunk into the staging file: past the largest file size it
    fails, and when it fails half way its first bytes stay. A file that could
    not be opened, or took no byte, reads as before. *)
Definition stage (c : call) (itemID : string) (offset : Z) (chunkData : string) : op unit :=
  old ← gets (fun s => default "" (files s !! staging_path itemID));
  if max_int64 <? offset + Z.of_nat (String.length chunkData) then
    _ ← set_file (staging_path itemID) old; fail "write staging file failed"
  else match c_torn c with
    | Some n =>
      let part := string_take n chunkData in
      _ ← (if String.eqb part "" then mret tt else set_file (staging_path itemID) (write_at (Z.to_nat offset) part old));
      fail "write staging file failed"
    | None => set_file (staging_path itemID) (write_at (Z.to_nat offset) chunkData old)
    end.

Definition on_item (id : string) (f : EvidenceItem -> EvidenceItem) : op unit := modify (fun s => s <| items ::= alter f id |>).

Definition on_bundle (id : string) (f : EvidenceBundle -> EvidenceBundle) : op unit := modify (fun s => s <| bundles ::= alter f id |>).

Definition count_in (size : Z) (b : EvidenceBundle) : EvidenceBundle :=
  b <| eb_TotalBytes ::= Z.add size |> <| eb_ItemCount ::= Z.add 1 |>.

Definition complete_row (plainSHA storageDigest wrappedKeyHex : string) (now : Z) (r : EvidenceItem) : EvidenceItem :=
  r <| ei_Status := "completed" |> <| ei_SHA256 := plainSHA |> <| ei_StorageDigest := storageDigest |>
    <| ei_EncryptedKey := wrappedKeyHex |> <| ei_CompletedAt := Some now |>.

(** All bytes are here: encrypt them into an object and complete the item. *)
Definition assemble (c : call) (tenantID : string) (totalSize : Z) (it : EvidenceItem) : op EvidenceItem :=
  found ← gets (fun s => files s !! staging_path (ei_ID it));
  assembledData ← of_result (match found with Some d => Ok d | None => Err "failed to read complete staging file" end);
  _ ← ensure (Z.of_nat (String.length assembledData) =? totalSize) "assembled size mismatch";
  wrappedKeyHex ← gets (fun s => WrapDataKey (masterKey s) (c_keyNonce c) (c_dataKey c));
  let aad := CanonicalItemAAD tenantID (ei_BundleID it) (ei_ID it) (ei_Name it) 0 totalSize in
  let ciphertext := EncryptItemData (c_dataNonce c) (c_dataKey c) assembledData aad in
  let plainSHA := ComputeDigest assembledData in
  let storageDigest := ComputeDigest ciphertext in
  _ ← writeObjectAtomic c storageDigest ciphertext;
  _ ← on_item (ei_ID it) (complete_row plainSHA storageDigest wrappedKeyHex (c_now c));
  _ ← on_bundle (ei_BundleID it) (count_in totalSize);
  _ ← modify (fun s => s <| files ::= delete (staging_path (ei_ID it)) |>);
  mret (it <| ei_Status := "completed" |> <| ei_SHA256 := plainSHA |> <| ei_StorageDigest := storageDigest |>
           <| ei_CompletedAt := Some (c_now c) |>).

(** The columns an upload reads. *)
Definition upload_view (it : EvidenceItem) : EvidenceItem :=
  it <| ei_StorageDigest := "" |> <| ei_EncryptedKey := "" |> <| ei_CompletedAt := None |>.

Definition insert_chunk (k : EvidenceChunk) : op unit :=
  taken ← gets (fun s => bool_decide (is_Some (chunks s !! (ck_ItemID k, ck_ChunkIndex k))));
  _ ← ensure (negb taken) "UNIQUE constraint failed: evidence_chunks";
  modify (fun s => s <| chunks ::= insert (ck_ItemID k, ck_ChunkIndex k) k |>).

Definition StoreItemChunk (c : call) (tenantID itemID : string) (chunkIndex offset totalSize : Z) (chunkData : string)
    : op EvidenceItem :=
  let chunkLen := Z.of_nat (String.length chunkData) in
  _ ← ensure (negb ((offset <? 0) || (chunkLen =? 0) || (totalSize <? int64_wrap (offset + chunkLen)))) ErrInvalidRange;
  row ← owned_item tenantID itemID;
  let it := upload_view row in
  if String.eqb (ei_Status it) "completed" then mret it else
  let chunkSHA := ComputeDigest chunkData in
  rows ← gets (fun s => rows_where (fun k => String.eqb (ck_ItemID k) itemID) (chunks s));
  retry ← of_result (scan_chunks chunkIndex offset chunkLen chunkSHA rows);
  if retry : bool then mret it else
  _ ← stage c itemID offset chunkData;
  _ ← insert_chunk (mkChunk itemID chunkIndex offset chunkLen chunkSHA (c_now c));
  let newReceived := int64_wrap (ei_ReceivedBytes it + chunkLen) in
  _ ← on_item itemID (fun r => r <| ei_ReceivedBytes := newReceived |>);
  let it := it <| ei_ReceivedBytes := newReceived |> in
  if newReceived =? totalSize then assemble c tenantID totalSize it else mret it.

(** ** Whole items *)

Definition StoreItem (c : call) (tenantID bundleID name contentType collectorStatus plaintext : string) : op EvidenceItem :=
  _ ← owned_bundle tenantID bundleID;
  cleanName ← of_result (artifact_name name);
  let totalSize := Z.of_nat (String.length plaintext) in
  _ ← checkQuotaAndDisk c tenantID totalSize;
  wrappedKeyHex ← gets (fun s => WrapDataKey (masterKey s) (c_keyNonce c) (c_dataKey c));
  let aad := CanonicalItemAAD tenantID bundleID (c_id c) cleanName 0 totalSize in
  let ciphertext := EncryptItemData (c_dataNonce c) (c_dataKey c) plaintext aad in
  let storageDigest := ComputeDigest ciphertext in
  _ ← writeObjectAtomic c storageDigest ciphertext;
  let item := mkItem (c_id c) bundleID cleanName contentType totalSize totalSize (ComputeDigest plaintext) collectorStatus
                storageDigest wrappedKeyHex "completed" (c_now c) (Some (c_now c)) in
  _ ← insert_item item;
  _ ← on_bundle bundleID (count_in totalSize);
  mret item.

Definition GetBundle (tenantID bundleID : string) : op EvidenceBundle := owned_bundle tenantID bundleID.

Definition by_name (x y : EvidenceItem) : bool := string_lt (ei_Name x) (ei_Name y).

(** [ORDER BY name ASC] *)
Definition bundle_rows (bundleID : string) (s : Store) : list EvidenceItem :=
  sort_slice by_name (rows_where (fun it => String.eqb (ei_BundleID it) bundleID) (items s)).

Definition GetBundleItems (tenantID bundleID : string) : op (list EvidenceItem) :=
  _ ← GetBundle tenantID bundleID;
  rows ← gets (bundle_rows bundleID);
  mret (map (fun it => it <| ei_StorageDigest := "" |> <| ei_EncryptedKey := "" |>) rows).

Definition ListBundles (tenantID : string) (limit : Z) (s : Store) : list EvidenceBundle :=
  let limit := if (limit <=? 0) || (100 <? limit) then 50 else limit in
  take (Z.to_nat limit) (sort_slice (fun x y => eb_CreatedAt y <? eb_CreatedAt x)
    (rows_where (fun b => String.eqb (eb_TenantID b) tenantID) (bundles s))).

(** Decrypts the object of an item. The texts of the errors are those of
    [ReadItemData]; the export words them a little differently. *)
Definition open_item (tenantID : string) (it : EvidenceItem) (s : Store) : result string string :=
  match UnwrapDataKey (masterKey s) (ei_EncryptedKey it) with
  | Err e => Err ("failed to unwrap item data key: " ++ e)
  | Ok dataKey =>
    match files s !! ei_StorageDigest it with
    | None => Err "failed to read storage object"
    | Some ciphertext =>
      match DecryptItemData dataKey ciphertext
              (CanonicalItemAAD tenantID (ei_BundleID it) (ei_ID it) (ei_Name it) 0 (ei_SizeBytes it)) with
      | Err e => Err ("item authentication failed: " ++ e)
      | Ok plaintext => Ok plaintext
      end
    end
  end.

Definition ReadItemData (tenantID itemID : string) : op string :=
  it ← owned_item tenantID itemID;
  plaintext ← gets (open_item tenantID it);
  of_result plaintext.

(** ** Finalizing *)

(** [json.Marshal] of digests, which need no escaping. *)
Definition marshal_digests (l : list string) : string :=
  match l with
  | [] => "null"
  | _ => "[" ++ join "," (map (fun d => String "034" (d ++ String "034" "")) l) ++ "]"
  end.

Definition stored_items (rows : list EvidenceItem) : gmap string EvidenceItem :=
  fold_left (fun m it => <[ei_Name it := it]> m) rows ∅.

Fixpoint check_manifest (stored : gmap string EvidenceItem) (l : list ManifestItem) : result string unit :=
  match l with
  | [] => Ok tt
  | m :: l =>
    match stored !! mi_Name m with
    | None => Err ("manifest item " ++ mi_Name m ++ " not found in stored items")
    | Some it =>
      _ ← guard_err (String.eqb (ei_Status it) "completed") ("item " ++ mi_Name m ++ " upload is not completed");
      _ ← guard_err (ei_SizeBytes it =? mi_SizeBytes m) ("item " ++ mi_Name m ++ " size mismatch");
      _ ← guard_err (String.eqb (ei_SHA256 it) (mi_SHA256 m)) ("item " ++ mi_Name m ++ " SHA-256 mismatch");
      check_manifest stored l
    end
  end.

(** [ORDER BY ingested_at DESC, receipt_id DESC] *)
Definition later (x y : EvidenceReceipt) : bool :=
  (er_IngestedAt y <? er_IngestedAt x)
  || ((er_IngestedAt y =? er_IngestedAt x) && string_lt (er_ReceiptID y) (er_ReceiptID x)).

Definition zero_hash : string := string_of_list_ascii (repeat "0"%char 64).

Definition previous_hash (tenantID : string) (s : Store) : string :=
  match pick later (rows_where (fun r => String.eqb (er_TenantID r) tenantID) (receipts s)) with
  | Some r => if String.eqb (er_ReceiptHash r) "" then zero_hash else er_ReceiptHash r
  | None => zero_hash
  end.

Definition sign_receipt (priv : string) (r : EvidenceReceipt) : EvidenceReceipt :=
  mkReceipt (er_ReceiptID r) (er_BundleID r) (er_TenantID r) (er_EndpointID r) (er_ManifestSHA256 r)
    (er_StorageObjectsSHA256 r) (er_PreviousReceiptSHA256 r) (er_IngestedAt r) (ComputeReceiptHash r)
    (hex_encode (ed25519_sign priv (receipt_CanonicalBytes r))).

Definition insert_receipt (r : EvidenceReceipt) : op unit :=
  taken ← gets (fun s => bool_decide (is_Some (receipts s !! er_ReceiptID r))
    || bool_decide (rows_where (fun x => String.eqb (er_BundleID x) (er_BundleID r)) (receipts s) <> []));
  _ ← ensure (negb taken) "UNIQUE constraint failed: evidence_receipts";
  modify (fun s => s <| receipts ::= insert (er_ReceiptID r) r |>).

Definition finalize_row (manifestSHA receiptHash raw : string) (now : Z) (b : EvidenceBundle) : EvidenceBundle :=
  b <| eb_Status := BundleStatusCompleted |> <| eb_ManifestSHA256 := manifestSHA |> <| eb_ReceiptSHA256 := receiptHash |>
    <| eb_manifest_raw := raw |> <| eb_CompletedAt := Some now |>.

Definition FinalizeBundle (c : call) (tenantID bundleID : string) (manifest : Manifest) (endpointEvidencePubKeyHex : string)
    : op EvidenceReceipt :=
  b ← owned_bundle tenantID bundleID;
  _ ← of_result (if String.eqb endpointEvidencePubKeyHex "" then Ok tt
       else match VerifyManifestSignature manifest endpointEvidencePubKeyHex with
         | Ok _ => Ok tt
         | Err e => Err ("invalid endpoint manifest signature: " ++ e)
         end);
  let manifestSHA := ComputeDigest (manifest_CanonicalBytes manifest) in
  rows ← gets (bundle_rows bundleID);
  let stored := stored_items rows in
  _ ← ensure (length (em_Items manifest) =? size stored)%nat "manifest item count mismatch with stored items";
  _ ← of_result (check_manifest stored (em_Items manifest));
  let storageSHA := ComputeDigest (marshal_digests (map ei_StorageDigest rows)) in
  prevHash ← gets (previous_hash tenantID);
  priv ← gets receiptKey;
  let receipt := sign_receipt priv (mkReceipt (c_id c) bundleID tenantID (eb_EndpointID b) manifestSHA storageSHA prevHash
                   (c_now c) "" "") in
  _ ← insert_receipt receipt;
  _ ← on_bundle bundleID (finalize_row manifestSHA (er_ReceiptHash receipt) (marshal_manifest manifest) (c_now c));
  mret receipt.

Definition hold_row (hold : bool) (actor reason : string) (b : EvidenceBundle) : EvidenceBundle :=
  b <| eb_LegalHold := hold |> <| eb_LegalHoldActor := actor |> <| eb_LegalHoldReason := reason |>.

Definition SetLegalHold (tenantID bundleID actor reason : string) (hold : bool) : op unit :=
  _ ← owned_bundle tenantID bundleID;
  on_bundle bundleID (hold_row hold actor reason).

(** ** Export *)

Record entry : Type := mkEntry { en_name : string; en_data : string; en_time : Z }.

Definition maxExportBytes : Z := 10 * GB.

Fixpoint export_items (tenantID bundleID : string) (s : Store) (total : Z) (rows : list EvidenceItem)
    : list entry * result string unit :=
  match rows with
  | [] => ([], Ok tt)
  | it :: rows =>
    if maxExportBytes <? int64_wrap (total + ei_SizeBytes it) then ([], Err ErrQuotaExceeded) else
    match open_item tenantID it s with
    | Err e => ([], Err e)
    | Ok plaintext =>
      let '(es, r) := export_items tenantID bundleID s (total + Z.of_nat (String.length plaintext)) rows in
      (mkEntry (Join bundleID (Base (ei_Name it))) plaintext (ei_CreatedAt it) :: es, r)
    end
  end.

(** The entries of the archive, up to the first failure. *)
Definition ExportBundleToTarGz (now : Z) (tenantID bundleID : string) (s : Store) : list entry * result string unit :=
  match snd (owned_bundle tenantID bundleID s) with
  | Err e => ([], Err e)
  | Ok b =>
    let raw := eb_manifest_raw b in
    let es := if String.eqb raw "" then [] else [mkEntry (Join bundleID "manifest.json") raw now] in
    let es := (es ++ match rows_where (fun r => String.eqb (er_BundleID r) bundleID) (receipts s) with
      | rec :: _ => [mkEntry (Join bundleID "receipt.json") (marshal_receipt rec) (er_IngestedAt rec)]
      | [] => []
      end)%list in
    let total := foldr Z.add 0 (map (fun e => Z.of_nat (String.length (en_data e))) es) in
    let '(rest, r) := export_items tenantID bundleID s total (bundle_rows bundleID s) in
    ((es ++ rest)%list, r)
  end.

(** ** Pruning *)

Definition referenced (digest : string) (s : Store) : bool :=
  bool_decide (rows_where (fun it => String.eqb (ei_StorageDigest it) digest) (items s) <> []).

Definition remove_object (s : Store) (digest : string) : Store :=
  if referenced digest s then s else s <| files ::= delete digest |>.

Definition prune_bundle (s : Store) (id : string) : Store :=
  let in_bundle it := String.eqb (ei_BundleID it) id in
  let digests := filter (fun d => nonempty d = true) (map ei_StorageDigest (rows_where in_bundle (items s))) in
  let s := s <| chunks ::= filter (fun kv =>
                  match items s !! ck_ItemID kv.2 with Some it => in_bundle it | None => false end = false) |>
             <| items ::= filter (fun kv => in_bundle kv.2 = false) |>
             <| receipts ::= filter (fun kv => String.eqb (er_BundleID kv.2) id = false) |>
             <| bundles ::= delete id |> in
  fold_left remove_object digests s.

Definition expired_bundle (now : Z) (b : EvidenceBundle) : bool := (eb_RetentionExpiresAt b <=? now) && negb (eb_LegalHold b).

Definition PruneExpiredBundles (now : Z) (s : Store) : Store * nat :=
  let expired := map eb_ID (rows_where (expired_bundle now) (bundles s)) in
  (fold_left prune_bundle expired s, length expired).

End Operations.

End evidence.
