(* ===== verification/EvidenceInv.v ===== *)
(** * Invariants of the evidence store

    What every reachable store satisfies: completed items decrypt to the data
    their digest names, the chunks of an upload are disjoint and lie in its
    staging file, objects are named by their digest, receipts verify. *)

From Stdlib Require Import Ascii String.
From stdpp Require Import gmap.
From S2P Require Import Prelude NetIP Canonical CanonicalProps Action Platform Evidence.

Import canonical platform evidence.

Local Open Scope string_scope.
Local Open Scope Z_scope.

(** ** Bytes of a file *)

Notation bytes := list_ascii_of_string.

Lemma bytes_length s : length (bytes s) = String.length s.
Proof. induction s as [|c s IH]; cbn; [done|by rewrite IH]. Qed.

Lemma bytes_take n s : bytes (string_take n s) = take n (bytes s).
Proof. revert s. induction n as [|n IH]; intros [|c s]; cbn; [done..|by rewrite IH]. Qed.

Lemma bytes_drop n s : bytes (string_drop n s) = drop n (bytes s).
Proof. revert s. induction n as [|n IH]; intros [|c s]; cbn; [done..|by rewrite IH]. Qed.

Lemma bytes_inj s t : bytes s = bytes t -> s = t.
Proof. intros E. rewrite <- (string_of_list_ascii_of_string s), <- (string_of_list_ascii_of_string t). by rewrite E. Qed.

Lemma bytes_nul n : bytes (nul_bytes n) = replicate n "000"%char.
Proof. unfold nul_bytes. rewrite list_ascii_of_string_of_list_ascii. induction n as [|n IH]; cbn; [done|by rewrite IH]. Qed.

Lemma write_at_bytes o d old :
  bytes (write_at o d old)
  = (take o (bytes old) ++ replicate (o - String.length old) "000"%char ++ bytes d ++ drop (o + String.length d) (bytes old))%list.
Proof. unfold write_at. by rewrite !list_ascii_app, bytes_take, bytes_nul, bytes_drop. Qed.

Lemma write_at_length o d old :
  String.length d <> 0%nat ->
  String.length (write_at o d old) = Nat.max (String.length old) (o + String.length d).
Proof.
  intros N. rewrite <- bytes_length, write_at_bytes, !length_app, length_take, length_replicate, length_drop, !bytes_length. lia.
Qed.

(** Inside the write the new bytes, outside it the old ones. *)
Lemma write_at_inside o d old i :
  (i < String.length d)%nat -> bytes (write_at o d old) !! (o + i)%nat = bytes d !! i.
Proof.
  intros L. rewrite write_at_bytes, app_assoc, lookup_app_r, lookup_app_l;
    rewrite ?length_app, ?length_take, ?length_replicate, ?bytes_length; [f_equal; lia|lia|lia].
Qed.

Lemma write_at_outside o d old i :
  (i < String.length old)%nat -> (i < o \/ o + String.length d <= i)%nat -> bytes (write_at o d old) !! i = bytes old !! i.
Proof.
  intros L [H|H]; rewrite write_at_bytes.
  - rewrite lookup_app_l by (rewrite length_take, bytes_length; lia). by rewrite lookup_take_lt.
  - rewrite !lookup_app_r; rewrite ?length_take, ?length_replicate, ?bytes_length; try lia.
    rewrite lookup_drop. f_equal. lia.
Qed.

(** The bytes of a range. *)
Definition substr (off len : Z) (s : string) : string := string_take (Z.to_nat len) (string_drop (Z.to_nat off) s).

Lemma substr_ext off len s t :
  (forall i, Z.to_nat off <= i < Z.to_nat off + Z.to_nat len -> bytes s !! i = bytes t !! i)%nat ->
  substr off len s = substr off len t.
Proof.
  intros H. apply bytes_inj. unfold substr. rewrite !bytes_take, !bytes_drop. apply list_eq. intros i.
  destruct (decide (i < Z.to_nat len)%nat) as [L|L].
  - rewrite !lookup_take_lt, !lookup_drop by done. apply H. lia.
  - rewrite !lookup_take_ge by lia. done.
Qed.

Lemma substr_write o d old : substr (Z.of_nat o) (Z.of_nat (String.length d)) (write_at o d old) = d.
Proof.
  apply bytes_inj. unfold substr. rewrite !Nat2Z.id, bytes_take, bytes_drop. apply list_eq. intros i.
  destruct (decide (i < String.length d)%nat) as [L|L].
  - rewrite lookup_take_lt, lookup_drop by done. by apply write_at_inside.
  - rewrite lookup_take_ge by lia. symmetry. apply lookup_ge_None_2. rewrite bytes_length. lia.
Qed.

Lemma substr_write_apart o d old off len :
  0 <= off -> 0 <= len -> off + len <= Z.of_nat (String.length old) ->
  off + len <= Z.of_nat o \/ Z.of_nat o + Z.of_nat (String.length d) <= off ->
  substr off len (write_at o d old) = substr off len old.
Proof. intros A B C D. apply substr_ext. intros i I. apply write_at_outside; lia. Qed.

(** ** Chunks *)

(** The byte positions chunks cover, and how many they are. *)
Definition positions (l : list EvidenceChunk) : list Z := l ≫= fun c => seqZ (ck_Offset c) (ck_Length c).

Definition total_length (l : list EvidenceChunk) : Z := foldr Z.add 0 (map ck_Length l).

#[export] Instance positions_perm : Proper ((≡ₚ) ==> (≡ₚ)) positions.
Proof. intros l l' P. unfold positions. by rewrite P. Qed.

#[export] Instance total_length_perm : Proper ((≡ₚ) ==> (=)) total_length.
Proof. intros l l' P. unfold total_length. induction P; cbn; lia. Qed.

Section Chunks.
Context `{K : Crypto}.

(** A chunk and the bytes of the file it was received into. *)
Record chunk_fits (data : string) (c : EvidenceChunk) : Prop := {
  cf_offset : 0 <= ck_Offset c;
  cf_length : 0 < ck_Length c;
  cf_end : ck_Offset c + ck_Length c <= Z.of_nat (String.length data);
  cf_digest : ck_SHA256 c = ComputeDigest (substr (ck_Offset c) (ck_Length c) data);
}.

(** The chunks lie in the file without overlap. *)
Record tiles (data : string) (l : list EvidenceChunk) : Prop := {
  tl_fits : Forall (chunk_fits data) l;
  tl_apart : NoDup (positions l);
}.

#[export] Instance tiles_perm data : Proper ((≡ₚ) ==> iff) (tiles data).
Proof.
  intros l l' P. split; intros [F N]; split; [by rewrite <- P|by rewrite <- P|by rewrite P|by rewrite P].
Qed.

Lemma positions_length data l : Forall (chunk_fits data) l -> Z.of_nat (length (positions l)) = total_length l.
Proof.
  induction 1 as [|c l [_ L _ _] F IH]; [done|]. unfold positions, total_length in *. cbn.
  rewrite length_app, length_seqZ, Nat2Z.inj_add, IH. lia.
Qed.

Lemma positions_within data l i : tiles data l -> i ∈ positions l -> 0 <= i < Z.of_nat (String.length data).
Proof.
  intros [F _] (c & I & E)%list_elem_of_bind. apply elem_of_seqZ in I.
  destruct (proj1 (Forall_forall _ _) F c E). lia.
Qed.

Lemma tiles_sub data l : tiles data l -> positions l ⊆+ seqZ 0 (Z.of_nat (String.length data)).
Proof.
  intros T. apply NoDup_submseteq; [apply T|]. intros i I. apply elem_of_seqZ. by apply (positions_within data l).
Qed.

(** Disjoint chunks are never longer than the file, and cover all of it when
    they are as long. *)
Lemma tiles_total data l : tiles data l -> total_length l <= Z.of_nat (String.length data).
Proof.
  intros T. rewrite <- (positions_length data) by apply T.
  pose proof (submseteq_length _ _ (tiles_sub data l T)) as L. rewrite length_seqZ in L. lia.
Qed.

Definition covers (data : string) (l : list EvidenceChunk) : Prop :=
  tiles data l /\ forall i, 0 <= i < Z.of_nat (String.length data) -> i ∈ positions l.

Lemma tiles_cover data l : tiles data l -> total_length l = Z.of_nat (String.length data) -> covers data l.
Proof.
  intros T E. split; [done|]. intros i I.
  assert (P : positions l ≡ₚ seqZ 0 (Z.of_nat (String.length data))).
  { apply submseteq_length_Permutation; [by apply tiles_sub|]. rewrite length_seqZ.
    apply Nat2Z.inj_le. rewrite (positions_length data) by apply T. lia. }
  rewrite P. by apply elem_of_seqZ.
Qed.

(** A write apart from all chunks keeps them. *)
Definition apart (off len : Z) (c : EvidenceChunk) : Prop :=
  off + len <= ck_Offset c \/ ck_Offset c + ck_Length c <= off.

Lemma tiles_write data l o d :
  String.length d <> 0%nat -> tiles data l -> Forall (apart (Z.of_nat o) (Z.of_nat (String.length d))) l ->
  tiles (write_at o d data) l.
Proof.
  intros N [F D] A. split; [|done]. rewrite Forall_forall in *. intros c I. destruct (F c I), (A c I); split; try done.
  1,3: rewrite write_at_length by done; lia.
  all: rewrite substr_write_apart by lia; done.
Qed.

Lemma tiles_add data l c :
  tiles data l -> chunk_fits data c -> Forall (apart (ck_Offset c) (ck_Length c)) l -> tiles data (c :: l).
Proof.
  intros [F D] C A. split; [by constructor|]. unfold positions. cbn. apply NoDup_app. split; [apply NoDup_seqZ|].
  split; [|done]. intros i I (x & Ix & Lx)%list_elem_of_bind. rewrite Forall_forall in A. specialize (A x Lx).
  apply elem_of_seqZ in I, Ix. unfold apart in A. lia.
Qed.

(** ** What a scan of the chunks establishes *)

Lemma scan_new idx off len sha l data :
  scan_chunks idx off len sha l = Ok false -> Forall (chunk_fits data) l ->
  Z.of_nat (String.length data) <= max_int64 -> 0 <= off -> 0 <= len -> off + len <= max_int64 ->
  Forall (fun c => ck_ChunkIndex c <> idx) l /\ Forall (apart off len) l.
Proof.
  intros S F M O L E. revert S. induction F as [|c l [c1 c2 c3 _] F IH]; [by split; constructor|]. cbn [scan_chunks].
  destruct (Z.eqb_spec (ck_ChunkIndex c) idx) as [|I]; [by destruct (_ && _)|].
  rewrite !wrap_small by (unfold min_int64, max_int64 in *; lia).
  destruct (negb _) eqn:G; [done|]. intros S. destruct (IH S) as [H1 H2]. split; constructor; try done.
  apply negb_false_iff, orb_true_iff in G. unfold apart. destruct G; bools; lia.
Qed.

End Chunks.

(** ** The invariant *)

Section Store.
Context `{U : Unicode} `{K : Crypto} `{KA : AuthCrypto} `{R : Rows} `{J : EvidenceJson} `{Laws : !AuthCryptoLaws}.

Definition item_chunks (id : string) (s : Store) : list EvidenceChunk :=
  rows_where (fun k => String.eqb (ck_ItemID k) id) (chunks s).

(** The object of an item is the encryption of [data], bound to the item. *)
Record holds_data (mk tenant : string) (fs : gmap string string) (it : EvidenceItem) (data : string) : Prop := {
  hd_key : exists key nonce, String.length key = 32%nat /\ String.length nonce = gcmNonceSize
    /\ UnwrapDataKey mk (ei_EncryptedKey it) = Ok key
    /\ fs !! ei_StorageDigest it = Some (EncryptItemData nonce key data
         (CanonicalItemAAD tenant (ei_BundleID it) (ei_ID it) (ei_Name it) 0 (Z.of_nat (String.length data))));
  hd_object : exists ct, ei_StorageDigest it = ComputeDigest ct;
  hd_digest : ei_SHA256 it = ComputeDigest data;
}.

Definition item_inv (mk tenant : string) (fs : gmap string string) (l : list EvidenceChunk) (it : EvidenceItem) : Prop :=
  if String.eqb (ei_Status it) "completed" then exists data, holds_data mk tenant fs it data /\ (l = [] \/ covers data l)
  else let staged := default "" (fs !! staging_path (ei_ID it)) in
    ei_ReceivedBytes it = total_length l /\ tiles staged l /\ ei_StorageDigest it = "" /\ ei_EncryptedKey it = "".

(** A receipt that says what it hashes and is signed by the hub. *)
Definition receipt_ok (priv : string) (r : EvidenceReceipt) : Prop := sign_receipt priv r = r.

Record Inv (s : Store) : Prop := {
  inv_master : String.length (masterKey s) = 32%nat;
  inv_receipt_key : String.length (receiptKey s) = 64%nat /\ files s !! "receipt.key" = Some (hex_encode (receiptKey s));
  inv_bundles : forall id b, bundles s !! id = Some b -> eb_ID b = id;
  inv_items : forall id it, items s !! id = Some it -> ei_ID it = id /\ exists b,
    bundles s !! ei_BundleID it = Some b /\ item_inv (masterKey s) (eb_TenantID b) (files s) (item_chunks id s) it;
  inv_names : forall id it, items s !! id = Some it -> exists name, artifact_name name = Ok (ei_Name it);
  inv_chunks : forall k c, chunks s !! k = Some c -> k = (ck_ItemID c, ck_ChunkIndex c) /\ is_Some (items s !! ck_ItemID c);
  inv_objects : forall x ct, files s !! ComputeDigest x = Some ct -> ct = x;
  inv_staged : forall id d, files s !! staging_path id = Some d -> Z.of_nat (String.length d) <= max_int64;
  inv_receipts : forall id r, receipts s !! id = Some r -> er_ReceiptID r = id /\ receipt_ok (receiptKey s) r
    /\ exists b, bundles s !! er_BundleID r = Some b /\ eb_TenantID b = er_TenantID r;
}.

(** ** Names of files *)

Lemma hex_encode_inj a b : hex_encode a = hex_encode b -> a = b.
Proof. intros E. apply (f_equal hex_decode) in E. rewrite !hex_decode_encode in E. by injection E. Qed.

Lemma hex_head c : hex_digit (byte_val c / 16) <> "s"%char /\ hex_digit (byte_val c / 16) <> "r"%char.
Proof. destruct c as [[] [] [] [] [] [] [] []]; vm_compute; split; discriminate. Qed.

Lemma digest_head x : ComputeDigest x = "" \/ exists c s, ComputeDigest x = String c s /\ c <> "s"%char /\ c <> "r"%char.
Proof.
  unfold ComputeDigest. destruct (sha256 x) as [|c s]; [by left|]. right. cbn [hex_encode].
  destruct (hex_head c). eauto.
Qed.

Lemma digest_not_staging x id : ComputeDigest x <> staging_path id.
Proof. destruct (digest_head x) as [->|(c & s & -> & N & _)]; [done|]. by intros [= E _]. Qed.

Lemma digest_not_key x : ComputeDigest x <> "receipt.key".
Proof. destruct (digest_head x) as [->|(c & s & -> & _ & N)]; [done|]. by intros [= E _]. Qed.

Lemma staging_not_key id : staging_path id <> "receipt.key".
Proof. done. Qed.

#[export] Instance staging_inj : Inj (=) (=) staging_path.
Proof.
  intros a b E. unfold staging_path in E. cbn in E. injection E as E. apply (f_equal (fun s => TrimSuffix s ".bin")) in E.
  change (TrimSuffix (a ++ ".bin") ".bin" = TrimSuffix (b ++ ".bin") ".bin") in E. by rewrite !TrimSuffix_app in E.
Qed.

(** ** Reading an item *)

Lemma unwrap_wrap mk nonce key :
  String.length mk = 32%nat -> String.length nonce = gcmNonceSize -> String.length key = 32%nat ->
  UnwrapDataKey mk (WrapDataKey mk nonce key) = Ok key.
Proof.
  intros M N L. unfold UnwrapDataKey, WrapDataKey. rewrite hex_decode_encode.
  destruct (nonce_split nonce (aes_gcm_seal mk nonce "" key) N) as (-> & -> & ->). rewrite open_seal by done. by rewrite L.
Qed.

Lemma decrypt_encrypt nonce key data aad :
  String.length nonce = gcmNonceSize -> String.length key = 32%nat ->
  DecryptItemData key (EncryptItemData nonce key data aad) aad = Ok data.
Proof.
  intros N L. unfold DecryptItemData, EncryptItemData.
  destruct (nonce_split nonce (aes_gcm_seal key nonce aad data) N) as (-> & -> & ->). by rewrite open_seal.
Qed.

Lemma open_held tenant it data s :
  holds_data (masterKey s) tenant (files s) it data -> ei_SizeBytes it = Z.of_nat (String.length data) ->
  open_item tenant it s = Ok data.
Proof.
  intros [(key & nonce & L & N & Uk & F) _ _] S. unfold open_item. by rewrite Uk, F, S, decrypt_encrypt.
Qed.

(** ** What an item depends on *)

Lemma item_inv_frame mk t fs fs' l l' it :
  item_inv mk t fs l it -> l ≡ₚ l' ->
  (String.eqb (ei_Status it) "completed" = true -> fs' !! ei_StorageDigest it = fs !! ei_StorageDigest it) ->
  (String.eqb (ei_Status it) "completed" = false -> fs' !! staging_path (ei_ID it) = fs !! staging_path (ei_ID it)) ->
  item_inv mk t fs' l' it.
Proof.
  intros I P D S. unfold item_inv in *. destruct (String.eqb (ei_Status it) "completed").
  - destruct I as (data & [(key & nonce & L & N & Uk & F) O H] & C). exists data. split.
    + split; [|done..]. exists key, nonce. rewrite D by done. done.
    + destruct C as [->|[T C]]; [left; by apply Permutation_nil_l in P|]. right. split; [by rewrite <- P|].
      intros i Ii. rewrite <- P. by apply C.
  - rewrite S, <- P by done. done.
Qed.

Lemma item_object mk t fs l it :
  item_inv mk t fs l it -> String.eqb (ei_Status it) "completed" = true -> exists ct, ei_StorageDigest it = ComputeDigest ct.
Proof. unfold item_inv. intros I E. rewrite E in I. by destruct I as (data & [_ O _] & _). Qed.

(** ** Changes the invariant allows *)

(** Bundles may change while they keep their tenant. *)
Lemma Inv_bundles m s :
  Inv s -> (forall id b, m !! id = Some b -> eb_ID b = id) ->
  (forall id b, bundles s !! id = Some b -> exists b', m !! id = Some b' /\ eb_TenantID b' = eb_TenantID b) ->
  Inv (s <| bundles := m |>).
Proof.
  intros [i1 i2 i3 i4 i9 i5 i6 i8 i7] M T. split; cbn; try done.
  - intros id it E. destruct (i4 id it E) as (? & b & B & I). split; [done|]. destruct (T _ _ B) as (b' & B' & Tb).
    exists b'. rewrite Tb. done.
  - intros id r E. destruct (i7 id r E) as (? & ? & b & B & I). split; [done|]. split; [done|].
    destruct (T _ _ B) as (b' & B' & Tb). exists b'. split; [done|]. congruence.
Qed.

(** Files may change while objects keep their names, completed items their
    objects, and uploads their chunks. *)
Lemma Inv_files fs s :
  Inv s -> fs !! "receipt.key" = files s !! "receipt.key" ->
  (forall id it, items s !! id = Some it -> String.eqb (ei_Status it) "completed" = true ->
     fs !! ei_StorageDigest it = files s !! ei_StorageDigest it) ->
  (forall id it, items s !! id = Some it -> String.eqb (ei_Status it) "completed" = false ->
     fs !! staging_path id = files s !! staging_path id
     \/ tiles (default "" (fs !! staging_path id)) (item_chunks id s)) ->
  (forall id d, fs !! staging_path id = Some d -> Z.of_nat (String.length d) <= max_int64) ->
  (forall x ct, fs !! ComputeDigest x = Some ct -> ct = x) ->
  Inv (s <| files := fs |>).
Proof.
  intros [i1 i2 i3 i4 i9 i5 i6 i8 i7] Ky Done Up Max Ob. split; cbn; try done; [by rewrite Ky|].
  intros id it E. destruct (i4 id it E) as (Eid & b & B & I). split; [done|]. exists b. split; [done|].
  change (item_chunks id _) with (item_chunks id s). specialize (Done id it E). specialize (Up id it E).
  destruct (String.eqb (ei_Status it) "completed") eqn:C.
  - eapply item_inv_frame; [exact I|done|by intros _; apply Done|by rewrite C].
  - destruct (Up eq_refl) as [Same|T].
    + eapply item_inv_frame; [exact I|done|by rewrite C|by rewrite Eid].
    + unfold item_inv in *. rewrite C, Eid in *. naive_solver.
Qed.

Lemma item_digest s id it :
  Inv s -> items s !! id = Some it -> String.eqb (ei_Status it) "completed" = true ->
  exists ct, ei_StorageDigest it = ComputeDigest ct /\ files s !! ComputeDigest ct = Some ct.
Proof.
  intros I E C. destruct (inv_items s I id it E) as (_ & b & _ & H). unfold item_inv in H. rewrite C in H.
  destruct H as (data & [(key & nonce & _ & _ & _ & F) (ct & O) _] & _). exists ct. split; [done|]. rewrite O in F.
  rewrite F. f_equal. by apply (inv_objects s I).
Qed.

(** A new file under the name of its digest. *)
Lemma Inv_object ct s :
  (forall a b, sha256 a = sha256 b -> a = b) ->
  Inv s -> files s !! ComputeDigest ct = None -> Inv (s <| files ::= insert (ComputeDigest ct) ct |>).
Proof.
  intros CF I N. apply (Inv_files (<[ComputeDigest ct := ct]> (files s))); [done|..].
  - by rewrite lookup_insert_ne by apply digest_not_key.
  - intros id it E C. destruct (item_digest s id it I E C) as (ct' & -> & F). rewrite lookup_insert_ne; [done|]. congruence.
  - intros id it E C. left. by rewrite lookup_insert_ne by apply digest_not_staging.
  - intros id d. rewrite lookup_insert_ne by apply digest_not_staging. apply (inv_staged s I).
  - intros x ct'. destruct (decide (ComputeDigest ct = ComputeDigest x)) as [E|E].
    + rewrite E, lookup_insert_eq. intros [= <-]. by apply CF, hex_encode_inj.
    + rewrite lookup_insert_ne by done. apply (inv_objects s I).
Qed.

(** A change of the staging file of one upload. *)
Lemma Inv_staging id data s :
  Inv s -> tiles data (item_chunks id s) -> Z.of_nat (String.length data) <= max_int64 ->
  Inv (s <| files ::= insert (staging_path id) data |>).
Proof.
  intros I T M. apply (Inv_files (<[staging_path id := data]> (files s))); [done|..].
  - by rewrite lookup_insert_ne by apply staging_not_key.
  - intros id' it E C. destruct (item_digest s id' it I E C) as (ct' & -> & F). rewrite lookup_insert_ne; [done|].
    intros D. symmetry in D. by apply digest_not_staging in D.
  - intros id' it E C. destruct (decide (id' = id)) as [->|N].
    + right. rewrite lookup_insert_eq. done.
    + left. rewrite lookup_insert_ne; [done|]. by intros D%(inj _).
  - intros id' d [[_ <-]|[_ E]]%lookup_insert_Some; [done|by apply (inv_staged s I id')].
  - intros x ct. rewrite lookup_insert_ne by (intros D; symmetry in D; by apply digest_not_staging in D). apply (inv_objects s I).
Qed.

(** The staging file of a completed item may go. *)
Lemma Inv_unstage id it s :
  Inv s -> items s !! id = Some it -> String.eqb (ei_Status it) "completed" = true ->
  Inv (s <| files ::= delete (staging_path id) |>).
Proof.
  intros I E C. apply (Inv_files (delete (staging_path id) (files s))); [done|..].
  - by rewrite lookup_delete_ne by apply staging_not_key.
  - intros id' it' E' C'. destruct (item_digest s id' it' I E' C') as (ct' & -> & F). rewrite lookup_delete_ne; [done|].
    intros D. symmetry in D. by apply digest_not_staging in D.
  - intros id' it' E' C'. left. rewrite lookup_delete_ne; [done|]. intros D%(inj _). subst. congruence.
  - intros id' d [_ E']%lookup_delete_Some. by apply (inv_staged s I id').
  - intros x ct. rewrite lookup_delete_ne by (intros D; symmetry in D; by apply digest_not_staging in D). apply (inv_objects s I).
Qed.

(** One item changes, or a new one comes. *)
Lemma Inv_item it b s :
  Inv s -> bundles s !! ei_BundleID it = Some b -> (exists name, artifact_name name = Ok (ei_Name it)) ->
  item_inv (masterKey s) (eb_TenantID b) (files s) (item_chunks (ei_ID it) s) it ->
  Inv (s <| items ::= insert (ei_ID it) it |>).
Proof.
  intros [i1 i2 i3 i4 i9 i5 i6 i8 i7] B Nm I. split; cbn; try done.
  - intros id it'. destruct (decide (ei_ID it = id)) as [<-|N].
    + rewrite lookup_insert_eq. intros [= <-]. split; [done|]. by exists b.
    + rewrite lookup_insert_ne by done. apply i4.
  - intros id it' [[_ <-]|[_ E]]%lookup_insert_Some; [done|by apply (i9 id)].
  - intros k c E. destruct (i5 k c E) as [-> S]. split; [done|]. apply lookup_insert_is_Some.
    destruct (decide (ei_ID it = ck_ItemID c)); [by left|by right].
Qed.

Lemma alter_insert {A} (f : A -> A) i (m : gmap string A) x : m !! i = Some x -> alter f i m = <[i := f x]> m.
Proof.
  intros E. apply map_eq. intros j. destruct (decide (i = j)) as [<-|N].
  - by rewrite lookup_alter_eq, lookup_insert_eq, E.
  - by rewrite lookup_alter_ne, lookup_insert_ne.
Qed.

Lemma Inv_on_item f id row b s :
  Inv s -> items s !! id = Some row -> ei_ID (f row) = id -> ei_BundleID (f row) = ei_BundleID row ->
  ei_Name (f row) = ei_Name row -> bundles s !! ei_BundleID row = Some b ->
  item_inv (masterKey s) (eb_TenantID b) (files s) (item_chunks id s) (f row) ->
  Inv (s <| items ::= alter f id |>).
Proof.
  intros I E Ei Eb En B H. assert (s <| items ::= alter f id |> = s <| items ::= insert (ei_ID (f row)) (f row) |>) as ->.
  { destruct s; cbn in *. f_equal. by rewrite Ei, (alter_insert _ _ _ row). }
  eapply Inv_item; [done|by rewrite Eb|rewrite En; by apply (inv_names s I id)|]. by rewrite Ei.
Qed.

Lemma item_chunks_insert id c s :
  chunks s !! (ck_ItemID c, ck_ChunkIndex c) = None ->
  item_chunks id (s <| chunks ::= insert (ck_ItemID c, ck_ChunkIndex c) c |>)
  ≡ₚ (if String.eqb (ck_ItemID c) id then [c] else []) ++ item_chunks id s.
Proof. intros N. unfold item_chunks. cbn. by rewrite rows_where_insert. Qed.

(** A chunk of the staging file is recorded. *)
Lemma Inv_receive it b c n s :
  Inv s -> n = ei_ReceivedBytes it + ck_Length c -> items s !! ck_ItemID c = Some it -> bundles s !! ei_BundleID it = Some b ->
  String.eqb (ei_Status it) "completed" = false ->
  chunks s !! (ck_ItemID c, ck_ChunkIndex c) = None ->
  chunk_fits (default "" (files s !! staging_path (ck_ItemID c))) c ->
  Forall (apart (ck_Offset c) (ck_Length c)) (item_chunks (ck_ItemID c) s) ->
  Inv (s <| chunks ::= insert (ck_ItemID c, ck_ChunkIndex c) c |>
         <| items ::= alter (fun r => r <| ei_ReceivedBytes := n |>) (ck_ItemID c) |>).
Proof.
  intros I -> E B C N F A. destruct I as [i1 i2 i3 i4 i9 i5 i6 i8 i7]. split; try done.
  - intros id it'. cbn. rewrite (alter_insert _ _ _ it) by done. destruct (decide (ck_ItemID c = id)) as [<-|Ne].
    + rewrite lookup_insert_eq. intros [= <-]. destruct (i4 _ _ E) as (Eid & b' & B' & I). split; [done|]. exists b'. split; [done|].
      unfold item_inv in *. cbn [ei_Status ei_ID ei_ReceivedBytes ei_StorageDigest update]. cbn. rewrite C in *. rewrite Eid in *.
      rewrite (item_chunks_insert (ck_ItemID c) c s N), String.eqb_refl. destruct I as (Rv & T & D).
      split; [|split; [by apply tiles_add|done]]. cbn. unfold total_length in *. cbn. lia.
    + rewrite lookup_insert_ne by done. intros E'. destruct (i4 _ _ E') as (Eid & b' & B' & I). split; [done|]. exists b'.
      split; [done|]. eapply item_inv_frame; [exact I| |done..].
      rewrite (item_chunks_insert id c s N). by rewrite (proj2 (String.eqb_neq _ _) Ne).
  - intros id it'. cbn. rewrite (alter_insert _ _ _ it) by done. intros [[_ <-]|[_ E']]%lookup_insert_Some; [by apply (i9 _ _ E)|by apply (i9 id)].
  - intros k c'. cbn. rewrite (alter_insert _ _ _ it) by done. intros [[<- <-]|[Ne E']]%lookup_insert_Some.
    + split; [done|]. rewrite lookup_insert_eq. by eexists.
    + destruct (i5 k c' E') as [-> S]. split; [done|]. apply lookup_insert_is_Some.
      destruct (decide (ck_ItemID c = ck_ItemID c')); [by left|by right].
Qed.

End Store.

(** ** Operations *)

Section Operations.
Context `{U : Unicode} `{K : Crypto} `{KA : AuthCrypto} `{R : Rows} `{J : EvidenceJson} `{Laws : !AuthCryptoLaws}.
Hypothesis collision_free : forall a b, sha256 a = sha256 b -> a = b.

(** The random bytes of a call have the sizes the code asks for. *)
Record call_ok (c : call) : Prop := {
  co_key : String.length (c_dataKey c) = 32%nat;
  co_keyNonce : String.length (c_keyNonce c) = gcmNonceSize;
  co_dataNonce : String.length (c_dataNonce c) = gcmNonceSize;
}.

Lemma wp_owned_bundle t id s Q :
  Inv s -> (forall b, bundles s !! id = Some b -> eb_TenantID b = t -> Q b s) -> wp Inv (owned_bundle t id) s Q.
Proof.
  intros I H. unfold owned_bundle. do 2 wp_step. destruct (bundles s !! id) as [b|]; [|by wp_step].
  destruct (String.eqb_spec (eb_TenantID b) t); wp_step; by apply H.
Qed.

Lemma wp_owned_item t id s Q :
  Inv s ->
  (forall it b, items s !! id = Some it -> bundles s !! ei_BundleID it = Some b -> eb_TenantID b = t -> Q it s) ->
  wp Inv (owned_item t id) s Q.
Proof.
  intros I H. unfold owned_item. do 2 wp_step. destruct (items s !! id) as [it|] eqn:E; [|by wp_step]. cbn.
  destruct (bundles s !! ei_BundleID it) as [b|] eqn:B; [|by wp_step]. cbn.
  destruct (String.eqb_spec (eb_TenantID b) t); wp_step; by eapply H.
Qed.

Lemma wp_quota c t n s Q :
  Inv s -> (over_quota t n s = false -> Q tt s) -> wp Inv (checkQuotaAndDisk c t n) s Q.
Proof.
  intros I H. unfold checkQuotaAndDisk. do 4 wp_step. bools. destruct (c_free c); wp_step; auto.
Qed.

Lemma wp_object c ct s Q :
  Inv s -> (forall s', Inv s' -> (exists fs, s' = s <| files := fs |> /\ files s ⊆ fs) -> files s' !! ComputeDigest ct = Some ct -> Q tt s') ->
  wp Inv (writeObjectAtomic c (ComputeDigest ct) ct) s Q.
Proof.
  intros I H. unfold writeObjectAtomic. do 2 wp_step. destruct (files s !! ComputeDigest ct) as [old|] eqn:F.
  - wp_step. apply H; [done| |by rewrite F, (inv_objects s I _ _ F)]. exists (files s). split; [by destruct s|done].
  - destruct (c_object c); [|by wp_step]. apply wp_modify. apply H; [by apply Inv_object| |by cbn; rewrite lookup_insert_eq].
    eexists. split; [reflexivity|]. by apply insert_subseteq.
Qed.

Lemma wp_insert_item it b s Q :
  Inv s -> bundles s !! ei_BundleID it = Some b -> (exists name, artifact_name name = Ok (ei_Name it)) ->
  item_inv (masterKey s) (eb_TenantID b) (files s) [] it ->
  (items s !! ei_ID it = None -> Inv (s <| items ::= insert (ei_ID it) it |>) -> Q tt (s <| items ::= insert (ei_ID it) it |>)) ->
  wp Inv (insert_item it) s Q.
Proof.
  intros I B Nm Ok H. unfold insert_item. do 4 wp_step. wp_step. apply negb_true_iff, bool_decide_eq_false, eq_None_not_Some in H0.
  assert (N : item_chunks (ei_ID it) s = []).
  { apply rows_where_nil. intros k c E. destruct (inv_chunks s I k c E) as [_ S]. apply String.eqb_neq. intros X.
    rewrite X, H0 in S. by destruct S. }
  apply H; [done|]. eapply Inv_item; [done|exact B|done|]. by rewrite N.
Qed.

Lemma Inv_on_bundle f id s :
  Inv s -> (forall b, eb_ID (f b) = eb_ID b /\ eb_TenantID (f b) = eb_TenantID b) -> Inv (s <| bundles ::= alter f id |>).
Proof.
  intros I F. apply (Inv_bundles (alter f id (bundles s))); [done|..].
  - intros id' b. rewrite lookup_alter. destruct (decide (id = id')) as [<-|N].
    + intros (b' & E & ->)%fmap_Some. rewrite (proj1 (F b')). by apply (inv_bundles s I).
    + apply (inv_bundles s I).
  - intros id' b E. rewrite lookup_alter. destruct (decide (id = id')) as [->|]; [|eauto]. rewrite E. eexists. split; [done|]. apply F.
Qed.

Lemma keeps_CreateBundleWithID c id t e j p ttl s : Inv s -> Inv (fst (CreateBundleWithID c id t e j p ttl s)).
Proof.
  intros I. unfold CreateBundleWithID. generalize (if String.eqb (TrimSpace id) "" then c_id c else id) as i. intros i.
  cbn. apply (Inv_bundles _ s I).
  - intros id' b. destruct (bundles s !! i) eqn:E; [apply (inv_bundles s I)|].
    intros [[<- <-]|[_ X]]%lookup_insert_Some; [done|by apply (inv_bundles s I)].
  - intros id' b E. destruct (bundles s !! i) eqn:N; [eauto|]. rewrite lookup_insert_ne by congruence. eauto.
Qed.

Lemma wp_CreateItem c t bid name ct n st s :
  Inv s -> wp Inv (CreateItem c t bid name ct n st) s (fun it s' => Inv s').
Proof.
  intros I. unfold CreateItem. wp_step. apply wp_owned_bundle; [done|]. intros b B T. do 2 wp_step. wp_step.
  apply wp_quota; [done|]. intros _. wp_step. eapply (wp_insert_item _ b); [done|done|eauto| |].
  - unfold item_inv. cbn. split; [done|]. split; [split; constructor|done].
  - intros _ I'. by wp_step.
Qed.

(** ** Encrypting *)

Definition ciphertext_of (c : call) (tenant bundle id name data : string) : string :=
  EncryptItemData (c_dataNonce c) (c_dataKey c) data (CanonicalItemAAD tenant bundle id name 0 (Z.of_nat (String.length data))).

Lemma encrypted_holds c mk t fs it data :
  call_ok c -> String.length mk = 32%nat -> ei_EncryptedKey it = WrapDataKey mk (c_keyNonce c) (c_dataKey c) ->
  ei_SHA256 it = ComputeDigest data ->
  let ct := ciphertext_of c t (ei_BundleID it) (ei_ID it) (ei_Name it) data in
  ei_StorageDigest it = ComputeDigest ct -> fs !! ComputeDigest ct = Some ct -> holds_data mk t fs it data.
Proof.
  intros [k1 k2 k3] M W H ct D F. split; [|by exists ct|done]. exists (c_dataKey c), (c_dataNonce c).
  split; [done|]. split; [done|]. rewrite W, unwrap_wrap by done. split; [done|]. by rewrite D, F.
Qed.

Lemma wp_StoreItem c t bid name ty st data s :
  Inv s -> call_ok c ->
  wp Inv (StoreItem c t bid name ty st data) s (fun it s' => Inv s' /\ ei_ID it = c_id c /\ items s' !! c_id c = Some it
    /\ ei_SizeBytes it = Z.of_nat (String.length data) /\ holds_data (masterKey s') t (files s') it data
    /\ exists b, bundles s' !! ei_BundleID it = Some b /\ eb_TenantID b = t).
Proof.
  intros I C. unfold StoreItem. wp_step. apply wp_owned_bundle; [done|]. intros b B T. do 2 wp_step. rename x into cn. wp_step.
  apply wp_quota; [done|]. intros _. do 2 wp_step. wp_step.
  fold (ciphertext_of c t bid (c_id c) cn data). apply wp_object; [done|].
  intros s' I' (fs & -> & Sub) F. wp_step.
  set (it := mkItem _ _ _ _ _ _ _ _ _ _ _ _ _).
  assert (Hd : holds_data (masterKey s) t fs it data) by (apply (encrypted_holds c); try done; apply (inv_master s I)).
  apply (wp_insert_item it b); [done|done|eauto| |].
  { unfold item_inv. cbn [String.eqb it ei_Status]. rewrite T. exists data. split; [done|by left]. }
  intros N I2. wp_step. apply wp_modify. wp_step. split; [by apply Inv_on_bundle|]. split; [done|].
  split; [by cbn; rewrite lookup_insert_eq|]. split; [done|]. split; [done|]. cbn. rewrite lookup_alter, decide_True, B by done.
  cbn. eauto.
Qed.

(** ** Chunks *)

Lemma staged_bound id s : Inv s -> Z.of_nat (String.length (default "" (files s !! staging_path id))) <= max_int64.
Proof. intros I. destruct (files s !! staging_path id) eqn:E; [by apply (inv_staged s I id)|done]. Qed.

Lemma uploading_tiles id it s :
  Inv s -> items s !! id = Some it -> String.eqb (ei_Status it) "completed" = false ->
  ei_ReceivedBytes it = total_length (item_chunks id s) /\ tiles (default "" (files s !! staging_path id)) (item_chunks id s).
Proof. intros I E C. destruct (inv_items s I id it E) as (<- & b & _ & H). unfold item_inv in H. rewrite C in H. naive_solver. Qed.

Lemma apart_part off len n l : n <= len -> Forall (apart off len) l -> Forall (apart off n) l.
Proof. intros L A. eapply Forall_impl; [exact A|]. unfold apart. intros c. lia. Qed.

Lemma string_take_length n s : (String.length (string_take n s) <= String.length s)%nat.
Proof. rewrite <- !bytes_length, bytes_take, length_take. lia. Qed.

Lemma string_length_0 s : String.length s = 0%nat -> s = "".
Proof. by destruct s. Qed.

Lemma Inv_write id off d s :
  Inv s -> tiles (default "" (files s !! staging_path id)) (item_chunks id s) ->
  Forall (apart off (Z.of_nat (String.length d))) (item_chunks id s) -> 0 <= off -> String.length d <> 0%nat ->
  off + Z.of_nat (String.length d) <= max_int64 ->
  Inv (s <| files ::= insert (staging_path id) (write_at (Z.to_nat off) d (default "" (files s !! staging_path id))) |>).
Proof.
  intros I T A O N M. pose proof (staged_bound id s I). apply Inv_staging; [done|..].
  - apply tiles_write; [done..|]. by rewrite Z2Nat.id.
  - rewrite write_at_length by done. lia.
Qed.

Lemma wp_stage c id off data sha idx s Q :
  Inv s -> tiles (default "" (files s !! staging_path id)) (item_chunks id s) -> 0 <= off -> String.length data <> 0%nat ->
  scan_chunks idx off (Z.of_nat (String.length data)) sha (item_chunks id s) = Ok false ->
  (forall s', s' = s <| files ::= insert (staging_path id) (write_at (Z.to_nat off) data (default "" (files s !! staging_path id))) |> ->
     off + Z.of_nat (String.length data) <= max_int64 -> Inv s' -> Q tt s') ->
  wp Inv (stage c id off data) s Q.
Proof.
  intros I T O N S H. unfold stage. do 2 wp_step. destruct (Z.ltb_spec max_int64 (off + Z.of_nat (String.length data))) as [M|M].
  { wp_step. apply wp_modify. wp_step. apply Inv_staging; [done..|]. by apply staged_bound. }
  destruct (scan_new _ _ _ _ _ _ S (tl_fits _ _ T) (staged_bound id s I)) as [Fresh A]; [lia..|].
  destruct (c_torn c) as [n|].
  - wp_step. pose proof (string_take_length n data). destruct (String.eqb_spec (string_take n data) "") as [E|E].
    + wp_step. by wp_step.
    + apply wp_modify. wp_step. apply Inv_write; try done; [eapply apart_part; [|exact A]; lia| |lia].
      intros L. by apply string_length_0 in L.
  - apply wp_modify. apply H; [done..|]. by apply Inv_write.
Qed.

Lemma wp_assemble c t total row it b s :
  Inv s -> call_ok c -> items s !! ei_ID it = Some row -> String.eqb (ei_Status row) "completed" = false ->
  bundles s !! ei_BundleID row = Some b -> eb_TenantID b = t -> ei_BundleID it = ei_BundleID row -> ei_Name it = ei_Name row ->
  total_length (item_chunks (ei_ID it) s) = total ->
  wp Inv (assemble c t total it) s (fun it' s' => Inv s').
Proof.
  intros I C It St B T Eb En L. unfold assemble. do 4 wp_step. destruct (files s !! staging_path (ei_ID it)) as [d|] eqn:F; [|done].
  injection H as <-. do 4 wp_step. apply Z.eqb_eq in H. subst total. wp_step.
  destruct (uploading_tiles _ _ _ I It St) as [_ Ti]. rewrite F in Ti. cbn in Ti. rewrite Eb, En.
  destruct (inv_items s I _ _ It) as (Erow & _). rewrite <- Erow, <- H in *.
  fold (ciphertext_of c t (ei_BundleID row) (ei_ID row) (ei_Name row) d). apply wp_object; [done|].
  intros s' I' (fs & -> & Sub) Fo. repeat wp_step.
  set (f := complete_row _ _ _ _). set (s1 := s <| files := fs |>) in *.
  assert (Inv (s1 <| items ::= alter f (ei_ID row) |>)) as I1.
  { eapply (Inv_on_item f _ row b); try done. unfold item_inv. cbn [f ei_Status update String.eqb]. cbn. exists d. split.
    - apply (encrypted_holds c); try done; cbn; [apply (inv_master s I)|by rewrite T|by rewrite T].
    - right. by apply tiles_cover. }
  eapply (Inv_unstage _ (f row)); [by apply Inv_on_bundle| |done].
  cbn. by rewrite lookup_alter, decide_True, It.
Qed.

Lemma wp_StoreItemChunk c t id idx off total data s :
  Inv s -> call_ok c -> wp Inv (StoreItemChunk c t id idx off total data) s (fun it s' => Inv s').
Proof.
  intros I C. unfold StoreItemChunk. do 2 wp_step. apply negb_true_iff in H. apply orb_false_iff in H as [H V]. bools.
  wp_step. apply wp_owned_item; [done|]. intros row b It B T. cbv zeta.
  destruct (String.eqb (ei_Status (upload_view row)) "completed") eqn:St; [by wp_step|]. change (String.eqb (ei_Status row) "completed" = false) in St.
  do 4 wp_step. match goal with E : scan_chunks _ _ _ _ _ = Ok ?x |- _ => rename E into Sc; destruct x; [by wp_step|] end.
  fold (item_chunks id s) in Sc. wp_step.
  destruct (uploading_tiles _ _ _ I It St) as [Rc Ti]. assert (Hn : String.length data <> 0%nat) by lia.
  eapply wp_stage; [done..|]. intros s1 E1 M I1. wp_step. unfold insert_chunk. do 4 wp_step.
  match goal with E : negb (bool_decide _) = true |- _ => apply negb_true_iff, bool_decide_eq_false, eq_None_not_Some in E; rename E into Nk end.
  repeat wp_step. set (k := mkChunk _ _ _ _ _ _) in *. set (n := int64_wrap _).
  destruct (scan_new _ _ _ _ _ _ Sc (tl_fits _ _ Ti) (staged_bound id s I)) as [_ A]; [lia..|].
  assert (Fs : default "" (files s1 !! staging_path id) = write_at (Z.to_nat off) data (default "" (files s !! staging_path id)))
    by (rewrite E1; cbn; by rewrite lookup_insert_eq).
  assert (Fk : chunk_fits (default "" (files s1 !! staging_path id)) k).
  { rewrite Fs. split; cbn; [done|lia|rewrite write_at_length by done; lia|].
    by rewrite <- (Z2Nat.id off) at 1 by done; rewrite substr_write. }
  assert (It1 : items s1 !! id = Some row) by (by rewrite E1). assert (B1 : bundles s1 !! ei_BundleID row = Some b) by (by rewrite E1).
  destruct (uploading_tiles _ _ _ I1 It1 St) as [Rc1 Ti1]. assert (A1 : Forall (apart off (ck_Length k)) (item_chunks id s1)) by (by rewrite E1).
  assert (En : n = ei_ReceivedBytes row + ck_Length k).
  { unfold n. pose proof (tiles_total _ _ (tiles_add _ _ _ Ti1 Fk A1)) as Tt. pose proof (staged_bound id s1 I1).
    change (total_length (k :: item_chunks id s1)) with (ck_Length k + total_length (item_chunks id s1)) in Tt.
    assert (0 <= ei_ReceivedBytes row) by (rewrite Rc1, <- (positions_length _ _ (tl_fits _ _ Ti1)); lia).
    cbn in *. apply wrap_small. unfold min_int64. lia. }
  assert (I2 := Inv_receive row b k n s1 I1 En It1 B1 St Nk Fk A1).
  destruct (Z.eqb_spec n total) as [Et|_]; [|by wp_step].
  destruct (inv_items s I _ _ It) as (Erow & _).
  apply (wp_assemble c t total (row <| ei_ReceivedBytes := n |>) _ b); try done.
  - cbn. rewrite Erow, lookup_alter, decide_True, It1 by done. cbn. by rewrite Erow.
  - change (total_length (item_chunks (ei_ID row) (s1 <| chunks ::= insert (ck_ItemID k, ck_ChunkIndex k) k |>)) = total).
    rewrite Erow, (item_chunks_insert id k s1 Nk), String.eqb_refl. change (ck_Length k + total_length (item_chunks id s1) = total). lia.
Qed.

(** ** Receipts and holds *)

Lemma signed_receipt_ok priv r : receipt_ok priv (sign_receipt priv r).
Proof. done. Qed.

Lemma Inv_receipt r b s :
  Inv s -> receipt_ok (receiptKey s) r -> bundles s !! er_BundleID r = Some b -> eb_TenantID b = er_TenantID r ->
  Inv (s <| receipts ::= insert (er_ReceiptID r) r |>).
Proof.
  intros [i1 i2 i3 i4 i9 i5 i6 i8 i7] O B T. split; cbn; try done.
  intros id r' [[<- <-]|[_ E]]%lookup_insert_Some; [|by apply i7]. split; [done|]. split; [done|]. eauto.
Qed.

(** What a successful finalization has checked and done. *)
Record finalized (c : call) (t bid : string) (m : Manifest) (s s' : Store) (r : EvidenceReceipt) : Prop := {
  fz_tenant : er_TenantID r = t;
  fz_bundle : er_BundleID r = bid;
  fz_manifest : er_ManifestSHA256 r = ComputeDigest (manifest_CanonicalBytes m);
  fz_previous : er_PreviousReceiptSHA256 r = previous_hash t s;
  fz_time : er_IngestedAt r = c_now c;
  fz_signed : receipt_ok (receiptKey s) r;
  fz_new : receipts s !! er_ReceiptID r = None;
  fz_first : forall id r', receipts s !! id = Some r' -> er_BundleID r' <> bid;
  fz_receipts : receipts s' = <[er_ReceiptID r := r]> (receipts s);
  fz_owner : exists b, bundles s !! bid = Some b /\ eb_TenantID b = t;
  fz_count : length (em_Items m) = size (stored_items (bundle_rows bid s));
  fz_items : check_manifest (stored_items (bundle_rows bid s)) (em_Items m) = Ok tt;
  fz_rest : items s' = items s /\ chunks s' = chunks s /\ files s' = files s /\ masterKey s' = masterKey s /\ receiptKey s' = receiptKey s;
  fz_bundles : forall id b, bundles s !! id = Some b -> exists b', bundles s' !! id = Some b' /\ eb_TenantID b' = eb_TenantID b;
}.

Lemma wp_FinalizeBundle c t bid m key s :
  Inv s -> wp Inv (FinalizeBundle c t bid m key) s (fun r s' => Inv s' /\ finalized c t bid m s s' r).
Proof.
  intros I. unfold FinalizeBundle. wp_step. apply wp_owned_bundle; [done|]. intros b B T. do 2 wp_step. do 4 wp_step.
  match goal with E : (_ =? _)%nat = true |- _ => apply Nat.eqb_eq in E; rename E into Cn end.
  do 2 wp_step. match goal with E : check_manifest _ _ = Ok ?u |- _ => destruct u; rename E into Ck end.
  do 4 wp_step. wp_step. unfold insert_receipt. do 4 wp_step.
  match goal with E : negb _ = true |- _ => apply negb_true_iff, orb_false_iff in E; destruct E as [N1 N2] end.
  apply bool_decide_eq_false, eq_None_not_Some in N1. apply bool_decide_eq_false, dec_stable in N2.
  repeat wp_step. set (r := sign_receipt _ _) in *.
  split.
  { apply Inv_on_bundle; [|done]. by apply (Inv_receipt r b). }
  split; try done; [|by exists b|].
  - intros id r' E X. assert (r' ∈ rows_where (fun x => String.eqb (er_BundleID x) (er_BundleID r)) (receipts s)) as W.
    { apply rows_where_elem. split; [by apply String.eqb_eq|eauto]. } rewrite N2 in W. by apply not_elem_of_nil in W.
  - intros id b' E. cbn. rewrite lookup_alter. destruct (decide (bid = id)) as [->|]; [|eauto]. rewrite E. by eexists.
Qed.

Lemma keeps_SetLegalHold t bid actor reason hold s : Inv s -> Inv (fst (SetLegalHold t bid actor reason hold s)).
Proof.
  intros I. apply (wp_state _ _ _ (fun _ s' => Inv s')); [|done]. unfold SetLegalHold. wp_step.
  apply wp_owned_bundle; [done|]. intros b B T. apply wp_modify. by apply Inv_on_bundle.
Qed.

(** ** Pruning *)

Lemma rows_where_filter {Key A} `{Countable Key} f (P : Key * A -> Prop) `{!forall x, Decision (P x)} (m : gmap Key A) :
  (forall k x, m !! k = Some x -> f x = true -> P (k, x)) -> rows_where f (filter P m) ≡ₚ rows_where f m.
Proof.
  intros Hp. unfold rows_where. rewrite !in_row_order_perm. revert Hp. induction m as [|k x m N IH] using map_ind; intros Hp.
  { by rewrite map_filter_empty. }
  assert (IH' := IH ltac:(intros k' x' E; apply Hp; rewrite lookup_insert_ne; [done|congruence])).
  rewrite (map_to_list_insert m) by done. destruct (decide (P (k, x))) as [Pk|Pk].
  - rewrite map_filter_insert_True, map_to_list_insert by (try done; by apply map_lookup_filter_None; left). cbn [map snd]. rewrite !filter_cons.
    destruct (decide (f x = true)); by rewrite IH'.
  - rewrite map_filter_insert_not' by (try done; congruence). cbn [map snd]. rewrite filter_cons. rewrite decide_False; [done|].
    intros F. apply Pk, Hp; [by rewrite lookup_insert_eq|done].
Qed.

Lemma Inv_remove_object s ct : Inv s -> Inv (remove_object s (ComputeDigest ct)).
Proof.
  intros I. unfold remove_object, referenced. case_bool_decide as D; [done|].
  apply (Inv_files (delete (ComputeDigest ct) (files s))); [done|..].
  - by rewrite lookup_delete_ne by apply digest_not_key.
  - intros id it E C. rewrite lookup_delete_ne; [done|]. intros X.
    assert (it ∈ rows_where (fun it => String.eqb (ei_StorageDigest it) (ComputeDigest ct)) (items s)) as W.
    { apply rows_where_elem. split; [by apply String.eqb_eq|eauto]. } rewrite D in W. by apply not_elem_of_nil in W.
  - intros id it E C. left. by rewrite lookup_delete_ne by apply digest_not_staging.
  - intros id d [_ E]%lookup_delete_Some. by apply (inv_staged s I id).
  - intros x ct' [_ E]%lookup_delete_Some. by apply (inv_objects s I).
Qed.

Lemma Inv_remove_objects ds s : Forall (fun d => exists ct, d = ComputeDigest ct) ds -> Inv s -> Inv (fold_left remove_object ds s).
Proof. intros F. revert s. induction F as [|d ds (ct & ->) F IH]; intros s I; [done|]. cbn. by apply IH, Inv_remove_object. Qed.

(** The rows of a bundle that is pruned. *)
Definition without (id : string) (s : Store) : Store :=
  let in_bundle it := String.eqb (ei_BundleID it) id in
  s <| chunks ::= filter (fun kv => match items s !! ck_ItemID kv.2 with Some it => in_bundle it | None => false end = false) |>
    <| items ::= filter (fun kv => in_bundle kv.2 = false) |>
    <| receipts ::= filter (fun kv => String.eqb (er_BundleID kv.2) id = false) |>
    <| bundles ::= delete id |>.

Lemma Inv_without id s : Inv s -> Inv (without id s).
Proof.
  intros [i1 i2 i3 i4 i9 i5 i6 i8 i7]. split; cbn; try done.
  - intros id' b [_ E]%lookup_delete_Some. by apply i3.
  - intros id' it [E F]%map_lookup_filter_Some. cbn in F. destruct (i4 id' it E) as (Eid & b & B & I). split; [done|]. exists b.
    apply String.eqb_neq in F. rewrite lookup_delete_ne by congruence. split; [done|].
    eapply item_inv_frame; [exact I| |done..]. unfold item_chunks. cbn. symmetry. apply rows_where_filter.
    intros k c Ek Ec. apply String.eqb_eq in Ec. cbn. rewrite Ec, E. by apply String.eqb_neq.
  - intros id' it [E _]%map_lookup_filter_Some. by apply (i9 id').
  - intros k c [E F]%map_lookup_filter_Some. destruct (i5 k c E) as [-> [it Eit]]. split; [done|]. exists it.
    apply map_lookup_filter_Some. split; [done|]. cbn in *. by rewrite Eit in F.
  - intros id' r [E F]%map_lookup_filter_Some. destruct (i7 id' r E) as (Eid & O & b & B & T). split; [done|]. split; [done|].
    exists b. cbn in F. apply String.eqb_neq in F. rewrite lookup_delete_ne by congruence. done.
Qed.

Lemma Inv_prune_bundle s id : Inv s -> Inv (prune_bundle s id).
Proof.
  intros I. unfold prune_bundle. fold (without id s). apply Inv_remove_objects; [|by apply Inv_without].
  apply Forall_forall. intros d [N (it & -> & E)%list_elem_of_fmap]%list_elem_of_filter.
  apply rows_where_elem in E as (_ & k & E). destruct (inv_items s I k it E) as (_ & b & _ & H).
  destruct (String.eqb (ei_Status it) "completed") eqn:C; [by apply (item_object _ _ _ _ _ H C)|].
  unfold item_inv in H. rewrite C in H. destruct H as (_ & _ & D & _). by rewrite D in N.
Qed.

Lemma Inv_prune now s : Inv s -> Inv (fst (PruneExpiredBundles now s)).
Proof.
  unfold PruneExpiredBundles. cbn. generalize (map eb_ID (rows_where (expired_bundle now) (bundles s))) as l.
  intros l. revert s. induction l as [|id l IH]; intros s I; [done|]. cbn. by apply IH, Inv_prune_bundle.
Qed.

(** ** Starting *)

(** A start finds the receipt key of the last one. *)
Lemma restart_keeps fresh w s s' : Inv s -> NewStore fresh w (masterKey s) s = Ok s' ->
  s' = s <| maxTenantQuotaBytes := 10 * GB |>.
Proof.
  intros I. destruct (inv_receipt_key s I) as [L F]. unfold NewStore, LoadOrCreateReceiptKey. rewrite F. cbn [mbind option_bind].
  rewrite TrimSpace_plain, hex_decode_encode by apply hex_plain. rewrite L. cbn. intros [= <-]. by destruct s.
Qed.

Lemma Inv_quota n s : Inv s -> Inv (s <| maxTenantQuotaBytes := n |>).
Proof. by intros [i1 i2 i3 i4 i9 i5 i6 i8 i7]. Qed.

(** ** Runs *)

Inductive evidence_op : Type :=
| OCreateBundle (c : call) (id tenantID endpointID jobID profile : string) (ttl : Z)
| OCreateItem (c : call) (tenantID bundleID name contentType : string) (expectedSize : Z) (collectorStatus : string)
| OChunk (c : call) (tenantID itemID : string) (chunkIndex offset totalSize : Z) (data : string)
| OStoreItem (c : call) (tenantID bundleID name contentType collectorStatus data : string)
| OFinalize (c : call) (tenantID bundleID : string) (m : Manifest) (key : string)
| OHold (tenantID bundleID actor reason : string) (hold : bool)
| OQuota (maxBytes : Z)
| OPrune (now : Z)
| ORestart (fresh : string) (written : bool).

Definition exec (o : evidence_op) (s : Store) : Store :=
  match o with
  | OCreateBundle c id t e j p ttl => fst (CreateBundleWithID c id t e j p ttl s)
  | OCreateItem c t bid name ty n st => fst (CreateItem c t bid name ty n st s)
  | OChunk c t id idx off total data => fst (StoreItemChunk c t id idx off total data s)
  | OStoreItem c t bid name ty st data => fst (StoreItem c t bid name ty st data s)
  | OFinalize c t bid m key => fst (FinalizeBundle c t bid m key s)
  | OHold t bid actor reason hold => fst (SetLegalHold t bid actor reason hold s)
  | OQuota n => fst (SetTenantQuota n s)
  | OPrune now => fst (PruneExpiredBundles now s)
  | ORestart fresh w => match NewStore fresh w (masterKey s) s with Ok s' => s' | Err _ => s end
  end.

Definition run (l : list evidence_op) (s : Store) : Store := fold_left (fun s o => exec o s) l s.

(** The random bytes of the call have their sizes. *)
Definition op_ok (o : evidence_op) : Prop :=
  match o with
  | OChunk c _ _ _ _ _ _ | OStoreItem c _ _ _ _ _ _ => call_ok c
  | _ => True
  end.

Definition is_prune (o : evidence_op) : bool := match o with OPrune _ => true | _ => false end.

Lemma Inv_exec o s : Inv s -> op_ok o -> Inv (exec o s).
Proof.
  intros I O. destruct o; cbn [exec op_ok] in *.
  - by apply keeps_CreateBundleWithID.
  - by eapply wp_state; [by apply wp_CreateItem|].
  - by eapply wp_state; [by apply wp_StoreItemChunk|].
  - eapply wp_state; [by apply wp_StoreItem|]. by intros it s' [? _].
  - eapply wp_state; [by apply wp_FinalizeBundle|]. by intros it s' [? _].
  - by apply keeps_SetLegalHold.
  - by apply Inv_quota.
  - by apply Inv_prune.
  - destruct (NewStore _ _ _ _) as [s'|] eqn:E; [|done]. apply restart_keeps in E as ->; [|done]. by apply Inv_quota.
Qed.

Lemma Inv_run l s : Inv s -> Forall op_ok l -> Inv (run l s).
Proof.
  intros I F. revert s I. induction F as [|o l O F IH]; intros s I; [done|]. cbn. by apply IH, Inv_exec.
Qed.

(** The stores a hub can reach: a first start on an empty directory, then any
    operations. *)
Definition no_store : Store := mkStore ∅ ∅ ∅ ∅ ∅ "" 0 "".

Definition reachable (s : Store) : Prop :=
  exists fresh mk s0 l, String.length fresh = 64%nat /\ String.length mk = 32%nat
    /\ NewStore fresh true mk no_store = Ok s0 /\ Forall op_ok l /\ s = run l s0.

Lemma Inv_start fresh mk s0 :
  String.length fresh = 64%nat -> String.length mk = 32%nat -> NewStore fresh true mk no_store = Ok s0 -> Inv s0.
Proof.
  intros F M E. set (pub := hex_encode (public_of fresh)).
  assert (s0 = mkStore ∅ ∅ ∅ ∅ (<["receipt.key.pub" := pub]> (<["receipt.key" := hex_encode fresh]> ∅)) mk (10 * GB) fresh) as ->
    by (injection E as <-; done). clear E.
  split; cbn [files items chunks receipts bundles masterKey receiptKey]; try done.
  - intros x ct. rewrite !lookup_insert_ne; [done|..]; intros E; symmetry in E;
      destruct (digest_head x) as [D|(c & r & D & _ & Nr)]; rewrite D in E; try done; congruence.
Qed.

Lemma reachable_Inv s : reachable s -> Inv s.
Proof. intros (fresh & mk & s0 & l & F & M & E & O & ->). apply Inv_run; [by eapply Inv_start|done]. Qed.

End Operations.
