(* ===== verification/EvidenceProps.v ===== *)
(** * What the evidence store guarantees

    Stored data is read back unchanged until its bundle is pruned, chunks
    assemble exactly, finalized manifests tell the truth, receipts chain, and
    tenants do not see each other. *)

From Stdlib Require Import Ascii String.
From stdpp Require Import gmap.
From S2P Require Import Prelude NetIP Canonical CanonicalProps Action Platform Evidence EvidenceInv.

Import canonical platform evidence.

Local Open Scope string_scope.
Local Open Scope Z_scope.

(** ** Completed rows stay *)

Section Kept.
Context `{U : Unicode} `{K : Crypto} `{KA : AuthCrypto} `{R : Rows} `{J : EvidenceJson} `{Laws : !AuthCryptoLaws}.
Context (id : string) (it : EvidenceItem).

Definition row_kept (s s' : Store) : Prop := items s !! id = Some it -> items s' !! id = Some it.

#[local] Instance row_kept_preorder : PreOrder row_kept.
Proof. split; [intros s; by unfold row_kept|]. intros s1 s2 s3 A B H. by apply B, A. Qed.

Lemma row_kept_modify f : (forall s, items (f s) = items s) -> respects row_kept (modify f).
Proof. intros F s. unfold row_kept. cbn. by rewrite F. Qed.

Lemma kept_insert_item x : respects row_kept (insert_item x).
Proof.
  intros s E. unfold insert_item, mbind, action_bind. cbn. case_bool_decide as D; cbn; [done|].
  rewrite lookup_insert_ne; [done|]. intros X. apply D. rewrite X. by exists it.
Qed.

Lemma kept_on_item i f : i <> id -> respects row_kept (on_item i f).
Proof. intros N s E. cbn. by rewrite lookup_alter_ne. Qed.

#[local] Hint Extern 1 (respects row_kept (modify _)) => (by apply row_kept_modify) : respects.
#[local] Hint Extern 1 (respects row_kept (set_file _ _)) => (by apply row_kept_modify) : respects.
#[local] Hint Extern 1 (respects row_kept (on_bundle _ _)) => (by apply row_kept_modify) : respects.
#[local] Hint Resolve kept_insert_item kept_on_item : respects.

Lemma kept_owned_bundle t b : respects row_kept (owned_bundle t b).
Proof. unfold owned_bundle. respects. Qed.

Lemma kept_owned_item t i : respects row_kept (owned_item t i).
Proof. unfold owned_item. respects. Qed.

Lemma kept_quota c t n : respects row_kept (checkQuotaAndDisk c t n).
Proof. unfold checkQuotaAndDisk. respects. Qed.

Lemma kept_object c d ct : respects row_kept (writeObjectAtomic c d ct).
Proof. unfold writeObjectAtomic. respects. Qed.

Lemma kept_insert_chunk k : respects row_kept (insert_chunk k).
Proof. unfold insert_chunk. respects. Qed.

Lemma kept_insert_receipt r : respects row_kept (insert_receipt r).
Proof. unfold insert_receipt. respects. Qed.

Lemma kept_stage c i off d : respects row_kept (stage c i off d).
Proof. unfold stage. respects. Qed.

#[local] Hint Resolve kept_owned_bundle kept_owned_item kept_quota kept_object kept_insert_chunk kept_insert_receipt kept_stage : respects.

Lemma kept_assemble c t n x : ei_ID x <> id -> respects row_kept (assemble c t n x).
Proof. intros N. unfold assemble. respects. Qed.

#[local] Hint Resolve kept_assemble : respects.

Lemma kept_chunk c t i idx off total d s :
  Inv s -> String.eqb (ei_Status it) "completed" = true -> items s !! id = Some it ->
  items (fst (StoreItemChunk c t i idx off total d s)) !! id = Some it.
Proof.
  intros I C E. change ((fun s' => items s' !! id = Some it) (fst (StoreItemChunk c t i idx off total d s))).
  apply (wp_state (fun s' => items s' !! id = Some it) _ s (fun _ s' => items s' !! id = Some it)); [|done].
  unfold StoreItemChunk. do 3 wp_step. unfold owned_item. do 2 wp_step.
  destruct (items s !! i) as [row|] eqn:Ei; [|by wp_step]. cbn [mbind option_bind].
  destruct (bundles s !! ei_BundleID row) as [b|]; cbn [mbind option_bind]; [|by wp_step].
  destruct (String.eqb (eb_TenantID b) t); [|by wp_step].
  wp_step. cbv zeta. change (ei_Status (upload_view row)) with (ei_Status row).
  destruct (String.eqb (ei_Status row) "completed") eqn:St; [by wp_step|].
  assert (N : i <> id) by congruence.
  assert (Er : ei_ID row = i) by (by destruct (inv_items s I i row Ei)).
  assert (Na : forall n, respects row_kept (assemble c t total ((upload_view row) <| ei_ReceivedBytes := n |>)))
    by (intros n; apply kept_assemble; cbn; by rewrite Er).
  apply (wp_of_state (fun s' => items s' !! id = Some it)).
  match goal with |- context [fst (?m s)] => enough (respects row_kept m) as Rm by exact (Rm s E) end.
  respects.
Qed.

(** A completed row stays until its bundle is gone. *)
Lemma kept_prune l s :
  items s !! id = Some it ->
  items (fold_left prune_bundle l s) !! id = Some it \/ bundles (fold_left prune_bundle l s) !! ei_BundleID it = None.
Proof.
  assert (P : forall s b, items (prune_bundle s b) = items (without b s) /\ bundles (prune_bundle s b) = delete b (bundles s)).
  { intros s0 b. unfold prune_bundle. fold (without b s0). generalize (filter (fun d => nonempty d = true) (map ei_StorageDigest
      (rows_where (fun it => String.eqb (ei_BundleID it) b) (items s0)))) as ds. intros ds.
    change (delete b (bundles s0)) with (bundles (without b s0)). generalize (without b s0) as s1. induction ds as [|d ds IH]; intros s1; [done|].
    cbn. destruct (IH (remove_object s1 d)) as [-> ->]. unfold remove_object. by destruct (referenced d s1). }
  assert (G : forall l s k, bundles s !! k = None -> bundles (fold_left prune_bundle l s) !! k = None).
  { clear -P. intros l. induction l as [|b l IH]; intros s k N; [done|]. cbn. apply IH. rewrite (proj2 (P s b)).
    by apply lookup_delete_None; right. }
  revert s. induction l as [|b l IH]; intros s E; [by left|]. cbn. destruct (P s b) as [Pi Pb].
  destruct (decide (ei_BundleID it = b)) as [Eb|N].
  - right. apply G. by rewrite Pb, Eb, lookup_delete_eq.
  - apply IH. rewrite Pi. cbn. apply map_lookup_filter_Some. split; [done|]. by apply String.eqb_neq.
Qed.

Lemma kept_exec o s :
  Inv s -> String.eqb (ei_Status it) "completed" = true -> items s !! id = Some it ->
  items (exec o s) !! id = Some it \/ bundles (exec o s) !! ei_BundleID it = None.
Proof.
  intros I C E. destruct o; cbn [exec]; try (left; done).
  - left. assert (respects row_kept (CreateItem c tenantID bundleID name contentType expectedSize collectorStatus)) as H
      by (unfold CreateItem; respects). by apply H.
  - left. by apply kept_chunk.
  - left. assert (respects row_kept (StoreItem c tenantID bundleID name contentType collectorStatus data)) as H
      by (unfold StoreItem; respects). by apply H.
  - left. assert (respects row_kept (FinalizeBundle c tenantID bundleID m key)) as H by (unfold FinalizeBundle; respects). by apply H.
  - left. assert (respects row_kept (SetLegalHold tenantID bundleID actor reason hold)) as H by (unfold SetLegalHold; respects). by apply H.
  - by apply kept_prune.
  - left. destruct (NewStore _ _ _ _) as [s'|] eqn:N; [|done]. by apply restart_keeps in N as ->.
Qed.

End Kept.

(** ** Keys stay *)

Section Keys.
Context `{U : Unicode} `{K : Crypto} `{KA : AuthCrypto} `{R : Rows} `{J : EvidenceJson} `{Laws : !AuthCryptoLaws}.

Definition keys_same (s s' : Store) : Prop := masterKey s' = masterKey s /\ receiptKey s' = receiptKey s.

#[export] Instance keys_same_preorder : PreOrder keys_same.
Proof. split; [by intros s|]. intros s1 s2 s3 [A1 A2] [B1 B2]. split; congruence. Qed.

#[local] Hint Extern 1 (respects keys_same _) => (by intros ?) : respects.

Lemma keys_remove ds s : keys_same s (fold_left remove_object ds s) /\ items (fold_left remove_object ds s) = items s
  /\ bundles (fold_left remove_object ds s) = bundles s.
Proof.
  revert s. induction ds as [|d ds IH]; intros s; [done|]. cbn. destruct (IH (remove_object s d)) as ([A B] & C & D).
  unfold remove_object in *. destruct (referenced d s); done.
Qed.

Lemma keys_prune l s : keys_same s (fold_left prune_bundle l s).
Proof.
  revert s. induction l as [|id l IH]; intros s; [done|]. cbn. etransitivity; [|apply IH]. unfold prune_bundle. fold (without id s).
  apply (proj1 (keys_remove _ (without id s))).
Qed.

Lemma keys_exec o s : Inv s -> keys_same s (exec o s).
Proof.
  intros I. destruct o; cbn [exec].
  - done.
  - assert (respects keys_same (CreateItem c tenantID bundleID name contentType expectedSize collectorStatus)) as H
      by (unfold CreateItem; respects). apply H.
  - assert (respects keys_same (StoreItemChunk c tenantID itemID chunkIndex offset totalSize data)) as H
      by (unfold StoreItemChunk; respects). apply H.
  - assert (respects keys_same (StoreItem c tenantID bundleID name contentType collectorStatus data)) as H
      by (unfold StoreItem; respects). apply H.
  - assert (respects keys_same (FinalizeBundle c tenantID bundleID m key)) as H by (unfold FinalizeBundle; respects). apply H.
  - assert (respects keys_same (SetLegalHold tenantID bundleID actor reason hold)) as H by (unfold SetLegalHold; respects). apply H.
  - done.
  - apply keys_prune.
  - destruct (NewStore _ _ _ _) as [s'|] eqn:E; [|done]. by apply restart_keeps in E as ->.
Qed.

End Keys.

(** ** Bundles stay with their tenant *)

Section Owners.
Context `{U : Unicode} `{K : Crypto} `{KA : AuthCrypto} `{R : Rows} `{J : EvidenceJson} `{Laws : !AuthCryptoLaws}.
Context (bid : string) (P : EvidenceBundle -> Prop).

Definition has_bundle (s : Store) : Prop := exists b, bundles s !! bid = Some b /\ P b.

Definition bundle_kept (s s' : Store) : Prop := has_bundle s -> has_bundle s'.

#[local] Instance bundle_kept_preorder : PreOrder bundle_kept.
Proof. split; [intros s; by unfold bundle_kept|]. intros s1 s2 s3 A B H. by apply B, A. Qed.

Lemma bundle_kept_modify f : (forall s, bundles (f s) = bundles s) -> respects bundle_kept (modify f).
Proof. intros F s. unfold bundle_kept, has_bundle. cbn. by rewrite F. Qed.

Lemma bundle_kept_alter i f : (i <> bid \/ forall b, P b -> P (f b)) -> respects bundle_kept (on_bundle i f).
Proof.
  intros F s (b & B & T). unfold has_bundle. cbn. rewrite lookup_alter.
  destruct (decide (i = bid)) as [->|N]; [|eauto]. rewrite B. destruct F as [N|F]; [done|]. cbn. eauto.
Qed.

#[local] Hint Extern 1 (respects bundle_kept (modify _)) => (by apply bundle_kept_modify) : respects.
#[local] Hint Extern 1 (respects bundle_kept (set_file _ _)) => (by apply bundle_kept_modify) : respects.
#[local] Hint Extern 1 (respects bundle_kept (on_item _ _)) => (by apply bundle_kept_modify) : respects.

Lemma deletes_lookup {A} l (m : gmap string A) k :
  fold_left (fun m i => delete i m) l m !! k = if decide (k ∈ l) then None else m !! k.
Proof.
  revert m. induction l as [|i l IH]; intros m; cbn [fold_left]; [by rewrite decide_False by apply not_elem_of_nil|].
  rewrite IH, lookup_delete. destruct (decide (k ∈ l)), (decide (i = k)), (decide (k ∈ i :: l)); set_solver.
Qed.

Lemma prune_bundles l s : bundles (fold_left prune_bundle l s) = fold_left (fun m i => delete i m) l (bundles s).
Proof.
  revert s. induction l as [|i l IH]; intros s; [done|]. cbn. rewrite IH. f_equal. unfold prune_bundle. fold (without i s).
  by rewrite (proj2 (proj2 (keys_remove _ (without i s)))).
Qed.

Lemma created_keeps c id t e j p ttl s k b :
  bundles s !! k = Some b -> bundles (fst (CreateBundleWithID c id t e j p ttl s)) !! k = Some b.
Proof.
  intros B. unfold CreateBundleWithID. generalize (if String.eqb (TrimSpace id) "" then c_id c else id) as i. intros i.
  unfold mbind, action_bind, modify. cbn. destruct (bundles s !! i) eqn:E; [done|]. by rewrite lookup_insert_ne by congruence.
Qed.

Hypothesis P_count : forall n b, P b -> P (count_in n b).
Hypothesis P_final : forall x y z n b, P b -> P (finalize_row x y z n b).

#[local] Hint Extern 1 (respects bundle_kept (on_bundle _ (count_in _))) => (apply bundle_kept_alter; right; apply P_count) : respects.
#[local] Hint Extern 1 (respects bundle_kept (on_bundle _ (finalize_row _ _ _ _))) => (apply bundle_kept_alter; right; apply P_final) : respects.
#[local] Hint Extern 1 (respects bundle_kept (on_bundle _ (hold_row _ _ _))) => (by apply bundle_kept_alter) : respects.

(** A bundle keeps a property that counting and finalizing keep, unless a hold
    changes it or it is pruned. *)
Lemma bundle_exec o s :
  Inv s -> has_bundle s ->
  match o with OHold _ i actor reason hold => i <> bid \/ forall b, P b -> P (hold_row hold actor reason b) | _ => True end ->
  has_bundle (exec o s) \/ exists now, o = OPrune now /\ bundles (exec o s) !! bid = None
    /\ exists b, bundles s !! bid = Some b /\ expired_bundle now b = true.
Proof.
  intros I H G. destruct o; cbn [exec]; try (left; exact H).
  - left. destruct H as (b & B & T). exists b. split; [by apply created_keeps|done].
  - left. assert (respects bundle_kept (CreateItem c tenantID bundleID name contentType expectedSize collectorStatus)) as X
      by (unfold CreateItem; respects). by apply X.
  - left. assert (respects bundle_kept (StoreItemChunk c tenantID itemID chunkIndex offset totalSize data)) as X
      by (unfold StoreItemChunk; respects). by apply X.
  - left. assert (respects bundle_kept (StoreItem c tenantID bundleID name contentType collectorStatus data)) as X
      by (unfold StoreItem; respects). by apply X.
  - left. assert (respects bundle_kept (FinalizeBundle c tenantID bundleID m key)) as X by (unfold FinalizeBundle; respects). by apply X.
  - left. assert (respects bundle_kept (SetLegalHold tenantID bundleID actor reason hold)) as X by (unfold SetLegalHold; respects). by apply X.
  - unfold has_bundle. cbn. rewrite prune_bundles, deletes_lookup. destruct H as (b & B & T).
    destruct (decide (bid ∈ map eb_ID (rows_where (expired_bundle now) (bundles s)))) as [D|D]; [right|left; eauto].
    exists now. split; [done|]. split; [done|]. exists b. split; [done|]. apply list_elem_of_fmap in D as (b' & Eb & W).
    apply rows_where_elem in W as (X & k & W). rewrite <- (inv_bundles s I k b' W), <- Eb in W. congruence.
  - left. destruct (NewStore _ _ _ _) as [s'|] eqn:E; [|done]. by apply restart_keeps in E as ->.
Qed.

End Owners.

(** ** Receipts stay *)

Section Receipts.
Context `{U : Unicode} `{K : Crypto} `{KA : AuthCrypto} `{R : Rows} `{J : EvidenceJson} `{Laws : !AuthCryptoLaws}.
Context (id : string) (r : EvidenceReceipt).

Definition receipt_kept (s s' : Store) : Prop := receipts s !! id = Some r -> receipts s' !! id = Some r.

#[local] Instance receipt_kept_preorder : PreOrder receipt_kept.
Proof. split; [intros s; by unfold receipt_kept|]. intros s1 s2 s3 A B H. by apply B, A. Qed.

Lemma receipt_kept_modify f : (forall s, receipts (f s) = receipts s) -> respects receipt_kept (modify f).
Proof. intros F s. unfold receipt_kept. cbn. by rewrite F. Qed.

Lemma receipt_kept_insert x : respects receipt_kept (insert_receipt x).
Proof.
  intros s E. unfold insert_receipt, mbind, action_bind. cbn. case_bool_decide as D; cbn; [done|]. case_bool_decide; cbn; [done|].
  rewrite lookup_insert_ne; [done|]. intros X. apply D. rewrite X. by exists r.
Qed.

#[local] Hint Extern 1 (respects receipt_kept (modify _)) => (by apply receipt_kept_modify) : respects.
#[local] Hint Extern 1 (respects receipt_kept (set_file _ _)) => (by apply receipt_kept_modify) : respects.
#[local] Hint Extern 1 (respects receipt_kept (on_item _ _)) => (by apply receipt_kept_modify) : respects.
#[local] Hint Extern 1 (respects receipt_kept (on_bundle _ _)) => (by apply receipt_kept_modify) : respects.
#[local] Hint Resolve receipt_kept_insert : respects.

Lemma receipt_prune l : forall s, receipts s !! id = Some r ->
  receipts (fold_left prune_bundle l s) !! id = Some r \/ bundles (fold_left prune_bundle l s) !! er_BundleID r = None.
Proof.
  assert (P : forall s b, receipts (prune_bundle s b) = receipts (without b s)).
  { intros s b. unfold prune_bundle. fold (without b s). generalize (without b s) as s1.
    match goal with |- forall s1, receipts (fold_left _ ?l s1) = _ => induction l as [|d ds IH] end; intros s1; [done|].
    cbn. rewrite IH. unfold remove_object. by destruct (referenced d s1). }
  induction l as [|b l IH]; intros s E; [by left|]. cbn. destruct (decide (er_BundleID r = b)) as [Eb|N].
  - right. change (prune_bundle s b) with (fold_left prune_bundle [b] s). rewrite <- fold_left_app, prune_bundles, deletes_lookup.
    by rewrite decide_True by (rewrite Eb; by left).
  - apply IH. rewrite P. cbn. apply map_lookup_filter_Some. split; [done|]. by apply String.eqb_neq.
Qed.

Lemma receipt_exec o s :
  Inv s -> receipts s !! id = Some r -> receipts (exec o s) !! id = Some r \/ bundles (exec o s) !! er_BundleID r = None.
Proof.
  intros I E. destruct o; cbn [exec]; try (left; exact E).
  - left. assert (respects receipt_kept (CreateItem c tenantID bundleID name contentType expectedSize collectorStatus)) as H
      by (unfold CreateItem; respects). by apply H.
  - left. assert (respects receipt_kept (StoreItemChunk c tenantID itemID chunkIndex offset totalSize data)) as H
      by (unfold StoreItemChunk; respects). by apply H.
  - left. assert (respects receipt_kept (StoreItem c tenantID bundleID name contentType collectorStatus data)) as H
      by (unfold StoreItem; respects). by apply H.
  - left. assert (respects receipt_kept (FinalizeBundle c tenantID bundleID m key)) as H by (unfold FinalizeBundle; respects). by apply H.
  - left. assert (respects receipt_kept (SetLegalHold tenantID bundleID actor reason hold)) as H by (unfold SetLegalHold; respects). by apply H.
  - by apply receipt_prune.
  - left. destruct (NewStore _ _ _ _) as [s'|] eqn:N; [|done]. by apply restart_keeps in N as ->.
Qed.

End Receipts.

(** ** Reading *)

Section Reading.
Context `{U : Unicode} `{K : Crypto} `{KA : AuthCrypto} `{R : Rows} `{J : EvidenceJson} `{Laws : !AuthCryptoLaws}.
Hypothesis collision_free : forall a b, sha256 a = sha256 b -> a = b.

Lemma read_item t id it b s :
  items s !! id = Some it -> bundles s !! ei_BundleID it = Some b -> eb_TenantID b = t ->
  snd (ReadItemData t id s) = open_item t it s.
Proof.
  intros E B T. unfold ReadItemData, owned_item, mbind, action_bind. cbn. rewrite E. cbn. rewrite B. cbn. rewrite T, String.eqb_refl. done.
Qed.

Lemma read_item_Ok t id s data :
  snd (ReadItemData t id s) = Ok data -> exists it b, items s !! id = Some it /\ bundles s !! ei_BundleID it = Some b
    /\ eb_TenantID b = t /\ open_item t it s = Ok data.
Proof.
  unfold ReadItemData, owned_item, mbind, action_bind. cbn. destruct (items s !! id) as [it|] eqn:E; [|done]. cbn.
  destruct (bundles s !! ei_BundleID it) as [b|] eqn:B; [|done]. cbn. destruct (String.eqb_spec (eb_TenantID b) t); [|done]. cbn. eauto 6.
Qed.

(** Only completed items open. *)
Lemma open_completed t id it s data :
  Inv s -> items s !! id = Some it -> open_item t it s = Ok data -> String.eqb (ei_Status it) "completed" = true.
Proof.
  intros I E O. destruct (String.eqb (ei_Status it) "completed") eqn:C; [done|]. destruct (inv_items s I id it E) as (_ & b & _ & H).
  unfold item_inv in H. rewrite C in H. destruct H as (_ & _ & _ & Ek). unfold open_item in O. by rewrite Ek in O.
Qed.

(** A completed row opens the same in every store that has it. *)
Lemma open_same t id it s s' :
  Inv s -> Inv s' -> keys_same s s' -> items s !! id = Some it -> items s' !! id = Some it ->
  String.eqb (ei_Status it) "completed" = true -> open_item t it s' = open_item t it s.
Proof.
  intros I I' [M _] E E' C. destruct (item_digest s id it I E C) as (ct & D & F). destruct (item_digest s' id it I' E' C) as (ct' & D' & F').
  unfold open_item. rewrite M, D, F. rewrite D in D'. rewrite <- D' in F'. by rewrite F', (inv_objects s' I' _ _ F').
Qed.

(** The bundle is there at every step of a run. *)
Definition stays (bid : string) (l : list evidence_op) (s : Store) : Prop :=
  forall l1 l2, l = (l1 ++ l2)%list -> is_Some (bundles (run l1 s) !! bid).

Lemma run_kept id it l : forall s,
  Inv s -> Forall op_ok l -> String.eqb (ei_Status it) "completed" = true -> items s !! id = Some it ->
  stays (ei_BundleID it) l s -> items (run l s) !! id = Some it /\ keys_same s (run l s).
Proof.
  induction l as [|o l IH]; intros s I O C E S; [done|]. inversion O as [|? ? Oo Ol]; subst.
  assert (I' : Inv (exec o s)) by (by apply Inv_exec).
  destruct (kept_exec id it o s I C E) as [E'|N].
  - destruct (IH (exec o s) I' Ol C E') as [H1 H2].
    { intros l1 l2 ->. by apply (S (o :: l1) l2). }
    split; [done|]. etransitivity; [by apply keys_exec|exact H2].
  - destruct (S [o] l eq_refl) as [b B]. cbn in B. congruence.
Qed.

Definition owned (bid t : string) : Store -> Prop := has_bundle bid (fun b => eb_TenantID b = t).
Definition held (bid : string) : Store -> Prop := has_bundle bid (fun b => eb_LegalHold b = true).

Lemma owned_exec bid t o s : Inv s -> owned bid t s -> owned bid t (exec o s) \/ bundles (exec o s) !! bid = None.
Proof.
  intros I H. destruct (bundle_exec bid (fun b => eb_TenantID b = t)) with (o := o) (s := s) as [X|(now & _ & X & _)]; try done.
  - destruct o; try done. by right.
  - by left.
  - by right.
Qed.

Lemma run_tenant bid t l : forall s,
  Inv s -> Forall op_ok l -> owned bid t s -> stays bid l s -> owned bid t (run l s).
Proof.
  induction l as [|o l IH]; intros s I O Ow S; [done|]. inversion O as [|? ? Oo Ol]; subst.
  apply IH; [by apply Inv_exec|done| |].
  - destruct (owned_exec bid t o s I Ow) as [H|N]; [done|]. destruct (S [o] l eq_refl) as [b B]. cbn in B. congruence.
  - intros l1 l2 ->. by apply (S (o :: l1) l2).
Qed.

(** An item that can be read is read the same while its bundle is there. *)
Lemma read_stays t id bid it l s data :
  Inv s -> Forall op_ok l -> items s !! id = Some it -> ei_BundleID it = bid ->
  snd (ReadItemData t id s) = Ok data -> stays bid l s -> snd (ReadItemData t id (run l s)) = Ok data.
Proof.
  intros I O E Eb Rd S. apply read_item_Ok in Rd as (it' & b & E' & B & T & Op). assert (it' = it) as -> by congruence.
  assert (C := open_completed t id it s data I E Op). rewrite <- Eb in S.
  destruct (run_kept id it l s I O C E S) as [E2 K2]. assert (I2 : Inv (run l s)) by (by apply Inv_run).
  destruct (run_tenant (ei_BundleID it) t l s I O ltac:(by exists b) S) as (b2 & B2 & T2).
  rewrite (read_item t id it b2) by done. by rewrite (open_same t id it s).
Qed.

(** C19: evidence that was stored is read back. In any store a hub can reach,
    an item stored whole is read as exactly the bytes stored, by its tenant,
    after any further operations, failing writes and restarts included, for
    as long as its bundle has not been pruned. *)
Theorem stored_item_read c t bid name ty st data s s' it l :
  reachable s -> call_ok c -> StoreItem c t bid name ty st data s = (s', Ok it) ->
  Forall op_ok l -> stays bid l s' -> snd (ReadItemData t (ei_ID it) (run l s')) = Ok data.
Proof.
  intros I%reachable_Inv C H O S; [|done]. assert (W := wp_StoreItem collision_free c t bid name ty st data s I C).
  assert (Eb : ei_BundleID it = bid) by (unfold StoreItem in H; inv_act H; by apply ret_Ok in H as [-> _]).
  apply (wp_Ok _ _ _ _ _ _ W) in H as (I' & Ei & E & Sz & Hd & b & B & T). rewrite Ei.
  eapply read_stays; [done|done|exact E|done| |done]. rewrite (read_item t _ it b) by done. by apply open_held.
Qed.

(** ** Holds *)

Definition releases (bid : string) (o : evidence_op) : bool :=
  match o with OHold _ b _ _ hold => String.eqb b bid && negb hold | _ => false end.

Lemma held_exec bid o s : Inv s -> held bid s -> releases bid o = false -> held bid (exec o s).
Proof.
  intros I H F. destruct (bundle_exec bid (fun b => eb_LegalHold b = true)) with (o := o) (s := s) as [X|(now & _ & _ & b & B & X)]; try done.
  - destruct o; try done. cbn in F. destruct (String.eqb_spec bundleID bid) as [->|]; [|by left]. right. by destruct hold.
  - destruct H as (b' & B' & T). assert (b' = b) as -> by congruence. unfold expired_bundle in X. rewrite T, andb_false_r in X. done.
Qed.

Lemma held_run bid l : forall s,
  Inv s -> Forall op_ok l -> held bid s -> Forall (fun o => releases bid o = false) l -> held bid (run l s) /\ stays bid l s.
Proof.
  induction l as [|o l IH]; intros s I O H F.
  { split; [done|]. intros [|? ?] l2 X; [|done]. destruct H as (b & B & _). by exists b. }
  inversion O as [|? ? Oo Ol]; subst. inversion F as [|? ? Fo Fl]; subst.
  assert (H' : held bid (exec o s)) by (by apply held_exec).
  destruct (IH (exec o s)) as [H1 H2]; [by apply Inv_exec|done..|]. split; [done|].
  intros [|o' l1] l2 X; [destruct H as (b & B & _); by exists b|]. injection X as <- ->. by eapply H2.
Qed.

(** A legal hold keeps evidence. While a bundle is on hold and nobody
    releases it, whatever could be read of it stays readable, unchanged,
    however much is pruned, stored or restarted around it. *)
Theorem held_evidence_read t id it l s data :
  reachable s -> items s !! id = Some it -> held (ei_BundleID it) s -> snd (ReadItemData t id s) = Ok data ->
  Forall op_ok l -> Forall (fun o => releases (ei_BundleID it) o = false) l ->
  snd (ReadItemData t id (run l s)) = Ok data.
Proof.
  intros I%reachable_Inv E H Rd O F; [|done]. destruct (held_run _ l s I O H F) as [_ S]. by eapply read_stays.
Qed.

(** ** Chunks *)

(** C20: an upload in chunks is assembled exactly. A completed item that came
    in chunks has one content whose digest it records: the chunks received lie
    in it without overlap, each is the part of it at its offset, and together
    they cover every byte. Writes that stopped half way, retries and chunks
    refused on the way change none of this. The content is what is read when
    it has the size the item was registered with. *)
Theorem chunked_item_exact s id it b :
  reachable s -> items s !! id = Some it -> bundles s !! ei_BundleID it = Some b ->
  String.eqb (ei_Status it) "completed" = true -> item_chunks id s <> [] ->
  exists data, ei_SHA256 it = ComputeDigest data /\ covers data (item_chunks id s)
    /\ (ei_SizeBytes it = Z.of_nat (String.length data) -> snd (ReadItemData (eb_TenantID b) id s) = Ok data).
Proof.
  intros I%reachable_Inv E B C N; [|done]. destruct (inv_items s I id it E) as (_ & b' & B' & H).
  assert (b' = b) as -> by congruence. unfold item_inv in H. rewrite C in H. destruct H as (data & Hd & [X|Cv]); [done|].
  exists data. split; [by apply Hd|]. split; [done|]. intros Sz. rewrite (read_item _ id it b) by done. by apply open_held.
Qed.

Lemma aad_size t bid id name n n' :
  int64_ok n -> int64_ok n' -> CanonicalItemAAD t bid id name 0 n = CanonicalItemAAD t bid id name 0 n' -> n = n'.
Proof.
  intros A A' E. unfold CanonicalItemAAD in E. rewrite !write_i64 in E. apply app_split in E as [_ E]; [|done].
  rewrite <- (string_app_nil (i64 n)), <- (string_app_nil (i64 n')) in E. by apply i64_inj in E as [-> _].
Qed.

(** An item whose chunks named another total than it was registered with is
    completed and can never be read: the total is bound into the encryption,
    the registered size into the decryption. *)
Theorem other_size_unreadable s id it b data :
  (forall key nonce aad aad' m, aad <> aad' -> aes_gcm_open key nonce aad' (aes_gcm_seal key nonce aad m) = None) ->
  reachable s -> items s !! id = Some it -> bundles s !! ei_BundleID it = Some b ->
  holds_data (masterKey s) (eb_TenantID b) (files s) it data -> int64_ok (ei_SizeBytes it) ->
  Z.of_nat (String.length data) <= max_int64 -> ei_SizeBytes it <> Z.of_nat (String.length data) ->
  exists e, snd (ReadItemData (eb_TenantID b) id s) = Err e.
Proof.
  intros Auth I%reachable_Inv E B [(key & nonce & L & N & Uk & F) _ _] Sz M Ne; [|done].
  rewrite (read_item _ id it b) by done. unfold open_item. rewrite Uk, F. unfold DecryptItemData, EncryptItemData.
  match goal with |- context [nonce ++ ?ct] => destruct (nonce_split nonce ct N) as (-> & -> & ->) end.
  rewrite Auth; [by eexists|]. intros X. apply aad_size in X; [congruence|split; unfold min_int64; lia|done].
Qed.

(** ** Finalizing *)

Lemma stored_items_lookup rows : forall (m : gmap string EvidenceItem) n it,
  fold_left (fun m it => <[ei_Name it := it]> m) rows m !! n = Some it ->
  (it ∈ rows /\ ei_Name it = n) \/ m !! n = Some it.
Proof.
  induction rows as [|x rows IH]; intros m n it H; cbn in H; [by right|].
  apply IH in H as [[A B]|H]; [left; split; [by right|done]|].
  apply lookup_insert_Some in H as [[<- <-]|[_ H]]; [left; split; [by left|done]|by right].
Qed.

Lemma stored_items_dom rows : forall (m : gmap string EvidenceItem) n,
  (exists it, it ∈ rows /\ ei_Name it = n) \/ is_Some (m !! n) ->
  is_Some (fold_left (fun m it => <[ei_Name it := it]> m) rows m !! n).
Proof.
  induction rows as [|x rows IH]; intros m n H; cbn.
  { destruct H as [(it & I & _)|H]; [by apply not_elem_of_nil in I|done]. }
  apply IH. destruct H as [(it & [->|I]%elem_of_cons & En)|H].
  - right. rewrite En, lookup_insert_eq. by eexists.
  - left. eauto.
  - right. apply lookup_insert_is_Some. destruct (decide (ei_Name x = n)); [by left|by right].
Qed.

Lemma bundle_rows_elem bid s it : it ∈ bundle_rows bid s <-> ei_BundleID it = bid /\ exists id, items s !! id = Some it.
Proof.
  unfold bundle_rows. rewrite sort_slice_perm, rows_where_elem. split; intros [A B]; (split; [|done]); by apply String.eqb_eq.
Qed.

(** The stored item a line of the manifest speaks of. *)
Record manifest_line (bid : string) (s : Store) (m : ManifestItem) (it : EvidenceItem) : Prop := {
  ml_stored : exists id, items s !! id = Some it;
  ml_bundle : ei_BundleID it = bid;
  ml_name : ei_Name it = mi_Name m;
  ml_status : ei_Status it = "completed";
  ml_size : ei_SizeBytes it = mi_SizeBytes m;
  ml_digest : ei_SHA256 it = mi_SHA256 m;
}.

Lemma check_manifest_Ok bid s l :
  check_manifest (stored_items (bundle_rows bid s)) l = Ok tt -> Forall (fun m => exists it, manifest_line bid s m it) l.
Proof.
  induction l as [|m l IH]; intros H; [constructor|]. cbn [check_manifest] in H.
  destruct (stored_items (bundle_rows bid s) !! mi_Name m) as [it|] eqn:E; [|done]. inv_ok H. constructor; [|by apply IH].
  exists it. apply stored_items_lookup in E as [[E En]|E]; [|done]. apply bundle_rows_elem in E as [Eb Es].
  bools. by split.
Qed.

Lemma manifest_complete bid s l :
  check_manifest (stored_items (bundle_rows bid s)) l = Ok tt -> length l = size (stored_items (bundle_rows bid s)) ->
  NoDup (map mi_Name l) -> forall id it, items s !! id = Some it -> ei_BundleID it = bid -> ei_Name it ∈ map mi_Name l.
Proof.
  intros C L N id it E B. set (st := stored_items (bundle_rows bid s)) in *.
  assert (Sub : (list_to_set (map mi_Name l) : gset string) ⊆ dom st).
  { intros n Hn. apply elem_of_list_to_set, list_elem_of_fmap in Hn as (m & -> & I). apply check_manifest_Ok in C.
    rewrite Forall_forall in C. destruct (C m I) as (x & [(k & Ek) Xb Xn _ _ _]). apply elem_of_dom. unfold st, stored_items. rewrite <- Xn.
    apply stored_items_dom. left. exists x. split; [|done]. apply bundle_rows_elem. eauto. }
  assert (Eq : (list_to_set (map mi_Name l) : gset string) ≡ dom st).
  { apply set_subseteq_size_equiv; [done|]. rewrite size_dom, size_list_to_set by done. by rewrite length_map, L. }
  apply (elem_of_list_to_set (C := gset string)). rewrite Eq. apply elem_of_dom. apply stored_items_dom. left. exists it.
  split; [|done]. apply bundle_rows_elem. eauto.
Qed.

Lemma receipt_verifies s r :
  String.length (receiptKey s) = 64%nat -> receipt_ok (receiptKey s) r -> VerifyReceiptSignature r (ReceiptPublicKeyHex s) = Ok tt.
Proof.
  intros L O. unfold VerifyReceiptSignature, hex_sized, ReceiptPublicKeyHex.
  rewrite TrimSpace_plain, hex_decode_encode by apply hex_plain. cbn [mbind option_bind].
  assert (String.length (public_of (receiptKey s)) = 32%nat) as -> by (unfold public_of; rewrite <- bytes_length, bytes_drop, length_drop, bytes_length, L; done).
  cbn [Nat.eqb PublicKeySize]. pose proof (f_equal er_ReceiptSignature O) as Sg. pose proof (f_equal er_ReceiptHash O) as Hs. cbn in Sg, Hs.
  rewrite <- Sg, TrimSpace_plain, hex_decode_encode by apply hex_plain. cbn [mbind option_bind]. rewrite sign_length.
  cbn [Nat.eqb SignatureSize]. unfold public_of. rewrite sign_verifies by done. cbn. by rewrite <- Hs, String.eqb_refl.
Qed.

Lemma finalize_refused c t bid m key s id r :
  Inv s -> receipts s !! id = Some r -> er_BundleID r = bid -> exists e, snd (FinalizeBundle c t bid m key s) = Err e.
Proof.
  intros I E B. destruct (FinalizeBundle c t bid m key s) as [s' [x|e]] eqn:F; [|by exists e]. exfalso.
  apply (wp_Ok _ _ _ _ _ _ (wp_FinalizeBundle c t bid m key s I)) in F as [_ F]. by apply (fz_first _ _ _ _ _ _ _ F id r).
Qed.

Lemma receipt_run id r l : forall s,
  Inv s -> Forall op_ok l -> receipts s !! id = Some r -> stays (er_BundleID r) l s -> receipts (run l s) !! id = Some r.
Proof.
  induction l as [|o l IH]; intros s I O E S; [done|]. inversion O as [|? ? Oo Ol]; subst.
  apply IH; [by apply Inv_exec|done| |].
  - destruct (receipt_exec id r o s I E) as [H|N]; [done|]. destruct (S [o] l eq_refl) as [b B]. cbn in B. congruence.
  - intros l1 l2 ->. by apply (S (o :: l1) l2).
Qed.

(** C23: a finalized manifest tells the truth. When a bundle is finalized,
    every line of its manifest is a completed item of the bundle with that
    name, size and digest; if the manifest names no item twice, every stored
    item is in it. The receipt records the manifest's digest and verifies
    under the hub's public key. The bundle cannot be finalized again while it
    is there. *)
Theorem finalized_manifest_true c t bid m key s s' r :
  reachable s -> FinalizeBundle c t bid m key s = (s', Ok r) ->
  Forall (fun line => exists it, manifest_line bid s line it) (em_Items m)
  /\ (NoDup (map mi_Name (em_Items m)) ->
      forall id it, items s !! id = Some it -> ei_BundleID it = bid -> ei_Name it ∈ map mi_Name (em_Items m))
  /\ er_ManifestSHA256 r = ComputeDigest (manifest_CanonicalBytes m)
  /\ VerifyReceiptSignature r (ReceiptPublicKeyHex s') = Ok tt
  /\ forall l c' m' key', Forall op_ok l -> stays bid l s' -> exists e, snd (FinalizeBundle c' t bid m' key' (run l s')) = Err e.
Proof.
  intros I%reachable_Inv F; [|done]. apply (wp_Ok _ _ _ _ _ _ (wp_FinalizeBundle c t bid m key s I)) in F as [I' F].
  destruct F as [f1 f2 f3 f4 f5 f6 f7 f8 f9 f10 f11 f12 (f13 & f14 & f15 & f16 & f17) f18].
  split; [by apply check_manifest_Ok|]. split; [by apply manifest_complete|]. split; [done|]. split.
  - apply receipt_verifies; [apply (inv_receipt_key s' I')|by rewrite f17].
  - intros l c' m' key' O S. eapply (finalize_refused _ _ _ _ _ _ (er_ReceiptID r) r); [by apply Inv_run| |done].
    apply receipt_run; [done|done|by rewrite f9, lookup_insert_eq|by rewrite f2].
Qed.

End Reading.
