(* ===== verification/EvidenceChain.v ===== *)
(** * Receipts form a chain

    Each receipt names the hash of the tenant's previous one, so the latest
    hash determines every receipt before it. *)

From Stdlib Require Import Ascii String Sorted.
From stdpp Require Import gmap.
From S2P Require Import Prelude NetIP Canonical CanonicalProps Action Platform Evidence EvidenceInv.

Import canonical platform evidence.

Local Open Scope string_scope.
Local Open Scope Z_scope.

Section Chain.
Context `{U : Unicode} `{K : Crypto} `{KA : AuthCrypto} `{R : Rows} `{J : EvidenceJson} `{Laws : !AuthCryptoLaws}.

(** ** Which operations write receipts *)

Definition receipts_same (s s' : Store) : Prop := receipts s' = receipts s.

#[local] Instance receipts_same_preorder : PreOrder receipts_same.
Proof. split; [by intros s|]. intros s1 s2 s3 A B. unfold receipts_same in *. congruence. Qed.

#[local] Hint Extern 1 (respects receipts_same _) => (by intros ?) : respects.

Definition writes_receipts (o : evidence_op) : bool :=
  match o with OFinalize _ _ _ _ _ | OPrune _ => true | _ => false end.

Lemma receipts_exec o s : Inv s -> writes_receipts o = false -> receipts (exec o s) = receipts s.
Proof.
  intros I W. destruct o; try done; cbn [exec].
  - assert (respects receipts_same (CreateItem c tenantID bundleID name contentType expectedSize collectorStatus)) as H
      by (unfold CreateItem; respects). apply H.
  - assert (respects receipts_same (StoreItemChunk c tenantID itemID chunkIndex offset totalSize data)) as H
      by (unfold StoreItemChunk; respects). apply H.
  - assert (respects receipts_same (StoreItem c tenantID bundleID name contentType collectorStatus data)) as H
      by (unfold StoreItem; respects). apply H.
  - assert (respects receipts_same (SetLegalHold tenantID bundleID actor reason hold)) as H by (unfold SetLegalHold; respects). apply H.
  - destruct (NewStore _ _ _ _) as [s'|] eqn:E; [|done]. by apply restart_keeps in E as ->.
Qed.

Lemma finalize_fails c t bid m key s s' e :
  FinalizeBundle c t bid m key s = (s', Err e) -> receipts s' = receipts s.
Proof.
  intros F. assert (W : wp (fun s' => receipts s' = receipts s) (FinalizeBundle c t bid m key) s (fun _ _ => True)).
  - unfold FinalizeBundle, owned_bundle. do 3 wp_step. destruct (bundles s !! bid) as [b|]; [|by wp_step].
    destruct (String.eqb (eb_TenantID b) t); [|by wp_step]. unfold insert_receipt. repeat wp_step. done.
  - by apply (wp_Err _ _ _ _ _ _ W) in F.
Qed.

(** ** The chain *)

Definition tenant_receipts (t : string) (s : Store) : list EvidenceReceipt :=
  rows_where (fun r => String.eqb (er_TenantID r) t) (receipts s).

(** Each receipt hashes itself and names the hash of the one before. *)
Fixpoint chain (prev : string) (l : list EvidenceReceipt) : Prop :=
  match l with
  | [] => True
  | r :: l => er_PreviousReceiptSHA256 r = prev /\ er_ReceiptHash r = ComputeReceiptHash r /\ chain (er_ReceiptHash r) l
  end.

Definition last_hash (l : list EvidenceReceipt) : string := default zero_hash (er_ReceiptHash <$> last l).

Lemma chain_snoc l r : forall prev,
  chain prev l -> er_PreviousReceiptSHA256 r = default prev (er_ReceiptHash <$> last l) ->
  er_ReceiptHash r = ComputeReceiptHash r -> chain prev (l ++ [r]).
Proof.
  induction l as [|x l IH]; intros prev C P H; cbn in *; [by repeat split|]. destruct C as (C1 & C2 & C3). split; [done|]. split; [done|].
  apply IH; [done| |done]. rewrite last_cons in P. by destruct (last l).
Qed.

(** The receipts of a tenant in the order of their times. *)
Record chained (t : string) (s : Store) (l : list EvidenceReceipt) : Prop := {
  cn_all : tenant_receipts t s ≡ₚ l;
  cn_chain : chain zero_hash l;
  cn_times : StronglySorted Z.lt (map er_IngestedAt l);
}.

Lemma sorted_snoc l x : StronglySorted Z.lt l -> Forall (fun y => y < x) l -> StronglySorted Z.lt (l ++ [x])%list.
Proof.
  induction 1 as [|y l S IH F]; intros G; cbn; [by constructor; constructor|]. inversion G; subst.
  constructor; [by apply IH|]. apply Forall_app. split; [done|]. by constructor.
Qed.

Lemma sorted_last l x y : StronglySorted Z.lt (l ++ [x])%list -> y ∈ l -> y < x.
Proof.
  induction l as [|z l IH]; intros S I; [by apply not_elem_of_nil in I|]. cbn in S. inversion S as [|? ? S' F]; subst.
  apply elem_of_cons in I as [->|I]; [|by apply IH]. rewrite Forall_forall in F. apply F. apply elem_of_app. right. by left.
Qed.

Lemma string_lt_irrefl x : string_lt x x = false.
Proof.
  unfold string_lt, String.ltb. pose proof (String.compare_antisym x x) as H. by destruct (String.compare x x).
Qed.

(** With distinct times, [later] compares them. *)
Lemma later_time x y : (er_IngestedAt x = er_IngestedAt y -> x = y) -> later x y = (er_IngestedAt y <? er_IngestedAt x).
Proof.
  intros H. unfold later. destruct (Z.eqb_spec (er_IngestedAt y) (er_IngestedAt x)) as [E|E]; [|by rewrite orb_false_r].
  rewrite (H (eq_sym E)). by rewrite Z.ltb_irrefl, string_lt_irrefl.
Qed.

Hypothesis sha256_nonempty : forall m, sha256 m <> "".

Lemma hash_nonempty m : hex_encode (sha256 m) <> "".
Proof. pose proof (sha256_nonempty m). by destruct (sha256 m). Qed.

Lemma chain_hashes prev l r : chain prev l -> r ∈ l -> er_ReceiptHash r = ComputeReceiptHash r.
Proof.
  revert prev. induction l as [|x l IH]; intros prev C I; [by apply not_elem_of_nil in I|]. destruct C as (_ & C2 & C3).
  apply elem_of_cons in I as [->|I]; [done|by eapply IH].
Qed.

Lemma sorted_inj l (x y : EvidenceReceipt) :
  StronglySorted Z.lt (map er_IngestedAt l) -> x ∈ l -> y ∈ l -> er_IngestedAt x = er_IngestedAt y -> x = y.
Proof.
  induction l as [|z l IH]; intros S Ix Iy E; [by apply not_elem_of_nil in Ix|]. cbn in S. inversion S as [|? ? S' F]; subst.
  rewrite Forall_forall in F. assert (G : forall w, w ∈ l -> er_IngestedAt z < er_IngestedAt w).
  { intros w W. apply F. by apply list_elem_of_fmap_2. }
  apply elem_of_cons in Ix as [->|Ix]; apply elem_of_cons in Iy as [->|Iy]; [done|specialize (G y Iy); lia|specialize (G x Ix); lia|by apply IH].
Qed.

(** The previous hash the store finds is the last of the chain. *)
Lemma previous_is_last t s l : chained t s l -> previous_hash t s = last_hash l.
Proof.
  intros [A C S]. unfold previous_hash. fold (tenant_receipts t s).
  assert (Lt : forall x y, x ∈ l -> y ∈ l -> later x y = (er_IngestedAt y <? er_IngestedAt x))
    by (intros x y Ix Iy; apply later_time; by apply (sorted_inj l)).
  pose proof (pick_unbeaten later (fun x => x ∈ l)) as P. specialize (P ltac:(intros x y Ix Iy; rewrite !Lt by done; intros; bools; apply Z.ltb_ge; lia)).
  specialize (P ltac:(intros x y z Ix Iy Iz; rewrite !Lt by done; intros; bools; apply Z.ltb_ge; lia) (tenant_receipts t s)).
  specialize (P ltac:(apply Forall_forall; intros x; by rewrite A)).
  destruct (pick later (tenant_receipts t s)) as [b|].
  - destruct P as [Ib Ub]. rewrite A in Ib. rewrite (chain_hashes _ _ _ C Ib).
    rewrite (proj2 (String.eqb_neq _ _)) by apply hash_nonempty. rewrite <- (chain_hashes _ _ _ C Ib).
    destruct l as [|x l0 _] using rev_ind; [by apply not_elem_of_nil in Ib|]. unfold last_hash. rewrite last_snoc. cbn. f_equal.
    apply elem_of_app in Ib as [Ib|Ib]; [|by apply list_elem_of_singleton in Ib as ->]. rewrite map_app in S.
    assert (er_IngestedAt b < er_IngestedAt x) as Lx by (eapply sorted_last; [exact S|]; by apply list_elem_of_fmap_2).
    specialize (Ub x ltac:(rewrite A; apply elem_of_app; right; by left)). rewrite Lt in Ub; [bools; lia|..]; apply elem_of_app; [right; by left|by left].
  - rewrite P in A. apply Permutation_nil_l in A as <-. done.
Qed.

(** ** Runs without pruning *)

Definition finalize_time (t : string) (o : evidence_op) : option Z :=
  match o with OFinalize c t' _ _ _ => if String.eqb t' t then Some (c_now c) else None | _ => None end.

Lemma tenant_receipts_insert t s s' r :
  receipts s !! er_ReceiptID r = None -> receipts s' = <[er_ReceiptID r := r]> (receipts s) ->
  tenant_receipts t s' ≡ₚ (if String.eqb (er_TenantID r) t then [r] else []) ++ tenant_receipts t s.
Proof. intros N E. unfold tenant_receipts. rewrite E. by rewrite rows_where_insert. Qed.

Lemma chained_exec t o s l :
  Inv s -> is_prune o = false -> chained t s l ->
  (forall x r, finalize_time t o = Some x -> r ∈ l -> er_IngestedAt r < x) ->
  exists l', chained t (exec o s) l' /\ forall r, r ∈ l' -> r ∈ l \/ finalize_time t o = Some (er_IngestedAt r).
Proof.
  intros I Np Ch Tm. assert (Same : receipts (exec o s) = receipts s -> exists l', chained t (exec o s) l' /\
    forall r, r ∈ l' -> r ∈ l \/ finalize_time t o = Some (er_IngestedAt r)).
  { intros E. exists l. split; [|by left]. destruct Ch as [c1 c2 c3]. split; try done. unfold tenant_receipts in *. by rewrite E. }
  destruct (writes_receipts o) eqn:W; [|by apply Same, receipts_exec].
  destruct o; try done. cbn [exec] in *. destruct (FinalizeBundle c tenantID bundleID m key s) as [s' [r|e]] eqn:F;
    [|apply Same; cbn; by eapply finalize_fails].
  apply (wp_Ok _ _ _ _ _ _ (wp_FinalizeBundle c tenantID bundleID m key s I)) in F as [I' [f1 f2 f3 f4 f5 f6 f7 f8 f9 _ _ _ _ _]].
  cbn in *. pose proof (tenant_receipts_insert t s s' r f7 f9) as P. rewrite f1 in P.
  destruct (String.eqb_spec tenantID t) as [->|N].
  - exists (l ++ [r])%list. split.
    + destruct (Ch) as [c1 c2 c3]. split.
      * rewrite P, c1. by rewrite Permutation_app_comm.
      * apply chain_snoc; [done| |]; [by rewrite f4, (previous_is_last t s l)|]. exact (eq_sym (f_equal er_ReceiptHash f6)).
      * rewrite map_app. apply sorted_snoc; [done|]. apply Forall_forall. intros y (x & -> & Ix)%list_elem_of_fmap. rewrite f5. by apply Tm.
    + intros x [Ix|Ix]%elem_of_app; [by left|]. apply list_elem_of_singleton in Ix as ->. right. by rewrite f5.
  - exists l. split; [|by left]. destruct Ch as [c1 c2 c3]. split; try done. by rewrite P.
Qed.

Hypothesis collision_free : forall a b, sha256 a = sha256 b -> a = b.

Lemma chained_run t l : forall s r0,
  Inv s -> Forall op_ok l -> Forall (fun o => is_prune o = false) l -> chained t s r0 ->
  (forall r x, r ∈ r0 -> x ∈ omap (finalize_time t) l -> er_IngestedAt r < x) ->
  StronglySorted Z.lt (omap (finalize_time t) l) -> exists r1, chained t (run l s) r1.
Proof.
  induction l as [|o l IH]; intros s r0 I O Np Ch B S; [by exists r0|].
  inversion O as [|? ? Oo Ol]; subst. inversion Np as [|? ? No Nl]; subst. cbn [omap list_omap] in B, S.
  destruct (chained_exec t o s r0 I No Ch) as (r1 & Ch1 & In1).
  { intros x r Ex Ir. apply B; [done|]. rewrite Ex. by left. }
  apply (IH (exec o s) r1); [by apply Inv_exec|done|done|done| |].
  - intros r x Ir Ix. destruct (In1 r Ir) as [Ir0|Et].
    + apply B; [done|]. destruct (finalize_time t o); [by right|done].
    + rewrite Et in S. inversion S as [|? ? S' F]; subst. rewrite Forall_forall in F. by apply F.
  - destruct (finalize_time t o); [by inversion S|done].
Qed.

(** A run of the store without pruning, in which the clock moves forward
    between the finalizations of a tenant. *)
Definition unpruned (t : string) (s : Store) : Prop :=
  exists fresh mk s0 l, String.length fresh = 64%nat /\ String.length mk = 32%nat /\ NewStore fresh true mk no_store = Ok s0
    /\ Forall op_ok l /\ Forall (fun o => is_prune o = false) l /\ StronglySorted Z.lt (omap (finalize_time t) l) /\ s = run l s0.

Lemma unpruned_chained t s : unpruned t s -> exists l, chained t s l.
Proof.
  intros (fresh & mk & s0 & l & F & M & E & O & Np & S & ->). apply (chained_run t l s0 []); try done.
  - by eapply Inv_start.
  - injection E as <-. split; [|done|constructor]. unfold tenant_receipts. cbn. by rewrite rows_where_nil.
  - intros r x Ir. by apply not_elem_of_nil in Ir.
Qed.

(** ** The last hash determines the chain *)

Hypothesis sha256_nonzero : forall m, hex_encode (sha256 m) <> zero_hash.

Definition receipt_fits (r : EvidenceReceipt) : Prop :=
  int64_ok (Unix (er_IngestedAt r)) /\ Forall fits [er_ReceiptID r; er_BundleID r; er_TenantID r; er_EndpointID r; er_ManifestSHA256 r;
    er_StorageObjectsSHA256 r; er_PreviousReceiptSHA256 r].

Record same_receipt (r r' : EvidenceReceipt) : Prop := {
  sr_id : er_ReceiptID r = er_ReceiptID r';
  sr_bundle : er_BundleID r = er_BundleID r';
  sr_tenant : er_TenantID r = er_TenantID r';
  sr_endpoint : er_EndpointID r = er_EndpointID r';
  sr_manifest : er_ManifestSHA256 r = er_ManifestSHA256 r';
  sr_objects : er_StorageObjectsSHA256 r = er_StorageObjectsSHA256 r';
  sr_previous : er_PreviousReceiptSHA256 r = er_PreviousReceiptSHA256 r';
  sr_time : Unix (er_IngestedAt r) = Unix (er_IngestedAt r');
}.

Lemma receipt_bytes_inj r r' :
  receipt_fits r -> receipt_fits r' -> receipt_CanonicalBytes r = receipt_CanonicalBytes r' -> same_receipt r r'.
Proof.
  intros [T F] [T' F'] E. rewrite !Forall_cons in F, F'. destruct F as (f1 & f2 & f3 & f4 & f5 & f6 & f7 & _).
  destruct F' as (g1 & g2 & g3 & g4 & g5 & g6 & g7 & _). unfold receipt_CanonicalBytes in E.
  autorewrite with canonical in E. do 2 (apply app_split in E as [_ E]; [|done]). do 7 peel E.
  rewrite <- (string_app_nil (i64 (Unix (er_IngestedAt r)))), <- (string_app_nil (i64 (Unix (er_IngestedAt r')))) in E. peel E.
  by split.
Qed.

Lemma chain_unsnoc l r : forall prev, chain prev (l ++ [r])%list ->
  chain prev l /\ er_PreviousReceiptSHA256 r = default prev (er_ReceiptHash <$> last l) /\ er_ReceiptHash r = ComputeReceiptHash r.
Proof.
  induction l as [|x l IH]; intros prev C; cbn in C; [naive_solver|]. destruct C as (C1 & C2 & (A & B & D)%IH).
  split; [done|]. split; [|done]. rewrite last_cons. by destruct (last l).
Qed.

Lemma chain_binds l : forall l',
  chain zero_hash l -> chain zero_hash l' -> Forall receipt_fits l -> Forall receipt_fits l' -> last_hash l = last_hash l' ->
  Forall2 same_receipt l l'.
Proof.
  induction l as [|x l IH] using rev_ind; intros l' C C' F F' E; destruct l' as [|x' l' _] using rev_ind; [constructor|..].
  - apply chain_unsnoc in C' as (_ & _ & H). unfold last_hash in E. rewrite last_snoc in E. cbn in E. rewrite H in E.
    by destruct (sha256_nonzero (receipt_CanonicalBytes x')).
  - apply chain_unsnoc in C as (_ & _ & H). unfold last_hash in E. rewrite last_snoc in E. cbn in E. rewrite H in E.
    by destruct (sha256_nonzero (receipt_CanonicalBytes x)).
  - apply chain_unsnoc in C as (C & P & H). apply chain_unsnoc in C' as (C' & P' & H').
    apply Forall_app in F as [F [Fx _]%Forall_cons]. apply Forall_app in F' as [F' [Fx' _]%Forall_cons].
    unfold last_hash in E. rewrite !last_snoc in E. cbn in E. rewrite H, H' in E.
    assert (S : same_receipt x x') by (apply receipt_bytes_inj; [done..|]; by apply collision_free, hex_encode_inj).
    apply Forall2_app; [|by constructor]. apply IH; try done. unfold last_hash. rewrite <- P, <- P'. apply S.
Qed.

(** C22: receipts are tamper-evident. As long as nothing is pruned and the
    clock moves forward between a tenant's finalizations, the hash of its
    latest receipt determines all of them: two stores with the same latest
    hash hold, in order, receipts that agree in every signed field. *)
Theorem receipts_tamper_evident t s1 s2 :
  unpruned t s1 -> unpruned t s2 ->
  Forall receipt_fits (tenant_receipts t s1) -> Forall receipt_fits (tenant_receipts t s2) ->
  previous_hash t s1 = previous_hash t s2 ->
  exists l1 l2, tenant_receipts t s1 ≡ₚ l1 /\ tenant_receipts t s2 ≡ₚ l2 /\ Forall2 same_receipt l1 l2.
Proof.
  intros (l1 & C1)%unpruned_chained (l2 & C2)%unpruned_chained F1 F2 E. exists l1, l2.
  rewrite (previous_is_last _ _ _ C1), (previous_is_last _ _ _ C2) in E. destruct C1 as [A1 B1 _], C2 as [A2 B2 _].
  split; [done|]. split; [done|]. apply chain_binds; [done..|by rewrite <- A1|by rewrite <- A2|done].
Qed.

End Chain.
