(* ===== verification/EvidenceTenants.v ===== *)
(** * Tenants do not touch each other's evidence

    What one tenant reads of its own bundles is not changed by anything
    another tenant does. *)

From Stdlib Require Import Ascii String.
From stdpp Require Import gmap.
From S2P Require Import Prelude NetIP Canonical CanonicalProps Action Platform Evidence EvidenceInv EvidenceProps.

Import canonical platform evidence.

Local Open Scope string_scope.
Local Open Scope Z_scope.

Section Tenants.
Context `{U : Unicode} `{K : Crypto} `{KA : AuthCrypto} `{R : Rows} `{J : EvidenceJson} `{Laws : !AuthCryptoLaws}.
Context (t : string).

(** Two stores that hold the same evidence of the tenant. *)
Record same_evidence (s s' : Store) : Prop := {
  se_master : masterKey s' = masterKey s;
  se_bundles : forall id b, eb_TenantID b = t -> bundles s !! id = Some b <-> bundles s' !! id = Some b;
  se_items : forall id it b, bundles s !! ei_BundleID it = Some b -> eb_TenantID b = t ->
    items s !! id = Some it <-> items s' !! id = Some it;
  se_objects : forall x ct, files s !! ComputeDigest x = Some ct -> files s' !! ComputeDigest x = Some ct;
}.

Lemma same_refl s : same_evidence s s.
Proof. by split. Qed.

(** A bundle of somebody else. *)
Definition foreign (bid : string) (s : Store) : Prop := exists b, bundles s !! bid = Some b /\ eb_TenantID b <> t.

Lemma same_files fs s0 s :
  same_evidence s0 s -> (forall x ct, files s !! ComputeDigest x = Some ct -> fs !! ComputeDigest x = Some ct) ->
  same_evidence s0 (s <| files := fs |>).
Proof. intros [m1 m2 m3 m4] F. split; cbn; auto. Qed.

Lemma same_on_bundle f bid s0 s :
  same_evidence s0 s -> foreign bid s -> (forall b, eb_TenantID (f b) = eb_TenantID b) ->
  same_evidence s0 (s <| bundles ::= alter f bid |>) /\ forall i, foreign i s -> foreign i (s <| bundles ::= alter f bid |>).
Proof.
  intros [m1 m2 m3 m4] (b & B & N) F. split; [split; cbn; try done|].
  - intros id b' T. rewrite m2, lookup_alter by done. destruct (decide (bid = id)) as [<-|]; [|done]. rewrite B. cbn.
    split; [congruence|]. intros [= <-]. by rewrite F in T.
  - intros i (b' & B' & N'). unfold foreign. cbn. rewrite lookup_alter. destruct (decide (bid = i)) as [<-|]; [|eauto].
    rewrite B. cbn. eexists. split; [done|]. by rewrite F.
Qed.

Lemma same_on_item f id it s0 s :
  same_evidence s0 s -> items s !! id = Some it -> foreign (ei_BundleID it) s -> ei_BundleID (f it) = ei_BundleID it ->
  same_evidence s0 (s <| items ::= alter f id |>).
Proof.
  intros [m1 m2 m3 m4] E (b & B & N) F. split; cbn; try done. intros id' it' b' B' T. rewrite (m3 id' it' b') by done.
  apply m2 in B'; [|done]. rewrite (alter_insert _ _ _ it) by done. destruct (decide (id = id')) as [<-|Ne].
  - rewrite lookup_insert_eq, E. split; intros [= <-]; congruence.
  - by rewrite lookup_insert_ne.
Qed.

Lemma same_new_item it s0 s :
  same_evidence s0 s -> items s !! ei_ID it = None -> foreign (ei_BundleID it) s ->
  same_evidence s0 (s <| items ::= insert (ei_ID it) it |>).
Proof.
  intros [m1 m2 m3 m4] E (b & B & N). split; cbn; try done. intros id' it' b' B' T. rewrite (m3 id' it' b') by done.
  apply m2 in B'; [|done]. destruct (decide (ei_ID it = id')) as [<-|Ne].
  - rewrite lookup_insert_eq, E. split; [done|]. intros [= <-]. congruence.
  - by rewrite lookup_insert_ne.
Qed.

(** ** Operations of another tenant *)

Lemma wp_own E t' bid s Q :
  E s -> t' <> t -> (forall b, bundles s !! bid = Some b -> foreign bid s -> Q b s) -> wp E (owned_bundle t' bid) s Q.
Proof.
  intros I N H. unfold owned_bundle. do 2 wp_step. destruct (bundles s !! bid) as [b|] eqn:B; [|by wp_step].
  destruct (String.eqb_spec (eb_TenantID b) t'); [wp_step|by wp_step]. apply H; [done|]. exists b. split; [done|congruence].
Qed.

Lemma wp_own_item E t' id s Q :
  E s -> t' <> t -> (forall it, items s !! id = Some it -> foreign (ei_BundleID it) s -> Q it s) -> wp E (owned_item t' id) s Q.
Proof.
  intros I N H. unfold owned_item. do 2 wp_step. destruct (items s !! id) as [it|]; cbn [mbind option_bind]; [|by wp_step].
  destruct (bundles s !! ei_BundleID it) as [b|] eqn:B; cbn [mbind option_bind]; [|by wp_step].
  destruct (String.eqb_spec (eb_TenantID b) t'); [wp_step|by wp_step]. apply H; [done|]. exists b. split; [done|congruence].
Qed.

Lemma wp_check E c t' n s Q : E s -> Q tt s -> wp E (checkQuotaAndDisk c t' n) s Q.
Proof. intros I H. unfold checkQuotaAndDisk. do 4 wp_step. destruct (c_free c); by wp_step. Qed.

Lemma wp_put_object s0 c d ct s Q :
  same_evidence s0 s -> (forall fs, same_evidence s0 (s <| files := fs |>) -> Q tt (s <| files := fs |>)) ->
  wp (same_evidence s0) (writeObjectAtomic c d ct) s Q.
Proof.
  intros S H. unfold writeObjectAtomic. do 2 wp_step. destruct (files s !! d) as [old|] eqn:F.
  - wp_step. assert (s = s <| files := files s |>) as -> by (by destruct s). by apply H, same_files.
  - destruct (c_object c); [|by wp_step]. apply wp_modify. change (s <| files ::= insert d ct |>) with (s <| files := <[d := ct]> (files s) |>).
    apply H, same_files; [done|]. intros x y E. rewrite lookup_insert_ne; [done|congruence].
Qed.

Lemma wp_put_stage s0 c id off data s Q :
  same_evidence s0 s -> (forall fs, same_evidence s0 (s <| files := fs |>) -> Q tt (s <| files := fs |>)) ->
  wp (same_evidence s0) (stage c id off data) s Q.
Proof.
  intros S H. assert (St : forall d, same_evidence s0 (s <| files := <[staging_path id := d]> (files s) |>)).
  { intros d. apply same_files; [done|]. intros x y E. rewrite lookup_insert_ne; [done|]. intros X. symmetry in X. by apply digest_not_staging in X. }
  unfold stage. do 2 wp_step. destruct (max_int64 <? _).
  { wp_step. apply wp_modify. wp_step. apply St. }
  destruct (c_torn c).
  - wp_step. destruct (String.eqb _ _); [by repeat wp_step|]. apply wp_modify. wp_step. apply St.
  - apply wp_modify. apply H, St.
Qed.

Lemma other_StoreItem c t' bid name ty st data s :
  t' <> t -> same_evidence s (fst (StoreItem c t' bid name ty st data s)).
Proof.
  intros N. apply (wp_state _ _ _ (fun _ s' => same_evidence s s')); [|done]. pose proof (same_refl s) as S.
  unfold StoreItem. wp_step. apply wp_own; [done|done|]. intros b B F. do 2 wp_step. wp_step. apply wp_check; [done|]. do 2 wp_step. wp_step.
  apply wp_put_object; [done|]. intros fs S1. wp_step. unfold insert_item. do 4 wp_step.
  match goal with E : negb (bool_decide _) = true |- _ => apply negb_true_iff, bool_decide_eq_false, eq_None_not_Some in E; rename E into Ni end.
  repeat wp_step. set (it := mkItem _ _ _ _ _ _ _ _ _ _ _ _ _) in *.
  apply same_on_bundle; [|done|done]. by apply same_new_item.
Qed.

Lemma other_CreateItem c t' bid name ty n st s :
  t' <> t -> same_evidence s (fst (CreateItem c t' bid name ty n st s)).
Proof.
  intros N. apply (wp_state _ _ _ (fun _ s' => same_evidence s s')); [|done]. pose proof (same_refl s) as S.
  unfold CreateItem. wp_step. apply wp_own; [done|done|]. intros b B F. do 2 wp_step. wp_step. apply wp_check; [done|]. wp_step.
  unfold insert_item. do 4 wp_step.
  match goal with E : negb (bool_decide _) = true |- _ => apply negb_true_iff, bool_decide_eq_false, eq_None_not_Some in E; rename E into Ni end.
  repeat wp_step. by apply same_new_item.
Qed.

Lemma other_FinalizeBundle c t' bid m key s :
  t' <> t -> same_evidence s (fst (FinalizeBundle c t' bid m key s)).
Proof.
  intros N. apply (wp_state _ _ _ (fun _ s' => same_evidence s s')); [|done]. pose proof (same_refl s) as S.
  unfold FinalizeBundle. wp_step. apply wp_own; [done|done|]. intros b B F. unfold insert_receipt. repeat wp_step.
  apply same_on_bundle; [|done|done]. by destruct S.
Qed.

Lemma other_SetLegalHold t' bid actor reason hold s :
  t' <> t -> same_evidence s (fst (SetLegalHold t' bid actor reason hold s)).
Proof.
  intros N. apply (wp_state _ _ _ (fun _ s' => same_evidence s s')); [|done]. pose proof (same_refl s) as S.
  unfold SetLegalHold. wp_step. apply wp_own; [done|done|]. intros b B F. apply wp_modify. by apply same_on_bundle.
Qed.

Lemma other_assemble c t' total x row s0 s :
  same_evidence s0 s -> items s !! ei_ID x = Some row -> ei_BundleID x = ei_BundleID row -> foreign (ei_BundleID row) s ->
  wp (same_evidence s0) (assemble c t' total x) s (fun _ s' => same_evidence s0 s').
Proof.
  intros S E Eb F. unfold assemble. do 8 wp_step. wp_step. apply wp_put_object; [done|]. intros fs S1. repeat wp_step.
  match goal with |- context [alter (complete_row ?a ?b ?k ?n)] => set (f := complete_row a b k n) end.
  assert (S2 : same_evidence s0 (s <| files := fs |> <| items ::= alter f (ei_ID x) |>)) by (by eapply same_on_item).
  rewrite Eb. destruct (same_on_bundle (count_in total) (ei_BundleID row) s0 _ S2) as [S3 _]; [done|done|].
  apply (same_files (delete (staging_path (ei_ID x)) fs)) in S3; [done|]. cbn.
  intros y ct Ey. rewrite lookup_delete_ne; [done|]. intros X. symmetry in X. by apply digest_not_staging in X.
Qed.

Lemma other_StoreItemChunk c t' id idx off total data s :
  Inv s -> t' <> t -> same_evidence s (fst (StoreItemChunk c t' id idx off total data s)).
Proof.
  intros I N. apply (wp_state _ _ _ (fun _ s' => same_evidence s s')); [|done]. pose proof (same_refl s) as S.
  unfold StoreItemChunk. do 2 wp_step. wp_step. apply wp_own_item; [done|done|]. intros row E F. cbv zeta.
  destruct (String.eqb _ _); [by wp_step|]. do 4 wp_step. match goal with x : bool |- _ => destruct x; [by wp_step|] end. wp_step.
  destruct (inv_items s I _ _ E) as (Er & _).
  apply wp_put_stage; [done|]. intros fs S1. wp_step. unfold insert_chunk. repeat wp_step.
  set (s2 := update items _ _). assert (S2 : same_evidence s s2).
  { unfold s2. eapply same_on_item; [|exact E|exact F|done]. by destruct S1. }
  destruct (_ =? total); [|by wp_step]. eapply other_assemble; [done| | |].
  - cbn. by rewrite Er, lookup_alter, decide_True, E.
  - done.
  - done.
Qed.

Definition op_tenant (o : evidence_op) : option string :=
  match o with
  | OCreateBundle _ _ t _ _ _ _ | OCreateItem _ t _ _ _ _ _ | OChunk _ t _ _ _ _ _ | OStoreItem _ t _ _ _ _ _
  | OFinalize _ t _ _ _ | OHold t _ _ _ _ => Some t
  | OQuota _ | OPrune _ | ORestart _ _ => None
  end.

Lemma other_exec o s : Inv s -> op_tenant o <> Some t -> is_prune o = false -> same_evidence s (exec o s).
Proof.
  intros I N P. destruct o; try done; cbn [exec op_tenant] in *.
  - pose proof (same_refl s) as S. split; try done. intros i b T. split; [by apply created_keeps|].
    unfold CreateBundleWithID. generalize (if String.eqb (TrimSpace id) "" then c_id c else id) as k. intros k.
    unfold mbind, action_bind, modify. cbn. destruct (bundles s !! k) eqn:E; [done|].
    intros [[<- <-]|[_ X]]%lookup_insert_Some; [cbn in T; congruence|done].
  - apply other_CreateItem. congruence.
  - apply other_StoreItemChunk; [done|congruence].
  - apply other_StoreItem. congruence.
  - apply other_FinalizeBundle. congruence.
  - apply other_SetLegalHold. congruence.
  - destruct (NewStore _ _ _ _) as [s'|] eqn:E; [|by apply same_refl]. apply restart_keeps in E as ->; [|done]. by split.
Qed.

Lemma same_trans s1 s2 s3 : same_evidence s1 s2 -> same_evidence s2 s3 -> same_evidence s1 s3.
Proof.
  intros [a1 a2 a3 a4] [b1 b2 b3 b4]. split; [congruence|..].
  - intros id b T. by rewrite a2, b2.
  - intros id it b B T. rewrite (a3 id it b) by done. apply (b3 id it b); [by apply a2|done].
  - auto.
Qed.

Hypothesis collision_free : forall a b, sha256 a = sha256 b -> a = b.

Lemma same_reads s s' id data :
  Inv s -> Inv s' -> same_evidence s s' -> snd (ReadItemData t id s) = Ok data <-> snd (ReadItemData t id s') = Ok data.
Proof.
  intros I I' [m1 m2 m3 m4].
  assert (Op : forall it b, items s !! id = Some it -> bundles s !! ei_BundleID it = Some b -> eb_TenantID b = t ->
    forall d, open_item t it s = Ok d <-> open_item t it s' = Ok d).
  { intros it b E B T d. assert (E' : items s' !! id = Some it) by (by apply (m3 id it b)).
    destruct (String.eqb (ei_Status it) "completed") eqn:C.
    - destruct (item_digest s id it I E C) as (ct & D & F). unfold open_item. by rewrite m1, D, F, (m4 _ _ F).
    - split; intros O; [apply (open_completed t id it s d I E) in O|apply (open_completed t id it s' d I' E') in O]; congruence. }
  split; intros (it & b & E & B & T & O)%read_item_Ok.
  - rewrite (read_item t id it b); [by apply (Op it b)|by apply (m3 id it b)|by apply m2|done].
  - apply m2 in B; [|done]. apply (m3 id it b) in E; [|done..]. rewrite (read_item t id it b) by done. by apply (Op it b).
Qed.

(** C21: tenants do not touch each other's evidence. Whatever other tenants
    create, upload, finalize or hold, and however often the hub restarts, a
    tenant reads exactly the items it could read before, with the same
    contents, has the same bundles with the same rows, and the same items in
    each of them. Only pruning, which takes no tenant, can remove them. *)
Theorem tenants_isolated l s :
  reachable s -> Forall op_ok l -> Forall (fun o => op_tenant o <> Some t /\ is_prune o = false) l ->
  (forall id data, snd (ReadItemData t id s) = Ok data <-> snd (ReadItemData t id (run l s)) = Ok data)
  /\ (forall bid b, snd (GetBundle t bid s) = Ok b <-> snd (GetBundle t bid (run l s)) = Ok b)
  /\ (forall bid b it, bundles s !! bid = Some b -> eb_TenantID b = t ->
       it ∈ bundle_rows bid s <-> it ∈ bundle_rows bid (run l s)).
Proof.
  intros I%reachable_Inv O F; [|done]. assert (S : same_evidence s (run l s)).
  { revert s I. induction l as [|o l IH]; intros s I; [apply same_refl|]. inversion O; inversion F as [|? ? [N P] F']; subst.
    eapply same_trans; [by apply (other_exec o)|]. apply IH; [done|done|by apply Inv_exec]. }
  split; [|split].
  - intros id data. apply same_reads; [done|by apply Inv_run|done].
  - assert (G : forall s bid b, snd (GetBundle t bid s) = Ok b <-> bundles s !! bid = Some b /\ eb_TenantID b = t).
    { clear. intros s bid b. unfold GetBundle, owned_bundle, mbind, action_bind. cbn. destruct (bundles s !! bid) as [b'|]; [|naive_solver].
      destruct (String.eqb_spec (eb_TenantID b') t); naive_solver. }
    intros bid b. rewrite !G. split; intros [B T]; (split; [by apply (se_bundles _ _ S)|done]).
  - intros bid b it B T. rewrite !bundle_rows_elem. split; intros (Eb & id & E); (split; [done|]); exists id;
      by apply (se_items _ _ S id it b); [rewrite Eb|..].
Qed.

End Tenants.
