(* ===== verification/EvidenceNames.v ===== *)
(** * Names of evidence

    Artifact names stay below their bundle, in the store and in an export. *)

From Stdlib Require Import Ascii String.
From stdpp Require Import gmap.
From S2P Require Import Prelude NetIP Canonical CanonicalProps Action Platform Evidence EvidenceInv.

Import canonical platform evidence.

Local Open Scope string_scope.
Local Open Scope Z_scope.

(** One element of a path that names something below its directory. *)
Record plain_elem (e : string) : Prop := {
  pe_slash : no_byte slash e = true;
  pe_empty : e <> "";
  pe_dot : e <> ".";
  pe_dots : e <> "..";
}.

(** ** [Clean] *)

(** What the stack of [Clean] holds. *)
Definition stacked (e : string) : Prop := no_byte slash e = true /\ e <> "" /\ e <> ".".

Lemma clean_step_stacked rooted st e : Forall stacked st -> no_byte slash e = true -> Forall stacked (clean_step rooted st e).
Proof.
  intros F N. unfold clean_step. destruct (String.eqb_spec e "") as [|E1]; [done|]. destruct (String.eqb_spec e ".") as [|E2]; [done|].
  cbn [orb]. assert (S : stacked e) by done. destruct (String.eqb e "..").
  - destruct F as [|top rest T F]; [destruct rooted; by constructor|]. destruct (String.eqb top ".."); [|done]. constructor; [done|by constructor].
  - by constructor.
Qed.

Lemma split_elems c s : Forall (fun e => no_byte c e = true) (split_byte c s).
Proof.
  induction s as [|d s IH]; cbn; [by constructor|]. destruct (Ascii.eqb c d) eqn:E; [by constructor|].
  destruct (split_byte c s) as [|w ws]; inversion IH; subst; constructor; try done; unfold no_byte in *; cbn; by rewrite E.
Qed.

Lemma clean_stack rooted l : forall st,
  Forall stacked st -> Forall (fun e => no_byte slash e = true) l -> Forall stacked (fold_left (clean_step rooted) l st).
Proof.
  induction l as [|e l IH]; intros st F G; [done|]. inversion G; subst. cbn. apply IH; [by apply clean_step_stacked|done].
Qed.

Lemma contains_sub_step s t : contains_sub s t = HasPrefix s t || match s with EmptyString => false | String _ s' => contains_sub s' t end.
Proof. by destruct s. Qed.

Lemma contains_sub_app p t q : contains_sub (p ++ t ++ q) t = true.
Proof.
  induction p as [|c p IH].
  - change ("" ++ t ++ q) with (t ++ q). rewrite contains_sub_step. unfold HasPrefix. by rewrite prefix_self.
  - change (String c p ++ t ++ q) with (String c (p ++ t ++ q)). rewrite contains_sub_step, IH. apply orb_true_r.
Qed.

Lemma join_elem sep e l : e ∈ l -> exists p q, join sep l = p ++ e ++ q.
Proof.
  induction l as [|x l IH]; intros I; [by apply not_elem_of_nil in I|]. apply elem_of_cons in I as [->|I].
  - destruct l as [|y l]; [exists "", ""; cbn; by rewrite string_app_nil|]. exists "", (sep ++ join sep (y :: l)). done.
  - destruct l as [|y l]; [by apply not_elem_of_nil in I|]. destruct (IH I) as (p & q & E). exists (x ++ sep ++ p), q.
    change (join sep (x :: y :: l)) with (x ++ sep ++ join sep (y :: l)). rewrite E. by rewrite !app_assoc_str.
Qed.

(** An accepted name is a relative path of plain elements. *)
Lemma artifact_name_plain n c : artifact_name n = Ok c -> exists es, es <> [] /\ Forall plain_elem es /\ c = join "/" es.
Proof.
  unfold artifact_name. destruct (_ || _) eqn:G; [done|]. intros [= <-]. apply orb_false_iff in G as [G G4]. apply orb_false_iff in G as [G G3].
  apply orb_false_iff in G as [G1 G2]. unfold Clean in *. destruct (HasPrefix n "/") eqn:Rt.
  { unfold IsAbs, HasPrefix in G2. by rewrite prefix_self in G2. }
  assert (F := clean_stack false (split_byte slash n) [] (Forall_nil_2 _) (split_elems slash n)). apply Forall_rev in F.
  change (Forall stacked (rev (fold_left (clean_step false) (split_byte slash n) []))) in F.
  destruct (rev (fold_left (clean_step false) (split_byte slash n) [])) as [|e es]; [done|]. exists (e :: es). split; [done|]. split; [|done].
  rewrite Forall_forall in *. intros x Ix. destruct (F x Ix) as (S1 & S2 & S3). split; try done. intros ->.
  destruct (join_elem "/" ".." (e :: es) Ix) as (p & q & E). rewrite E, contains_sub_app in G1. done.
Qed.

Lemma no_byte_head c d e : no_byte c (String d e) = true -> Ascii.eqb c d = false.
Proof. unfold no_byte. cbn. intros H. by bools. Qed.

(** The name of an exported file. *)
Lemma Join_plain bid e : plain_elem bid -> plain_elem e -> Join bid e = bid ++ "/" ++ e.
Proof.
  intros [b1 b2 b3 b4] [e1 e2 e3 e4]. unfold Join. rewrite !(proj2 (String.eqb_neq _ _)) by done. unfold Clean.
  assert (HasPrefix (bid ++ "/" ++ e) "/" = false) as ->.
  { destruct bid as [|d bid]; [done|]. apply no_byte_head in b1. change (String d bid ++ "/" ++ e) with (String d (bid ++ "/" ++ e)).
    unfold HasPrefix. cbn [String.prefix]. destruct (ascii_dec "/" d) as [<-|]; done. }
  change (bid ++ "/" ++ e) with (join (String slash EmptyString) [bid; e]).
  rewrite split_join by (try done; by repeat constructor). cbn [fold_left]. unfold clean_step.
  rewrite !(proj2 (String.eqb_neq _ _)) by done. done.
Qed.

Lemma Base_plain es : es <> [] -> Forall plain_elem es -> exists e, e ∈ es /\ Base (join "/" es) = e.
Proof.
  intros N F. assert (S : split_byte slash (join "/" es) = es).
  { apply split_join; [done|]. eapply Forall_impl; [exact F|]. by intros e [? _ _ _]. }
  unfold Base. destruct (String.eqb_spec (join "/" es) "") as [E|_].
  { rewrite E in S. cbn in S. subst es. inversion F as [|? ? [_ X _ _] _]. done. }
  rewrite S. assert (filter (fun e => negb (String.eqb e "") = true) es = es) as ->.
  { clear -F. induction F as [|e es [_ X _ _] F IH]; [done|]. rewrite filter_cons_True, IH; [done|]. by apply negb_true_iff, String.eqb_neq. }
  destruct es as [|x es]; [done|]. destruct (last (x :: es)) as [e|] eqn:L; [|by apply last_None in L].
  exists e. split; [by apply last_Some_elem_of|done].
Qed.

Section Archive.
Context `{U : Unicode} `{K : Crypto} `{KA : AuthCrypto} `{R : Rows} `{J : EvidenceJson} `{Laws : !AuthCryptoLaws}.
Hypothesis collision_free : forall a b, sha256 a = sha256 b -> a = b.

(** A file directly in the directory of the bundle. *)
Definition below (bid name : string) : Prop := exists e, plain_elem e /\ name = bid ++ "/" ++ e.

Lemma item_below bid it s id : Inv s -> plain_elem bid -> items s !! id = Some it -> below bid (Join bid (Base (ei_Name it))).
Proof.
  intros I P E. destruct (inv_names s I id it E) as (n & (es & N & F & ->)%artifact_name_plain).
  destruct (Base_plain es N F) as (e & Ie & ->). rewrite Forall_forall in F. exists e. split; [by apply F|]. by apply Join_plain; [|apply F].
Qed.

Lemma plain_dec e : no_byte slash e && negb (String.eqb e "") && negb (String.eqb e ".") && negb (String.eqb e "..") = true -> plain_elem e.
Proof. intros H. bools. by split. Qed.

(** An export stays in its own directory. Whatever names artifacts were
    uploaded under, every file of an exported archive lies directly in the
    directory named after its bundle: no absolute path, no [..] and no
    subdirectory. *)
Theorem exported_inside now t bid s :
  reachable s -> plain_elem bid -> Forall (fun e => below bid (en_name e)) (fst (ExportBundleToTarGz now t bid s)).
Proof.
  intros I%reachable_Inv P; [|done]. unfold ExportBundleToTarGz. destruct (snd _) as [b|]; [|by constructor].
  set (es := (_ ++ _)%list). set (total := foldr _ _ _).
  assert (Fe : Forall (fun e => below bid (en_name e)) es).
  { apply Forall_app. split.
    - destruct (String.eqb _ ""); [constructor|]. constructor; [|constructor]. exists "manifest.json".
      split; [by apply plain_dec|]. by apply Join_plain; [|apply plain_dec].
    - destruct (rows_where _ (receipts s)); [constructor|]. constructor; [|constructor]. exists "receipt.json".
      split; [by apply plain_dec|]. by apply Join_plain; [|apply plain_dec]. }
  assert (Fr : forall l n, (forall it, it ∈ l -> exists id, items s !! id = Some it) ->
    Forall (fun e => below bid (en_name e)) (fst (export_items t bid s n l))).
  { induction l as [|it l IH]; intros n Hl; cbn [export_items]; [constructor|]. destruct (maxExportBytes <? _); [constructor|].
    destruct (open_item t it s) as [d|]; [|constructor]. specialize (IH (n + Z.of_nat (String.length d)) ltac:(intros x Ix; apply Hl; by right)).
    destruct (export_items t bid s _ l) as [rest r]. cbn in *. constructor; [|done]. cbn.
    destruct (Hl it ltac:(by left)) as [id E]. by apply (item_below bid it s id). }
  specialize (Fr (bundle_rows bid s) total). destruct (export_items t bid s total (bundle_rows bid s)) as [rest r].
  cbn in *. apply Forall_app. split; [done|]. apply Fr. intros it Ii. unfold bundle_rows in Ii. rewrite sort_slice_perm, rows_where_elem in Ii.
  by destruct Ii as [_ Ii].
Qed.

End Archive.
