(* ===== verification/EvidenceTerminal.v ===== *)
(** * Recordings in the evidence store

    The terminal manager stores recordings through an interface; here the
    evidence store implements it, and a sealed recording is read back. *)

From Stdlib Require Import Ascii String.
From stdpp Require Import gmap strings.
From S2P Require Import Prelude Terminal TerminalRelay TerminalInv TerminalProps NetIP Canonical CanonicalProps Action Platform Evidence EvidenceInv EvidenceProps.

Import canonical platform.

Local Open Scope string_scope.
Local Open Scope Z_scope.

(** A running store: what its next calls draw is a stream. *)
Record Live : Type := mkLive { lv_store : evidence.Store; lv_calls : nat -> evidence.call; lv_next : nat }.

Section Implementation.
Context `{U : Unicode} `{K : Crypto} `{KA : AuthCrypto} `{R : Rows} `{J : evidence.EvidenceJson} `{Laws : !AuthCryptoLaws}.

Definition lv_call (e : Live) : evidence.call := lv_calls e (lv_next e).

(** One call. *)
Definition on_live {A B} (op : evidence.call -> action evidence.Store A) (view : A -> B) (e : Live) : Live * result string B :=
  let '(s, r) := op (lv_call e) (lv_store e) in
  (mkLive s (lv_calls e) (S (lv_next e)), match r with Ok x => Ok (view x) | Err m => Err m end).

Lemma call_run {A B} (op : evidence.call -> action evidence.Store A) (view : A -> B) e s x :
  op (lv_call e) (lv_store e) = (s, Ok x) -> on_live op view e = (mkLive s (lv_calls e) (S (lv_next e)), Ok (view x)).
Proof. intros E. unfold on_live. by rewrite E. Qed.

Definition manifest_of (m : terminal.Manifest) : evidence.Manifest :=
  evidence.mkManifest (terminal.mf_BundleID m) (terminal.mf_EndpointID m) (terminal.mf_TenantID m) (terminal.mf_JobID m)
    (terminal.mf_Profile m) (terminal.mf_CollectedAt m)
    (map (fun i => evidence.mkManifestItem (terminal.mi_Name i) (terminal.mi_SizeBytes i) (terminal.mi_SHA256 i)
       (terminal.mi_CollectorStatus i)) (terminal.mf_Items m)) "".

Definition item_of (it : evidence.EvidenceItem) : terminal.EvidenceItem :=
  terminal.mkItem (evidence.ei_ID it) (evidence.ei_SizeBytes it) (evidence.ei_SHA256 it).

#[export] Instance live_store : terminal.EvidenceStore Live := {
  terminal.CreateBundle e t ep job profile ttl :=
    on_live (fun c => evidence.CreateBundle c t ep job profile ttl) evidence.eb_ID e;
  terminal.StoreItem e t bid name ty st data := on_live (fun c => evidence.StoreItem c t bid name ty st data) item_of e;
  terminal.FinalizeBundle e t bid m key := on_live (fun c => evidence.FinalizeBundle c t bid (manifest_of m) key) (fun _ => tt) e;
  terminal.ReadItemData e t id := snd (evidence.ReadItemData t id (lv_store e));
}.

Import evidence.

(** ** When a recording can be sealed *)

(** The bundle is the tenant's, empty and not finalized; the identifiers drawn
    are new; there is room, and the object can be written. *)
Record sealable (t bid data : string) (e : Live) : Prop := {
  sl_bundle : exists b, bundles (lv_store e) !! bid = Some b /\ eb_TenantID b = t;
  sl_empty : forall id it, items (lv_store e) !! id = Some it -> ei_BundleID it <> bid;
  sl_open : forall id r, receipts (lv_store e) !! id = Some r -> er_BundleID r <> bid;
  sl_item : items (lv_store e) !! c_id (lv_call e) = None;
  sl_named : c_id (lv_call e) <> "";
  sl_receipt : receipts (lv_store e) !! c_id (lv_calls e (S (lv_next e))) = None;
  sl_random : call_ok (lv_call e);
  sl_quota : over_quota t (Z.of_nat (String.length data)) (lv_store e) = false;
  sl_disk : forall free, c_free (lv_call e) = Some free ->
    50 * 1024 * 1024 <= int64_wrap (free - Z.of_nat (String.length data));
  sl_write : c_object (lv_call e) = true;
}.

Hypothesis collision_free : forall a b, sha256 a = sha256 b -> a = b.

Lemma owned_run t bid b s : bundles s !! bid = Some b -> eb_TenantID b = t -> owned_bundle t bid s = (s, Ok b).
Proof. intros B T. unfold owned_bundle, mbind, action_bind. cbn. by rewrite B, T, String.eqb_refl. Qed.

Lemma quota_run c t n s :
  over_quota t n s = false -> (forall free, c_free c = Some free -> 50 * 1024 * 1024 <= int64_wrap (free - n)) ->
  checkQuotaAndDisk c t n s = (s, Ok tt).
Proof.
  intros Q D. unfold checkQuotaAndDisk, mbind, action_bind. cbn -[Z.mul]. rewrite Q. cbn -[Z.mul].
  destruct (c_free c) as [f|]; [|done]. apply ensure_run, Z.leb_le. by apply D.
Qed.

(** An object is written, or is there already. *)
Lemma object_run c ct (s : Store) :
  Inv s -> c_object c = true ->
  exists fs, writeObjectAtomic c (ComputeDigest ct) ct s = (s <| files := fs |>, Ok tt).
Proof.
  intros I W. unfold writeObjectAtomic, mbind, action_bind. cbn. destruct (files s !! ComputeDigest ct) as [old|] eqn:F.
  - rewrite (inv_objects s I _ _ F). exists (files s). rewrite ensure_run by apply Nat.eqb_refl. by destruct s.
  - rewrite W. by eexists.
Qed.

(** Storing into a sealable store succeeds. *)
Lemma store_runs t bid name cn ty st data e :
  Inv (lv_store e) -> sealable t bid data e -> artifact_name name = Ok cn ->
  exists s' it, StoreItem (lv_call e) t bid name ty st data (lv_store e) = (s', Ok it)
    /\ ei_Name it = cn /\ ei_BundleID it = bid /\ ei_ID it = c_id (lv_call e)
    /\ String.eqb (ei_Status it) "completed" = true
    /\ items s' = <[ei_ID it := it]> (items (lv_store e)) /\ receipts s' = receipts (lv_store e)
    /\ exists b, bundles s' !! bid = Some b /\ eb_TenantID b = t.
Proof.
  intros I [(b & B & T) _ _ N _ _ C Q D W] A. unfold StoreItem. erewrite bind_run by (by apply owned_run).
  erewrite bind_run by (by rewrite A). erewrite bind_run by (by apply quota_run). erewrite bind_run by reflexivity. cbv zeta.
  destruct (object_run (lv_call e) (EncryptItemData (c_dataNonce (lv_call e)) (c_dataKey (lv_call e)) data
    (CanonicalItemAAD t bid (c_id (lv_call e)) cn 0 (Z.of_nat (String.length data)))) (lv_store e) I W) as [fs H].
  erewrite bind_run by exact H. set (it := mkItem _ _ _ _ _ _ _ _ _ _ _ _ _). set (s1 := (lv_store e) <| files := fs |>).
  assert (insert_item it s1 = (s1 <| items ::= insert (ei_ID it) it |>, Ok tt)) as Hi.
  { unfold insert_item. erewrite bind_run by reflexivity. erewrite bind_run; [reflexivity|]. apply ensure_run.
    apply negb_true_iff, bool_decide_eq_false. change (items s1) with (items (lv_store e)). change (ei_ID it) with (c_id (lv_call e)).
    rewrite N. by intros []. }
  erewrite bind_run by exact Hi. erewrite bind_run by reflexivity. eexists _, it. split; [reflexivity|]. do 6 (split; [done|]).
  cbn. rewrite lookup_alter_eq, B. by eexists.
Qed.

Lemma one_row bid it s :
  items s !! ei_ID it = None -> ei_BundleID it = bid -> (forall id x, items s !! id = Some x -> ei_BundleID x <> bid) ->
  forall s', items s' = <[ei_ID it := it]> (items s) -> bundle_rows bid s' = [it].
Proof.
  intros N Eb F s' E. unfold bundle_rows. rewrite E.
  assert (rows_where (fun x => String.eqb (ei_BundleID x) bid) (<[ei_ID it := it]> (items s)) ≡ₚ [it]) as P.
  { rewrite rows_where_insert by done. rewrite Eb, String.eqb_refl. rewrite rows_where_nil; [done|].
    intros k x X. apply String.eqb_neq. by eapply F. }
  apply Permutation_singleton_r in P as ->. done.
Qed.

(** Finalizing a bundle of one completed item, with its manifest, succeeds. *)
Lemma finalize_runs c t bid it b m s :
  bundle_rows bid s = [it] -> String.eqb (ei_Status it) "completed" = true ->
  bundles s !! bid = Some b -> eb_TenantID b = t ->
  receipts s !! c_id c = None -> (forall id r, receipts s !! id = Some r -> er_BundleID r <> bid) ->
  (exists st, em_Items m = [mkManifestItem (ei_Name it) (ei_SizeBytes it) (ei_SHA256 it) st]) ->
  exists s' r, FinalizeBundle c t bid m "" s = (s', Ok r).
Proof.
  intros Br C B T N F (st & Em). unfold FinalizeBundle. erewrite bind_run by (by apply owned_run). erewrite bind_run by reflexivity.
  cbv zeta. erewrite bind_run by reflexivity. rewrite Em, Br.
  erewrite bind_run by (apply ensure_run; cbn; by rewrite insert_empty, map_size_singleton).
  erewrite bind_run.
  2:{ unfold of_result. cbn [stored_items fold_left check_manifest mi_Name mi_SizeBytes mi_SHA256]. rewrite lookup_insert_eq.
      rewrite C, Z.eqb_refl, String.eqb_refl. reflexivity. }
  do 2 (erewrite bind_run by reflexivity). erewrite bind_run.
  2:{ unfold insert_receipt. erewrite bind_run by reflexivity. cbn [er_ReceiptID er_BundleID sign_receipt].
      rewrite bool_decide_eq_false_2 by (rewrite N; by intros []).
      rewrite rows_where_nil by (intros k x X; apply String.eqb_neq; by eapply F). reflexivity. }
  erewrite bind_run by reflexivity. by eexists _, _.
Qed.

End Implementation.

Section Recordings.
Context `{U : Unicode} `{K : Crypto} `{KA : AuthCrypto} `{R : Rows} `{J : evidence.EvidenceJson} `{Laws : !AuthCryptoLaws}.
Context {P G : Type}.
Context (unmarshal_grant : string -> option G).
Context (marshal_frame : terminal.TerminalFrame -> option string) (unmarshal_frame : string -> option terminal.TerminalFrame).
Hypothesis collision_free : forall a b, sha256 a = sha256 b -> a = b.

Import evidence terminal.

(** The seal of a session in a sealable store. *)
Lemma sealed_bundle now (s : TerminalSession P G) e :
  let data := frames_payload marshal_frame (Frames s) in
  Inv (lv_store e) -> sealable (TenantID s) (BundleID s) data e ->
  exists e1 e2 it,
    terminal.StoreItem e (TenantID s) (BundleID s) "session_frames.ndjson" "application/x-ndjson" (seal_status s) data
      = (e1, Ok (item_of it)) /\
    terminal.FinalizeBundle e1 (TenantID s) (BundleID s) (seal_manifest s (item_of it) now) "" = (e2, Ok tt) /\
    ei_ID it <> "" /\
    forall l, Forall op_ok l -> stays (BundleID s) l (lv_store e2) ->
      snd (evidence.ReadItemData (TenantID s) (ei_ID it) (run l (lv_store e2))) = Ok data.
Proof.
  intros data I Sl.
  destruct (store_runs (TenantID s) (BundleID s) "session_frames.ndjson" _ "application/x-ndjson" (seal_status s) data e I Sl eq_refl)
    as (s1 & it & H & En & Eb & Ei & C & Eit & Er & b & B & T).
  assert (Br : bundle_rows (BundleID s) s1 = [it]).
  { apply (one_row (BundleID s) it (lv_store e)); try done; [rewrite Ei|]; apply Sl. }
  set (e1 := mkLive s1 (lv_calls e) (S (lv_next e))).
  destruct (finalize_runs (lv_call e1) (TenantID s) (BundleID s) it b (manifest_of (seal_manifest s (item_of it) now)) s1)
    as (s2 & r & F); try done.
  { rewrite Er. apply Sl. }
  { rewrite Er. apply Sl. }
  { exists (seal_status s). unfold seal_manifest. cbn. by rewrite En. }
  exists e1, (mkLive s2 (lv_calls e) (S (S (lv_next e)))), it.
  split; [by apply (call_run (fun c => evidence.StoreItem c _ _ _ _ _ _))|].
  split; [by apply (call_run (fun c => evidence.FinalizeBundle c _ _ _ _) (fun _ => tt) e1 s2 r)|].
  split; [rewrite Ei; apply Sl|]. intros l O S. set (fin := OFinalize (lv_call e1) (TenantID s) (BundleID s) (manifest_of (seal_manifest s (item_of it) now)) "").
  assert (Fs : exec fin s1 = s2) by (unfold fin; cbn [exec]; by rewrite F).
  assert (W := wp_StoreItem collision_free (lv_call e) (TenantID s) (BundleID s) "session_frames.ndjson" "application/x-ndjson"
    (seal_status s) data (lv_store e) I (sl_random _ _ _ _ Sl)).
  apply (wp_Ok _ _ _ _ _ _ W) in H as (I1 & _ & E & Sz & Hd & b' & B' & T').
  assert (snd (evidence.ReadItemData (TenantID s) (ei_ID it) (run (fin :: l) s1)) = Ok data) as X;
    [|change (run (fin :: l) s1) with (run l (exec fin s1)) in X; by rewrite Fs in X].
  eapply (read_stays collision_free); [exact I1|by constructor|rewrite Ei; exact E|exact Eb| |].
  - rewrite (read_item _ _ it b') by (try done; by rewrite Ei). by apply open_held.
  - intros [|o l1] l2 Hs; [by exists b|]. injection Hs as <- ->. change (run (fin :: l1) s1) with (run l1 (exec fin s1)). rewrite Fs. by eapply S.
Qed.

(** C24: a sealed recording stays readable. Sealing a recorded session into
    the evidence store and reading it later, after any further use of the
    store that leaves the session's bundle there (pruning, other uploads,
    failing writes, restarts), returns the recorded frames in order and
    unchanged, up to the first whose line is 64 KiB or longer. *)
Theorem sealed_recording_kept (m : Manager P G Live) id s e now l :
  sessions m !! id = Some s -> SessionID s = id -> evidenceStore m = Some e -> RecordingState s <> "sealed" ->
  BundleID s <> "" -> Forall (codec_ok marshal_frame unmarshal_frame) (Frames s) ->
  reachable (lv_store e) -> sealable (TenantID s) (BundleID s) (frames_payload marshal_frame (Frames s)) e ->
  let m' := fst (SealSessionRecording unmarshal_grant marshal_frame id now m) in
  exists e', evidenceStore m' = Some e' /\
    (Forall op_ok l -> stays (BundleID s) l (lv_store e') ->
     exists md, snd (GetSessionRecording unmarshal_grant unmarshal_frame (TenantID s) id
                       (SetEvidenceStore (Some (mkLive (run l (lv_store e')) (lv_calls e') (lv_next e'))) m'))
       = Ok (readable marshal_frame (Frames s), md)).
Proof.
  intros Hs Hid He Hseal Hb Hl Re Sl m'. assert (I := reachable_Inv collision_free _ Re). destruct (sealed_bundle now s e I Sl)
    as (e1 & e2 & it & H1 & H2 & N & Rd).
  exists e2. assert (Em := seal_run unmarshal_grant marshal_frame m id s e e1 e2 (item_of it) now Hs He Hseal Hb H1 H2).
  cbv zeta in Em. unfold m'. rewrite Em. split; [done|]. intros O S. apply sealed_read; try done. by apply (Rd l).
Qed.

End Recordings.
