(* ===== verification/EvidenceExamples.v ===== *)
(** * Examples of the evidence store

    A concrete store on which the theorems about evidence apply, with the
    cryptography replaced by functions that compute. *)

From Stdlib Require Import Ascii String Sorted.
From stdpp Require Import gmap.
From S2P Require Import Prelude Terminal TerminalRelay TerminalInv TerminalProps TerminalExamples NetIP Canonical CanonicalProps Utf8 Action Platform AuthExamples Evidence EvidenceInv EvidenceProps EvidenceChain EvidenceTenants EvidenceNames EvidenceTerminal.

Import canonical platform evidence.

Module evidence_example.

Local Open Scope string_scope.
Local Open Scope Z_scope.

#[local] Existing Instance ascii_only.
#[local] Existing Instance authority_example.toy_auth.
#[local] Existing Instance authority_example.toy_rows.

Notation pad := authority_example.pad.

(** A digest without collisions. *)
#[local] Instance plain_digest : Crypto := {|
  sha256 := String "x";
  ed25519_verify := fun pub msg sig => String.eqb sig (pad 64 (pub ++ msg));
|}.

#[local] Instance plain_laws : AuthCryptoLaws.
Proof. split; intros; [apply String.eqb_refl|apply authority_example.pad_length|reflexivity|apply authority_example.pad_length]. Qed.

#[local] Instance plain_json : EvidenceJson := {| marshal_manifest := em_BundleID; marshal_receipt := er_ReceiptID |}.

Lemma collision_free a b : sha256 a = sha256 b -> a = b.
Proof. by intros [= E]. Qed.

(** ** A store *)

Definition draw (id : string) (now : Z) : call :=
  mkCall id now (pad 32 ("key " ++ id)) (pad 12 ("wrap " ++ id)) (pad 12 ("data " ++ id)) (Some GB) None true.

(** The disk took one byte of a chunk. *)
Definition torn (id : string) (now : Z) : call :=
  mkCall id now (pad 32 "") (pad 12 "") (pad 12 "") None (Some 1%nat) true.

Definition seed : string := pad 64 "seed".
Definition master : string := pad 32 "master".
Definition started : Store := match NewStore seed true master no_store with Ok s => s | Err _ => no_store end.

Definition bundle_ops : list evidence_op := [
  OCreateBundle (draw "" 1) "b1" "acme" "pc-1" "job" "triage" 0;
  OStoreItem (draw "note" 2) "acme" "b1" "logs/../note.txt" "text/plain" "ok" "hello";
  OCreateItem (draw "dump" 3) "acme" "b1" "dump.bin" "" 4 "ok";
  OChunk (draw "" 4) "acme" "dump" 1 2 4 "cd";
  OChunk (torn "" 5) "acme" "dump" 0 0 4 "ab";
  OChunk (draw "" 6) "acme" "dump" 0 0 4 "ab"].

Definition collected : Store := run bundle_ops started.

Definition lines : list ManifestItem :=
  [mkManifestItem "note.txt" 5 (ComputeDigest "hello") "ok"; mkManifestItem "dump.bin" 4 (ComputeDigest "abcd") "ok"].
Definition manifest : Manifest := mkManifest "b1" "pc-1" "acme" "job" "triage" 7 lines "".

Definition other_ops : list evidence_op := [
  OCreateBundle (draw "" 9) "b2" "other" "pc-2" "job" "triage" 0;
  OStoreItem (draw "theirs" 9) "other" "b1" "note.txt" "" "ok" "overwritten?";
  ORestart seed true].

Ltac ops := repeat (constructor; [first [done | by split; vm_compute]|]); constructor.

Lemma bundle_ops_ok : Forall op_ok bundle_ops.
Proof. ops. Qed.

Lemma other_ops_ok : Forall op_ok other_ops.
Proof. ops. Qed.

Lemma started_reachable l : Forall op_ok l -> reachable (run l started).
Proof. intros O. by exists seed, master, started, l. Qed.

Lemma stays_nil bid s : is_Some (bundles s !! bid) -> stays bid [] s.
Proof. by intros B [|] l2 E. Qed.

Lemma stays_cons bid o l s : is_Some (bundles s !! bid) -> stays bid l (exec o s) -> stays bid (o :: l) s.
Proof. intros B S [|o' l1] l2 E; [done|]. injection E as <- ->. by apply (S l1 l2). Qed.

(** What an operation that succeeds returns. *)
Lemma succeeded {St A} (x : St * result string A) : is_ok (snd x) = true -> exists y, x = (fst x, Ok y).
Proof. destruct x as [s [y|e]]; intros H; [by exists y|discriminate H]. Qed.

Definition bundle_there (bid : string) (s : Store) : bool := bool_decide (is_Some (bundles s !! bid)).

Lemma there bid s : bundle_there bid s = true -> is_Some (bundles s !! bid).
Proof. apply bool_decide_eq_true_1. Qed.

(** The bundle is there at every step. *)
Fixpoint staysb (bid : string) (l : list evidence_op) (s : Store) : bool :=
  bundle_there bid s && match l with [] => true | o :: l => staysb bid l (exec o s) end.

Lemma staysb_stays bid l : forall s, staysb bid l s = true -> stays bid l s.
Proof.
  induction l as [|o l IH]; intros s [H1 H2]%andb_prop.
  - apply stays_nil. by apply there.
  - apply stays_cons; [by apply there|]. by apply IH.
Qed.

Ltac computes := vm_compute; reflexivity.

(** ** Reading back *)

Definition store_more : Store * result string EvidenceItem :=
  StoreItem (draw "more" 8) "acme" "b1" "more.txt" "" "ok" "again" collected.

Lemma stored_item_read_witness :
  exists it, store_more = (fst store_more, Ok it)
    /\ snd (ReadItemData "acme" (ei_ID it) (run (OPrune 9 :: other_ops) (fst store_more))) = Ok "again".
Proof.
  destruct (succeeded store_more) as [it E]; [computes|]. exists it. split; [exact E|].
  unfold store_more in E at 1.
  assert (Hr : reachable collected) by apply started_reachable, bundle_ops_ok.
  assert (Hc : call_ok (draw "more" 8)) by (split; computes).
  apply (stored_item_read collision_free _ _ _ _ _ _ _ _ _ _ _ Hr Hc E).
  - constructor; [exact I|apply other_ops_ok].
  - apply staysb_stays. computes.
Defined.

Definition on_hold : Store := run (bundle_ops ++ [OHold "acme" "b1" "ana" "litigation" true]) started.

(** Two years later. *)
Definition late : list evidence_op := [OPrune (730 * 24 * Hour); ORestart seed true].

Lemma found {A} (o : option A) (f : A -> bool) : (match o with Some x => f x | None => false end) = true -> exists x, o = Some x /\ f x = true.
Proof. destruct o as [x|]; intros H; [by exists x|discriminate H]. Qed.

Lemma on_hold_reachable : reachable on_hold.
Proof. apply started_reachable, Forall_app_2; [apply bundle_ops_ok|by repeat constructor]. Qed.

Lemma held_evidence_read_witness : snd (ReadItemData "acme" "note" (run late on_hold)) = Ok "hello".
Proof.
  destruct (found (items on_hold !! "note") (fun it => String.eqb (ei_BundleID it) "b1")) as (it & E & Eb%String.eqb_eq); [computes|].
  assert (H : held (ei_BundleID it) on_hold).
  { rewrite Eb. destruct (found (bundles on_hold !! "b1") eb_LegalHold) as (b & B & L); [computes|]. exists b. exact (conj B L). }
  apply (held_evidence_read collision_free "acme" "note" it late on_hold "hello" on_hold_reachable E H).
  - computes.
  - repeat constructor.
  - repeat constructor.
Defined.

(** ** Chunks *)

Lemma chunked_item_exact_witness :
  exists it data, items collected !! "dump" = Some it /\ ei_SHA256 it = ComputeDigest data
    /\ covers data (item_chunks "dump" collected) /\ snd (ReadItemData "acme" "dump" collected) = Ok data.
Proof.
  destruct (found (items collected !! "dump") (fun it => String.eqb (ei_BundleID it) "b1" && String.eqb (ei_Status it) "completed"
    && (ei_SizeBytes it =? 4) && String.eqb (ei_SHA256 it) (ComputeDigest "abcd"))) as (it & E & H); [computes|].
  apply andb_prop in H as [H Hd%String.eqb_eq]. apply andb_prop in H as [H Sz%Z.eqb_eq]. apply andb_prop in H as [Eb%String.eqb_eq C].
  destruct (found (bundles collected !! "b1") (fun b => String.eqb (eb_TenantID b) "acme")) as (b & B & T%String.eqb_eq); [computes|].
  exists it. rewrite <- Eb in B.
  destruct (chunked_item_exact collision_free collected "dump" it b (started_reachable _ bundle_ops_ok) E B C) as (data & D & Cv & Rd).
  { intros X. apply (f_equal length) in X. vm_compute in X. discriminate X. }
  exists data. split; [exact E|]. split; [exact D|]. split; [exact Cv|]. rewrite T in Rd. apply Rd.
  rewrite Hd in D. apply hex_encode_inj, collision_free in D as <-. exact Sz.
Defined.

(** ** Finalizing *)

Definition finalization : Store * result string EvidenceReceipt := FinalizeBundle (draw "r1" 8) "acme" "b1" manifest "" collected.

Lemma finalized_manifest_true_witness :
  exists r, finalization = (fst finalization, Ok r)
    /\ Forall (fun line => exists it, manifest_line "b1" collected line it) lines
    /\ VerifyReceiptSignature r (ReceiptPublicKeyHex (fst finalization)) = Ok tt.
Proof.
  destruct (succeeded finalization) as [r E]; [computes|]. exists r. split; [exact E|]. unfold finalization in E at 1.
  destruct (finalized_manifest_true collision_free _ _ _ _ _ _ _ _ (started_reachable _ bundle_ops_ok) E) as (H1 & _ & _ & H2 & _).
  exact (conj H1 H2).
Defined.

(** ** Receipts *)

Definition finalize_ops : list evidence_op :=
  bundle_ops ++ [OFinalize (draw "r1" 8) "acme" "b1" manifest ""; OCreateBundle (draw "" 8) "b3" "acme" "pc-1" "job" "empty" 0;
    OFinalize (draw "r2" 9) "acme" "b3" (mkManifest "b3" "pc-1" "acme" "job" "empty" 9 [] "") ""].

Lemma finalize_ops_ok : Forall op_ok finalize_ops.
Proof. apply Forall_app_2; [apply bundle_ops_ok|by repeat constructor]. Qed.

Lemma finalize_unpruned l :
  Forall op_ok l -> forallb (fun o => negb (is_prune o)) l = true -> omap (finalize_time "acme") l = [] ->
  unpruned "acme" (run (finalize_ops ++ l) started).
Proof.
  intros O N F. exists seed, master, started, (finalize_ops ++ l)%list. do 3 (split; [reflexivity|]).
  split; [apply Forall_app_2; [apply finalize_ops_ok|exact O]|]. split.
  { apply Forall_app_2; [repeat constructor|]. apply Forall_forall. intros o Io. apply negb_true_iff.
    rewrite forallb_forall in N. apply N. by apply list_elem_of_In. }
  split; [|reflexivity]. rewrite omap_app, F. repeat constructor.
Qed.

Definition receipts_a : Store := run (finalize_ops ++ []) started.
Definition receipts_b : Store := run (finalize_ops ++ other_ops) started.

Definition receipt_fitsb (r : EvidenceReceipt) : bool :=
  (Unix (er_IngestedAt r) <? 1000) && (0 <=? Unix (er_IngestedAt r))
  && forallb (fun x => Z.of_nat (String.length x) <? 2 ^ 32) [er_ReceiptID r; er_BundleID r; er_TenantID r; er_EndpointID r;
       er_ManifestSHA256 r; er_StorageObjectsSHA256 r; er_PreviousReceiptSHA256 r].

Lemma all_fit l : forallb receipt_fitsb l = true -> Forall receipt_fits l.
Proof.
  intros H. apply Forall_forall. intros r Ir. rewrite forallb_forall in H. apply list_elem_of_In, H in Ir. unfold receipt_fitsb in Ir.
  apply andb_prop in Ir as [Ir Fs]. split; [apply andb_prop in Ir; unfold int64_ok, min_int64, max_int64; lia|].
  apply Forall_forall. intros x Ix. rewrite forallb_forall in Fs. apply Z.ltb_lt, Fs. by apply list_elem_of_In.
Qed.

Lemma some_digest m : sha256 m <> "".
Proof. intros E. discriminate E. Qed.

Lemma nonzero m : hex_encode (sha256 m) <> zero_hash.
Proof. intros E. apply (f_equal (string_take 1)) in E. vm_compute in E. discriminate E. Qed.

Lemma receipts_tamper_evident_witness :
  exists l1 l2, tenant_receipts "acme" receipts_a ≡ₚ l1 /\ tenant_receipts "acme" receipts_b ≡ₚ l2 /\ Forall2 same_receipt l1 l2.
Proof.
  assert (A : unpruned "acme" receipts_a) by (apply finalize_unpruned; [constructor|reflexivity..]).
  assert (B : unpruned "acme" receipts_b) by (apply finalize_unpruned; [apply other_ops_ok|reflexivity..]).
  apply (receipts_tamper_evident some_digest collision_free nonzero "acme" receipts_a receipts_b A B);
    [apply all_fit; computes..|computes].
Defined.

(** ** Tenants *)

Lemma tenants_isolated_witness :
  snd (ReadItemData "acme" "note" collected) = Ok "hello" <-> snd (ReadItemData "acme" "note" (run other_ops collected)) = Ok "hello".
Proof.
  refine (proj1 (tenants_isolated "acme" collision_free other_ops collected (started_reachable _ bundle_ops_ok) other_ops_ok _) "note" "hello").
  repeat (constructor; [split; [discriminate|reflexivity]|]). constructor.
Defined.

(** ** Exports *)

Lemma exported_inside_witness :
  map en_name (fst (ExportBundleToTarGz 9 "acme" "b1" collected)) = ["b1/dump.bin"; "b1/note.txt"]
  /\ Forall (fun e => below "b1" (en_name e)) (fst (ExportBundleToTarGz 9 "acme" "b1" collected)).
Proof.
  split; [computes|]. apply (exported_inside collision_free); [apply started_reachable, bundle_ops_ok|by apply plain_dec].
Defined.

(** ** What the checks let through *)

(** A manifest with one line twice is accepted though it omits [dump.bin]. *)
Example repeated_line_accepted :
  let twice := [mkManifestItem "note.txt" 5 (ComputeDigest "hello") "ok"; mkManifestItem "note.txt" 5 (ComputeDigest "hello") "ok"] in
  is_ok (snd (FinalizeBundle (draw "r1" 8) "acme" "b1" (mkManifest "b1" "pc-1" "acme" "job" "triage" 7 twice "") "" collected)) = true.
Proof. computes. Qed.

(** Nothing of the manifest but its items is compared with the bundle. *)
Example foreign_manifest_accepted :
  is_ok (snd (FinalizeBundle (draw "r1" 8) "acme" "b1" (mkManifest "b9" "pc-9" "other" "" "" 7 lines "") "" collected)) = true.
Proof. computes. Qed.

Definition status_of (id : string) (s : Store) : string := match items s !! id with Some it => ei_Status it | None => "" end.

(** When the object of the last chunk cannot be written, repeating the chunk
    does not complete the item. *)
Example failed_assembly_stuck :
  let full := mkCall "" 6 (pad 32 "") (pad 12 "") (pad 12 "") None None false in
  let s := run [OCreateBundle (draw "" 1) "b1" "acme" "pc-1" "job" "triage" 0; OCreateItem (draw "dump" 3) "acme" "b1" "dump.bin" "" 2 "ok";
    OChunk full "acme" "dump" 0 0 2 "ab"] started in
  is_ok (snd (StoreItemChunk (draw "" 7) "acme" "dump" 0 0 2 "ab" s)) = true
  /\ status_of "dump" (exec (OChunk (draw "" 7) "acme" "dump" 0 0 2 "ab") s) = "uploading".
Proof. split; computes. Qed.

(** Creating a bundle under an identifier another tenant has reports success. *)
Example taken_id_reported :
  is_ok (snd (CreateBundleWithID (draw "" 9) "b1" "other" "pc-2" "job" "triage" 0 collected)) = true
  /\ snd (GetBundle "other" "b1" (exec (OCreateBundle (draw "" 9) "b1" "other" "pc-2" "job" "triage" 0) collected)) = Err ErrTenantMismatch.
Proof. split; computes. Qed.

(** Two artifacts with the same last element share one name in an export. *)
Example exported_names_collide :
  map en_name (fst (ExportBundleToTarGz 9 "acme" "b1"
    (run [OStoreItem (draw "n2" 8) "acme" "b1" "a/note.txt" "" "ok" "x"] collected))) = ["b1/note.txt"; "b1/dump.bin"; "b1/note.txt"].
Proof. computes. Qed.

(** ** A recording *)

Import terminal terminal_example.

Definition live0 : Live := mkLive started (fun n => draw (string_of_list_ascii (repeat "i"%char (S n))) 5) 0.
Definition hub : Manager unit unit Live := start [screen_kind] (Some live0) (mkLimits 0 0 0 0) 0.

Definition recorded : Manager unit unit Live :=
  TerminalProps.run hash marshal_grant unmarshal_grant marshal_frame unmarshal_frame recorded_run hub.

Lemma recorded_session :
  exists s, sessions recorded !! "s1" = Some s /\ (view s, BundleID s)
    = ("s1", "acme", "recording", 10485627, [typed 0 "ls"; shown 0 "a b"], "i").
Proof.
  assert (((fun s => (view s, BundleID s)) <$> sessions recorded !! "s1")
    = Some ("s1", "acme", "recording", 10485627, [typed 0 "ls"; shown 0 "a b"], "i")) as H by computes.
  apply fmap_Some in H as (s & Hs & ->). exists s. split; [exact Hs|reflexivity].
Qed.

Definition session_bundle : list evidence_op := [OCreateBundle (draw "i" 5) "i" "acme" "pc-1" "s1" "terminal_session" (30 * 24 * Hour)].
Definition recording_store : Live := mkLive (run session_bundle started) (lv_calls live0) 1.

Lemma recording_store_is : evidenceStore recorded = Some recording_store.
Proof. computes. Qed.

Definition payload : string := frames_payload marshal_frame [typed 0 "ls"; shown 0 "a b"].

Lemma recording_sealable : sealable "acme" "i" payload recording_store.
Proof.
  split.
  - destruct (found (bundles (lv_store recording_store) !! "i") (fun b => String.eqb (eb_TenantID b) "acme")) as (b & B & T%String.eqb_eq);
      [computes|exists b; exact (conj B T)].
  - assert (items (lv_store recording_store) = ∅) as -> by computes. intros id it E. by rewrite lookup_empty in E.
  - assert (receipts (lv_store recording_store) = ∅) as -> by computes. intros id it E. by rewrite lookup_empty in E.
  - computes.
  - discriminate.
  - computes.
  - split; computes.
  - computes.
  - intros free E. injection E as <-. intros X. vm_compute in X. discriminate X.
  - reflexivity.
Qed.

Lemma sealed_recording_kept_witness :
  exists e', evidenceStore (fst (SealSessionRecording unmarshal_grant marshal_frame "s1" 1 recorded)) = Some e'
    /\ exists md, snd (GetSessionRecording unmarshal_grant unmarshal_frame "acme" "s1"
         (SetEvidenceStore (Some (mkLive (run (bundle_ops ++ [OPrune 9]) (lv_store e')) (lv_calls e') (lv_next e')))
            (fst (SealSessionRecording unmarshal_grant marshal_frame "s1" 1 recorded))))
       = Ok (readable marshal_frame [typed 0 "ls"; shown 0 "a b"], md).
Proof.
  destruct recorded_session as (s & Hs & [= Hid Ht Hr _ Hf Hb]). assert (Hl := recorded_codec). assert (Sl := recording_sealable).
  unfold payload in Sl. rewrite <- Hf in Hl, Sl |- *. rewrite <- Ht in Sl |- *. rewrite <- Hb in Sl.
  assert (Re : reachable (lv_store recording_store)) by (apply started_reachable; by repeat constructor).
  destruct (sealed_recording_kept unmarshal_grant marshal_frame unmarshal_frame collision_free recorded "s1" s recording_store 1
    (bundle_ops ++ [OPrune 9]) Hs Hid recording_store_is) as (e' & E & K); [by rewrite Hr|by rewrite Hb|exact Hl|exact Re|exact Sl|].
  exists e'. split; [exact E|]. apply K.
  - apply Forall_app_2; [apply bundle_ops_ok|by repeat constructor].
  - rewrite Hb. apply staysb_stays.
    destruct (found (evidenceStore (fst (SealSessionRecording unmarshal_grant marshal_frame "s1" 1 recorded)))
      (fun e => staysb "i" (bundle_ops ++ [OPrune 9]) (lv_store e))) as (e2 & E2 & X); [computes|].
    rewrite E in E2. injection E2 as <-. exact X.
Defined.

End evidence_example.
