(* ===== verification/Json.v ===== *)
(** * JSON

    The texts [encoding/json] accepts, as its scanner reads them: one byte at
    a time, with a stack of open arrays and objects. Strings keep their escaped
    form; [unquote] and [quote] are Go's decoding and encoding of them. *)

From Stdlib Require Import Ascii String.
From S2P Require Import Prelude Utf8.

Module json.
Import utf8.

Local Open Scope string_scope.
Local Open Scope Z_scope.

(** A value; numbers and strings are kept as written, without the quotes. *)
Inductive value : Type :=
| JNull
| JBool (b : bool)
| JNum (text : string)
| JStr (raw : string)
| JArr (l : list value)
| JObj (l : list (string * value)).

(** ** Scanning *)

Inductive number_state : Type := NMinus | NZero | NDigits | NDot | NFrac | NExp | NExpSign | NExpDigits.
Inductive string_state : Type := SPlain | SEscape | SHex (n : nat).

(** An open array, or an open object with the key being read. *)
Inductive frame : Type :=
| FArr (rev_values : list value)
| FObj (rev_members : list (string * value)) (key : string).

Inductive mode : Type :=
| BeginValue
| BeginValueOrEmpty
| BeginKey
| BeginKeyOrEmpty
| AfterKey
| InString (key : bool) (st : string_state) (rev_raw : list ascii)
| InNumber (st : number_state) (rev_text : list ascii)
| InLiteral (rest : string) (v : value)
| AfterValue (v : value)
| Broken.

Definition state : Type := mode * list frame.

Definition is_space (c : ascii) : bool :=
  Ascii.eqb c " " || Ascii.eqb c "009" || Ascii.eqb c "010" || Ascii.eqb c "013".

Definition is_hex (c : ascii) : bool :=
  is_digit c || in_range 97 102 (byte_val c) || in_range 65 70 (byte_val c).

Definition text_of (rev_text : list ascii) : string := string_of_list_ascii (rev rev_text).

(** Arrays and objects nest at most [limit] deep. *)
Definition push (limit : nat) (m : mode) (f : frame) (stack : list frame) : state :=
  if (limit <? length (f :: stack))%nat then (Broken, stack) else (m, f :: stack).

Definition begin_value (limit : nat) (c : ascii) (stack : list frame) : state :=
  if is_space c then (BeginValue, stack)
  else if Ascii.eqb c "{" then push limit BeginKeyOrEmpty (FObj [] "") stack
  else if Ascii.eqb c "[" then push limit BeginValueOrEmpty (FArr []) stack
  else if Ascii.eqb c "034" then (InString false SPlain [], stack)
  else if Ascii.eqb c "-" then (InNumber NMinus [c], stack)
  else if Ascii.eqb c "0" then (InNumber NZero [c], stack)
  else if is_digit c then (InNumber NDigits [c], stack)
  else if Ascii.eqb c "t" then (InLiteral "rue" (JBool true), stack)
  else if Ascii.eqb c "f" then (InLiteral "alse" (JBool false), stack)
  else if Ascii.eqb c "n" then (InLiteral "ull" JNull, stack)
  else (Broken, stack).

Definition begin_key (c : ascii) (stack : list frame) : state :=
  if is_space c then (BeginKey, stack)
  else if Ascii.eqb c "034" then (InString true SPlain [], stack)
  else (Broken, stack).

(** The byte after a value, which may have ended a number. *)
Definition after_value (v : value) (c : ascii) (stack : list frame) : state :=
  if is_space c then (AfterValue v, stack) else
  match stack with
  | FArr vs :: rest =>
    if Ascii.eqb c "," then (BeginValue, FArr (v :: vs) :: rest)
    else if Ascii.eqb c "]" then (AfterValue (JArr (rev (v :: vs))), rest)
    else (Broken, stack)
  | FObj ms k :: rest =>
    if Ascii.eqb c "," then (BeginKey, FObj ((k, v) :: ms) "" :: rest)
    else if Ascii.eqb c "}" then (AfterValue (JObj (rev ((k, v) :: ms))), rest)
    else (Broken, stack)
  | [] => (Broken, stack)
  end.

(** A number goes on, or has ended ([None]). *)
Definition number_next (st : number_state) (c : ascii) : option number_state :=
  let exponent := Ascii.eqb c "e" || Ascii.eqb c "E" in
  match st with
  | NMinus => if Ascii.eqb c "0" then Some NZero else if is_digit c then Some NDigits else None
  | NZero => if Ascii.eqb c "." then Some NDot else if exponent then Some NExp else None
  | NDigits => if is_digit c then Some NDigits else if Ascii.eqb c "." then Some NDot else if exponent then Some NExp else None
  | NDot => if is_digit c then Some NFrac else None
  | NFrac => if is_digit c then Some NFrac else if exponent then Some NExp else None
  | NExp => if Ascii.eqb c "+" || Ascii.eqb c "-" then Some NExpSign else if is_digit c then Some NExpDigits else None
  | NExpSign | NExpDigits => if is_digit c then Some NExpDigits else None
  end.

Definition number_ends (st : number_state) : bool :=
  match st with NZero | NDigits | NFrac | NExpDigits => true | _ => false end.

Definition escapable (c : ascii) : bool :=
  existsb (Ascii.eqb c) ["b"; "f"; "n"; "r"; "t"; "\"; "/"; "034"]%char.

Definition in_string (key : bool) (st : string_state) (raw : list ascii) (c : ascii) (stack : list frame) : state :=
  match st with
  | SPlain =>
    if Ascii.eqb c "034" then
      if key then match stack with
        | FObj ms _ :: rest => (AfterKey, FObj ms (text_of raw) :: rest)
        | _ => (Broken, stack)
        end
      else (AfterValue (JStr (text_of raw)), stack)
    else if Ascii.eqb c "\" then (InString key SEscape (c :: raw), stack)
    else if byte_val c <? 32 then (Broken, stack)
    else (InString key SPlain (c :: raw), stack)
  | SEscape =>
    if escapable c then (InString key SPlain (c :: raw), stack)
    else if Ascii.eqb c "u" then (InString key (SHex 4) (c :: raw), stack)
    else (Broken, stack)
  | SHex n =>
    if is_hex c then (InString key (match n with S (S n) => SHex (S n) | _ => SPlain end) (c :: raw), stack)
    else (Broken, stack)
  end.

Definition step (limit : nat) (st : state) (c : ascii) : state :=
  let '(m, stack) := st in
  match m with
  | BeginValue => begin_value limit c stack
  | BeginValueOrEmpty =>
    if is_space c then st
    else if Ascii.eqb c "]" then match stack with FArr _ :: rest => (AfterValue (JArr []), rest) | _ => (Broken, stack) end
    else begin_value limit c stack
  | BeginKey => begin_key c stack
  | BeginKeyOrEmpty =>
    if is_space c then st
    else if Ascii.eqb c "}" then match stack with FObj _ _ :: rest => (AfterValue (JObj []), rest) | _ => (Broken, stack) end
    else begin_key c stack
  | AfterKey => if is_space c then st else if Ascii.eqb c ":" then (BeginValue, stack) else (Broken, stack)
  | InString key s raw => in_string key s raw c stack
  | InNumber n text =>
    match number_next n c with
    | Some n => (InNumber n (c :: text), stack)
    | None => if number_ends n then after_value (JNum (text_of text)) c stack else (Broken, stack)
    end
  | InLiteral (String d rest) v =>
    if Ascii.eqb c d then (match rest with "" => AfterValue v | _ => InLiteral rest v end, stack) else (Broken, stack)
  | InLiteral "" v => (Broken, stack)
  | AfterValue v => after_value v c stack
  | Broken => st
  end.

Definition scan (limit : nat) (s : string) (st : state) : state := fold_left (step limit) (list_ascii_of_string s) st.

Definition finish (st : state) : option value :=
  match st with
  | (AfterValue v, []) => Some v
  | (InNumber n text, []) => if number_ends n then Some (JNum (text_of text)) else None
  | _ => None
  end.

(** A text that is one value, nested at most [limit] deep. *)
Definition parse (limit : nat) (s : string) : option value := finish (scan limit s (BeginValue, [])).

Definition maxNestingDepth : nat := Z.to_nat 10000.

(** ** Strings *)

Definition hex_val (c : ascii) : Z :=
  let v := byte_val c in if is_digit c then v - 48 else if 97 <=? v then v - 87 else v - 55.

(** A byte of the text, or a UTF-16 code unit written [\uXXXX]. *)
Inductive unit16 : Type := UByte (c : ascii) | UCode (u : Z).

Definition escape_byte (c : ascii) : ascii :=
  if Ascii.eqb c "b" then "008" else if Ascii.eqb c "f" then "012" else if Ascii.eqb c "n" then "010"
  else if Ascii.eqb c "r" then "013" else if Ascii.eqb c "t" then "009" else c.

Fixpoint units (raw : string) : list unit16 :=
  match raw with
  | "" => []
  | String c rest =>
    if Ascii.eqb c "\" then
      match rest with
      | "" => []
      | String e rest1 =>
        if Ascii.eqb e "u" then
          match rest1 with
          | String h1 (String h2 (String h3 (String h4 rest2))) =>
            UCode (((hex_val h1 * 16 + hex_val h2) * 16 + hex_val h3) * 16 + hex_val h4) :: units rest2
          | _ => []
          end
        else UByte (escape_byte e) :: units rest1
      end
    else UByte c :: units rest
  end.

Definition byte (v : Z) : ascii := ascii_of_N (Z.to_N v).

(** [utf8.EncodeRune] of a code point that is no surrogate. *)
Definition encode_rune (v : Z) : rune :=
  if v <? 128 then [byte v]
  else if v <? 2048 then [byte (192 + v / 64); byte (128 + v mod 64)]
  else if v <? 65536 then [byte (224 + v / 4096); byte (128 + v / 64 mod 64); byte (128 + v mod 64)]
  else [byte (240 + v / 262144); byte (128 + v / 4096 mod 64); byte (128 + v / 64 mod 64); byte (128 + v mod 64)].

Definition is_high (u : Z) : bool := in_range 55296 56319 u.
Definition is_low (u : Z) : bool := in_range 56320 57343 u.

(** A surrogate without its partner is U+FFFD. *)
Fixpoint join_units (l : list unit16) : string :=
  match l with
  | [] => ""
  | UByte c :: l => String c (join_units l)
  | UCode a :: l =>
    match l with
    | UCode b :: l' =>
      if is_high a && is_low b
      then string_of_rune (encode_rune ((a - 55296) * 1024 + (b - 56320) + 65536)) ++ join_units l'
      else string_of_rune (if is_high a || is_low a then RuneError else encode_rune a) ++ join_units l
    | _ => string_of_rune (if is_high a || is_low a then RuneError else encode_rune a) ++ join_units l
    end
  end.

(** Bytes that are no UTF-8 are replaced by U+FFFD. *)
Definition unquote (raw : string) : string := string_of_runes (range_runes (join_units (units raw))).

Definition hex_low (v : Z) : ascii := byte (if v <? 10 then 48 + v else 87 + v).

Definition u00 (c : ascii) : list ascii := ["\"; "u"; "0"; "0"; hex_low (byte_val c / 16); hex_low (byte_val c mod 16)]%char.

(** How [json.Marshal] writes a rune in a string. *)
Definition quote_rune (r : rune) : list ascii :=
  match r with
  | [c] =>
    if Ascii.eqb c "034" || Ascii.eqb c "\" then ["\"%char; c]
    else if Ascii.eqb c "008" then ["\"; "b"]%char else if Ascii.eqb c "012" then ["\"; "f"]%char
    else if Ascii.eqb c "010" then ["\"; "n"]%char else if Ascii.eqb c "013" then ["\"; "r"]%char
    else if Ascii.eqb c "009" then ["\"; "t"]%char
    else if (byte_val c <? 32) || Ascii.eqb c "<" || Ascii.eqb c ">" || Ascii.eqb c "&" then u00 c
    else [c]
  | [a; b; c] =>
    if byte_in 226 226 a && byte_in 128 128 b && byte_in 168 169 c
    then ["\"; "u"; "2"; "0"; "2"; hex_low (byte_val c - 160)]%char else r
  | _ => r
  end.

Definition quote_body (s : string) : string := string_of_list_ascii (concat (map quote_rune (range_runes s))).

(** ** Writing *)

Definition quoted (raw : string) : string := String "034" (raw ++ String "034" "").

(** A value without spaces ([json.Compact]). *)
Fixpoint print (v : value) : string :=
  match v with
  | JNull => "null"
  | JBool true => "true"
  | JBool false => "false"
  | JNum text => text
  | JStr raw => quoted raw
  | JArr l => "[" ++ join "," (map print l) ++ "]"
  | JObj l => "{" ++ join "," (map (fun kv => quoted kv.1 ++ ":" ++ print kv.2) l) ++ "}"
  end.

(** A number, and a string. *)
Definition num (n : Z) : value := JNum (format_int n).
Definition str (s : string) : value := JStr (quote_body s).

(** ** Structures read leniently ([json.Unmarshal])

    Keys match without regard to case, the last one wins, null leaves a field
    alone, and a value of another type is an error. *)

(** A key as it is compared with the lower-case ASCII names of fields: the
    long s and the Kelvin sign fold to letters too. *)
Definition fold_rune (r : rune) : rune :=
  match r with
  | [c] => [if in_range 65 90 (byte_val c) then byte (byte_val c + 32) else c]
  | ["197"; "191"]%char => ["s"%char]
  | ["226"; "132"; "170"]%char => ["k"%char]
  | _ => r
  end.

Definition fold_key (k : string) : string := string_of_runes (map fold_rune (range_runes k)).

(** [field] stores a member, or fails. *)
Definition unmarshal_value {A} (field : string -> value -> A -> option A) (zero : A) (v : value) : option A :=
  match v with
  | JObj l => foldl (fun acc kv => x ← acc; field (fold_key (unquote kv.1)) kv.2 x) (Some zero) l
  | JNull => Some zero
  | _ => None
  end.

Definition unmarshal {A} (field : string -> value -> A -> option A) (zero : A) (data : string) : option A :=
  v ← parse maxNestingDepth data; unmarshal_value field zero v.

Definition string_field (v : value) (old : string) : option string :=
  match v with JStr raw => Some (unquote raw) | JNull => Some old | _ => None end.

Definition int64_field (v : value) (old : Z) : option Z :=
  match v with JNum text => parse_int text | JNull => Some old | _ => None end.

(** The first value of a text, as a [Decoder] reads it: what follows is left. *)
Fixpoint first_value (limit : nat) (s : string) (st : state) : option value :=
  match s with
  | "" => finish st
  | String c s =>
    match st with
    | (InNumber n text, []) =>
      match number_next n c with
      | Some n => first_value limit s (InNumber n (c :: text), [])
      | None => if number_ends n then Some (JNum (text_of text)) else None
      end
    | _ =>
      match step limit st c with
      | (AfterValue v, []) => Some v
      | st => first_value limit s st
      end
    end
  end.

(** [json.NewDecoder(r).Decode(&x)]. *)
Definition decode {A} (field : string -> value -> A -> option A) (zero : A) (data : string) : option A :=
  v ← first_value maxNestingDepth data (BeginValue, []); unmarshal_value field zero v.

(** ** Decimal integers *)

Lemma digits_val_app a b acc : digits_val acc (a ++ b) = (v ← digits_val acc a; digits_val v b).
Proof.
  revert acc. induction a as [|c a IH]; intros acc; [done|].
  change (String c a ++ b) with (String c (a ++ b)). cbn [digits_val]. destruct (is_digit c); [apply IH|done].
Qed.

Lemma pretty_char d : (d < 10)%N -> is_digit (pretty_N_char d) = true /\ digit_val (pretty_N_char d) = Z.of_N d.
Proof. intros H. assert (d ∈ [0;1;2;3;4;5;6;7;8;9]%N) as I by (rewrite !elem_of_cons; lia). revert I. rewrite !elem_of_cons. intros I.
  destruct_or! I; subst; try done. by apply not_elem_of_nil in I. Qed.

(** A positive number is written without a leading zero. *)
Lemma pretty_go_digits x s :
  (0 < x)%N -> exists c ds, pretty_N_go x s = String c (ds ++ s) /\ is_digit c = true /\ c <> "0"%char
    /\ string_forallb is_digit ds = true /\ digits_val 0 (String c ds) = Some (Z.of_N x).
Proof.
  revert s. induction x as [x IH] using (well_founded_ind N.lt_wf_0). intros s Hx. rewrite pretty_N_go_step by done.
  destruct (pretty_char (x mod 10)) as [D V]; [apply N.mod_lt; lia|]. destruct (decide (0 < x / 10)%N) as [Hd|Hd].
  - destruct (IH (x / 10)%N ltac:(apply N.div_lt; lia) (String (pretty_N_char (x mod 10)) s) Hd) as (c & ds & E & Dc & Nz & Ds & Vs).
    exists c, (ds ++ String (pretty_N_char (x mod 10)) ""). split; [rewrite E; f_equal; by rewrite !app_assoc_str|].
    split; [done|]. split; [done|]. split; [rewrite string_forallb_app, Ds; cbn; by rewrite D|].
    change (String c (ds ++ String (pretty_N_char (x mod 10)) "")) with (String c ds ++ String (pretty_N_char (x mod 10)) "").
    rewrite digits_val_app, Vs. cbn [mbind option_bind digits_val]. rewrite D. f_equal. rewrite V.
    assert (E10 := N.div_mod x 10 ltac:(lia)). lia.
  - assert (Z0 : (x / 10 = 0)%N) by (by apply N.le_0_r, N.nlt_ge). rewrite Z0, pretty_N_go_0. exists (pretty_N_char (x mod 10)), "".
    assert (x mod 10 = x)%N as -> by (apply N.mod_small; apply N.div_small_iff in Z0; lia).
    assert (x < 10)%N by (apply N.div_small_iff in Z0; lia). destruct (pretty_char x) as [D' V']; [done|].
    split; [done|]. split; [done|]. split; [|split; [done|cbn; rewrite D'; f_equal; rewrite V'; lia]].
    intros X. assert (E0 : digit_val "0" = 0) by done. rewrite X in V'. lia.
Qed.

Lemma format_pos n : 0 < n -> exists c ds, format_int n = String c ds /\ is_digit c = true /\ c <> "0"%char
  /\ string_forallb is_digit ds = true /\ digits_val 0 (String c ds) = Some n.
Proof.
  intros Hn. destruct n as [|p|p]; try done. unfold format_int, pretty, pretty_Z, pretty, pretty_positive, pretty, pretty_N.
  rewrite decide_False by done. destruct (pretty_go_digits (N.pos p) "") as (c & ds & E & H); [done|]. exists c, ds.
  by rewrite E, string_app_nil.
Qed.

(** Numbers as the scanner meets them. *)
Lemma scan_app limit a b st : scan limit (a ++ b) st = scan limit b (scan limit a st).
Proof. unfold scan. by rewrite list_ascii_app, fold_left_app. Qed.

Lemma scan_cons limit c s st : scan limit (String c s) st = scan limit s (step limit st c).
Proof. done. Qed.

Lemma scan_digits limit ds text stack :
  string_forallb is_digit ds = true ->
  scan limit ds (InNumber NDigits text, stack) = (InNumber NDigits (rev (list_ascii_of_string ds) ++ text), stack).
Proof.
  revert text. induction ds as [|c ds IH]; intros text D; [done|]. cbn in D. bools. rewrite scan_cons. cbn [step number_next].
  rewrite H, IH by done. f_equal. f_equal. cbn. by rewrite <- app_assoc.
Qed.

Lemma text_of_rev s : text_of (rev (list_ascii_of_string s)) = s.
Proof. unfold text_of. by rewrite rev_involutive, string_of_list_ascii_of_string. Qed.

Lemma digit_begins limit c stack :
  is_digit c = true -> c <> "0"%char -> begin_value limit c stack = (InNumber NDigits [c], stack)
    /\ number_next NMinus c = Some NDigits.
Proof. intros D N. destruct c as [[] [] [] [] [] [] [] []]; try discriminate D; try (by destruct N); by split. Qed.

Lemma format_neg n : n < 0 -> format_int n = String "-" (format_int (- n)).
Proof. by destruct n. Qed.

(** An integer is scanned as a number with its own text. *)
Lemma scan_int limit n stack : exists st,
  scan limit (format_int n) (BeginValue, stack) = (InNumber st (rev (list_ascii_of_string (format_int n))), stack)
  /\ (st = NZero \/ st = NDigits).
Proof.
  destruct (Z.lt_trichotomy n 0) as [Hn|[->|Hn]].
  - rewrite (format_neg n) by done. destruct (format_pos (- n)) as (c & ds & E & D & N & Ds & _); [lia|]. exists NDigits. split; [|by right].
    rewrite E, !scan_cons. destruct (digit_begins limit c stack D N) as [_ B].
    change (step limit (BeginValue, stack) "-") with (InNumber NMinus ["-"%char], stack). cbn [step]. rewrite B, scan_digits by done.
    f_equal. f_equal. cbn. by rewrite <- app_assoc.
  - exists NZero. split; [done|by left].
  - destruct (format_pos n) as (c & ds & E & D & N & Ds & _); [lia|]. exists NDigits. split; [|by right].
    rewrite E, scan_cons. destruct (digit_begins limit c stack D N) as [B _]. cbn [step]. by rewrite B, scan_digits.
Qed.

(** ... and read back. *)
Lemma parse_format_int n : min_int64 <= n <= max_int64 -> parse_int (format_int n) = Some n.
Proof.
  intros R. assert (In : in_range min_int64 max_int64 n = true) by (unfold in_range; lia).
  destruct (Z.lt_trichotomy n 0) as [Hn|[->|Hn]].
  - rewrite format_neg by done. destruct (format_pos (- n)) as (c & ds & E & D & N & Ds & V); [lia|]. rewrite E. unfold parse_int.
    rewrite V. cbn [mbind option_bind]. rewrite Z.opp_involutive. by rewrite In.
  - done.
  - destruct (format_pos n) as (c & ds & E & D & N & Ds & V); [lia|]. rewrite E. unfold parse_int.
    destruct c as [[] [] [] [] [] [] [] []]; try discriminate D; by rewrite V; cbn [mbind option_bind]; rewrite In.
Qed.

(** The byte after an integer ends it. *)
Lemma int_then limit n c stack :
  is_digit c = false -> c <> "."%char -> c <> "e"%char -> c <> "E"%char ->
  scan limit (format_int n ++ String c "") (BeginValue, stack) = after_value (JNum (format_int n)) c stack.
Proof.
  intros D N1 N2 N3. destruct (scan_int limit n stack) as (st & E & S). rewrite scan_app, E, scan_cons. cbn [step].
  apply Ascii.eqb_neq in N1, N2, N3. assert (number_next st c = None) as ->.
  { destruct S as [-> | ->]; cbn [number_next]; by rewrite ?D, ?N1, ?N2, ?N3. }
  rewrite text_of_rev. by destruct S as [-> | ->].
Qed.

(** ** Strings written and read *)

Lemma string_of_rune_list r : string_of_rune r = string_of_list_ascii r.
Proof. induction r as [|c r IH]; [done|]. cbn. by rewrite IH. Qed.

Lemma scan_list limit l st : scan limit (string_of_list_ascii l) st = fold_left (step limit) l st.
Proof. unfold scan. by rewrite list_ascii_of_string_of_list_ascii. Qed.

(** A rune that a string can hold as it is. *)
Lemma plain_bytes limit key r raw stack :
  Forall (fun c => 128 <= byte_val c) r ->
  fold_left (step limit) r (InString key SPlain raw, stack) = (InString key SPlain (rev r ++ raw), stack).
Proof.
  revert raw. induction r as [|c r IH]; intros raw F; [done|]. inversion F as [|? ? Hc Fr]; subst. cbn [fold_left step in_string].
  assert (Ascii.eqb c "034" = false) as -> by (apply Ascii.eqb_neq; by intros ->).
  assert (Ascii.eqb c "\" = false) as -> by (apply Ascii.eqb_neq; by intros ->).
  rewrite (proj2 (Z.ltb_ge _ _)) by lia. rewrite IH by done. f_equal. f_equal. cbn. by rewrite <- app_assoc.
Qed.

Lemma quoted_ascii limit key c raw stack :
  valid1 c = true -> fold_left (step limit) (quote_rune [c]) (InString key SPlain raw, stack) = (InString key SPlain (rev (quote_rune [c]) ++ raw), stack).
Proof. intros V. destruct c as [[] [] [] [] [] [] [] []]; try discriminate V; reflexivity. Qed.

Lemma byte_in_range lo hi c : byte_in lo hi c = true -> lo <= byte_val c <= hi.
Proof. unfold byte_in, in_range. lia. Qed.

Lemma wide_bytes r : valid_rune r = true -> (exists c, r = [c] /\ valid1 c = true) \/ Forall (fun c => 128 <= byte_val c) r.
Proof.
  unfold valid_rune, valid2, valid3, valid4, is_cont. destruct r as [|a [|b [|c [|d [|e r]]]]]; try done; intros V; [left; eauto|right..];
    repeat match goal with
    | H : _ && _ = true |- _ => apply andb_prop in H; destruct H
    | H : _ || _ = true |- _ => apply orb_prop in H; destruct H
    | H : byte_in _ _ _ = true |- _ => apply byte_in_range in H
    end; repeat constructor; lia.
Qed.

Lemma separator_tail c : byte_in 168 169 c = true -> c = "168"%char \/ c = "169"%char.
Proof. intros V. destruct c as [[] [] [] [] [] [] [] []]; try discriminate V; auto. Qed.

(** How a wide rune is written: as it is, but for U+2028 and U+2029. *)
Lemma quote_wide r : Forall (fun c => 128 <= byte_val c) r ->
  quote_rune r = r \/ exists c, r = ["226"; "128"; c]%char /\ (c = "168" \/ c = "169")%char.
Proof.
  intros F. destruct r as [|a [|b [|c [|d r]]]]; try (by left).
  - left. inversion F; subst. cbn [quote_rune].
    destruct a as [[] [] [] [] [] [] [] []]; try done; exfalso; by vm_compute in H1.
  - cbn [quote_rune]. destruct (byte_in 226 226 a && byte_in 128 128 b && byte_in 168 169 c) eqn:E; [right|by left].
    bools. exists c. split; [|by apply separator_tail]. f_equal; [|f_equal].
    + destruct a as [[] [] [] [] [] [] [] []]; try discriminate H; done.
    + destruct b as [[] [] [] [] [] [] [] []]; try discriminate H1; done.
Qed.

Lemma quoted_rune limit key r raw stack :
  valid_rune r = true ->
  fold_left (step limit) (quote_rune r) (InString key SPlain raw, stack) = (InString key SPlain (rev (quote_rune r) ++ raw), stack).
Proof.
  intros V. destruct (wide_bytes r V) as [(c & -> & V1)|F]; [by apply quoted_ascii|].
  destruct (quote_wide r F) as [->|(c & -> & [-> | ->])]; [by apply plain_bytes|reflexivity..].
Qed.

Lemma scan_runes limit key l raw stack :
  Forall (fun r => valid_rune r = true) l ->
  fold_left (step limit) (concat (map quote_rune l)) (InString key SPlain raw, stack)
  = (InString key SPlain (rev (concat (map quote_rune l)) ++ raw), stack).
Proof.
  revert raw. induction l as [|r l IH]; intros raw F; [done|]. inversion F; subst. cbn [map concat]. rewrite fold_left_app, quoted_rune by done.
  rewrite IH by done. f_equal. f_equal. by rewrite rev_app_distr, <- app_assoc.
Qed.

Lemma join_code a l :
  is_high a = false -> is_low a = false -> join_units (UCode a :: l) = string_of_rune (encode_rune a) ++ join_units l.
Proof. intros H L. cbn [join_units]. rewrite H, L. by destruct l as [|[]]. Qed.

Lemma units_plain r t : Forall (fun c => 128 <= byte_val c) r -> join_units (units (string_of_rune r ++ t)) = string_of_rune r ++ join_units (units t).
Proof.
  induction 1 as [|c r Hc F IH]; [done|]. change (string_of_rune (c :: r) ++ t) with (String c (string_of_rune r ++ t)). cbn [units].
  assert (Ascii.eqb c "\" = false) as -> by (apply Ascii.eqb_neq; by intros ->). cbn [join_units]. by rewrite IH.
Qed.

Lemma units_rune r t :
  valid_rune r = true -> join_units (units (string_of_list_ascii (quote_rune r) ++ t)) = string_of_rune r ++ join_units (units t).
Proof.
  intros V. destruct (wide_bytes r V) as [(c & -> & V1)|F].
  - destruct c as [[] [] [] [] [] [] [] []]; try discriminate V1; first [reflexivity|etrans; [apply join_code; reflexivity|reflexivity]].
  - destruct (quote_wide r F) as [->|(c & -> & [-> | ->])]; [by rewrite <- string_of_rune_list, units_plain|..];
      (etrans; [apply join_code; reflexivity|reflexivity]).
Qed.

Lemma unescape_runes l :
  Forall (fun r => valid_rune r = true) l -> join_units (units (string_of_list_ascii (concat (map quote_rune l)))) = string_of_runes l.
Proof.
  induction 1 as [|r l V F IH]; [done|]. cbn [map concat]. rewrite string_of_list_app, units_rune by done. rewrite IH. done.
Qed.

(** A valid string is read back as it was written. *)
Lemma unquote_quote s : valid_utf8 s -> unquote (quote_body s) = s.
Proof. intros (l & V & ->). unfold unquote, quote_body. rewrite range_of_runes by done. by rewrite unescape_runes, range_of_runes. Qed.

Lemma unquote_valid raw : valid_utf8 (unquote raw).
Proof. eexists. split; [apply range_valid|done]. Qed.

(** ** Values written and scanned *)

(** Texts the scanner takes for one number, and for the inside of one string. *)
Definition number_text (text : string) : Prop :=
  (exists c t, text = String c t /\ (is_digit c || Ascii.eqb c "-") = true) /\
  forall limit stack, exists st,
    scan limit text (BeginValue, stack) = (InNumber st (rev (list_ascii_of_string text)), stack) /\ number_ends st = true.

Definition string_text (raw : string) : Prop := forall limit key acc stack,
  scan limit raw (InString key SPlain acc, stack) = (InString key SPlain (rev (list_ascii_of_string raw) ++ acc), stack).

Lemma int_text n : number_text (format_int n).
Proof.
  split; [|intros limit stack; destruct (scan_int limit n stack) as (st & E & [-> | ->]); by eexists].
  destruct (Z.lt_trichotomy n 0) as [Hn|[->|Hn]]; [rewrite format_neg by done|..]; try (eexists _, _; by split).
  destruct (format_pos n) as (c & ds & E & D & _); [done|]. exists c, ds. by rewrite D.
Qed.

Lemma quote_text s : string_text (quote_body s).
Proof. intros limit key acc stack. unfold quote_body. rewrite scan_list, list_ascii_of_string_of_list_ascii. apply scan_runes, range_valid. Qed.

Inductive wf : value -> Prop :=
| wf_null : wf JNull
| wf_bool b : wf (JBool b)
| wf_num text : number_text text -> wf (JNum text)
| wf_str raw : string_text raw -> wf (JStr raw)
| wf_arr l : Forall wf l -> wf (JArr l)
| wf_obj l : Forall (fun kv => string_text kv.1 /\ wf kv.2) l -> wf (JObj l).

Fixpoint depth (v : value) : nat :=
  match v with
  | JArr l => S (foldr max 0%nat (map depth l))
  | JObj l => S (foldr max 0%nat (map (fun kv => depth kv.2) l))
  | _ => 0%nat
  end.

(** The scanner has read [v]. *)
Definition has_read (st : state) (v : value) (stack : list frame) : Prop :=
  st = (AfterValue v, stack) \/
  exists n text, st = (InNumber n text, stack) /\ number_ends n = true /\ v = JNum (text_of text).

Definition closing (c : ascii) : bool := Ascii.eqb c "," || Ascii.eqb c "]" || Ascii.eqb c "}".

Lemma read_then limit st v stack c : has_read st v stack -> closing c = true -> step limit st c = after_value v c stack.
Proof.
  intros [-> |(n & text & -> & N & ->)] C; [done|]. cbn [step].
  assert (number_next n c = None) as ->; [|by rewrite N].
  assert (c = "," \/ c = "]" \/ c = "}")%char as [-> |[-> | ->]].
  { unfold closing in C. apply orb_prop in C as [[C|C]%orb_prop|C]; apply Ascii.eqb_eq in C; auto. }
  all: by destruct n.
Qed.

Lemma read_finish st v : has_read st v [] -> finish st = Some v.
Proof. intros [-> |(n & text & -> & N & ->)]; [done|]. cbn. by rewrite N. Qed.

Lemma scan_string limit key raw stack : string_text raw ->
  scan limit (raw ++ String "034" "") (InString key SPlain [], stack)
  = in_string key SPlain (rev (list_ascii_of_string raw)) "034" stack.
Proof. intros T. by rewrite scan_app, T, app_nil_r. Qed.

(** The start of a value that is written. *)
Lemma print_begins v : wf v -> exists c t, print v = String c t /\ is_space c = false /\ Ascii.eqb c "]" = false.
Proof.
  intros W. destruct W as [|[]|text T|raw T|l|l]; try (eexists _, _; by split).
  destruct T as [(c & t & -> & D) _]. exists c, t. split; [done|]. destruct c as [[] [] [] [] [] [] [] []]; try discriminate D; done.
Qed.

(** ** Written values are UTF-8 *)

Lemma quote_rune_valid r : valid_rune r = true -> valid_utf8 (string_of_list_ascii (quote_rune r)).
Proof.
  intros V. destruct (wide_bytes r V) as [(c & -> & V1)|F].
  - apply valid_ascii. destruct c as [[] [] [] [] [] [] [] []]; try discriminate V1; reflexivity.
  - destruct (quote_wide r F) as [->|(c & -> & [-> | ->])]; [|by apply valid_ascii..].
    exists [r]. split; [by constructor|]. by rewrite <- string_of_rune_list; cbn; rewrite string_app_nil.
Qed.

Lemma quote_valid s : valid_utf8 (quote_body s).
Proof.
  unfold quote_body. assert (F := range_valid s). induction F as [|r l V F IH]; [by exists []|]. cbn [map concat].
  rewrite string_of_list_app. apply valid_app; [by apply quote_rune_valid|done].
Qed.

Lemma digits_valid ds : string_forallb is_digit ds = true -> string_forallb valid1 ds = true.
Proof.
  induction ds as [|c ds IH]; [done|]. cbn. intros H. bools. rewrite IH by done.
  destruct c as [[] [] [] [] [] [] [] []]; try discriminate H; done.
Qed.

Lemma int_valid n : valid_utf8 (format_int n).
Proof.
  apply valid_ascii. assert (P : forall n, 0 < n -> string_forallb valid1 (format_int n) = true).
  { intros k Hk. destruct (format_pos k Hk) as (c & ds & -> & D & _ & Ds & _). apply digits_valid. cbn. by rewrite D. }
  destruct (Z.lt_trichotomy n 0) as [Hn|[->|Hn]]; [|done|by apply P]. rewrite format_neg by done. cbn. apply P. lia.
Qed.

(** Values whose texts are UTF-8. *)
Inductive utf8_value : value -> Prop :=
| uv_null : utf8_value JNull
| uv_bool b : utf8_value (JBool b)
| uv_num text : valid_utf8 text -> utf8_value (JNum text)
| uv_str raw : valid_utf8 raw -> utf8_value (JStr raw)
| uv_obj l : Forall (fun kv => valid_utf8 kv.1 /\ utf8_value kv.2) l -> utf8_value (JObj l).

Lemma quoted_valid raw : valid_utf8 raw -> valid_utf8 (quoted raw).
Proof. intros V. apply (valid_app (String "034" "")); [by apply valid_ascii|]. apply valid_app; [done|by apply valid_ascii]. Qed.

Lemma join_valid l : Forall valid_utf8 l -> valid_utf8 (join "," l).
Proof.
  induction 1 as [|x [|y l] V F IH]; [by exists []|done|]. change (join "," (x :: y :: l)) with (x ++ "," ++ join "," (y :: l)).
  apply valid_app; [done|]. apply valid_app; [by apply valid_ascii|done].
Qed.

Lemma print_valid : forall v, utf8_value v -> valid_utf8 (print v).
Proof.
  fix IH 2. intros v U. destruct U as [|[]|text V|raw V|l F]; cbn [print]; try (by apply valid_ascii); [done|by apply quoted_valid|].
  apply valid_app; [by apply valid_ascii|]. apply valid_app; [|by apply valid_ascii]. apply join_valid.
  revert l F. fix IHl 2. intros l F. destruct F as [|kv l [V U] F]; constructor; [|by apply IHl].
  apply valid_app; [by apply quoted_valid|]. apply valid_app; [by apply valid_ascii|by apply IH].
Qed.

Section Scan.
Context (limit : nat).

Definition scans (v : value) : Prop := forall stack,
  (depth v + length stack <= limit)%nat -> has_read (scan limit (print v) (BeginValue, stack)) v stack.

Lemma scans_scalar v : wf v -> depth v = 0%nat -> scans v.
Proof.
  intros W D stack L. destruct W as [|[]|text T|raw T|l|l]; try done; try (by left).
  - right. destruct T as [_ T]. destruct (T limit stack) as (st & E & N). exists st, (rev (list_ascii_of_string text)).
    by rewrite text_of_rev.
  - left. cbn [print]. unfold quoted. rewrite scan_cons. change (step limit (BeginValue, stack) "034") with (InString false SPlain [], stack).
    rewrite scan_string by done. cbn. by rewrite text_of_rev.
Qed.

(** The rest of an array after its first elements [vs]. *)
Lemma scan_elements l : forall st v vs stack,
  Forall wf l -> Forall scans l -> has_read st v (FArr vs :: stack) ->
  (foldr max 0%nat (map depth l) + S (length stack) <= limit)%nat ->
  scan limit (foldr (fun x t => "," ++ print x ++ t) "]" l) st = (AfterValue (JArr (rev vs ++ v :: l)), stack).
Proof.
  induction l as [|x l IH]; intros st v vs stack W Sc Hr D.
  - cbn [foldr]. rewrite scan_cons, (read_then limit st v _ "]" Hr) by done. cbn. done.
  - inversion W; inversion Sc; subst. cbn [foldr]. cbn in D. rewrite scan_app, scan_cons, (read_then limit st v _ "," Hr) by done.
    change (scan limit "" (after_value v "," (FArr vs :: stack))) with (BeginValue, FArr (v :: vs) :: stack). rewrite scan_app.
    rewrite (IH _ x (v :: vs) stack); [|done|done|apply H5; cbn; lia|lia]. cbn [rev]. by rewrite <- app_assoc.
Qed.

Definition member (kv : string * value) : string := quoted kv.1 ++ ":" ++ print kv.2.

Lemma scan_member k v ms k0 stack :
  string_text k -> scans v -> (depth v + S (length stack) <= limit)%nat ->
  has_read (scan limit (member (k, v)) (BeginKey, FObj ms k0 :: stack)) v (FObj ms k :: stack).
Proof.
  intros T Sc D. unfold member, quoted. cbn [fst snd]. rewrite 2!scan_app, (scan_cons limit "034").
  change (step limit (BeginKey, FObj ms k0 :: stack) "034") with (InString true SPlain [], FObj ms k0 :: stack).
  rewrite scan_string by done. cbn [in_string]. rewrite text_of_rev.
  change (scan limit ":" (AfterKey, FObj ms k :: stack)) with (BeginValue, FObj ms k :: stack). apply Sc. done.
Qed.

Lemma scan_members l : forall st v ms k stack,
  Forall (fun kv => string_text kv.1 /\ scans kv.2) l -> has_read st v (FObj ms k :: stack) ->
  (foldr max 0%nat (map (fun kv => depth kv.2) l) + S (length stack) <= limit)%nat ->
  scan limit (foldr (fun x t => "," ++ member x ++ t) "}" l) st = (AfterValue (JObj (rev ms ++ (k, v) :: l)), stack).
Proof.
  induction l as [|[k' x] l IH]; intros st v ms k stack F Hr D.
  - cbn [foldr]. rewrite scan_cons, (read_then limit st v _ "}" Hr) by done. done.
  - inversion F as [|? ? [T Sc] Fl]; subst. cbn [foldr]. cbn in D. rewrite scan_app, scan_cons, (read_then limit st v _ "," Hr) by done.
    change (scan limit "" (after_value v "," (FObj ms k :: stack))) with (BeginKey, FObj ((k, v) :: ms) "" :: stack). rewrite scan_app.
    rewrite (IH _ x ((k, v) :: ms) k' stack); [cbn [rev]; by rewrite <- app_assoc|done|apply scan_member; cbn in *; try done; lia|lia].
Qed.

Lemma join_foldr sep close x l : join sep (x :: l) ++ close = x ++ foldr (fun y t => sep ++ y ++ t) close l.
Proof.
  revert x. induction l as [|y l IH]; intros x; [done|]. change (join sep (x :: y :: l)) with (x ++ sep ++ join sep (y :: l)).
  rewrite !app_assoc_str, IH. done.
Qed.

Lemma foldr_written {A} (f : A -> string) sep close l :
  foldr (fun y t => sep ++ y ++ t) close (map f l) = foldr (fun x t => sep ++ f x ++ t) close l.
Proof. induction l as [|x l IH]; [done|]. cbn. by rewrite IH. Qed.

Lemma push_ok m f stack : (S (length stack) <= limit)%nat -> push limit m f stack = (m, f :: stack).
Proof. intros L. unfold push. by rewrite (proj2 (Nat.ltb_ge _ _)) by (cbn; lia). Qed.

Lemma scans_arr l : Forall wf l -> Forall scans l -> scans (JArr l).
Proof.
  intros W Sc stack D. left. cbn [print depth] in *. rewrite scan_app.
  assert (scan limit "[" (BeginValue, stack) = (BeginValueOrEmpty, FArr [] :: stack)) as -> by (apply push_ok; lia).
  destruct l as [|x l]; [done|]. inversion W; inversion Sc; subst. cbn [map]. rewrite join_foldr, foldr_written.
  assert (forall t, scan limit (print x ++ t) (BeginValueOrEmpty, FArr [] :: stack) = scan limit (print x ++ t) (BeginValue, FArr [] :: stack)) as ->.
  { intros t. destruct (print_begins x) as (c & t' & -> & S & B); [done|]. change (String c t' ++ t) with (String c (t' ++ t)).
    rewrite !scan_cons. cbn [step]. by rewrite S, B. }
  rewrite scan_app. cbn in D. apply (scan_elements l _ x [] stack); [done|done|apply H5; cbn; lia|lia].
Qed.

Lemma scans_obj l : Forall (fun kv => string_text kv.1 /\ scans kv.2) l -> scans (JObj l).
Proof.
  intros F stack D. left. cbn [print depth] in *. rewrite scan_app.
  assert (scan limit "{" (BeginValue, stack) = (BeginKeyOrEmpty, FObj [] "" :: stack)) as -> by (apply push_ok; lia).
  destruct l as [|[k x] l]; [done|]. inversion F as [|? ? [T Sc] Fl]; subst. cbn [map]. rewrite join_foldr.
  rewrite (foldr_written member). fold (member (k, x)).
  assert (forall t, scan limit (member (k, x) ++ t) (BeginKeyOrEmpty, FObj [] "" :: stack)
    = scan limit (member (k, x) ++ t) (BeginKey, FObj [] "" :: stack)) as -> by done.
  rewrite scan_app. cbn in D. apply (scan_members l _ x [] k stack); [done|apply scan_member; cbn in *; try done; lia|lia].
Qed.

Lemma wf_scans : forall v, wf v -> scans v.
Proof.
  fix IH 2. intros v W. destruct W as [|b|text T|raw T|l W|l W]; try (by apply scans_scalar; [by constructor|]).
  - apply scans_arr; [done|]. revert l W. fix IHl 2. intros l W. destruct W; constructor; [by apply IH|by apply IHl].
  - apply scans_obj. revert l W. fix IHl 2. intros l W. destruct W as [|kv l [T W] F]; constructor; [split; [done|by apply IH]|by apply IHl].
Qed.

(** Every value is read back from its text. *)
Lemma parse_print v : wf v -> (depth v <= limit)%nat -> parse limit (print v) = Some v.
Proof. intros W D. apply read_finish, wf_scans; [done|cbn; lia]. Qed.

End Scan.

End json.
