(* ===== verification/Float64.v ===== *)
(** * Binary floating point

    [float64] with the IEEE 754 operations of the standard library's
    [SpecFloat], reading decimal numbers ([strconv.ParseFloat]) and rounding
    to integers ([math.Round]). *)

From Stdlib Require Import Ascii String SpecFloat.
From S2P Require Import Prelude.

Module float64.

Local Open Scope string_scope.
Local Open Scope Z_scope.

Definition float : Type := spec_float.
Definition prec : Z := 53.
Definition emax : Z := 1024.

Definition of_Z (n : Z) : float := binary_normalize prec emax n 0 false.
Definition add : float -> float -> float := SFadd prec emax.
Definition sub : float -> float -> float := SFsub prec emax.
Definition div : float -> float -> float := SFdiv prec emax.
Definition ltb : float -> float -> bool := SFltb.

(** ** Reading a number of JSON *)

(** The digits of a number, how many of them follow the point, and the rest. *)
Fixpoint read_digits (point : bool) (m k : Z) (s : string) : Z * Z * string :=
  match s with
  | String c s' =>
    if is_digit c then read_digits point (m * 10 + digit_val c) (if point then k + 1 else k) s'
    else if Ascii.eqb c "." && negb point then read_digits true m k s'
    else (m, k, s)
  | EmptyString => (m, k, s)
  end.

Definition read_exponent (s : string) : option Z :=
  match s with
  | EmptyString => Some 0
  | String c s' =>
    if Ascii.eqb c "e" || Ascii.eqb c "E" then
      match s' with
      | String "-" t => Z.opp <$> digits_val 0 t
      | String "+" t => digits_val 0 t
      | _ => digits_val 0 s'
      end
    else None
  end.

(** Decimal digits of a positive number, at most. *)
Definition size10 (m : Z) : Z := (Z.log2 m + 1) * 30103 / 100000 + 1.

(** [neg] times [m] times ten to the [e], correctly rounded. Exponents far out
    of range give zero or an infinity without computing the power. *)
Definition of_decimal (neg : bool) (m e : Z) : float :=
  if m <=? 0 then S754_zero neg
  else if 330 <? e + size10 m - 1 then S754_infinity neg
  else if e + size10 m <? -330 then S754_zero neg
  else if 0 <=? e then binary_round prec emax neg (Z.to_pos (m * 10 ^ e)) 0
  else
    let '(q, e', loc) := SFdiv_core_binary prec emax m 0 (10 ^ (- e)) 0 in
    binary_round_aux prec emax neg q e' loc.

(** [strconv.ParseFloat(text, 64)] of a JSON number; an overflow is an error. *)
Definition parse_float (text : string) : option float :=
  let '(neg, t) := match text with String "-" t => (true, t) | _ => (false, text) end in
  let '(m, k, rest) := read_digits false 0 0 t in
  e ← read_exponent rest;
  match of_decimal neg m (e - k) with
  | S754_infinity _ | S754_nan => None
  | f => Some f
  end.

(** [math.Round] of a finite number, as an integer: halves away from zero. *)
Definition round_Z (f : float) : Z :=
  match f with
  | S754_finite neg m e =>
    let r := if 0 <=? e then Zpos m * 2 ^ e else (Zpos m * 2 + 2 ^ (- e)) / 2 ^ (1 - e) in
    if neg then - r else r
  | _ => 0
  end.

Definition is_finite (f : float) : bool :=
  match f with S754_finite _ _ _ | S754_zero _ => true | _ => false end.

Example parse_float_examples :
  map (fun s => round_Z <$> parse_float s) ["10"; "-2.5"; "0.49999999999999999"; "1e2"; "123456.789e-3"; "1e400"; "1e-400"; "9007199254740993"]
  = [Some 10; Some (-3); Some 1; Some 100; Some 123; None; Some 0; Some 9007199254740992].
Proof. vm_compute. reflexivity. Qed.

End float64.
