(* ===== verification/Screen.v ===== *)
(** * Remote screen sessions

    Package screen: frame.go (operator frames, parsed strictly and encoded
    anew), policy.go (what passes between a viewer and an agent), audit.go (the
    record of an agent's input) and screen.go. *)

From Stdlib Require Import Ascii String SpecFloat.
From stdpp Require Import gmap.
From S2P Require Import Prelude Utf8 Json Float64 Terminal TerminalRelay Canonical.

Module screen.
Import utf8 json float64 terminal relay.

Local Open Scope string_scope.
Local Open Scope Z_scope.

(** ** Frames ([frame.go]) *)

Inductive frame_error : Type := errFrame | errForbiddenType.

Notation parsed := (result frame_error).

Definition opAck : string := "ack".
Definition opInput : string := "input".
Definition opSetMonitor : string := "set_monitor".
Definition opQuality : string := "quality".
Definition opClose : string := "close".

Record wireButtons : Type := mkButtons { b_L : bool; b_R : bool; b_M : bool }.

Record wireInput : Type := mkInput {
  wi_Type : string;
  wi_Ev : string;
  wi_X : option Z;
  wi_Y : option Z;
  wi_Buttons : option wireButtons;
  wi_Monitor : option Z;
  wi_DX : option Z;
  wi_DY : option Z;
  wi_Code : option Z;
  wi_Down : option bool;
  wi_Ext : option bool;
  wi_Ch : option string;
}.

Record opFrame : Type := mkOpFrame {
  of_Type : string;
  of_Input : option wireInput;
  of_AckMonitor : Z;
  of_AckFrame : Z;
  of_Monitor : Z;
  of_FPS : option float;
  of_JPEGQ : option float;
}.

#[export] Instance eta_opFrame : Eta opFrame :=
  fun x => mkOpFrame (of_Type x) (of_Input x) (of_AckMonitor x) (of_AckFrame x) (of_Monitor x) (of_FPS x) (of_JPEGQ x).

Notation members := (gmap string value).

(** The exact member set of each input event kind. *)
Definition inputKeys (ev : string) : option (list string) :=
  if String.eqb ev "mouse" then Some ["type"; "ev"; "x"; "y"; "buttons"; "monitor"]
  else if String.eqb ev "wheel" then Some ["type"; "ev"; "dx"; "dy"; "monitor"]
  else if String.eqb ev "key" then Some ["type"; "ev"; "code"; "down"; "ext"]
  else if String.eqb ev "text" then Some ["type"; "ev"; "ch"]
  else if String.eqb ev "sas" then Some ["type"; "ev"]
  else None.

Definition frameKeys (typ : string) : list string :=
  if String.eqb typ opAck then ["type"; "monitor"; "frame"]
  else if String.eqb typ opSetMonitor then ["type"; "monitor"]
  else if String.eqb typ opQuality then ["type"; "fps"; "jpeg_q"]
  else if String.eqb typ opClose then ["type"]
  else [].

(** The members of an object, refusing a repeated key. *)
Fixpoint collect (l : list (string * value)) (out : members) : parsed members :=
  match l with
  | [] => Ok out
  | (raw, v) :: l =>
    let k := unquote raw in
    match out !! k with
    | Some _ => Err errFrame
    | None => collect l (<[k := v]> out)
    end
  end.

(** [strictObject] of a text, and of the text of a value already scanned. *)
Definition strict_value (v : value) : parsed members := match v with JObj l => collect l ∅ | _ => Err errFrame end.

Definition Valid (s : string) : bool := String.eqb (string_of_runes (range_runes s)) s.

(** The outer object does not count towards the depth of its values. *)
Definition strictObject (data : string) : parsed members :=
  if negb (Valid data) then Err errFrame else
  match parse (S maxNestingDepth) data with
  | Some v => strict_value v
  | None => Err errFrame
  end.

Definition onlyKeys (m : members) (allowed : list string) : parsed unit :=
  guard_err (forallb (fun kv => existsb (String.eqb kv.1) allowed) (map_to_list m)) errFrame.

Definition jsonInt (v : value) (lo hi : Z) : parsed Z :=
  match v with
  | JNum text => match parse_int text with Some n => if (n <? lo) || (hi <? n) then Err errFrame else Ok n | None => Err errFrame end
  | _ => Err errFrame
  end.

(** An optional member. *)
Definition opt {A} (read : value -> parsed A) (m : members) (k : string) : parsed (option A) :=
  match m !! k with None => Ok None | Some v => x ← read v; Ok (Some x) end.

Definition optInt : members -> string -> parsed (option Z) := opt (fun v => jsonInt v min_int64 max_int64).

Definition jsonBool (v : value) : parsed bool := match v with JBool b => Ok b | _ => Err errFrame end.

Definition optBool : members -> string -> parsed (option bool) := opt jsonBool.

Definition jsonString (v : value) : parsed string := match v with JStr raw => Ok (unquote raw) | _ => Err errFrame end.

Definition jsonNumber (v : value) : parsed float :=
  match v with
  | JNum text => match parse_float text with Some f => Ok f | None => Err errFrame end
  | _ => Err errFrame
  end.

Definition required {A} (o : option A) : parsed A := match o with Some x => Ok x | None => Err errFrame end.

Definition parseButtons (v : value) : parsed wireButtons :=
  bm ← strict_value v;
  _ ← onlyKeys bm ["l"; "r"; "m"];
  l ← optBool bm "l"; r ← optBool bm "r"; m ← optBool bm "m";
  Ok (mkButtons (default false l) (default false r) (default false m)).

Definition parseInput (m : members) : parsed wireInput :=
  rawEv ← required (m !! "ev");
  ev ← jsonString rawEv;
  allowed ← required (inputKeys ev);
  _ ← onlyKeys m allowed;
  x ← optInt m "x"; y ← optInt m "y"; monitor ← optInt m "monitor"; dx ← optInt m "dx"; dy ← optInt m "dy"; code ← optInt m "code";
  down ← optBool m "down"; ext ← optBool m "ext";
  ch ← opt jsonString m "ch";
  buttons ← opt parseButtons m "buttons";
  Ok (mkInput opInput ev x y buttons monitor dx dy code down ext ch).

Definition max_uint32 : Z := 2 ^ 32 - 1.

Definition parseOperatorFrame (data : string) : parsed opFrame :=
  m ← strictObject data;
  rawType ← required (m !! "type");
  typ ← jsonString rawType;
  let f := mkOpFrame typ None 0 0 0 None None in
  if String.eqb typ opInput then
    input ← parseInput m; Ok (f <| of_Input := Some input |>)
  else if negb (String.eqb typ opAck || String.eqb typ opSetMonitor || String.eqb typ opQuality || String.eqb typ opClose)
  then Err errForbiddenType else
  _ ← onlyKeys m (frameKeys typ);
  if String.eqb typ opAck then
    raw ← required (m !! "frame");
    frame ← jsonInt raw 0 max_int64;
    monitor ← opt (fun v => jsonInt v 0 max_uint32) m "monitor";
    Ok (f <| of_AckFrame := frame |> <| of_AckMonitor := default 0 monitor |>)
  else if String.eqb typ opSetMonitor then
    raw ← required (m !! "monitor");
    monitor ← jsonInt raw 0 max_uint32;
    Ok (f <| of_Monitor := monitor |>)
  else if String.eqb typ opQuality then
    fps ← opt jsonNumber m "fps";
    jpeg_q ← opt jsonNumber m "jpeg_q";
    Ok (f <| of_FPS := fps |> <| of_JPEGQ := jpeg_q |>)
  else Ok f.

(** ** The canonical encoding *)

Definition MaxFPS : Z := 10.
Definition DefaultJPEGQuality : Z := 60.
Definition MinJPEGQuality : Z := 30.
Definition MaxJPEGQuality : Z := 85.

(** What [int] makes of a number no [int64] holds; Go leaves it open. *)
Class IntOverflow := int_overflow : float -> Z.

Section Policy.
Context `{O : IntOverflow}.

Definition int_of_float (f : float) : Z :=
  let n := round_Z f in if in_range min_int64 max_int64 n then n else int_overflow f.

Definition clampInt (v : option float) (lo hi def : Z) : Z :=
  match v with
  | None => def
  | Some f =>
    if negb (is_finite f) then def else
    let n := int_of_float f in
    if n <? lo then lo else if hi <? n then hi else n
  end.

(** A member left out when its pointer is nil. *)
Definition omitempty {A} (k : string) (f : A -> value) (o : option A) : list (string * value) :=
  match o with Some x => [(k, f x)] | None => [] end.

Definition encodeButtons (b : wireButtons) : value := JObj [("l", JBool (b_L b)); ("r", JBool (b_R b)); ("m", JBool (b_M b))].

Definition input_members (i : wireInput) : list (string * value) :=
  [("type", str (wi_Type i)); ("ev", str (wi_Ev i))]
  ++ omitempty "x" num (wi_X i) ++ omitempty "y" num (wi_Y i) ++ omitempty "buttons" encodeButtons (wi_Buttons i)
  ++ omitempty "monitor" num (wi_Monitor i) ++ omitempty "dx" num (wi_DX i) ++ omitempty "dy" num (wi_DY i)
  ++ omitempty "code" num (wi_Code i) ++ omitempty "down" JBool (wi_Down i) ++ omitempty "ext" JBool (wi_Ext i)
  ++ omitempty "ch" str (wi_Ch i).

Definition encode_value (f : opFrame) : option value :=
  if String.eqb (of_Type f) opInput then Some match of_Input f with Some i => JObj (input_members i) | None => JNull end
  else if String.eqb (of_Type f) opAck
  then Some (JObj [("type", str opAck); ("monitor", num (of_AckMonitor f)); ("frame", num (of_AckFrame f))])
  else if String.eqb (of_Type f) opSetMonitor then Some (JObj [("type", str opSetMonitor); ("monitor", num (of_Monitor f))])
  else if String.eqb (of_Type f) opQuality
  then Some (JObj [("type", str opQuality); ("fps", num (clampInt (of_FPS f) 1 MaxFPS MaxFPS));
         ("jpeg_q", num (clampInt (of_JPEGQ f) MinJPEGQuality MaxJPEGQuality DefaultJPEGQuality))])
  else if String.eqb (of_Type f) opClose then Some (JObj [("type", str opClose)])
  else None.

(** The only bytes the hub sends on to the agent. *)
Definition encode (f : opFrame) : option string := print <$> encode_value f.

(** ** What the hub reads of an agent's frames *)

Record controlFrame : Type := mkControl { cf_Type : string; cf_Reason : string }.

Definition control_field (k : string) (v : value) (f : controlFrame) : option controlFrame :=
  if String.eqb k "type" then t ← string_field v (cf_Type f); Some (mkControl t (cf_Reason f))
  else if String.eqb k "reason" then r ← string_field v (cf_Reason f); Some (mkControl (cf_Type f) r)
  else Some f.

(** The monitor and the frame of a [frame_end]. *)
Definition frame_end_field (k : string) (v : value) (f : Z * Z) : option (Z * Z) :=
  if String.eqb k "monitor" then n ← int64_field v f.1; Some (n, f.2)
  else if String.eqb k "frame" then n ← int64_field v f.2; Some (f.1, n)
  else Some f.

(** The raw monitors and active members. *)
Definition hello_field (k : string) (v : value) (f : option value * option value) : option (option value * option value) :=
  if String.eqb k "monitors" then Some (Some v, f.2)
  else if String.eqb k "active" then Some (f.1, Some v)
  else Some f.

(** ** The policy ([policy.go]) *)

Definition agHello : string := "hello".
Definition agDesktop : string := "desktop".
Definition agFrameEnd : string := "frame_end".
Definition agCursorPos : string := "cursor_pos".
Definition agResized : string := "resized".
Definition agSASUnavailable : string := "sas_unavailable".
Definition agBye : string := "bye".

Record policy : Type := mkPolicy {
  p_sessionID : string;
  p_control : bool;
  p_hello : option string;
  p_desktop : option string;
  p_lastMonitor : Z;
  p_lastFrame : Z;
  p_haveFrame : bool;
  p_buttons : gmap string bool;
}.

#[export] Instance eta_policy : Eta policy :=
  fun x => mkPolicy (p_sessionID x) (p_control x) (p_hello x) (p_desktop x) (p_lastMonitor x) (p_lastFrame x) (p_haveFrame x) (p_buttons x).

Definition ProgramPrefix : string := "screen:".
Definition ScreenModeControl : string := "control".
Definition ScreenModeView : string := "view".

Definition ValidMode (m : string) : bool := String.eqb m ScreenModeControl || String.eqb m ScreenModeView.

Definition Program (mode : string) : string := ProgramPrefix ++ mode.

Definition IsScreen (program : string) : bool := HasPrefix program ProgramPrefix.

Definition ModeOf (program : string) : string * bool :=
  if negb (HasPrefix program ProgramPrefix) then ("", false)
  else let m := TrimPrefix program ProgramPrefix in (m, ValidMode m).

Definition newPolicy (program sessionID : string) : policy :=
  let '(mode, _) := ModeOf program in
  mkPolicy sessionID (String.eqb mode ScreenModeControl) None None 0 0 false ∅.

Definition drop_frame : FrameDecision := mkDecision FrameDrop "" None false.
Definition pass : FrameDecision := mkDecision FrameForward "" None false.

Definition Watcher (typ : Z) (data : string) : FrameDecision :=
  if negb (typ =? TextMessage) then closes "forbidden_watcher_frame_type" else
  match parseOperatorFrame data with
  | Err errForbiddenType => closes "forbidden_watcher_frame_type"
  | Err errFrame => closes "malformed_watcher_frame"
  | Ok f =>
    if String.eqb (of_Type f) opAck then mkDecision FrameForward "" (encode f) false
    else if String.eqb (of_Type f) opClose then closes "watcher_left"
    else drop_frame
  end.

(** [<], [>], [&] and the line separators, wherever they are. *)
Fixpoint html_escape (s : string) : string :=
  match s with
  | "" => ""
  | String a rest =>
    let plain := String a (html_escape rest) in
    if Ascii.eqb a "<" || Ascii.eqb a ">" || Ascii.eqb a "&" then string_of_list_ascii (u00 a) ++ html_escape rest else
    match rest with
    | String b (String c rest') =>
      if byte_in 226 226 a && byte_in 128 128 b && byte_in 168 169 c
      then "\u202" ++ String (hex_low (byte_val c - 160)) (html_escape rest') else plain
    | _ => plain
    end
  end.

Definition remember (typ data : string) (p : policy) : policy :=
  if String.eqb typ agDesktop then p <| p_desktop := Some data |> else
  match unmarshal hello_field (None, None) data with
  | Some (Some monitors, active) =>
    let active := match active with Some v => v | None => JNum "0" end in
    let raw v := html_escape (print v) in
    let q := String "034" "" in
    p <| p_hello := Some ("{" ++ q ++ "type" ++ q ++ ":" ++ q ++ agHello ++ q ++ "," ++ q ++ "monitors" ++ q ++ ":" ++ raw monitors
                          ++ "," ++ q ++ "active" ++ q ++ ":" ++ raw active ++ "}") |>
  | _ => p
  end.

Definition reason_byte (r : rune) : bool :=
  match r with
  | [c] => is_digit c || in_range 97 122 (byte_val c) || in_range 65 90 (byte_val c) || existsb (Ascii.eqb c) [" "; "_"; "-"; "."]%char
  | _ => false
  end.

Definition cleanReason (s : string) : string :=
  TrimSpace (string_of_runes (take 64 (filter (fun r => reason_byte r = true) (range_runes s)))).

Definition Agent (typ : Z) (data : string) (p : policy) : policy * FrameDecision :=
  if typ =? BinaryMessage then (p, pass)
  else if negb (typ =? TextMessage) then (p, closes "forbidden_agent_frame_type") else
  match unmarshal control_field (mkControl "" "") data with
  | None => (p, closes "malformed_agent_frame")
  | Some f =>
    let t := cf_Type f in
    if String.eqb t agHello || String.eqb t agResized || String.eqb t agDesktop then (remember t data p, pass)
    else if String.eqb t agFrameEnd then
      (match unmarshal frame_end_field (0, 0) data with
       | Some (monitor, frame) =>
         if (0 <=? frame) && (0 <=? monitor)
         then p <| p_lastMonitor := monitor |> <| p_lastFrame := frame |> <| p_haveFrame := true |> else p
       | None => p
       end, pass)
    else if String.eqb t agCursorPos || String.eqb t agSASUnavailable then (p, pass)
    else if String.eqb t agBye then
      let r := cleanReason (cf_Reason f) in
      (p, closes (if String.eqb r "" then "agent_bye" else "agent_bye: " ++ r))
    else (p, closes "forbidden_agent_frame_type")
  end.

Definition Replay (p : policy) : list string :=
  match p_hello p with Some h => [h] | None => [] end ++ match p_desktop p with Some d => [d] | None => [] end.

Definition maxUnacked : nat := 2.

Definition ResumeMessages (p : policy) : list string :=
  if negb (p_haveFrame p) then []
  else repeat (print (JObj [("type", str opAck); ("monitor", num (p_lastMonitor p)); ("frame", num (p_lastFrame p))])) maxUnacked.

(** ** The audit of an agent's input ([audit.go])

    The auditors ever made, by number; which one a session has; and the lines
    written, with the auditor that wrote them. *)

Definition auditBurst : Z := 30.
Definition auditRefill : Z := 5 * Second.

Record inputAuditor : Type := mkAuditor { ia_tokens : float; ia_last : Z; ia_held : Z; ia_heldMove : Z; ia_heldKey : Z }.

#[export] Instance eta_inputAuditor : Eta inputAuditor :=
  fun x => mkAuditor (ia_tokens x) (ia_last x) (ia_held x) (ia_heldMove x) (ia_heldKey x).

Record counts : Type := mkCounts { n_held : Z; n_moves : Z; n_keys : Z }.

Inductive line : Type :=
| Noted (what : string) (c : option counts)
| Flushed (c : counts).

Definition counts_text (c : counts) : string :=
  format_int (n_held c) ++ " more inputs not logged one by one, " ++ format_int (n_moves c) ++ " mouse moves, "
  ++ format_int (n_keys c) ++ " key events".

Definition render (l : line) : string :=
  match l with
  | Noted what None => "Agent screen input: " ++ what
  | Noted what (Some c) => "Agent screen input: " ++ what ++ " (since the last line: " ++ counts_text c ++ ")"
  | Flushed c => "Agent screen input: " ++ counts_text c ++ " since the last line"
  end.

Record audit : Type := mkAudit {
  au_heap : gmap nat inputAuditor;
  au_current : gmap string nat;
  au_lines : list (nat * line);
}.

#[export] Instance eta_audit : Eta audit := fun x => mkAudit (au_heap x) (au_current x) (au_lines x).

(** [countsLocked], when anything is held. *)
Definition takeCounts (a : inputAuditor) : option counts * inputAuditor :=
  if (ia_held a =? 0) && (ia_heldMove a =? 0) && (ia_heldKey a =? 0) then (None, a)
  else (Some (mkCounts (ia_held a) (ia_heldMove a) (ia_heldKey a)), a <| ia_held := 0 |> <| ia_heldMove := 0 |> <| ia_heldKey := 0 |>).

(** A last line for what an auditor holds. *)
Definition flush (i : nat) (au : audit) : audit :=
  match au_heap au !! i with
  | None => au
  | Some a =>
    match takeCounts a with
    | (Some c, a) => au <| au_heap ::= insert i a |> <| au_lines ::= fun l => (l ++ [(i, Flushed c)])%list |>
    | (None, _) => au
    end
  end.

(** [i] is the new auditor. *)
Definition SetInputAudit (i : nat) (sessionID : string) (now : Z) (au : audit) : audit :=
  let prev := au_current au !! sessionID in
  let au := au <| au_heap ::= insert i (mkAuditor (of_Z auditBurst) now 0 0 0) |> <| au_current ::= insert sessionID i |> in
  match prev with Some p => flush p au | None => au end.

(** The function [SetInputAudit] returned. *)
Definition clear (i : nat) (sessionID : string) (au : audit) : audit :=
  let au := if bool_decide (au_current au !! sessionID = Some i) then au <| au_current ::= delete sessionID |> else au in
  flush i au.

Inductive count_kind : Type := countMove | countKey.

Definition count (kind : count_kind) (a : inputAuditor) : inputAuditor :=
  match kind with countKey => a <| ia_heldKey ::= Z.add 1 |> | countMove => a <| ia_heldMove ::= Z.add 1 |> end.

(** [Duration.Seconds]. *)
Definition Seconds (d : Z) : float := add (of_Z (Z.quot d Second)) (div (of_Z (Z.rem d Second)) (of_Z Second)).

Definition note (what : string) (now : Z) (a : inputAuditor) : inputAuditor * option line :=
  let tokens := add (ia_tokens a) (div (Seconds (now - ia_last a)) (Seconds auditRefill)) in
  let tokens := if ltb (of_Z auditBurst) tokens then of_Z auditBurst else tokens in
  let a := a <| ia_last := now |> in
  if ltb tokens (of_Z 1) then (a <| ia_tokens := tokens |> <| ia_held ::= Z.add 1 |>, None)
  else
    let '(c, a) := takeCounts (a <| ia_tokens := sub tokens (of_Z 1) |>) in
    (a, Some (Noted what c)).

Definition at_text (f : wireInput) : string :=
  let monitor := format_int (default 0 (wi_Monitor f)) in
  match wi_X f, wi_Y f with
  | Some x, Some y => "at " ++ format_int x ++ "," ++ format_int y ++ " on monitor " ++ monitor ++ " (0..65535)"
  | _, _ => "on monitor " ++ monitor
  end.

(** The buttons that changed, and the state they have now. *)
Definition button_changes (b : wireButtons) (old : gmap string bool) : list string * gmap string bool :=
  fold_left (fun acc kv =>
    let '(k, name, now) := kv in
    if Bool.eqb now (default false (acc.2 !! k)) then acc
    else (app acc.1 [name ++ " button " ++ (if now : bool then "down" else "up")], <[k := now]> acc.2))
    [("l", "left", b_L b); ("r", "right", b_R b); ("m", "middle", b_M b)] ([], old).

(** What becomes of one input: counted, or noted. *)
Inductive described : Type := Counted (k : count_kind) | Described (what : string).

Definition describe (f : wireInput) (buttons : gmap string bool) : described * gmap string bool :=
  if String.eqb (wi_Ev f) "mouse" then
    let '(changes, buttons) := button_changes (default (mkButtons false false false) (wi_Buttons f)) buttons in
    (match changes with [] => Counted countMove | _ => Described ("mouse " ++ join ", " changes ++ " " ++ at_text f) end, buttons)
  else if String.eqb (wi_Ev f) "wheel" then
    (Described ("wheel dx=" ++ format_int (default 0 (wi_DX f)) ++ " dy=" ++ format_int (default 0 (wi_DY f)) ++ " " ++ at_text f), buttons)
  else if String.eqb (wi_Ev f) "key" then (Counted countKey, buttons)
  else if String.eqb (wi_Ev f) "text" then
    (Described ("typed text, " ++ format_int (match wi_Ch f with Some ch => Z.of_nat (length (range_runes ch)) | None => 0 end)
                ++ " characters"), buttons)
  else if String.eqb (wi_Ev f) "sas" then (Described "Ctrl+Alt+Del (secure attention) requested", buttons)
  else (Described "input of an unknown kind", buttons).

(** The rest of [auditInput], on the auditor it looked up: another call may
    come between, so the auditor need not be the session's any more. *)
Definition audit_one (i : nat) (f : wireInput) (now : Z) (p : policy) (au : audit) : policy * audit :=
  match au_heap au !! i with
  | None => (p, au)
  | Some a =>
    let '(d, buttons) := describe f (p_buttons p) in
    let p := p <| p_buttons := buttons |> in
    match d with
    | Counted k => (p, au <| au_heap ::= insert i (count k a) |>)
    | Described what =>
      let '(a, l) := note what now a in
      (p, au <| au_heap ::= insert i a |> <| au_lines ::= fun ls => (ls ++ match l with Some l => [(i, l)] | None => [] end)%list |>)
    end
  end.

Definition auditInput (f : wireInput) (now : Z) (p : policy) (au : audit) : policy * audit :=
  match au_current au !! p_sessionID p with
  | None => (p, au)
  | Some i => audit_one i f now p au
  end.

Definition Operator (typ : Z) (data : string) (now : Z) (p : policy) (au : audit) : policy * audit * FrameDecision :=
  if negb (typ =? TextMessage) then (p, au, closes "forbidden_operator_frame_type") else
  match parseOperatorFrame data with
  | Err errForbiddenType => (p, au, closes "forbidden_operator_frame_type")
  | Err errFrame => (p, au, closes "malformed_operator_frame")
  | Ok f =>
    if String.eqb (of_Type f) opAck then (p, au, mkDecision FrameForward "" (encode f) false)
    else if String.eqb (of_Type f) opInput then
      if negb (p_control p) then (p, au, drop_frame) else
      let '(p, au) := match of_Input f with Some i => auditInput i now p au | None => (p, au) end in
      (p, au, mkDecision FrameForward "" (encode f) true)
    else if String.eqb (of_Type f) opSetMonitor || String.eqb (of_Type f) opQuality
    then (p, au, mkDecision FrameForward "" (encode f) true)
    else if String.eqb (of_Type f) opClose then (p, au, closes "operator_requested_close")
    else (p, au, closes "forbidden_operator_frame_type")
  end.

(** ** The session kind ([screen.go]) *)

Definition pauseMessage : string := print (JObj [("type", str "pause")]).
Definition resumeMessage : string := print (JObj [("type", str "resume")]).

Definition screen_kind : SessionKind := mkKind ProgramPrefix "screen" 3 1 true true pauseMessage resumeMessage.

(** The policy of a session with the audit it writes to; [sc_tick] counts its
    messages. *)
Record Screen : Type := mkScreen { sc_policy : policy; sc_audit : audit; sc_tick : nat }.

Definition no_audit : audit := mkAudit ∅ ∅ [].

(** The kind's policy as the relay uses it; message [n] comes at [clock n]. *)
Definition screen_policy (clock : nat -> Z) : FramePolicy Screen := {|
  NewPolicy k program sessionID := mkScreen (newPolicy program sessionID) no_audit 0;
  pol_Operator x typ data :=
    let '(p, au, d) := Operator typ data (clock (sc_tick x)) (sc_policy x) (sc_audit x) in (mkScreen p au (S (sc_tick x)), d);
  pol_Agent x typ data := let '(p, d) := Agent typ data (sc_policy x) in (mkScreen p (sc_audit x) (sc_tick x), d);
  pol_Watcher x := Some (fun typ data => (x, Watcher typ data));
  pol_ResumeMessages x := ResumeMessages (sc_policy x);
|}.

Section Create.
Context {P E : Type} `{!EvidenceStore E}.
Context (HashToken : string -> string) (marshal_grant : canonical.EndpointGrant -> result string string).

Definition CreateSession (tenantID endpointID operatorID mode : string) (grant : option canonical.EndpointGrant) (d : Z)
    (u1 u2 u3 : string) (now : Z) (m : Manager P canonical.EndpointGrant E)
    : Manager P canonical.EndpointGrant E * result string (TerminalSession P canonical.EndpointGrant) :=
  if negb (ValidMode mode) then (m, Err ("screen mode must be " ++ print (str "control") ++ " or " ++ print (str "view"))) else
  match grant with
  | Some g =>
    if String.eqb (canonical.ActionKind g) canonical.ActionKindScreenSession && String.eqb (canonical.EndpointID g) endpointID
    then createSession HashToken marshal_grant "" "" tenantID endpointID operatorID (Program mode) grant d u1 u2 u3 now m
    else (m, Err "a screen session needs a screen_session grant for this endpoint")
  | None => (m, Err "a screen session needs a screen_session grant for this endpoint")
  end.

End Create.

End Policy.

End screen.
