(* ===== verification/ScreenProps.v ===== *)
(** * What the screen policy guarantees

    Operator frames reach the agent only in their canonical encoding, which
    reads back as the same frame; a session that only watches never sends
    input; and every audited input is accounted for. *)

From Stdlib Require Import Ascii String SpecFloat.
From stdpp Require Import gmap.
From S2P Require Import Prelude Utf8 Json Float64 Terminal TerminalRelay Canonical Screen.

Import utf8 json float64 terminal relay screen.

Local Open Scope string_scope.
Local Open Scope Z_scope.

(** ** Objects with optional members *)

Definition slot : Type := string * option value.

Definition present (l : list slot) : list (string * value) := omap (fun kv => v ← kv.2; Some (kv.1, v)) l.

Lemma present_cons k o l : present ((k, o) :: l) = (match o with Some v => [(k, v)] | None => [] end ++ present l)%list.
Proof. by destruct o. Qed.

Lemma present_app l l' : present (l ++ l') = (present l ++ present l')%list.
Proof. apply omap_app. Qed.

Lemma omitempty_present {A} k (f : A -> value) o : omitempty k f o = present [(k, f <$> o)].
Proof. by destruct o. Qed.

(** Keys written as they are. *)
Definition plain_key (k : string) : bool := String.eqb (quote_body k) k && string_forallb valid1 k.

Lemma plain_key_facts k : plain_key k = true -> unquote k = k /\ string_text k /\ valid_utf8 k.
Proof.
  intros [E%String.eqb_eq V%valid_ascii]%andb_prop. split; [|split; [rewrite <- E; apply quote_text|done]].
  rewrite <- E at 1. by apply unquote_quote.
Qed.

(** Values of a frame. *)
Record frame_value (v : value) : Prop := { fv_wf : wf v; fv_utf8 : utf8_value v; fv_depth : (depth v <= 1)%nat }.

Lemma frame_num n : frame_value (num n).
Proof. split; [apply wf_num, int_text|apply uv_num, int_valid|cbn; lia]. Qed.

Lemma frame_str s : frame_value (str s).
Proof. split; [apply wf_str, quote_text|apply uv_str, quote_valid|cbn; lia]. Qed.

Lemma frame_bool b : frame_value (JBool b).
Proof. split; [constructor..|cbn; lia]. Qed.

Definition slot_ok (s : slot) : Prop := plain_key s.1 = true /\ forall v, s.2 = Some v -> frame_value v.

Lemma present_elem l k v : (k, v) ∈ present l <-> (k, Some v) ∈ l.
Proof.
  unfold present. rewrite list_elem_of_omap. split.
  - intros ([k' [x|]] & I & E); [|done]. by injection E as <- <-.
  - intros I. by exists (k, Some v).
Qed.

Lemma present_keys l k : k ∈ (present l).*1 -> k ∈ l.*1.
Proof.
  intros ([k' v] & -> & I)%list_elem_of_fmap. apply present_elem in I. by apply (list_elem_of_fmap_2 fst) in I.
Qed.

Lemma present_nodup l : NoDup l.*1 -> NoDup (present l).*1.
Proof.
  induction l as [|[k o] l IH]; intros N; [constructor|]. inversion N as [|? ? Nk Nl]; subst. rewrite present_cons.
  destruct o as [v|]; [|by apply IH]. cbn. constructor; [|by apply IH]. intros I. by apply Nk, present_keys.
Qed.

Lemma slots_object l : Forall slot_ok l -> wf (JObj (present l)) /\ utf8_value (JObj (present l)) /\ (depth (JObj (present l)) <= 2)%nat.
Proof.
  intros F. assert (G : Forall (fun kv => plain_key kv.1 = true /\ frame_value kv.2) (present l)).
  { apply Forall_forall. intros [k v] I. apply present_elem in I. rewrite Forall_forall in F. destruct (F _ I) as [P V]. split; [done|by apply V]. }
  split; [|split].
  - apply wf_obj. eapply Forall_impl; [exact G|]. intros kv [(_ & T & _)%plain_key_facts [W _ _]]. done.
  - apply uv_obj. eapply Forall_impl; [exact G|]. intros kv [(_ & _ & V)%plain_key_facts [_ U _]]. done.
  - cbn. apply le_n_S. induction G as [|kv r [_ [_ _ D]] G IH]; cbn; lia.
Qed.

Lemma collect_map l : forall m : members,
  Forall (fun kv => unquote kv.1 = kv.1) l -> NoDup l.*1 -> (forall k, k ∈ l.*1 -> m !! k = None) ->
  exists m', collect l m = Ok m' /\ forall k v, m' !! k = Some v <-> m !! k = Some v \/ (k, v) ∈ l.
Proof.
  induction l as [|[k v] l IH]; intros m U N D.
  - exists m. split; [done|]. intros k v. split; [by left|]. intros [H|H]; [done|]. by apply not_elem_of_nil in H.
  - inversion U as [|? ? Uk Ul]; inversion N as [|? ? Nk Nl]; subst. cbn [collect fst] in *. rewrite Uk, D by (cbn; by left).
    destruct (IH (<[k := v]> m)) as (m' & E & H); [done|done| |].
    { intros k' I. rewrite lookup_insert_ne; [apply D; cbn; by right|]. intros ->. done. }
    exists m'. split; [done|]. intros k' v'. rewrite H, elem_of_cons, lookup_insert_Some. split.
    + intros [[[-> ->]|[_ ?]]|?]; auto.
    + intros [H'|[[= -> ->]|?]]; auto. left. right. split; [|done]. intros ->. by rewrite D in H' by (cbn; by left).
Qed.

(** An object written from its slots is read as those slots. *)
Lemma read_slots l :
  Forall slot_ok l -> NoDup l.*1 ->
  exists m, strictObject (print (JObj (present l))) = Ok m /\ (forall k o, (k, o) ∈ l -> m !! k = o)
    /\ forall k v, m !! k = Some v -> k ∈ l.*1 /\ (k, Some v) ∈ l.
Proof.
  intros F N. destruct (slots_object l F) as (W & U & D). apply print_valid in U as (rs & V & E).
  destruct (collect_map (present l) ∅) as (m & C & H).
  { apply Forall_forall. intros [k v] I. apply present_elem in I. rewrite Forall_forall in F.
    destruct (F _ I) as [(Q & _)%plain_key_facts _]. done. }
  { by apply present_nodup. }
  { done. }
  exists m. split; [|split].
  - unfold strictObject, Valid. rewrite E at 1 2. rewrite range_of_runes by done. rewrite String.eqb_refl. cbn [negb].
    rewrite parse_print; [done|done|]. unfold maxNestingDepth. lia.
  - intros k o I. destruct o as [v|]; [apply H; right; by apply present_elem|]. destruct (m !! k) as [v|] eqn:Ek; [|done].
    apply H in Ek as [Ek|Ek]; [by rewrite lookup_empty in Ek|]. apply present_elem in Ek.
    exfalso. revert N I Ek. clear. induction l as [|[k' o] l IH]; intros N I Ek; [by apply not_elem_of_nil in I|].
    inversion N as [|? ? Nk Nl]; subst. apply elem_of_cons in I as [I|I]; apply elem_of_cons in Ek as [Ek|Ek]; simplify_eq/=.
    + apply (list_elem_of_fmap_2 fst) in Ek. done.
    + apply (list_elem_of_fmap_2 fst) in I. done.
    + by apply IH.
  - intros k v Ek. apply H in Ek as [Ek|Ek]; [by rewrite lookup_empty in Ek|]. apply present_elem in Ek. split; [|done].
    by apply (list_elem_of_fmap_2 fst) in Ek.
Qed.

(** ** What a parse yields *)

Lemma opt_Ok {A} (read : value -> parsed A) m k o :
  opt read m k = Ok o -> match o with None => m !! k = None | Some x => exists v, m !! k = Some v /\ read v = Ok x end.
Proof.
  unfold opt. destruct (m !! k) as [v|]; [|by intros [= <-]]. intros (x & E & [= <-])%result_bind_Ok. by exists v.
Qed.

Lemma opt_there {A} (read : value -> parsed A) m k x : opt read m k = Ok (Some x) -> is_Some (m !! k).
Proof. intros (v & E & _)%opt_Ok. by exists v. Qed.

Lemma opt_reads {A} (read : value -> parsed A) (f : A -> value) m k o :
  m !! k = f <$> o -> (forall x, o = Some x -> read (f x) = Ok x) -> opt read m k = Ok o.
Proof. intros E H. unfold opt. rewrite E. destruct o as [x|]; [|done]. cbn. by rewrite H. Qed.

Lemma required_Ok {A} (o : option A) x : required o = Ok x -> o = Some x.
Proof. destruct o; [by intros [= ->]|done]. Qed.

Lemma onlyKeys_Ok m allowed u : onlyKeys m allowed = Ok u -> forall k, is_Some (m !! k) -> k ∈ allowed.
Proof.
  intros H%guard_err_Ok k [v E]. rewrite forallb_forall in H. apply elem_of_map_to_list, list_elem_of_In, H in E.
  apply existsb_exists in E as (x & I & X%String.eqb_eq). apply list_elem_of_In. cbn in X. by rewrite X.
Qed.

Lemma onlyKeys_intro m allowed : (forall k, is_Some (m !! k) -> k ∈ allowed) -> onlyKeys m allowed = Ok tt.
Proof.
  intros H. unfold onlyKeys. assert (forallb (fun kv => existsb (String.eqb kv.1) allowed) (map_to_list m) = true) as ->; [|done].
  apply forallb_forall. intros [k v] I%list_elem_of_In%elem_of_map_to_list. apply existsb_exists. exists k.
  split; [apply list_elem_of_In, H; by exists v|apply String.eqb_refl].
Qed.

Lemma jsonInt_Ok v lo hi n : jsonInt v lo hi = Ok n -> lo <= n <= hi.
Proof. unfold jsonInt. destruct v; try done. destruct (parse_int text) as [k|]; [|done]. case_match eqn:R; [done|]. intros [= <-]. bools. lia. Qed.

Lemma jsonInt_num n lo hi : min_int64 <= n <= max_int64 -> lo <= n <= hi -> jsonInt (num n) lo hi = Ok n.
Proof. intros I R. unfold jsonInt, num. rewrite parse_format_int by done. by rewrite (proj2 (Z.ltb_ge _ _)), (proj2 (Z.ltb_ge _ _)) by lia. Qed.

Lemma jsonString_Ok v s : jsonString v = Ok s -> valid_utf8 s.
Proof. destruct v; try done. intros [= <-]. apply unquote_valid. Qed.

Lemma jsonString_str s : valid_utf8 s -> jsonString (str s) = Ok s.
Proof. intros V. unfold jsonString, str. by rewrite unquote_quote. Qed.

#[local] Opaque onlyKeys.

(** ** Input frames *)

Definition input_slots (i : wireInput) : list slot := [
  ("type", Some (str (wi_Type i))); ("ev", Some (str (wi_Ev i))); ("x", num <$> wi_X i); ("y", num <$> wi_Y i);
  ("buttons", encodeButtons <$> wi_Buttons i); ("monitor", num <$> wi_Monitor i); ("dx", num <$> wi_DX i); ("dy", num <$> wi_DY i);
  ("code", num <$> wi_Code i); ("down", JBool <$> wi_Down i); ("ext", JBool <$> wi_Ext i); ("ch", str <$> wi_Ch i)].

Ltac in_slots := unfold input_slots; repeat (first [apply list_elem_of_here|apply list_elem_of_further]).

Lemma input_members_slots i : input_members i = present (input_slots i).
Proof. unfold input_members. rewrite !omitempty_present, <- !present_app. done. Qed.

Definition int_ok (o : option Z) : Prop := forall n, o = Some n -> min_int64 <= n <= max_int64.

Record well_input (i : wireInput) (allowed : list string) : Prop := {
  wl_type : wi_Type i = opInput;
  wl_ev : inputKeys (wi_Ev i) = Some allowed;
  wl_keys : forall k v, (k, Some v) ∈ input_slots i -> k ∈ allowed;
  wl_ints : Forall int_ok [wi_X i; wi_Y i; wi_Monitor i; wi_DX i; wi_DY i; wi_Code i];
  wl_ch : forall ch, wi_Ch i = Some ch -> valid_utf8 ch;
}.

Lemma optInt_ok m k o : optInt m k = Ok o -> int_ok o.
Proof. intros H n ->. apply opt_Ok in H as (v & _ & R%jsonInt_Ok). done. Qed.

Lemma slot_there {A} (read : value -> parsed A) (f : A -> value) m k o v :
  opt read m k = Ok o -> f <$> o = Some v -> is_Some (m !! k).
Proof. destruct o as [x|]; [|done]. intros H _. by eapply opt_there. Qed.

Lemma parseInput_well m i : is_Some (m !! "type") -> parseInput m = Ok i -> exists allowed, well_input i allowed.
Proof.
  intros T H. unfold parseInput in H. inv_ok H. injection H as <-. apply required_Ok in Hok, Hok1. exists x1.
  match goal with E : onlyKeys _ _ = Ok _ |- _ => pose proof (onlyKeys_Ok _ _ _ E) as K end.
  split; cbn [wi_Type wi_Ev]; try done.
  - intros k v I. apply K. unfold input_slots in I. rewrite !elem_of_cons, elem_of_nil in I.
    destruct_or! I; try done; injection I as -> E; try done; by eapply slot_there.
  - repeat (constructor; [by eapply optInt_ok|]). constructor.
  - cbn. intros ch ->. match goal with E : opt jsonString _ _ = Ok _ |- _ => apply opt_Ok in E as (w & _ & W%jsonString_Ok) end. done.
Qed.

Lemma input_slots_ok i : Forall slot_ok (input_slots i).
Proof.
  assert (N : forall o v, num <$> o = Some v -> frame_value v) by (intros [n|] v [= <-]; apply frame_num).
  assert (B : forall o v, JBool <$> o = Some v -> frame_value v) by (intros [b|] v [= <-]; apply frame_bool).
  repeat (constructor; [split; [by vm_compute|cbn [snd]; eauto]|]); [..|constructor].
  - intros v [= <-]. apply frame_str.
  - intros v [= <-]. apply frame_str.
  - intros v E. destruct (wi_Buttons i) as [b|]; [|done]. injection E as <-. split.
    + apply wf_obj. repeat constructor; intros ? ? ? ?; reflexivity.
    + apply uv_obj. repeat constructor; by apply valid_ascii.
    + cbn. lia.
  - intros v E. destruct (wi_Ch i) as [ch|]; [|done]. injection E as <-. apply frame_str.
Qed.

Lemma buttons_read b : parseButtons (encodeButtons b) = Ok b.
Proof. destruct b as [[] [] []]; vm_compute; reflexivity. Qed.

Lemma inputKeys_valid ev allowed : inputKeys ev = Some allowed -> valid_utf8 ev.
Proof.
  unfold inputKeys. intros H. repeat (case_match; [match goal with E : String.eqb ev _ = true |- _ => apply String.eqb_eq in E as -> end;
    by apply valid_ascii|]). done.
Qed.

(** An input frame that was parsed is read back from its encoding. *)
Lemma input_roundtrip i allowed :
  well_input i allowed -> exists m, strictObject (print (JObj (input_members i))) = Ok m
    /\ m !! "type" = Some (str opInput) /\ parseInput m = Ok i.
Proof.
  intros [w1 w2 w3 w4 w5]. rewrite input_members_slots. destruct (read_slots (input_slots i)) as (m & E & L & K).
  { apply input_slots_ok. }
  { apply (bool_decide_unpack _). vm_compute. exact I. }
  exists m. split; [done|]. split; [rewrite <- w1; apply L; by left|].
  assert (Ev := inputKeys_valid _ _ w2).
  rewrite !Forall_cons in w4. destruct w4 as (i1 & i2 & i3 & i4 & i5 & i6 & _).
  assert (N : forall k o, (k, num <$> o) ∈ input_slots i -> int_ok o -> optInt m k = Ok o).
  { intros k o I H. apply (opt_reads _ num); [by apply L|]. intros n ->. by apply jsonInt_num; apply H. }
  assert (B : forall k o, (k, JBool <$> o) ∈ input_slots i -> optBool m k = Ok o).
  { intros k o I. by apply (opt_reads _ JBool); [apply L|]. }
  unfold parseInput. rewrite (L "ev" (Some (str (wi_Ev i)))) by in_slots. cbn [required]. cbn [mbind result_bind].
  rewrite jsonString_str by done. cbn [mbind result_bind]. rewrite w2. cbn [required mbind result_bind].
  rewrite onlyKeys_intro by (intros k [v Ek]; apply K in Ek as [_ Ek]; by eapply w3). cbn [mbind result_bind].
  rewrite (N "x" (wi_X i)), (N "y" (wi_Y i)), (N "monitor" (wi_Monitor i)), (N "dx" (wi_DX i)), (N "dy" (wi_DY i)),
    (N "code" (wi_Code i)), (B "down" (wi_Down i)), (B "ext" (wi_Ext i)) by (try done; in_slots).
  rewrite (opt_reads jsonString str m "ch" (wi_Ch i)) by
    (try (apply L; in_slots); intros ch Hc; by apply jsonString_str, w5).
  rewrite (opt_reads parseButtons encodeButtons m "buttons" (wi_Buttons i)) by
    (try (apply L; in_slots); intros b _; apply buttons_read).
  destruct i. cbn in *. by rewrite w1.
Qed.

(** ** Frames *)

Inductive well_frame : opFrame -> Prop :=
| wf_input i allowed : well_input i allowed -> well_frame (mkOpFrame opInput (Some i) 0 0 0 None None)
| wf_ack monitor frame : 0 <= monitor <= max_uint32 -> 0 <= frame <= max_int64 ->
    well_frame (mkOpFrame opAck None monitor frame 0 None None)
| wf_set_monitor monitor : 0 <= monitor <= max_uint32 -> well_frame (mkOpFrame opSetMonitor None 0 0 monitor None None)
| wf_quality fps jpeg_q : well_frame (mkOpFrame opQuality None 0 0 0 fps jpeg_q)
| wf_close : well_frame (mkOpFrame opClose None 0 0 0 None None).

Lemma parse_well data f : parseOperatorFrame data = Ok f -> well_frame f.
Proof.
  intros H. unfold parseOperatorFrame in H. inv_ok H. apply required_Ok in Hok0. rename x1 into typ. cbv zeta in H.
  destruct (String.eqb_spec typ opInput) as [->|_].
  { inv_ok H. injection H as <-. apply parseInput_well in Hok2 as [allowed W]; [by econstructor|by exists x0]. }
  destruct (String.eqb_spec typ opAck) as [->|_].
  { cbn [String.eqb orb negb] in H. cbn in H. inv_ok H. injection H as <-. apply jsonInt_Ok in Hok4.
    apply wf_ack; [|done]. apply opt_Ok in Hok5. destruct x4 as [n|]; cbn; [|unfold max_uint32; lia].
    destruct Hok5 as (v & _ & R%jsonInt_Ok). done. }
  destruct (String.eqb_spec typ opSetMonitor) as [->|_].
  { cbn in H. inv_ok H. injection H as <-. apply jsonInt_Ok in Hok4. by apply wf_set_monitor. }
  destruct (String.eqb_spec typ opQuality) as [->|_].
  { cbn in H. inv_ok H. injection H as <-. apply wf_quality. }
  destruct (String.eqb_spec typ opClose) as [->|_]; [|done].
  cbn in H. inv_ok H. injection H as <-. apply wf_close.
Qed.

Section Encoding.
Context `{O : IntOverflow}.

Definition fps_of (f : opFrame) : Z := clampInt (of_FPS f) 1 MaxFPS MaxFPS.
Definition quality_of (f : opFrame) : Z := clampInt (of_JPEGQ f) MinJPEGQuality MaxJPEGQuality DefaultJPEGQuality.

(** What the agent reads: the frame, with the numbers of a quality request
    clamped. *)
Definition canon (f : opFrame) : opFrame :=
  if String.eqb (of_Type f) opQuality then f <| of_FPS := Some (of_Z (fps_of f)) |> <| of_JPEGQ := Some (of_Z (quality_of f)) |> else f.

Lemma clamp_bounds v lo hi def : lo <= def <= hi -> lo <= clampInt v lo hi def <= hi.
Proof.
  intros D. unfold clampInt. destruct v as [f|]; [|done]. case_match; [done|]. case_match eqn:A; [lia|]. case_match eqn:B; lia.
Qed.

Lemma small_floats n : 1 <= n <= 85 -> parse_float (format_int n) = Some (of_Z n) /\ round_Z (of_Z n) = n /\ is_finite (of_Z n) = true.
Proof.
  intros R. assert (I : In n (seqZ 1 85)) by (apply list_elem_of_In, elem_of_seqZ; lia).
  assert (E1 : map (fun n => parse_float (format_int n)) (seqZ 1 85) = map (fun n => Some (of_Z n)) (seqZ 1 85)) by (vm_compute; reflexivity).
  assert (E2 : map (fun n => round_Z (of_Z n)) (seqZ 1 85) = map (fun n => n) (seqZ 1 85)) by (vm_compute; reflexivity).
  assert (E3 : map (fun n => is_finite (of_Z n)) (seqZ 1 85) = map (fun n => true) (seqZ 1 85)) by (vm_compute; reflexivity).
  split; [exact (ext_in_map E1 n I)|].
  split; [exact (ext_in_map E2 n I)|exact (ext_in_map E3 n I)].
Qed.

Lemma clamp_small n lo hi def : 1 <= lo -> lo <= n <= hi -> hi <= 85 -> clampInt (Some (of_Z n)) lo hi def = n.
Proof.
  intros L R H. destruct (small_floats n ltac:(lia)) as (_ & E & F). unfold clampInt, int_of_float. rewrite F, E. cbn [negb].
  assert (in_range min_int64 max_int64 n = true) as -> by (unfold in_range, min_int64, max_int64; lia).
  by rewrite (proj2 (Z.ltb_ge _ _)), (proj2 (Z.ltb_ge _ _)) by lia.
Qed.

Definition quality_value (fps quality : Z) : value := JObj [("type", str opQuality); ("fps", num fps); ("jpeg_q", num quality)].

Lemma encode_quality f : of_Type f = opQuality -> encode_value f = Some (quality_value (fps_of f) (quality_of f)).
Proof. intros E. unfold encode_value. rewrite !E. reflexivity. Qed.

Lemma quality_bounds f : 1 <= fps_of f <= 10 /\ 30 <= quality_of f <= 85.
Proof. split; apply clamp_bounds; unfold MaxFPS, DefaultJPEGQuality, MinJPEGQuality, MaxJPEGQuality; lia. Qed.

Lemma canon_idem f : fps_of (canon f) = fps_of f /\ quality_of (canon f) = quality_of f.
Proof.
  unfold canon. destruct (String.eqb (of_Type f) opQuality); [|done]. destruct (quality_bounds f) as [B1 B2].
  split; [apply (clamp_small (fps_of f))|apply (clamp_small (quality_of f))]; unfold MaxFPS, MinJPEGQuality, MaxJPEGQuality; lia.
Qed.

Lemma canon_encode f : encode (canon f) = encode f.
Proof.
  destruct (String.eqb_spec (of_Type f) opQuality) as [E|N].
  - destruct (canon_idem f) as [E1 E2]. unfold encode. rewrite !encode_quality by (try done; unfold canon; by rewrite E).
    by rewrite E1, E2.
  - unfold canon. by rewrite (proj2 (String.eqb_neq _ _) N).
Qed.

(** A frame as its slots. *)
Definition frame_slots (f : opFrame) : list slot :=
  if String.eqb (of_Type f) opAck then [("type", Some (str opAck)); ("monitor", Some (num (of_AckMonitor f))); ("frame", Some (num (of_AckFrame f)))]
  else if String.eqb (of_Type f) opSetMonitor then [("type", Some (str opSetMonitor)); ("monitor", Some (num (of_Monitor f)))]
  else if String.eqb (of_Type f) opQuality
  then [("type", Some (str opQuality)); ("fps", Some (num (fps_of f))); ("jpeg_q", Some (num (quality_of f)))]
  else if String.eqb (of_Type f) opInput then match of_Input f with Some i => input_slots i | None => [] end
  else [("type", Some (str opClose))].

Lemma encode_slots f : well_frame f -> encode_value f = Some (JObj (present (frame_slots f))) /\ NoDup (frame_slots f).*1.
Proof.
  intros [i allowed W|monitor frame _ _|monitor _|fps q|]; (split; [|apply (bool_decide_unpack _); vm_compute; exact I]); try reflexivity.
  change (frame_slots (mkOpFrame opInput (Some i) 0 0 0 None None)) with (input_slots i). rewrite <- input_members_slots. reflexivity.
Qed.

Lemma type_of s : string_forallb valid1 s = true -> jsonString (str s) = Ok s.
Proof. intros V. by apply jsonString_str, valid_ascii. Qed.

Lemma jsonNumber_num n : 1 <= n <= 85 -> jsonNumber (num n) = Ok (of_Z n).
Proof. intros R. unfold jsonNumber, num. by rewrite (proj1 (small_floats n R)). Qed.

Lemma keys_in_slots (m : members) (l : list slot) allowed :
  (forall k v, m !! k = Some v -> k ∈ l.*1 /\ (k, Some v) ∈ l) -> l.*1 ⊆ allowed -> onlyKeys m allowed = Ok tt.
Proof. intros K S. apply onlyKeys_intro. intros k [v E]. by apply S, (K k v). Qed.

Ltac here := repeat (first [apply list_elem_of_here|apply list_elem_of_further]).

(** The type of an object read from its slots. *)
Ltac read_type E L K typ :=
  unfold parseOperatorFrame; rewrite E; cbn [mbind result_bind]; rewrite (L "type" (Some (str typ))) by here;
  cbn [required mbind result_bind]; rewrite type_of by done; cbn [mbind result_bind]; cbv zeta;
  change (String.eqb typ opInput) with false; cbn [orb negb];
  rewrite (keys_in_slots _ _ _ K) by (cbn; set_solver).

(** The canonical encoding is read back as the frame it came from. *)
Lemma frame_roundtrip f : well_frame f -> parseOperatorFrame (print (JObj (present (frame_slots f)))) = Ok (canon f).
Proof.
  intros W. destruct (encode_slots f W) as [_ N].
  assert (T : forall n v, Some (num n) = Some v -> frame_value v) by (intros n v [= <-]; apply frame_num).
  assert (S : forall s v, Some (str s) = Some v -> frame_value v) by (intros s v [= <-]; apply frame_str).
  assert (F : Forall slot_ok (frame_slots f)).
  { destruct W; [apply input_slots_ok|..]; repeat (constructor; [split; [by vm_compute|cbn [snd]; eauto]|]); constructor. }
  destruct (read_slots _ F N) as (m & E & L & K). destruct W as [i allowed W|monitor frame M1 M2|monitor M|fps q|].
  - destruct (input_roundtrip i allowed W) as (m' & E' & T' & P'). rewrite input_members_slots in E'. unfold parseOperatorFrame.
    change (frame_slots (mkOpFrame opInput (Some i) 0 0 0 None None)) with (input_slots i). rewrite E'. cbn [mbind result_bind].
    rewrite T'. cbn [required mbind result_bind]. rewrite type_of by done. cbn [mbind result_bind]. cbv zeta. rewrite String.eqb_refl, P'. done.
  - read_type E L K opAck. rewrite (L "frame" (Some (num frame))) by here.
    cbn [required mbind result_bind]. rewrite jsonInt_num by (unfold min_int64 in *; lia). cbn [mbind result_bind].
    rewrite (opt_reads _ num m "monitor" (Some monitor)); [done|apply L; here|].
    intros n [= <-]. apply jsonInt_num; unfold min_int64, max_int64, max_uint32 in *; lia.
  - read_type E L K opSetMonitor. rewrite (L "monitor" (Some (num monitor))) by here. cbn [required mbind result_bind].
    rewrite jsonInt_num by (unfold min_int64, max_int64, max_uint32 in *; lia). done.
  - read_type E L K opQuality. set (f := mkOpFrame opQuality None 0 0 0 fps q) in *. destruct (quality_bounds f) as [B1 B2].
    unfold opt. rewrite (L "fps" (Some (num (fps_of f)))), (L "jpeg_q" (Some (num (quality_of f)))) by here.
    rewrite !jsonNumber_num by lia. done.
  - read_type E L K opClose. done.
Qed.

End Encoding.
