(* ===== verification/ScreenRelay.v ===== *)
(** * What reaches a screen's agent

    The screen policy keeps the promise of [TerminalLift]: every message on its
    way to an agent is one of the hub's own encodings, and a session that was
    opened to watch never carries input. *)

From Stdlib Require Import Ascii String SpecFloat.
From stdpp Require Import gmap.
From S2P Require Import Prelude Utf8 Json Float64 Terminal TerminalRelay TerminalInv TerminalProps TerminalLift Canonical Screen ScreenProps.

Import utf8 json float64 terminal relay screen.

Local Open Scope string_scope.
Local Open Scope Z_scope.

Section Promise.
Context `{O : IntOverflow} (clock : nat -> Z).

#[local] Instance policy_instance : FramePolicy Screen := screen_policy clock.

(** The messages an agent may be sent; input only under control. *)
Inductive agent_message (control : bool) : string -> Prop :=
| am_pause : agent_message control pauseMessage
| am_resume : agent_message control resumeMessage
| am_ack monitor frame : 0 <= monitor <= max_int64 -> 0 <= frame <= max_int64 ->
    agent_message control (print (JObj [("type", str opAck); ("monitor", num monitor); ("frame", num frame)]))
| am_monitor n : 0 <= n <= max_uint32 -> agent_message control (print (JObj [("type", str opSetMonitor); ("monitor", num n)]))
| am_quality fps quality : 1 <= fps <= 10 -> 30 <= quality <= 85 -> agent_message control (print (quality_value fps quality))
| am_input i allowed : control = true -> well_input i allowed -> agent_message control (print (JObj (input_members i))).

Definition controls (program : string) : bool := String.eqb program (Program ScreenModeControl).

Definition screen_good (program data : string) : Prop := agent_message (controls program) data.

Definition screen_good_policy (program : string) (x : Screen) : Prop :=
  p_control (sc_policy x) = controls program
  /\ 0 <= p_lastMonitor (sc_policy x) <= max_int64 /\ 0 <= p_lastFrame (sc_policy x) <= max_int64.

Lemma prefix_drop p s : String.prefix p s = true -> s = p ++ string_drop (String.length p) s.
Proof.
  revert s. induction p as [|c p IH]; intros s H; [done|]. destruct s as [|d s]; [done|]. cbn in *.
  destruct (Ascii.ascii_dec c d) as [->|]; [|done]. change (String d p ++ string_drop (String.length p) s) with (String d (p ++ string_drop (String.length p) s)). by rewrite <- IH.
Qed.

Lemma app_inj_l (a b c : string) : a ++ b = a ++ c -> b = c.
Proof. induction a as [|x a IH]; [done|]. cbn. intros E. apply IH. by injection E. Qed.

(** Only the program of a control session gives control. *)
Lemma newPolicy_control program id : HasPrefix program ProgramPrefix = true -> p_control (newPolicy program id) = controls program.
Proof.
  intros H. unfold newPolicy, ModeOf. rewrite H. cbn [negb]. cbn [p_control]. unfold TrimPrefix. rewrite H.
  apply prefix_drop in H. set (mode := string_drop _ _) in *. rewrite H. unfold controls, Program.
  destruct (String.eqb_spec mode ScreenModeControl) as [->|N]; [by rewrite String.eqb_refl|].
  symmetry. apply String.eqb_neq. intros E%app_inj_l. done.
Qed.

Lemma parse_int_bounds s n : parse_int s = Some n -> min_int64 <= n <= max_int64.
Proof.
  assert (U : forall neg t n, (match t with EmptyString => None | _ => v ← digits_val 0 t;
     let v' := if (neg : bool) then - v else v in if in_range min_int64 max_int64 v' then Some v' else None end) = Some n ->
     min_int64 <= n <= max_int64).
  { intros neg t k. destruct t as [|c t]; [done|]. destruct (digits_val 0 (String c t)) as [v|]; [|done]. cbn -[min_int64 max_int64].
    case_match eqn:R; [|done]. intros [= <-]. unfold in_range in R. bools. lia. }
  unfold parse_int. destruct s as [|c s]; [done|]. intros H.
  destruct c as [[] [] [] [] [] [] [] []]; first [exact (U true s n H)|exact (U false s n H)|exact (U false (String _ s) n H)].
Qed.

(** ** Operator frames *)

(** What a parsed frame is forwarded as. *)
Lemma encode_good control data f out :
  parseOperatorFrame data = Ok f -> encode f = Some out -> (of_Type f = opInput -> control = true) ->
  (of_Type f = opClose -> False) -> agent_message control out.
Proof.
  intros W%parse_well E I C. unfold encode in E. destruct W as [i allowed W|monitor frame M1 M2|monitor M|fps q|].
  - injection E as <-. eapply am_input; [by apply I|done].
  - injection E as <-. apply am_ack; unfold max_uint32, max_int64 in *; lia.
  - injection E as <-. by apply am_monitor.
  - rewrite encode_quality in E by done. injection E as <-. destruct (quality_bounds (mkOpFrame opQuality None 0 0 0 fps q)). by apply am_quality.
  - by destruct C.
Qed.

Lemma audit_control f now p au : let p' := (auditInput f now p au).1 in
  p_control p' = p_control p /\ p_lastMonitor p' = p_lastMonitor p /\ p_lastFrame p' = p_lastFrame p.
Proof. unfold auditInput, audit_one. repeat case_match; done. Qed.

Lemma operator_good program x typ data :
  screen_good_policy program x ->
  screen_good_policy program (pol_Operator x typ data).1
  /\ forall out, Action (pol_Operator x typ data).2 = FrameForward -> Data (pol_Operator x typ data).2 = Some out -> screen_good program out.
Proof.
  intros H. pose proof H as (C & M & F). cbn [pol_Operator policy_instance screen_policy].
  unfold Operator. destruct (negb (typ =? TextMessage)); [done|]. destruct (parseOperatorFrame data) as [f|[]] eqn:Ep; [|done..].
  destruct (String.eqb_spec (of_Type f) opAck) as [Ta|_].
  { split; [done|]. cbn. intros out _ E. eapply encode_good; [done..| |]; rewrite Ta; done. }
  destruct (String.eqb_spec (of_Type f) opInput) as [Ti|Ni].
  { destruct (p_control (sc_policy x)) eqn:Ec in |- *; cbn [negb]; [|done].
    set (y := match of_Input f with Some i => _ | None => _ end).
    assert (p_control y.1 = controls program /\ p_lastMonitor y.1 = p_lastMonitor (sc_policy x) /\ p_lastFrame y.1 = p_lastFrame (sc_policy x)) as (A1 & A2 & A3).
    { unfold y. destruct (of_Input f) as [i|]; [|done].
      destruct (audit_control i (clock (sc_tick x)) (sc_policy x) (sc_audit x)) as (-> & -> & ->). done. }
    destruct y as [p au]. cbn [fst snd] in *. split; [split; cbn; [done|by rewrite A2, A3]|].
    cbn. intros out _ E. eapply encode_good; [done..| |]; [intros _; congruence|rewrite Ti; done]. }
  destruct (String.eqb_spec (of_Type f) opSetMonitor) as [Ts|_]; [|destruct (String.eqb_spec (of_Type f) opQuality) as [Tq|_]].
  - split; [done|]. cbn. intros out _ E. eapply encode_good; [done..| |]; rewrite Ts; done.
  - split; [done|]. cbn. intros out _ E. eapply encode_good; [done..| |]; rewrite Tq; done.
  - cbn [orb]. destruct (String.eqb (of_Type f) opClose); done.
Qed.

Lemma watcher_good program x watch typ data :
  screen_good_policy program x -> pol_Watcher x = Some watch ->
  screen_good_policy program (watch typ data).1
  /\ forall out, Action (watch typ data).2 = FrameForward -> Data (watch typ data).2 = Some out -> screen_good program out.
Proof.
  intros H [= <-]. split; [done|]. cbn. unfold Watcher. case_match; [done|].
  destruct (parseOperatorFrame data) as [f|[]] eqn:Ep; [|done..]. destruct (String.eqb_spec (of_Type f) opAck) as [Ta|_].
  - cbn. intros out _ E. eapply encode_good; [done..| |]; rewrite Ta; done.
  - by case_match.
Qed.

Lemma int64_field_bound v old n : old <= max_int64 -> int64_field v old = Some n -> n <= max_int64.
Proof. intros B. destruct v; try done; cbn; [by intros [= <-]|]. intros E%parse_int_bounds. lia. Qed.

(** The numbers of a [frame_end] are [int64]s. *)
Lemma frame_end_bounds data m f : unmarshal frame_end_field (0, 0) data = Some (m, f) -> m <= max_int64 /\ f <= max_int64.
Proof.
  unfold unmarshal. destruct (parse maxNestingDepth data) as [[| | | | |l]|]; try done; cbn [mbind option_bind unmarshal_value]; [intros [= <- <-]; by vm_compute|].
  assert (G : forall acc, (forall y, acc = Some y -> y.1 <= max_int64 /\ y.2 <= max_int64) -> forall z,
    foldl (fun acc kv => x ← acc; frame_end_field (fold_key (unquote kv.1)) kv.2 x) acc l = Some z -> z.1 <= max_int64 /\ z.2 <= max_int64).
  { induction l as [|kv l IH]; intros acc A z; [apply A|]. cbn. apply IH. intros y. destruct acc as [u|]; [|done]. cbn.
    destruct (A u eq_refl) as [U1 U2]. unfold frame_end_field. case_match; [|case_match; [|by intros [= <-]]].
    - destruct (int64_field kv.2 u.1) as [n|] eqn:En; [|done]. intros [= <-]. split; [exact (int64_field_bound _ _ _ U1 En)|done].
    - destruct (int64_field kv.2 u.2) as [n|] eqn:En; [|done]. intros [= <-]. split; [done|exact (int64_field_bound _ _ _ U2 En)]. }
  intros E. apply (G (Some (0, 0))) in E; [done|]. intros y [= <-]. by vm_compute.
Qed.

Lemma remember_fields t data p :
  p_control (remember t data p) = p_control p /\ p_lastMonitor (remember t data p) = p_lastMonitor p /\ p_lastFrame (remember t data p) = p_lastFrame p.
Proof. unfold remember. repeat case_match; done. Qed.

Lemma agent_good program x typ data : screen_good_policy program x -> screen_good_policy program (pol_Agent x typ data).1.
Proof.
  intros H. pose proof H as (C & M & F). cbn [pol_Agent policy_instance screen_policy]. unfold Agent.
  destruct (typ =? BinaryMessage); [done|]. destruct (negb (typ =? TextMessage)); [done|].
  destruct (unmarshal control_field _ data) as [f|]; [|done].
  destruct (_ || _ || _).
  { destruct (remember_fields (cf_Type f) data (sc_policy x)) as (E1 & E2 & E3). split; cbn; [by rewrite E1|by rewrite E2, E3]. }
  destruct (String.eqb (cf_Type f) agFrameEnd); [|by destruct (_ || _); [|destruct (String.eqb _ _)]].
  destruct (unmarshal frame_end_field (0, 0) data) as [[m n]|] eqn:Eu; [|done].
  apply frame_end_bounds in Eu. case_match eqn:R; [|done]. bools. split; cbn; [done|]. lia.
Qed.

#[local] Instance screen_promises : Promises [screen_kind] screen_good_policy screen_good.
Proof.
  split.
  - intros program k id Hk. unfold kind_of in Hk. cbn in Hk. destruct (HasPrefix program ProgramPrefix) eqn:Hp; [|done].
    split; [by apply newPolicy_control|]. cbn. unfold newPolicy. destruct (ModeOf program). cbn. by vm_compute.
  - apply operator_good.
  - apply agent_good.
  - apply watcher_good.
  - intros program k Hk. unfold kind_of in Hk. cbn in Hk. case_match; [|done]. injection Hk as <-. split; [apply am_pause|apply am_resume].
  - intros program x (C & M & F). cbn. unfold ResumeMessages. case_match; [constructor|]. unfold maxUnacked, repeat.
    apply List.Forall_cons; [by apply am_ack|]. apply List.Forall_cons; [by apply am_ack|]. constructor.
Qed.

(** ** The claims *)

Section Manager.
Context {E : Type} `{!EvidenceStore E}.
Context (HashToken : string -> string).
Context (marshal_grant : canonical.EndpointGrant -> result string string) (unmarshal_grant : string -> option canonical.EndpointGrant).
Context (marshal_frame : TerminalFrame -> option string) (unmarshal_frame : string -> option TerminalFrame).

Local Notation happens := (happens HashToken marshal_grant unmarshal_grant marshal_frame unmarshal_frame).

Lemma screen_kind_of program : IsScreen program = true -> is_Some (kind_of [screen_kind] program).
Proof. intros H. unfold kind_of. cbn. unfold IsScreen in H. rewrite H. by eexists. Qed.

(** C25: Whatever operators, watchers and agents send, and however the
    handlers and pumps of the hub interleave, every message waiting for,
    queued for or sent to the agent of a screen session is one of the hub's
    own encodings: a pause or resume, an acknowledgement, a monitor choice, a
    quality request within its limits or, in a control session only, an input
    event with the exact members of its kind. A session opened to watch never
    carries input to its endpoint. *)
Theorem agent_messages_canonical (ev : option E) lim t l :
  let w := happens l (mkWorld (start [screen_kind] ev lim t) [] []) in
  (forall program msg, (program, msg) ∈ w_sent w -> IsScreen program = true ->
     agent_message (controls program) (msg_data msg))
  /\ (forall id program msg, (id, program, msg) ∈ w_waiting w -> IsScreen program = true ->
     agent_message (controls program) (msg_data msg))
  /\ (forall id s pr msg, sessions (w_mgr w) !! id = Some s -> relay s = Some pr -> IsScreen (terminal.Program s) = true ->
     msg ∈ opToAgent pr -> agent_message (controls (terminal.Program s)) (msg_data msg)).
Proof.
  intros w. assert (T : tidy [screen_kind] screen_good_policy screen_good w) by (apply happens_tidy, start_tidy; exact _).
  split; [|split].
  - intros program msg Hm S. pose proof (proj1 (Forall_forall _ _) (td_sent _ _ _ _ T) _ Hm) as G. by apply G, screen_kind_of.
  - intros id program msg Hm S. pose proof (proj1 (Forall_forall _ _) (td_waiting _ _ _ _ T) _ Hm) as G. by apply G, screen_kind_of.
  - intros id s pr msg Hs Hr S Hm. pose proof (tidy_queue _ _ _ _ _ _ _ _ T Hs Hr Hm) as G. by apply G, screen_kind_of.
Qed.

End Manager.

(** C26: An operator frame the hub accepts is forwarded as an encoding that
    reads back as the same frame, with the frame rate and picture quality of a
    quality request clamped, and encoding what was read back changes nothing:
    the agent never sees a frame the hub read differently. *)
Theorem accepted_frame_canonical data f :
  parseOperatorFrame data = Ok f ->
  exists out, encode f = Some out /\ parseOperatorFrame out = Ok (canon f) /\ encode (canon f) = Some out
    /\ (of_Type f <> opQuality -> canon f = f).
Proof.
  intros W%parse_well. destruct (encode_slots f W) as [E _]. exists (print (JObj (present (frame_slots f)))).
  rewrite canon_encode. unfold encode. rewrite E. split; [done|]. split; [by apply frame_roundtrip|]. split; [done|].
  intros N. unfold canon. by rewrite (proj2 (String.eqb_neq _ _) N).
Qed.

End Promise.

(** ** Examples *)

Module screen_example.

#[local] Instance saturating : IntOverflow := fun f => if ltb f (of_Z 0) then min_int64 else max_int64.

#[local] Instance ticking : FramePolicy Screen := screen_policy (fun n => Z.of_nat n).

#[local] Instance no_store : EvidenceStore unit := {
  CreateBundle e tenant endpoint session profile retention := (e, Err "no store");
  StoreItem e tenant bundle name mime status payload := (e, Err "no store");
  FinalizeBundle e tenant bundle manifest sig := (e, Err "no store");
  ReadItemData e tenant id := Err "no store";
}.

Definition hash (t : string) : string := "h:" ++ t.

Local Notation happens := (happens hash (fun _ : unit => Ok EmptyString) (fun _ => None) (fun _ => None) (fun _ => None)).
Local Notation Event := (@event unit).

(** A quality request beyond the limits, with a space before it. *)
Definition asked : string := " " ++ print (JObj [("fps", num 60); ("type", str opQuality); ("jpeg_q", num 5)]).

Definition asked_frame : opFrame := mkOpFrame opQuality None 0 0 0 (Some (of_Z 60)) (Some (of_Z 5)).

Lemma asked_parses : parseOperatorFrame asked = Ok asked_frame.
Proof. vm_compute. reflexivity. Qed.

Lemma accepted_frame_canonical_witness :
  encode asked_frame = Some (print (quality_value 10 30))
  /\ exists out, encode asked_frame = Some out /\ parseOperatorFrame out = Ok (canon asked_frame).
Proof.
  split; [vm_compute; reflexivity|]. destruct (accepted_frame_canonical asked asked_frame asked_parses) as (out & H1 & H2 & _).
  exists out. exact (conj H1 H2).
Defined.

Definition press : string := print (JObj [("type", str opInput); ("ev", str "sas")]).
Definition ack : string := print (JObj [("type", str opAck); ("monitor", num 0); ("frame", num 7)]).

(** An operator sends input, an acknowledgement and the request. *)
Definition a_session (program : string) : list (Z * Event) :=
  [(1, EDo (OCreate "s1" "agent-token" "acme" "pc-1" "ana" program None 0 "u1" "u2" "op-token"));
   (2, EDo (OAttachOperator false "s1" "op-token" (Some 1%nat)));
   (3, EDo (OAttachAgent "s1" "pc-1" "agent-token" (Some 2%nat)));
   (4, EOperator "s1" TextMessage press); (5, EOperator "s1" TextMessage ack); (6, EOperator "s1" TextMessage asked);
   (7, EQueue 0); (8, EQueue 0); (9, EQueue 0); (10, ETake "s1"); (11, ETake "s1"); (12, ETake "s1")].

Definition received (program : string) : list string :=
  map (fun x => msg_data x.2) (w_sent (happens (a_session program) (mkWorld (start [screen_kind] (None (A := unit)) (mkLimits 0 0 0 0) 0) [] []))).

(** A control session carries all three, a session that watches drops the
    input; the request is clamped in both. *)
Lemma sessions_received :
  received (Program ScreenModeControl) = [press; ack; print (quality_value 10 30)]
  /\ received (Program ScreenModeView) = [ack; print (quality_value 10 30)].
Proof. vm_compute. split; reflexivity. Qed.

End screen_example.
