(* ===== verification/ScreenAudit.v ===== *)
(** * The audit of screen input accounts for every input

    The calls that start and stop auditing and the inputs pumps audit, in any
    order; a pump may still hold an auditor that was stopped meanwhile. *)

From Stdlib Require Import Ascii String SpecFloat.
From stdpp Require Import gmap.
From S2P Require Import Prelude Utf8 Json Float64 Terminal TerminalRelay Canonical Screen.

Import utf8 json float64 screen.

Local Open Scope string_scope.
Local Open Scope Z_scope.

(** [AInput i f p]: a pump with policy [p] that looked up auditor [i] audits
    the input [f]. *)
Inductive audit_event : Type :=
| AStart (i : nat) (sessionID : string)
| AStop (i : nat) (sessionID : string)
| AInput (i : nat) (f : wireInput) (p : policy).

(** A new auditor is a new pointer. *)
Definition audit_step (now : Z) (e : audit_event) (au : audit) : audit :=
  match e with
  | AStart i sid => match au_heap au !! i with Some _ => au | None => SetInputAudit i sid now au end
  | AStop i sid => clear i sid au
  | AInput i f p => (audit_one i f now p au).2
  end.

Definition audit_run (l : list (Z * audit_event)) (au : audit) : audit := fold_left (fun au x => audit_step x.1 x.2 au) l au.

Definition total (c : counts) : Z := n_held c + n_moves c + n_keys c.

(** The inputs a line stands for. *)
Definition line_inputs (l : line) : Z :=
  match l with Noted _ None => 1 | Noted _ (Some c) => 1 + total c | Flushed c => total c end.

Definition accounted (i : nat) (ls : list (nat * line)) : Z :=
  fold_right (fun x n => (if (x.1 =? i)%nat then line_inputs x.2 else 0) + n) 0 ls.

Definition held_by (a : inputAuditor) : Z := ia_held a + ia_heldMove a + ia_heldKey a.

Definition holding (i : nat) (au : audit) : Z := from_option held_by 0 (au_heap au !! i).

(** An input that finds its auditor. *)
Definition audits (i : nat) (e : audit_event) (au : audit) : Z :=
  match e with AInput j _ _ => if (j =? i)%nat && bool_decide (is_Some (au_heap au !! i)) then 1 else 0 | _ => 0 end.

Fixpoint audited (i : nat) (l : list (Z * audit_event)) (au : audit) : Z :=
  match l with [] => 0 | (now, e) :: l => audits i e au + audited i l (audit_step now e au) end.

(** ** One step *)

Lemma accounted_one i x : accounted i [x] = if (x.1 =? i)%nat then line_inputs x.2 else 0.
Proof. unfold accounted. cbn. lia. Qed.

Lemma accounted_app i a b : accounted i (a ++ b)%list = accounted i a + accounted i b.
Proof. induction a as [|x a IH]; [done|]. unfold accounted in *. cbn [fold_right app]. rewrite IH. lia. Qed.

#[local] Arguments accounted : simpl never.

Lemma take_counts a : held_by a = from_option total 0 (takeCounts a).1 + held_by (takeCounts a).2 /\ held_by (takeCounts a).2 = 0.
Proof. unfold takeCounts. case_match eqn:Z0; cbn; unfold held_by, total; [bools; lia|cbn; lia]. Qed.

Lemma flush_sum i j au : accounted i (au_lines (flush j au)) + holding i (flush j au) = accounted i (au_lines au) + holding i au.
Proof.
  unfold flush. destruct (au_heap au !! j) as [a|] eqn:Hj; [|done]. destruct (take_counts a) as [Ht H0].
  destruct (takeCounts a) as [[c|] a']; [|done]. cbn in *. rewrite accounted_app, accounted_one. unfold holding. cbn.
  destruct (Nat.eqb_spec j i) as [->|N].
  - rewrite lookup_insert_eq, Hj. cbn. lia.
  - rewrite lookup_insert_ne by done. lia.
Qed.

Lemma flush_empty i au : holding i (flush i au) = 0.
Proof.
  unfold flush, holding. destruct (au_heap au !! i) as [a|] eqn:Hi; [|by rewrite Hi]. destruct (take_counts a) as [Ht H0].
  unfold takeCounts in *. case_match eqn:Z0; cbn; [rewrite Hi; cbn in *; lia|]. rewrite lookup_insert_eq. done.
Qed.

Lemma flush_others i j au : i <> j -> holding i (flush j au) = holding i au.
Proof.
  intros N. unfold flush. destruct (au_heap au !! j) as [a|]; [|done]. destruct (takeCounts a) as [[c|] a']; [|done].
  unfold holding. cbn. by rewrite lookup_insert_ne.
Qed.

Lemma flush_alive i j au : is_Some (au_heap (flush j au) !! i) <-> is_Some (au_heap au !! i).
Proof.
  unfold flush. destruct (au_heap au !! j) as [a|] eqn:Hj; [|done]. destruct (takeCounts a) as [[c|] a']; [|done]. cbn.
  rewrite lookup_insert_is_Some'. split; [intros [<-|?]; [by eexists|done]|by right].
Qed.

Lemma note_sum what now a :
  let '(a', l) := note what now a in held_by a + 1 = from_option line_inputs 0 l + held_by a'.
Proof.
  unfold note. cbv zeta. destruct (ltb _ (of_Z 1)); [unfold held_by; cbn; lia|].
  set (x := _ <| ia_tokens := _ |>). destruct (take_counts x) as [Ht H0]. destruct (takeCounts x) as [[c|] a']; cbn in *;
    unfold held_by, x in *; cbn in *; lia.
Qed.

Lemma count_sum k a : held_by (count k a) = held_by a + 1.
Proof. destruct k; unfold held_by; cbn; lia. Qed.

Lemma input_sum i j f now p au :
  accounted i (au_lines (audit_one j f now p au).2) + holding i (audit_one j f now p au).2
  = accounted i (au_lines au) + holding i au + audits i (AInput j f p) au.
Proof.
  unfold audit_one, audits. destruct (au_heap au !! j) as [a|] eqn:Hj.
  - destruct (describe f (p_buttons p)) as [[k|what] buttons]; cbn [snd].
    + unfold holding. cbn. destruct (Nat.eqb_spec j i) as [->|N].
      * rewrite lookup_insert_eq, Hj, bool_decide_eq_true_2 by (by eexists). cbn. rewrite count_sum. lia.
      * rewrite lookup_insert_ne by done. cbn. lia.
    + pose proof (note_sum what now a) as Hn. destruct (note what now a) as [a' l]. cbn [snd au_lines]. unfold holding. cbn.
      rewrite accounted_app. destruct (Nat.eqb_spec j i) as [->|N].
      * rewrite lookup_insert_eq, Hj, bool_decide_eq_true_2 by (by eexists). destruct l; cbn in *; rewrite ?accounted_one; cbn; rewrite ?Nat.eqb_refl; change (accounted i []) with 0; lia.
      * rewrite lookup_insert_ne by done. destruct l; cbn; rewrite ?accounted_one; cbn; rewrite ?(proj2 (Nat.eqb_neq _ _) N); change (accounted i []) with 0; lia.
  - cbn. destruct (Nat.eqb_spec j i) as [->|N]; [rewrite Hj|]; cbn; lia.
Qed.

Lemma step_sum i now e au :
  accounted i (au_lines (audit_step now e au)) + holding i (audit_step now e au) = accounted i (au_lines au) + holding i au + audits i e au.
Proof.
  destruct e as [j sid|j sid|j f p]; [| |apply input_sum]; cbn [audit_step audits].
  - destruct (au_heap au !! j) eqn:Hj; [lia|]. unfold SetInputAudit.
    set (x := au <| au_heap ::= _ |> <| au_current ::= _ |>).
    assert (accounted i (au_lines x) + holding i x = accounted i (au_lines au) + holding i au).
    { unfold x, holding. cbn. destruct (decide (i = j)) as [->|N]; [rewrite lookup_insert_eq, Hj; done|by rewrite lookup_insert_ne]. }
    destruct (au_current au !! sid); [rewrite flush_sum|]; lia.
  - unfold clear. rewrite flush_sum. case_match; unfold holding; cbn; lia.
Qed.

Lemma run_sum i l : forall au, accounted i (au_lines (audit_run l au)) + holding i (audit_run l au)
  = accounted i (au_lines au) + holding i au + audited i l au.
Proof.
  induction l as [|[now e] l IH]; intros au; [cbn; lia|]. cbn [audit_run fold_left audited]. cbn.
  unfold audit_run in IH. rewrite IH, step_sum. lia.
Qed.

(** Events that audit no input with the auditor leave nothing held. *)
Definition quiet (i : nat) (x : Z * audit_event) : bool := match x.2 with AInput j _ _ => negb (j =? i)%nat | _ => true end.

Lemma quiet_step i now e au :
  quiet i (now, e) = true -> is_Some (au_heap au !! i) -> holding i au = 0 ->
  is_Some (au_heap (audit_step now e au) !! i) /\ holding i (audit_step now e au) = 0.
Proof.
  intros Q S H. destruct e as [j sid|j sid|j f p]; cbn [audit_step].
  - destruct (au_heap au !! j) eqn:Hj; [done|]. assert (i <> j) as N by (intros ->; rewrite Hj in S; by destruct S).
    unfold SetInputAudit. set (x := au <| au_heap ::= _ |> <| au_current ::= _ |>).
    assert (is_Some (au_heap x !! i) /\ holding i x = 0) as [Sx Hx] by (unfold x, holding; cbn; by rewrite lookup_insert_ne).
    destruct (au_current au !! sid) as [k|]; [|done]. split; [by apply flush_alive|].
    destruct (decide (i = k)) as [<-|Nk]; [apply flush_empty|by rewrite flush_others].
  - unfold clear. cbv zeta. set (x := if bool_decide _ then _ else au).
    assert (is_Some (au_heap x !! i) /\ holding i x = 0) as [Sx Hx] by (unfold x; by case_match).
    split; [by apply flush_alive|]. destruct (decide (i = j)) as [<-|Nj]; [apply flush_empty|by rewrite flush_others].
  - cbn in Q. apply negb_true_iff, Nat.eqb_neq in Q. unfold audit_one. destruct (au_heap au !! j) as [a|]; [|done].
    destruct (describe f (p_buttons p)) as [[k|what] b]; [|destruct (note what now a)]; unfold holding; cbn; by rewrite lookup_insert_ne.
Qed.

Lemma quiet_run i l : forall au, forallb (quiet i) l = true -> is_Some (au_heap au !! i) -> holding i au = 0 -> holding i (audit_run l au) = 0.
Proof.
  induction l as [|[now e] l IH]; intros au Q S H; [done|]. cbn in Q. apply andb_prop in Q as [Q Ql].
  destruct (quiet_step i now e au Q S H) as [S' H']. by apply IH.
Qed.

Lemma accounted_dead i au : au_heap au !! i = None -> holding i au = 0.
Proof. intros E. unfold holding. by rewrite E. Qed.

(** C27: Whatever sessions are audited, replaced and stopped and whatever
    input is sent, each auditor's lines and the counts it still holds stand for
    exactly the inputs it audited, none twice; and once an auditor was stopped
    and no pump uses it any more, its lines alone account for every input. *)
Theorem inputs_accounted i l :
  let au := audit_run l no_audit in
  accounted i (au_lines au) + holding i au = audited i l no_audit
  /\ forall before after now sid, l = (before ++ (now, AStop i sid) :: after)%list -> forallb (quiet i) after = true ->
       is_Some (au_heap (audit_run before no_audit) !! i) -> accounted i (au_lines au) = audited i l no_audit.
Proof.
  intros au. assert (S : accounted i (au_lines au) + holding i au = audited i l no_audit) by (unfold au; by rewrite run_sum, (accounted_dead i no_audit)).
  split; [done|]. intros before after now sid -> Q A. rewrite <- S. unfold au, audit_run. rewrite fold_left_app. cbn [fold_left fst snd].
  fold (audit_run before no_audit). set (b := audit_run before no_audit) in *.
  fold (audit_run after (audit_step now (AStop i sid) b)). rewrite quiet_run; [lia|done| |].
  - cbn. unfold clear. apply flush_alive. by case_match.
  - cbn. unfold clear. apply flush_empty.
Qed.

(** ** What the lines tell *)

(** Inputs alike but for the keys pressed and the text typed, of the same
    number of characters. *)
Record same_outline (f g : wireInput) : Prop := {
  so_ev : wi_Ev f = wi_Ev g;
  so_pointer : (wi_X f, wi_Y f, wi_Buttons f, wi_Monitor f) = (wi_X g, wi_Y g, wi_Buttons g, wi_Monitor g);
  so_wheel : (wi_DX f, wi_DY f) = (wi_DX g, wi_DY g);
  so_length : (fun s => length (range_runes s)) <$> wi_Ch f = (fun s => length (range_runes s)) <$> wi_Ch g;
}.

(** The audit tells nothing of keys and text but that they were used. *)
Lemma audit_hides_typing f g i now p au : same_outline f g -> audit_one i f now p au = audit_one i g now p au.
Proof.
  intros [E1 E2 E3 E4]. injection E2 as X Y B M. injection E3 as DX DY. unfold audit_one.
  assert (describe f (p_buttons p) = describe g (p_buttons p)) as ->; [|done].
  unfold describe, at_text. rewrite E1, X, Y, B, M, DX, DY.
  destruct (wi_Ch f) as [a|], (wi_Ch g) as [b|]; try done. cbn in E4. injection E4 as ->. done.
Qed.

(** ** Examples *)

Module audit_example.

Definition a_policy : policy := newPolicy (Program ScreenModeControl) "s1".

Definition pressed : wireInput :=
  mkInput opInput "mouse" (Some 10) (Some 20) (Some (mkButtons true false false)) None None None None None None None.

Definition key (code : Z) : wireInput := mkInput opInput "key" None None None None None None (Some code) (Some true) None None.

Definition an_attachment : list (Z * audit_event) :=
  [(0, AStart 1 "s1"); (1, AInput 1 (key 30) a_policy); (2, AInput 1 pressed a_policy); (3, AInput 1 (key 31) a_policy)].

Lemma inputs_accounted_witness :
  map (fun x => render x.2) (au_lines (audit_run (an_attachment ++ [(4, AStop 1 "s1")]) no_audit))
    = ["Agent screen input: mouse left button down at 10,20 on monitor 0 (0..65535) (since the last line: 0 more inputs not logged one by one, 0 mouse moves, 1 key events)";
       "Agent screen input: 0 more inputs not logged one by one, 0 mouse moves, 1 key events since the last line"]
  /\ accounted 1 (au_lines (audit_run (an_attachment ++ [(4, AStop 1 "s1")]) no_audit))
     = audited 1 (an_attachment ++ [(4, AStop 1 "s1")]) no_audit.
Proof.
  split; [vm_compute; reflexivity|].
  apply (proj2 (inputs_accounted 1 (an_attachment ++ [(4, AStop 1 "s1")])) an_attachment [] 4 "s1"); [reflexivity..|].
  exists (mkAuditor (ia_tokens (from_option id (mkAuditor (of_Z 0) 0 0 0 0) (au_heap (audit_run an_attachment no_audit) !! 1%nat))) 2 0 0 1).
  vm_compute. reflexivity.
Defined.

(** A pump that looked its auditor up before the agent detached: the key press
    is counted after the last line, and never written. *)
Lemma late_input_unwritten :
  let l := (an_attachment ++ [(4, AStop 1 "s1"); (5, AInput 1 (key 32) a_policy)])%list in
  let au := audit_run l no_audit in
  au_current au = ∅ /\ audited 1 l no_audit = 4 /\ accounted 1 (au_lines au) = 3 /\ holding 1 au = 1.
Proof. vm_compute. repeat split. Qed.

End audit_example.
