(* ===== verification/Jwt.v ===== *)
(** * Session tokens

    [auth/auth.go]: the tokens of the console and the API, signed with HMAC
    under the hub's admin key. The password functions only call bcrypt. *)

From Stdlib Require Import Ascii String.
From S2P Require Import Prelude Utf8 Json Canonical Platform Encoding.

Module jwt.
Import utf8 json platform encoding.

Local Open Scope string_scope.
Local Open Scope Z_scope.

Definition RoleAdmin : string := "admin".
Definition RoleAnalyst : string := "analyst".
Definition RoleAuditor : string := "auditor".

(** [hmac_sha256 key message]. *)
Class Hmac := hmac_sha256 : string -> string -> string.

Record Claims : Type := mkClaims {
  c_UserID : string;
  c_Username : string;
  c_Role : string;
  c_TenantID : string;
  c_ExpiresAt : Z;
}.

#[export] Instance eta_Claims : Eta Claims :=
  fun x => mkClaims (c_UserID x) (c_Username x) (c_Role x) (c_TenantID x) (c_ExpiresAt x).

Definition no_claims : Claims := mkClaims "" "" "" "" 0.

(** [json.Marshal(claims)] and the fields of [json.Unmarshal]. *)
Definition claims_value (c : Claims) : value :=
  JObj [("uid", str (c_UserID c)); ("usr", str (c_Username c)); ("rol", str (c_Role c)); ("tid", str (c_TenantID c));
        ("exp", num (c_ExpiresAt c))].

Definition claims_field (k : string) (v : value) (c : Claims) : option Claims :=
  if String.eqb k "uid" then s ← string_field v (c_UserID c); Some (c <| c_UserID := s |>)
  else if String.eqb k "usr" then s ← string_field v (c_Username c); Some (c <| c_Username := s |>)
  else if String.eqb k "rol" then s ← string_field v (c_Role c); Some (c <| c_Role := s |>)
  else if String.eqb k "tid" then s ← string_field v (c_TenantID c); Some (c <| c_TenantID := s |>)
  else if String.eqb k "exp" then n ← int64_field v (c_ExpiresAt c); Some (c <| c_ExpiresAt := n |>)
  else Some c.

Section Jwt.
Context `{H : Hmac}.

Definition header_value : value := JObj [("alg", str "HS256"); ("typ", str "JWT")].

Definition GenerateJWT (claims : Claims) (secret : string) (ttl now : Z) : string :=
  let claims := claims <| c_ExpiresAt := Unix (now + ttl) |> in
  let headerB64 := base64_raw_url_encode (print header_value) in
  let claimsB64 := base64_raw_url_encode (print (claims_value claims)) in
  let unsignedToken := headerB64 ++ "." ++ claimsB64 in
  unsignedToken ++ "." ++ base64_raw_url_encode (hmac_sha256 secret unsignedToken).

Definition ValidateJWT (tokenStr secret : string) (now : Z) : result string Claims :=
  match split_byte "." tokenStr with
  | [p0; p1; p2] =>
    let unsignedToken := p0 ++ "." ++ p1 in
    match base64_raw_url p2 with
    | None => Err "invalid signature encoding"
    | Some sig =>
      if negb (String.eqb sig (hmac_sha256 secret unsignedToken)) then Err "signature verification failed" else
      match base64_raw_url p1 with
      | None => Err "invalid claims encoding"
      | Some claimsBytes =>
        match unmarshal claims_field no_claims claimsBytes with
        | None => Err "failed to parse claims"
        | Some claims => if c_ExpiresAt claims <? Unix now then Err "token expired" else Ok claims
        end
      end
    end
  | _ => Err "invalid token format"
  end.

(** ** What a valid token says *)

Record well_claims (c : Claims) : Prop := {
  wc_uid : valid_utf8 (c_UserID c);
  wc_usr : valid_utf8 (c_Username c);
  wc_rol : valid_utf8 (c_Role c);
  wc_tid : valid_utf8 (c_TenantID c);
}.

Lemma string_field_str s old : valid_utf8 s -> string_field (str s) old = Some s.
Proof. intros V. cbn. by rewrite unquote_quote. Qed.

Lemma claims_read c : well_claims c -> min_int64 <= c_ExpiresAt c <= max_int64 ->
  unmarshal claims_field no_claims (print (claims_value c)) = Some c.
Proof.
  intros [V1 V2 V3 V4] R. unfold unmarshal. rewrite parse_print.
  - cbn [mbind option_bind unmarshal_value claims_value foldl fst snd].
    assert (K : forall k, k ∈ ["uid"; "usr"; "rol"; "tid"; "exp"] -> fold_key (unquote k) = k).
    { intros k I. rewrite !elem_of_cons, elem_of_nil in I. destruct_or! I; subst; [reflexivity..|done]. }
    rewrite !K by (rewrite !elem_of_cons; tauto). unfold claims_field at 5. cbn [String.eqb Ascii.eqb Bool.eqb]. cbn [mbind option_bind].
    rewrite (string_field_str (c_UserID c)) by done. cbn -[string_field str int64_field num]. rewrite string_field_str by done.
    cbn -[string_field str int64_field num]. rewrite string_field_str by done.
    cbn -[string_field str int64_field num]. rewrite string_field_str by done. cbn. rewrite parse_format_int by done. cbn. by destruct c.
  - apply wf_obj. repeat (apply List.Forall_cons; [split; [intros ? ? ? ?; reflexivity|first [apply wf_str, quote_text|apply wf_num, int_text]]|]).
    constructor.
  - cbn. unfold maxNestingDepth. lia.
Qed.

Lemma token_parts a b c : split_byte "." ((base64_raw_url_encode a ++ "." ++ base64_raw_url_encode b) ++ "." ++ base64_raw_url_encode c)
  = [base64_raw_url_encode a; base64_raw_url_encode b; base64_raw_url_encode c].
Proof.
  rewrite app_assoc_str. change ("." ++ base64_raw_url_encode c) with (String "." (base64_raw_url_encode c)).
  change (("." ++ base64_raw_url_encode b) ++ String "." (base64_raw_url_encode c))
    with (String "." (base64_raw_url_encode b ++ String "." (base64_raw_url_encode c))).
  rewrite !split_byte_line by apply url_encode_no_dot. by rewrite split_byte_single by apply url_encode_no_dot.
Qed.

(** A token checked with the key it was made with. *)
Lemma generated_token claims secret secret' ttl now now' :
  well_claims claims -> min_int64 <= Unix (now + ttl) <= max_int64 ->
  let c := claims <| c_ExpiresAt := Unix (now + ttl) |> in
  let unsigned := base64_raw_url_encode (print header_value) ++ "." ++ base64_raw_url_encode (print (claims_value c)) in
  ValidateJWT (GenerateJWT claims secret ttl now) secret' now' =
    if negb (String.eqb (hmac_sha256 secret unsigned) (hmac_sha256 secret' unsigned)) then Err "signature verification failed"
    else if Unix (now + ttl) <? Unix now' then Err "token expired" else Ok c.
Proof.
  intros W R c unsigned. unfold ValidateJWT, GenerateJWT. cbv zeta. rewrite token_parts. fold c. fold unsigned.
  rewrite !base64_url_roundtrip. rewrite claims_read; [done|by destruct W|done].
Qed.

End Jwt.

End jwt.
