(* ===== verification/Throttle.v ===== *)
(** * The authentication throttle

    [server/security.go]: failed credentials are counted by source address,
    and an address that fails too often is refused for a while. A zero time is
    [None]; the order a loop visits a map in is an argument. *)

From Stdlib Require Import Ascii String.
From stdpp Require Import gmap.
From S2P Require Import Prelude Platform.

Module throttle.
Import platform.

Local Open Scope string_scope.
Local Open Scope Z_scope.

(** Two byte strings compared, an empty secret matching nothing. *)
Definition secretEqual (given want : string) : bool := negb (String.eqb want "") && String.eqb given want.

Record failureWindow : Type := mkWindow { fw_count : Z; fw_windowStart : Z; fw_blockedTill : option Z }.

#[export] Instance eta_failureWindow : Eta failureWindow := fun x => mkWindow (fw_count x) (fw_windowStart x) (fw_blockedTill x).

Record authThrottle : Type := mkThrottle {
  failures : gmap string failureWindow;
  limit : Z;
  window : Z;
  lockout : Z;
  maxTracked : Z;
}.

#[export] Instance eta_authThrottle : Eta authThrottle :=
  fun x => mkThrottle (failures x) (limit x) (window x) (lockout x) (maxTracked x).

Definition Minute : Z := 60 * Second.

Definition newAuthThrottle : authThrottle := mkThrottle ∅ 20 Minute Minute 8192.

(** [now.Before(t)] and [now.After(t)]. *)
Definition Before (now : Z) (t : option Z) : bool := match t with Some t => now <? t | None => false end.
Definition After (now : Z) (t : option Z) : bool := match t with Some t => t <? now | None => true end.

Definition serving (now : Z) (f : failureWindow) : bool := Before now (fw_blockedTill f).

(** The second loop of [makeRoomLocked]: the stalest address not blocked. *)
Definition stalest (order : list string) (now : Z) (m : gmap string failureWindow) : string :=
  fst (fold_left (fun acc addr =>
    match m !! addr with
    | Some f =>
      if serving now f then acc
      else if String.eqb acc.1 "" || (fw_windowStart f <? acc.2) then (addr, fw_windowStart f) else acc
    | None => acc
    end) order ("", 0)).

Definition makeRoomLocked (order : list string) (now : Z) (t : authThrottle) : authThrottle :=
  let kept := filter (fun kv => serving now kv.2 || (now - fw_windowStart kv.2 <=? window t) = true) (failures t) in
  if (size kept <? size (failures t))%nat then t <| failures := kept |> else
  let addr := stalest order now (failures t) in
  if String.eqb addr "" then t else t <| failures ::= delete addr |>.

Definition blocked (addr : string) (now : Z) (t : authThrottle) : authThrottle * bool :=
  match failures t !! addr with
  | None => (t, false)
  | Some f =>
    if After now (fw_blockedTill f) && (window t <? now - fw_windowStart f)
    then (t <| failures ::= delete addr |>, false)
    else (t, serving now f)
  end.

Definition full (t : authThrottle) : bool := maxTracked t <=? Z.of_nat (size (failures t)).

Definition track (addr : string) (now : Z) (t : authThrottle) : authThrottle :=
  t <| failures ::= insert addr (mkWindow 1 now None) |>.

(** The flag says the lockout was tripped. *)
Definition fail (order : list string) (addr : string) (now : Z) (t : authThrottle) : authThrottle * bool :=
  match failures t !! addr with
  | None =>
    if full t then
      let t := makeRoomLocked order now t in
      if full t then (t, false) else (track addr now t, false)
    else (track addr now t, false)
  | Some f =>
    if window t <? now - fw_windowStart f then (track addr now t, false) else
    let f := f <| fw_count ::= Z.add 1 |> in
    if (limit t <=? fw_count f) && After now (fw_blockedTill f)
    then (t <| failures ::= insert addr (f <| fw_blockedTill := Some (now + lockout t) |>) |>, true)
    else (t <| failures ::= insert addr f |>, false)
  end.

Definition succeed (addr : string) (t : authThrottle) : authThrottle := t <| failures ::= delete addr |>.

(** ** Attempts

    What a route does with the throttle once it asks it: an address serving a
    lockout is refused before its credential is looked at, and otherwise the
    credential is judged, unless the request is answered without that.
    [GateProps.serve_spec] shows for each route which visits ask the throttle,
    and that those act on it as [try] says. *)

Inductive credential : Type := Right | Wrong | Unjudged.

Record attempt : Type := mkAttempt { at_time : Z; at_addr : string; at_credential : credential; at_order : list string }.

Inductive outcome : Type := TooMany | Accepted | Failed | Answered.

Definition try (a : attempt) (t : authThrottle) : authThrottle * outcome :=
  let '(t, b) := blocked (at_addr a) (at_time a) t in
  if (b : bool) then (t, TooMany) else
  match at_credential a with
  | Right => (succeed (at_addr a) t, Accepted)
  | Wrong => (fst (fail (at_order a) (at_addr a) (at_time a) t), Failed)
  | Unjudged => (t, Answered)
  end.

Fixpoint tries (l : list attempt) (t : authThrottle) : authThrottle * list (attempt * outcome) :=
  match l with
  | [] => (t, [])
  | a :: l => let '(t, o) := try a t in let '(t, r) := tries l t in (t, (a, o) :: r)
  end.

(** ** A lockout holds *)

Definition sane (t : authThrottle) : Prop := Z.of_nat (size (failures t)) <= maxTracked t /\ 0 <= maxTracked t.

Definition same_settings (t t' : authThrottle) : Prop :=
  limit t' = limit t /\ window t' = window t /\ lockout t' = lockout t /\ maxTracked t' = maxTracked t.

Lemma stalest_not_serving order now m f : m !! stalest order now m = Some f -> stalest order now m <> "" -> serving now f = false.
Proof.
  unfold stalest. set (step := fun (acc : string * Z) addr => _).
  assert (G : forall order acc, (acc.1 <> "" -> forall f, m !! acc.1 = Some f -> serving now f = false) ->
    (fold_left step order acc).1 <> "" -> forall f, m !! (fold_left step order acc).1 = Some f -> serving now f = false).
  { clear. intros order. induction order as [|addr order IH]; intros acc H; [exact H|]. cbn. apply IH. unfold step.
    destruct (m !! addr) as [f|] eqn:E; [|done]. destruct (serving now f) eqn:S; [done|].
    case_match; [|done]. cbn. intros _ g. rewrite E. by intros [= <-]. }
  intros E N. by eapply (G order ("", 0)).
Qed.

Lemma room_keeps order now t addr f :
  failures t !! addr = Some f -> serving now f = true -> failures (makeRoomLocked order now t) !! addr = Some f.
Proof.
  intros E S. unfold makeRoomLocked. case_match.
  - cbn. apply map_lookup_filter_Some. split; [done|]. cbn. by rewrite S.
  - case_match eqn:N; [done|]. cbn. apply String.eqb_neq in N. rewrite lookup_delete_ne; [done|]. intros A.
    rewrite <- A in E. by rewrite (stalest_not_serving order now (failures t) f) in S.
Qed.

Lemma room_size order now t : (size (failures (makeRoomLocked order now t)) <= size (failures t))%nat.
Proof.
  unfold makeRoomLocked. case_match; cbn; [apply map_size_filter|]. case_match; [done|]. cbn.
  rewrite map_size_delete. destruct (_ !! _); cbn; lia.
Qed.

Lemma room_settings order now t : same_settings t (makeRoomLocked order now t).
Proof. unfold makeRoomLocked, same_settings. repeat case_match; done. Qed.

#[export] Instance same_settings_refl : Reflexive same_settings.
Proof. done. Qed.

#[export] Instance same_settings_trans : Transitive same_settings.
Proof. intros a b c (A1 & A2 & A3 & A4) (B1 & B2 & B3 & B4). repeat split; congruence. Qed.

Lemma blocked_settings addr now t : same_settings t (blocked addr now t).1.
Proof. unfold blocked. repeat case_match; done. Qed.

Lemma fail_settings order addr now t : same_settings t (fail order addr now t).1.
Proof.
  unfold fail. repeat case_match; cbn; try done; etrans; [apply (room_settings order now)|done|apply (room_settings order now)|done].
Qed.

Lemma try_settings a t : same_settings t (try a t).1.
Proof.
  unfold try. pose proof (blocked_settings (at_addr a) (at_time a) t) as B. destruct (blocked _ _ _) as [t1 b].
  destruct b; [done|]. destruct (at_credential a); [done| |done]. etrans; [exact B|apply fail_settings].
Qed.

Lemma track_sane addr now t : full t = false -> sane t -> sane (track addr now t).
Proof.
  unfold full, sane, track. intros F [S M]. bools. cbn. split; [|done]. rewrite map_size_insert. destruct (_ !! _); cbn; lia.
Qed.

Lemma insert_sane addr f t : is_Some (failures t !! addr) -> sane t -> sane (t <| failures ::= insert addr f |>).
Proof. intros [g E] [S M]. split; [|done]. cbn. by rewrite map_size_insert, E. Qed.

Lemma delete_sane addr t : sane t -> sane (t <| failures ::= delete addr |>).
Proof. intros [S M]. split; [|done]. cbn. rewrite map_size_delete. destruct (_ !! _); cbn; lia. Qed.

Lemma fail_sane order addr now t : sane t -> sane (fail order addr now t).1.
Proof.
  intros S. unfold fail. destruct (failures t !! addr) as [f|] eqn:E.
  - case_match; [unfold track; by apply insert_sane|]. case_match; apply insert_sane; done.
  - destruct (full t) eqn:F; [|by apply track_sane].
    assert (sane (makeRoomLocked order now t)) as S'.
    { destruct (room_settings order now t) as (_ & _ & _ & M). destruct S as [S1 S2]. unfold sane. rewrite M.
      pose proof (room_size order now t). lia. }
    destruct (full (makeRoomLocked order now t)) eqn:F'; [done|by apply track_sane].
Qed.

Lemma try_sane a t : sane t -> sane (try a t).1.
Proof.
  intros S. unfold try. assert (S' : sane (blocked (at_addr a) (at_time a) t).1).
  { unfold blocked. repeat case_match; try done. by apply delete_sane. }
  destruct (blocked _ _ _) as [t1 b]. cbn in S'. destruct b; [done|]. destruct (at_credential a); [by apply delete_sane|by apply fail_sane|done].
Qed.

(** An address is locked out until [till]. *)
Definition locked (addr : string) (till : Z) (t : authThrottle) : Prop :=
  exists f, failures t !! addr = Some f /\ fw_blockedTill f = Some till.

Lemma locked_try addr till a t :
  locked addr till t -> at_time a < till ->
  locked addr till (try a t).1 /\ (at_addr a = addr -> (try a t).2 = TooMany).
Proof.
  intros (f & E & B) T. assert (S : serving (at_time a) f = true) by (unfold serving; rewrite B; cbn; lia).
  assert (N : After (at_time a) (fw_blockedTill f) = false) by (rewrite B; cbn; lia).
  destruct (decide (at_addr a = addr)) as [<-|Ne].
  { unfold try, blocked. rewrite E, N, S. cbn. split; [by exists f|done]. }
  split; [|done]. unfold try. set (x := blocked _ _ _).
  assert (E' : failures x.1 !! addr = Some f) by (unfold x, blocked; repeat case_match; cbn; rewrite ?lookup_delete_ne by done; done).
  destruct x as [t1 b]. cbn in E'. destruct b; [by exists f|]. destruct (at_credential a); [exists f; cbn; by rewrite lookup_delete_ne| |by exists f].
  exists f. split; [|done]. unfold fail. destruct (failures t1 !! at_addr a) as [g|].
  - case_match; [|case_match]; cbn; by rewrite lookup_insert_ne.
  - destruct (full t1); [|cbn; by rewrite lookup_insert_ne]. apply (room_keeps (at_order a) (at_time a)) in E'; [|done].
    destruct (full _); [done|]. cbn. by rewrite lookup_insert_ne.
Qed.

Lemma tries_sane l : forall t, sane t -> sane (tries l t).1.
Proof.
  induction l as [|a l IH]; intros t S; [done|]. cbn. apply (try_sane a) in S. destruct (try a t) as [t1 o]. cbn in S.
  apply IH in S. by destruct (tries l t1).
Qed.

Lemma fail_locks order addr now t : (fail order addr now t).2 = true -> locked addr (now + lockout t) (fail order addr now t).1.
Proof.
  unfold fail. destruct (failures t !! addr) as [f|]; [|repeat case_match; done].
  case_match; [done|]. case_match; [|done]. intros _. eexists. cbn. by rewrite lookup_insert_eq.
Qed.

Lemma tries_settings l : forall t, same_settings t (tries l t).1.
Proof.
  induction l as [|a l IH]; intros t; [done|]. cbn. pose proof (try_settings a t) as T. destruct (try a t) as [t1 o].
  specialize (IH t1). destruct (tries l t1). etrans; [exact T|exact IH].
Qed.

(** The failure that reaches the limit locks its address out. *)
Lemma twentieth a t f :
  same_settings newAuthThrottle t -> at_credential a = Wrong -> failures t !! at_addr a = Some f -> 19 <= fw_count f ->
  at_time a - fw_windowStart f <= Minute -> After (at_time a) (fw_blockedTill f) = true ->
  locked (at_addr a) (at_time a + Minute) (try a t).1.
Proof.
  intros (L & W & K & _) Wr E C Wi A. cbn in L, W, K. unfold try, blocked. rewrite E, A, W, Wr. cbn [andb].
  assert (Q : (Minute <? at_time a - fw_windowStart f) = false) by lia. rewrite Q.
  assert (S : serving (at_time a) f = false).
  { unfold serving, Before, After in *. destruct (fw_blockedTill f); lia. }
  rewrite S. cbn [fst]. rewrite <- K. apply fail_locks. unfold fail. rewrite E, W, Q, L. cbn. rewrite A.
  by assert ((20 <=? 1 + fw_count f) = true) as -> by lia.
Qed.

(** ** Guesses are limited

    The failures an address is answered fall into windows: each opens more
    than a window after the last one did, and holds no more than the limit. *)

Definition guesses (addr : string) (r : list (attempt * outcome)) : list Z :=
  omap (fun x => match x.2 with
                 | Failed => if String.eqb (at_addr x.1) addr then Some (at_time x.1) else None
                 | _ => None
                 end) r.

Definition in_span (s w : Z) (l : list Z) : Z := Z.of_nat (length (filter (fun x => s <= x <= s + w) l)).

Section Windows.

Context (W L : Z).

Fixpoint chain (blocks : list (Z * list Z)) : Prop :=
  match blocks with
  | [] => True
  | (w, b) :: rest =>
    Forall (fun x => w <= x <= w + W) b /\ Z.of_nat (length b) + 1 <= L
    /\ match rest with (w', _) :: _ => w' + W < w | [] => True end /\ chain rest
  end.

Definition flat (blocks : list (Z * list Z)) : list Z := flat_map (fun wb => wb.1 :: wb.2) blocks.

Lemma in_span_app s w a b : in_span s w (a ++ b) = in_span s w a + in_span s w b.
Proof. unfold in_span. rewrite filter_app, length_app. lia. Qed.

Lemma in_span_perm s w a b : a ≡ₚ b -> in_span s w a = in_span s w b.
Proof. intros P. unfold in_span. by rewrite P. Qed.

Lemma in_span_length s w l : in_span s w l <= Z.of_nat (length l).
Proof. unfold in_span. pose proof (length_filter (fun x => s <= x <= s + w) l). lia. Qed.

Lemma in_span_none s w l : Forall (fun x => x < s \/ s + w < x) l -> in_span s w l = 0.
Proof.
  unfold in_span. induction l as [|x l IH]; [done|]. intros H. inversion H; subst. rewrite filter_cons_False by lia. by apply IH.
Qed.

Lemma in_span_cons_out s w x l : x < s -> in_span s w (x :: l) = in_span s w l.
Proof. intros H. unfold in_span. by rewrite filter_cons_False by lia. Qed.

Lemma chain_before blocks : forall w b, 0 <= W -> chain ((w, b) :: blocks) -> Forall (fun x => x < w) (flat blocks).
Proof.
  induction blocks as [|[w' b'] blocks IH]; intros w b HW (_ & _ & G & C); [constructor|].
  pose proof (IH w' b' HW C) as R. destruct C as (F & _). cbn. constructor; [cbn; lia|]. apply Forall_app. split.
  - eapply Forall_impl; [exact F|]. cbn. lia.
  - eapply Forall_impl; [exact R|]. cbn. lia.
Qed.

Lemma chain_tail_within s w b blocks :
  0 <= W -> 1 <= L -> chain ((w, b) :: blocks) -> w < s -> in_span s W (flat ((w, b) :: blocks)) <= L - 1.
Proof.
  intros HW HL C H. pose proof (chain_before blocks w b HW C) as R. destruct C as (_ & Lb & _).
  change (flat ((w, b) :: blocks)) with (w :: (b ++ flat blocks))%list.
  rewrite in_span_cons_out, in_span_app by done. rewrite (in_span_none s W (flat blocks)).
  2: { eapply Forall_impl; [exact R|]. cbn. lia. }
  pose proof (in_span_length s W b). lia.
Qed.

Lemma chain_within s blocks : 0 <= W -> 1 <= L -> chain blocks -> in_span s W (flat blocks) <= 2 * L - 1.
Proof.
  intros HW HL. induction blocks as [|[w b] blocks IH]; intros C; [change (0 <= 2 * L - 1); lia|].
  destruct (decide (w < s)) as [H|H]; [pose proof (chain_tail_within s w b blocks HW HL C H); lia|].
  destruct C as (F & Lb & G & C). specialize (IH C).
  change (flat ((w, b) :: blocks)) with ((w :: b) ++ flat blocks)%list. rewrite in_span_app.
  destruct (decide (s + W < w)) as [H'|H'].
  - rewrite (in_span_none s W (w :: b)); [lia|]. constructor; [lia|]. eapply Forall_impl; [exact F|]. cbn. lia.
  - assert (in_span s W (flat blocks) <= L - 1).
    { destruct blocks as [|[w' b'] blocks]; [change (0 <= L - 1); lia|]. apply chain_tail_within; [done..|lia]. }
    pose proof (in_span_length s W (w :: b)) as Lw. cbn [length] in Lw. lia.
Qed.

End Windows.

(** The failures of [addr] so far, in their windows, and what the throttle
    remembers of the last of them at [now]. *)
Definition remembers (addr : string) (now : Z) (t : authThrottle) (blocks : list (Z * list Z)) : Prop :=
  chain (window t) (limit t) blocks /\
  match failures t !! addr, blocks with
  | None, [] => True
  | None, (w, _) :: _ => w + window t < now
  | Some _, [] => False
  | Some f, (w, b) :: _ =>
    fw_windowStart f = w /\ w <= now /\ fw_count f = Z.of_nat (length b) + 1
    /\ (fw_count f < limit t /\ fw_blockedTill f = None
        \/ exists trip, w < trip /\ fw_blockedTill f = Some (trip + lockout t))
  end.

Definition strict (t : authThrottle) : Prop := 2 <= limit t /\ 0 <= window t <= lockout t.

Lemma remembers_later addr now now' t blocks : remembers addr now t blocks -> now <= now' -> remembers addr now' t blocks.
Proof.
  unfold remembers. intros [C M] H. split; [done|]. destruct (failures t !! addr), blocks as [|[w b] blocks]; try done; [|lia].
  destruct M as (Ew & N & R). split; [done|]. split; [lia|done].
Qed.

Lemma remembers_same addr now t t' blocks :
  same_settings t t' -> failures t' !! addr = failures t !! addr -> remembers addr now t blocks -> remembers addr now t' blocks.
Proof. intros (L & W & K & M) E. unfold remembers. by rewrite L, W, K, E. Qed.

Lemma remembers_blocked addr now t blocks :
  remembers addr now t blocks -> remembers addr now (blocked addr now t).1 blocks.
Proof.
  intros R. unfold blocked. destruct (failures t !! addr) as [f|] eqn:E; [|done]. case_match eqn:X; [|done].
  bools. destruct R as [C M]. split; [done|]. cbn. rewrite lookup_delete_eq. rewrite E in M.
  destruct blocks as [|[w b] blocks]; [done|]. destruct M as (? & _). lia.
Qed.

(** The last window opened before [now]. *)
Definition opened_before (now : Z) (blocks : list (Z * list Z)) : Prop :=
  match blocks with (w, _) :: _ => w < now | [] => True end.

Lemma remembers_opened addr last now t blocks :
  strict t -> remembers addr last t blocks -> last < now -> opened_before now blocks.
Proof.
  intros (_ & W) [_ M] N. destruct blocks as [|[w b] blocks]; [done|]. cbn. destruct (failures t !! addr); lia.
Qed.

Lemma remembers_fail order addr now t blocks :
  strict t -> remembers addr now t blocks -> opened_before now blocks -> full t = false \/ is_Some (failures t !! addr) ->
  (forall f, failures t !! addr = Some f -> serving now f = false) ->
  exists blocks', remembers addr now (fail order addr now t).1 blocks' /\ flat blocks' ≡ₚ now :: flat blocks.
Proof.
  intros (L2 & W0) [C M] N F S. unfold fail. destruct (failures t !! addr) as [f|] eqn:E.
  - specialize (S f eq_refl). destruct blocks as [|[w b] blocks]; [done|]. destruct M as (Ew & Nw & Ec & B).
    destruct (window t <? now - fw_windowStart f) eqn:X.
    + exists ((now, []) :: (w, b) :: blocks). split; [|done]. split.
      * cbn. cbn in C. split; [constructor|]. split; [cbn; lia|]. split; [lia|done].
      * cbn. rewrite lookup_insert_eq. cbn. repeat split; [lia|]. left. split; [lia|done].
    + apply Z.ltb_ge in X. assert (fw_count f < limit t /\ fw_blockedTill f = None) as [Lt Bn].
      { destruct B as [B|(trip & T & B)]; [done|]. unfold serving in S. rewrite B in S. apply Z.ltb_ge in S. lia. }
      exists ((w, now :: b) :: blocks). split; [|cbn; apply perm_swap]. cbn in C. destruct C as (Fb & Lb & G & C). split.
      * assert (Cn : chain (window t) (limit t) ((w, now :: b) :: blocks)) by
          (cbn; split; [constructor; [lia|done]|]; split; [lia|done]).
        destruct (_ && _); exact Cn.
      * destruct ((limit t <=? _) && _) eqn:Y; cbn; rewrite lookup_insert_eq; cbn; cbn in Y; rewrite ?Bn in *; cbn in *.
        -- repeat split; [done|lia|lia|]. right. exists now. split; [lia|done].
        -- repeat split; [done|lia|lia|]. left. split; [|done]. rewrite andb_true_r in Y. apply Z.leb_gt in Y. lia.
  - destruct F as [->|[? ?]]; [|done]. exists ((now, []) :: blocks). split; [|done]. split.
    + cbn. repeat split; [constructor|lia| |done]. destruct blocks as [|[w b] blocks]; [done|]. lia.
    + cbn. rewrite lookup_insert_eq. cbn. repeat split; [lia|]. left. split; [lia|done].
Qed.

(** A throttle that has room for every address of [A]. *)
Definition roomy (A : gset string) (t : authThrottle) : Prop :=
  dom (failures t) ⊆ A /\ Z.of_nat (size A) <= maxTracked t.

Lemma roomy_not_full A addr t : roomy A t -> addr ∈ A -> failures t !! addr = None -> full t = false.
Proof.
  intros [D S] E N. unfold full. apply Z.leb_gt. rewrite <- size_dom.
  assert (size (dom (failures t)) < size A)%nat; [|lia]. apply subset_size. split; [done|]. intros Q.
  apply Q, elem_of_dom in E as [f E]. congruence.
Qed.

Lemma roomy_blocked A addr now t : roomy A t -> roomy A (blocked addr now t).1.
Proof.
  intros [D S]. unfold blocked. repeat case_match; try done. split; [|done]. cbn. set_solver.
Qed.

Lemma fail_unfull order addr now t : full t = false \/ is_Some (failures t !! addr) ->
  exists f, failures (fail order addr now t).1 = <[addr := f]> (failures t).
Proof.
  intros H. unfold fail. destruct (failures t !! addr) as [f|].
  - case_match; [by eexists|]. case_match; by eexists.
  - destruct H as [->|[? ?]]; [by eexists|done].
Qed.

Lemma roomy_unfull A addr t : roomy A t -> addr ∈ A -> full t = false \/ is_Some (failures t !! addr).
Proof. intros R E. destruct (failures t !! addr) eqn:X; [by right|left; by eapply roomy_not_full]. Qed.

Lemma roomy_try A a t : roomy A t -> at_addr a ∈ A -> roomy A (try a t).1.
Proof.
  intros R E. unfold try. apply (roomy_blocked A (at_addr a) (at_time a)) in R. destruct (blocked _ _ _) as [t1 b]. cbn in R.
  destruct b; [done|]. destruct (at_credential a); [destruct R as [D S]; split; [cbn; set_solver|done]| |done].
  pose proof (fail_settings (at_order a) (at_addr a) (at_time a) t1) as (_ & _ & _ & M).
  destruct (fail_unfull (at_order a) (at_addr a) (at_time a) t1 (roomy_unfull A _ _ R E)) as [f X].
  destruct R as [D S]. cbn. split; [rewrite X, dom_insert; set_solver|by rewrite M].
Qed.

Lemma try_other A addr a t : roomy A t -> at_addr a ∈ A -> at_addr a <> addr -> failures (try a t).1 !! addr = failures t !! addr.
Proof.
  intros R E N. unfold try. apply (roomy_blocked A (at_addr a) (at_time a)) in R.
  assert (X : failures (blocked (at_addr a) (at_time a) t).1 !! addr = failures t !! addr).
  { unfold blocked. repeat case_match; cbn; rewrite ?lookup_delete_ne by done; done. }
  destruct (blocked _ _ _) as [t1 b]. cbn in R, X. destruct b; [done|].
  destruct (at_credential a); [cbn; by rewrite lookup_delete_ne| |done].
  destruct (fail_unfull (at_order a) (at_addr a) (at_time a) t1 (roomy_unfull A _ _ R E)) as [f Y].
  cbn. rewrite Y. by rewrite lookup_insert_ne.
Qed.

Lemma blocked_not_serving addr now t f :
  (blocked addr now t).2 = false -> failures (blocked addr now t).1 !! addr = Some f -> serving now f = false.
Proof.
  unfold blocked. destruct (failures t !! addr) as [g|] eqn:X; cbn; [|congruence]. case_match; cbn; [by rewrite lookup_delete_eq|].
  intros S. rewrite X. by intros [= <-].
Qed.

Lemma strict_same t t' : same_settings t t' -> strict t -> strict t'.
Proof. intros (L & W & K & _). unfold strict. by rewrite L, W, K. Qed.

(** One attempt: the windows of [addr] grow by the guess it was, if any. *)
Lemma remembers_try A addr last a t blocks :
  strict t -> roomy A t -> at_addr a ∈ A -> (at_addr a = addr -> at_credential a <> Right) ->
  remembers addr last t blocks -> last < at_time a ->
  exists blocks', remembers addr (at_time a) (try a t).1 blocks'
    /\ flat blocks' ≡ₚ (guesses addr [(a, (try a t).2)] ++ flat blocks)%list.
Proof.
  intros St R Ea V M N. destruct (decide (at_addr a = addr)) as [Eq|Ne].
  2: { exists blocks. split.
    - apply (remembers_later addr last); [|lia]. apply (remembers_same addr last t); [apply try_settings| |done]. by eapply try_other.
    - unfold guesses. cbn. apply String.eqb_neq in Ne. rewrite Ne. by destruct (try a t).2. }
  subst addr. specialize (V eq_refl). unfold try. set (x := blocked _ _ _).
  assert (Rx : roomy A x.1) by by apply roomy_blocked.
  assert (Sx : strict x.1) by (eapply strict_same; [apply blocked_settings|exact St]).
  assert (Mx : remembers (at_addr a) (at_time a) x.1 blocks) by (apply remembers_blocked; eapply remembers_later; [done|lia]).
  pose proof (blocked_not_serving (at_addr a) (at_time a) t) as Ns. fold x in Ns.
  assert (O : opened_before (at_time a) blocks) by (exact (remembers_opened _ _ _ _ _ St M N)).
  destruct x as [t1 b]. cbn in *. destruct b; [exists blocks; by split|].
  destruct (at_credential a); [done| |exists blocks; by split]. cbn.
  unfold guesses. cbn. rewrite String.eqb_refl.
  apply remembers_fail; [done..|by eapply roomy_unfull|]. intros f. by apply Ns.
Qed.

#[local] Arguments guesses : simpl never.

Lemma guesses_app addr a b : guesses addr (a ++ b) = (guesses addr a ++ guesses addr b)%list.
Proof. apply omap_app. Qed.

Lemma tries_app l l' : forall t,
  tries (l ++ l') t = ((tries l' (tries l t).1).1, (tries l t).2 ++ (tries l' (tries l t).1).2)%list.
Proof.
  induction l as [|a l IH]; intros t; cbn; [by destruct (tries l' t)|]. destruct (try a t) as [t1 o]. rewrite IH.
  by destruct (tries l t1).
Qed.

(** Attempts at strictly later instants, one after the other. *)
Fixpoint later_than (last : Z) (l : list attempt) : Prop :=
  match l with
  | [] => True
  | a :: l => last < at_time a /\ later_than (at_time a) l
  end.

Lemma remembers_tries A addr l : forall last t blocks,
  strict t -> roomy A t -> Forall (fun a => at_addr a ∈ A /\ (at_addr a = addr -> at_credential a <> Right)) l ->
  remembers addr last t blocks -> later_than last l ->
  exists blocks', chain (window t) (limit t) blocks' /\ flat blocks' ≡ₚ (guesses addr (tries l t).2 ++ flat blocks)%list.
Proof.
  induction l as [|a l IH]; intros last t blocks St R F M N.
  { exists blocks. split; [by destruct M|done]. }
  inversion F as [|? ? [Ea Va] Fl]; subst. destruct N as [N Nl].
  destruct (remembers_try A addr last a t blocks) as (b1 & M1 & P1); [done..|].
  pose proof (try_settings a t) as T. pose proof (roomy_try A a t R Ea) as R1. cbn.
  destruct (try a t) as [t1 o]. cbn in *.
  destruct (IH (at_time a) t1 b1 (strict_same _ _ T St) R1 Fl M1 Nl) as (b2 & C2 & P2).
  destruct (tries l t1) as [t2 r]. cbn in *. exists b2. destruct T as (-> & -> & _) in C2 |- *. split; [done|].
  change ((a, o) :: r) with ([(a, o)] ++ r)%list. rewrite guesses_app, P2, P1. solve_Permutation.
Qed.

(** An address that shows no right credential is answered at most 39 guesses in
    any span of a minute, however its attempts are spread and whatever other
    addresses do, while no more addresses fail than the throttle can track. *)
Lemma guesses_limited (l : list attempt) (addr : string) (start : Z) :
  later_than start l ->
  Forall (fun a => at_addr a = addr -> at_credential a <> Right) l ->
  Z.of_nat (size (list_to_set (at_addr <$> l) : gset string)) <= 8192 ->
  forall s, in_span s Minute (guesses addr (tries l newAuthThrottle).2) <= 39.
Proof.
  intros N V S s.
  destruct (remembers_tries (list_to_set (at_addr <$> l)) addr l start newAuthThrottle []) as (b & C & P).
  - by split.
  - split; [cbn; set_solver|done].
  - apply Forall_forall. intros a E. split; [|by apply (proj1 (Forall_forall _ _) V)].
    apply elem_of_list_to_set, list_elem_of_fmap. by exists a.
  - split; [done|]. cbn. by rewrite lookup_empty.
  - done.
  - rewrite app_nil_r in P. rewrite <- (in_span_perm s Minute _ _ P).
    by apply (chain_within (window newAuthThrottle) (limit newAuthThrottle) s b).
Qed.

End throttle.

Module throttle_example.
Import platform throttle.

Local Open Scope string_scope.
Local Open Scope Z_scope.

Definition wrong (n : nat) : attempt := mkAttempt (Z.of_nat n * Second) "198.51.100.7" Wrong [].

(** Twenty-five wrong credentials, one a second: the twentieth locks the
    address out. *)
Definition guessing : list attempt := wrong <$> seq 1 25.

Lemma guesses_limited_witness :
  guesses "198.51.100.7" (tries guessing newAuthThrottle).2 = (fun n => Z.of_nat n * Second) <$> seq 1 20
  /\ in_span Second Minute (guesses "198.51.100.7" (tries guessing newAuthThrottle).2) <= 39.
Proof.
  split; [vm_compute; reflexivity|]. apply (guesses_limited guessing "198.51.100.7" 0).
  - cbv; repeat split.
  - apply Forall_fmap, Forall_forall. done.
  - vm_compute. discriminate.
Defined.

Definition nineteen : authThrottle := (tries (wrong <$> seq 1 19) newAuthThrottle).1.

(** A right key does not end the lockout early, and another address is not
    held by it. *)
Definition meanwhile : list attempt :=
  [mkAttempt (21 * Second) "198.51.100.7" Right []; mkAttempt (22 * Second) "203.0.113.9" Right [];
   mkAttempt (79 * Second) "198.51.100.7" Right []].

Lemma lockout_example :
  let t := (fail [] "198.51.100.7" (20 * Second) nineteen).1 in
  snd <$> (tries meanwhile t).2 = [TooMany; Accepted; TooMany].
Proof. vm_compute. reflexivity. Qed.

End throttle_example.
