(* ===== verification/Operators.v ===== *)
(** * Operators of the console

    The operator list of [storage/storage.go] and the identities of
    [storage/operator_identity.go]. A change of the list reads it and then
    writes: the two halves are definitions of their own. *)

From Stdlib Require Import Ascii String.
From stdpp Require Import gmap.
From S2P Require Import Prelude.

Module operators.

Local Open Scope string_scope.
Local Open Scope Z_scope.

Record Operator : Type := mkOperator { op_Email : string; op_Role : string; op_CreatedBy : string; op_CreatedAt : Z }.

#[export] Instance eta_Operator : Eta Operator := fun x => mkOperator (op_Email x) (op_Role x) (op_CreatedBy x) (op_CreatedAt x).

(** The table, by its key. *)
Notation table := (gmap string Operator).

Inductive operator_error : Type := NoEmail | NoRole (role : string) | LastAdmin.

Definition OperatorRoles : list string := ["admin"; "analyst"; "auditor"].

Definition validOperatorRole (role : string) : bool := existsb (String.eqb role) OperatorRoles.

Definition role_rank (role : string) : Z :=
  if String.eqb role "admin" then 0 else if String.eqb role "analyst" then 1 else 2.

(** Administrators first, then by address. *)
Definition ListOperators (m : table) : list Operator :=
  sort_slice (fun a b => (role_rank (op_Role a) <? role_rank (op_Role b))
                         || ((role_rank (op_Role a) =? role_rank (op_Role b)) && string_lt (op_Email a) (op_Email b)))
    (map snd (map_to_list m)).

Definition is_admin (o : Operator) : bool := String.eqb (op_Role o) "admin".

Definition CountAdmins (m : table) : Z := Z.of_nat (size (filter (fun kv => is_admin kv.2 = true) m)).

Section Operators.
Context `{Unicode}.

Definition normaliseEmail (email : string) : string := ToLower (TrimSpace email).

Definition GetOperatorRole (email : string) (m : table) : option string := op_Role <$> m !! normaliseEmail email.

(** What [UpsertOperator] decides from the list. *)
Definition upsert_check (email role : string) (m : table) : result operator_error unit :=
  if String.eqb email "" || negb (contains_sub email "@") then Err NoEmail
  else if negb (validOperatorRole role) then Err (NoRole role)
  else if negb (String.eqb role "admin") then
    match GetOperatorRole email m with
    | Some current => if String.eqb current "admin" && (CountAdmins m <=? 1) then Err LastAdmin else Ok tt
    | None => Ok tt
    end
  else Ok tt.

Definition upsert_write (email role createdBy : string) (now : Z) (m : table) : table :=
  <[email := match m !! email with
             | Some o => o <| op_Role := role |>
             | None => mkOperator email role createdBy now
             end]> m.

Definition UpsertOperator (email role createdBy : string) (now : Z) (m : table) : table * result operator_error unit :=
  let email := normaliseEmail email in
  let role := ToLower (TrimSpace role) in
  match upsert_check email role m with
  | Err e => (m, Err e)
  | Ok _ => (upsert_write email role createdBy now m, Ok tt)
  end.

(** Whether [DeleteOperator] goes on to delete. *)
Definition delete_check (email : string) (m : table) : result operator_error bool :=
  match GetOperatorRole email m with
  | None => Ok false
  | Some role => if String.eqb role "admin" && (CountAdmins m <=? 1) then Err LastAdmin else Ok true
  end.

Definition DeleteOperator (email : string) (m : table) : table * result operator_error unit :=
  let email := normaliseEmail email in
  match delete_check email m with
  | Err e => (m, Err e)
  | Ok false => (m, Ok tt)
  | Ok true => (delete email m, Ok tt)
  end.

Definition EnsureBootstrapAdmin (email : string) (now : Z) (m : table) : table * result operator_error unit :=
  let email := normaliseEmail email in
  if String.eqb email "" then (m, Ok tt) else
  match GetOperatorRole email m with
  | Some "admin" => (m, Ok tt)
  | _ => UpsertOperator email "admin" "bootstrap" now m
  end.

(** ** Identities of a sign-in provider *)

Record OperatorIdentity : Type := mkIdentity {
  oi_Issuer : string; oi_Subject : string; oi_Email : string; oi_Role : string; oi_CreatedAt : Z }.

Notation identities := (gmap (string * string) OperatorIdentity).

(** [None]: nobody of the list. *)
Definition ResolveOperatorIdentity (issuer subject email : string) (now : Z) (ops : table) (ids : identities) :
    identities * result string (option OperatorIdentity) :=
  let issuer := TrimSpace issuer in
  let subject := TrimSpace subject in
  let email := normaliseEmail email in
  if String.eqb issuer "" || String.eqb subject "" then (ids, Err "OIDC issuer and subject are required") else
  match ids !! (issuer, subject) with
  | Some identity => (ids, Ok (Some identity))
  | None =>
    match ops !! email with
    | None => (ids, Ok None)
    | Some o =>
      let identity := mkIdentity issuer subject email (op_Role o) now in
      (<[(issuer, subject) := identity]> ids, Ok (Some identity))
    end
  end.

(** ** Changes, one after the other *)

Inductive change : Type :=
| Upsert (email role createdBy : string) (now : Z)
| Delete (email : string)
| Bootstrap (email : string) (now : Z).

Definition apply (c : change) (m : table) : table * result operator_error unit :=
  match c with
  | Upsert email role by_ now => UpsertOperator email role by_ now m
  | Delete email => DeleteOperator email m
  | Bootstrap email now => EnsureBootstrapAdmin email now m
  end.

Definition apply_all (l : list change) (m : table) : table := fold_left (fun m c => fst (apply c m)) l m.

(** Rows are kept under their address and hold a role there is. *)
Definition well_listed (m : table) : Prop :=
  map_Forall (fun email o => op_Email o = email /\ validOperatorRole (op_Role o) = true) m.

(** Trimming and lower-casing an address once is enough. *)
Definition settles (email : string) : Prop := normaliseEmail (normaliseEmail email) = normaliseEmail email.

Definition address (c : change) : string := match c with Upsert email _ _ _ | Delete email | Bootstrap email _ => email end.

Definition has_admin (m : table) : Prop := exists email o, m !! email = Some o /\ is_admin o = true.

Lemma count_has m : 0 < CountAdmins m <-> has_admin m.
Proof.
  unfold CountAdmins, has_admin. split.
  - intros P. destruct (map_choose (filter (fun kv => is_admin kv.2 = true) m)) as (k & o & E).
    { intros N. apply map_size_empty_iff in N. lia. }
    apply map_lookup_filter_Some in E as [E A]. eauto.
  - intros (k & o & E & A). assert (size (filter (fun kv => is_admin kv.2 = true) m) <> 0%nat); [|lia].
    apply map_size_ne_0_lookup. exists k. apply (mk_is_Some _ o). by apply map_lookup_filter_Some.
Qed.

(** Another administrator than [email] when there is more than one. *)
Lemma count_other m email : 1 < CountAdmins m -> exists k o, k <> email /\ m !! k = Some o /\ is_admin o = true.
Proof.
  unfold CountAdmins. intros P. set (f := filter _ m) in P.
  destruct (map_choose (delete email f)) as (k & o & E).
  { intros N. apply map_size_empty_iff in N. rewrite map_size_delete in N. destruct (f !! email); cbn in N; lia. }
  apply lookup_delete_Some in E as [Ne E]. apply map_lookup_filter_Some in E as [E A]. eauto 6.
Qed.

Lemma kept_admin email m m' :
  has_admin m ->
  (forall k, k <> email -> m' !! k = m !! k) ->
  (forall o, m !! email = Some o -> is_admin o = true -> 1 < CountAdmins m \/ exists o', m' !! email = Some o' /\ is_admin o' = true) ->
  has_admin m'.
Proof.
  intros (k & o & E & A) Same Hm. destruct (decide (k = email)) as [->|Ne]; [|exists k, o; by rewrite Same].
  destruct (Hm o E A) as [C|(o' & E' & A')]; [|by exists email, o'].
  destruct (count_other m email C) as (k & o2 & Ne & E2 & A2). exists k, o2. by rewrite Same.
Qed.

Lemma upsert_keeps email role by_ now m :
  settles email -> has_admin m -> has_admin (fst (UpsertOperator email role by_ now m)).
Proof.
  intros NF Ha. unfold UpsertOperator. set (e := normaliseEmail email). set (r := ToLower (TrimSpace role)).
  destruct (upsert_check e r m) as [u|] eqn:C; [|done]. cbn. apply (kept_admin e m); [done| |].
  - intros k Ne. unfold upsert_write. by rewrite lookup_insert_ne.
  - intros o Eo A. unfold upsert_check, GetOperatorRole in C. unfold e in C. rewrite NF in C. fold e in C. rewrite Eo in C. cbn in C.
    unfold is_admin in A. rewrite A in C. destruct (String.eqb r "admin") eqn:R.
    + right. exists (o <| op_Role := r |>). unfold upsert_write. rewrite lookup_insert_eq, Eo. done.
    + left. repeat case_match; try done. cbn in *. lia.
Qed.

Lemma delete_keeps email m : settles email -> has_admin m -> has_admin (fst (DeleteOperator email m)).
Proof.
  intros NF Ha. unfold DeleteOperator. set (e := normaliseEmail email). destruct (delete_check e m) as [[]|] eqn:C; try done.
  cbn. apply (kept_admin e m); [done| |].
  - intros k Ne. by rewrite lookup_delete_ne.
  - intros o Eo A. left. unfold delete_check, GetOperatorRole in C. unfold e in C. rewrite NF in C. fold e in C. rewrite Eo in C.
    cbn in C. unfold is_admin in A. rewrite A in C. cbn in C. case_match; [done|lia].
Qed.

Lemma apply_keeps c m : settles (address c) -> has_admin m -> has_admin (fst (apply c m)).
Proof.
  intros NF Ha. destruct c as [email role by_ now|email|email now]; cbn in *; [by apply upsert_keeps|by apply delete_keeps|].
  assert (N2 : settles (normaliseEmail email)) by (unfold settles; by rewrite NF).
  unfold EnsureBootstrapAdmin. repeat case_match; try done; by apply upsert_keeps.
Qed.

Lemma upsert_listed email role by_ now m : well_listed m -> well_listed (fst (UpsertOperator email role by_ now m)).
Proof.
  intros W. unfold UpsertOperator. set (e := normaliseEmail email). set (r := ToLower (TrimSpace role)).
  destruct (upsert_check e r m) as [u|] eqn:C; [|done]. assert (V : validOperatorRole r = true).
  { unfold upsert_check in C. repeat case_match; try done; by destruct (validOperatorRole r). }
  cbn. unfold upsert_write. apply map_Forall_insert_2; [|done]. destruct (m !! e) as [o|] eqn:E; [|done].
  destruct (W e o E). by cbn.
Qed.

Lemma apply_listed c m : well_listed m -> well_listed (fst (apply c m)).
Proof.
  intros W. destruct c as [email role by_ now|email|email now]; cbn; [by apply upsert_listed| |].
  - unfold DeleteOperator. repeat case_match; try done. by apply map_Forall_delete.
  - unfold EnsureBootstrapAdmin. repeat case_match; try done; by apply upsert_listed.
Qed.

Lemma apply_all_listed l : forall m, well_listed m -> well_listed (apply_all l m).
Proof. unfold apply_all. induction l as [|c l IH]; intros m W; [done|]. cbn. by apply IH, apply_listed. Qed.

(** C39: Once the console has an administrator, no sequence of grants, removals
    and bootstraps leaves it without one, and every row keeps its address and a
    role there is. *)
Theorem last_admin_kept (l : list change) (m : table) :
  Forall (fun c => settles (address c)) l -> 0 < CountAdmins m -> well_listed m ->
  0 < CountAdmins (apply_all l m) /\ well_listed (apply_all l m).
Proof.
  intros F Ha W. split; [|by apply apply_all_listed]. revert Ha. rewrite !count_has. clear W. unfold apply_all. revert m.
  induction F as [|c l E F IH]; intros m Ha; [done|]. cbn. by apply IH, apply_keeps.
Qed.

(** ** Two demotions at once

    Each checks while the other administrator is still there, then both
    write: nobody is left. *)
Lemma racing_demotions a b oa ob now :
  a <> b -> normaliseEmail a = a -> normaliseEmail b = b ->
  contains_sub a "@" = true -> contains_sub b "@" = true -> is_admin oa = true -> is_admin ob = true ->
  let m : table := {[ a := oa; b := ob ]} in
  upsert_check a "auditor" m = Ok tt /\ upsert_check b "auditor" m = Ok tt
  /\ CountAdmins (upsert_write b "auditor" "" now (upsert_write a "auditor" "" now m)) = 0.
Proof.
  intros Ne Na Nb Ca Cb Aa Ab m.
  assert (C : CountAdmins m = 2).
  { unfold CountAdmins, m. rewrite map_filter_insert_True by done. rewrite map_size_insert_None.
    - rewrite map_filter_singleton_True by done. by rewrite map_size_singleton.
    - apply map_lookup_filter_None. left. by rewrite lookup_singleton_ne. }
  assert (Sa : String.eqb a "" = false) by (apply String.eqb_neq; intros ->; done).
  assert (Sb : String.eqb b "" = false) by (apply String.eqb_neq; intros ->; done).
  assert (La : m !! a = Some oa) by (unfold m; by rewrite lookup_insert_eq).
  assert (Lb : m !! b = Some ob) by (unfold m; rewrite lookup_insert_ne by done; by rewrite lookup_singleton_eq).
  repeat split.
  - unfold upsert_check, GetOperatorRole. rewrite Sa, Ca, Na, La, C. cbn. by rewrite andb_false_r.
  - unfold upsert_check, GetOperatorRole. rewrite Sb, Cb, Nb, Lb, C. cbn. by rewrite andb_false_r.
  - destruct (decide (0 < CountAdmins (upsert_write b "auditor" "" now (upsert_write a "auditor" "" now m)))) as [P|]; [|unfold CountAdmins in *; lia].
    apply count_has in P as (k & o & E & A). exfalso. unfold upsert_write in E. rewrite La in E.
    rewrite (lookup_insert_ne m a b), Lb in E by done.
    apply lookup_insert_Some in E as [[<- <-]|[? E]]; [done|].
    apply lookup_insert_Some in E as [[<- <-]|[? E]]; [done|].
    unfold m in E. rewrite lookup_insert_ne, lookup_singleton_ne in E by done. done.
Qed.

(** An identity seen once keeps the role and address of that day, whatever
    became of the operator since. *)
Lemma identity_frozen issuer subject email now ops ids identity :
  ids !! (TrimSpace issuer, TrimSpace subject) = Some identity -> TrimSpace issuer <> "" -> TrimSpace subject <> "" ->
  ResolveOperatorIdentity issuer subject email now ops ids = (ids, Ok (Some identity)).
Proof.
  intros L I S. unfold ResolveOperatorIdentity. apply String.eqb_neq in I, S. by rewrite I, S, L.
Qed.

End Operators.

End operators.

Module operators_example.
Import operators.

Local Open Scope string_scope.

#[local] Existing Instance ascii_only.

Definition ana : string := "ana@example.com".
Definition bo : string := "bo@example.com".

Definition two_admins : gmap string Operator := apply_all [Bootstrap ana 1; Upsert bo "admin" ana 2] ∅.

(** Bo is demoted; Ana, then the last administrator, can be neither demoted
    nor removed. *)
Definition demotions : list change :=
  [Upsert " Bo@Example.com " "Auditor" ana 3; Upsert ana "analyst" bo 4; Delete " ANA@example.com"].

Lemma last_admin_kept_witness :
  map (fun o => (op_Email o, op_Role o)) (ListOperators (apply_all demotions two_admins)) = [(ana, "admin"); (bo, "auditor")]
  /\ 0 < CountAdmins (apply_all demotions two_admins).
Proof.
  split; [vm_compute; reflexivity|]. apply (last_admin_kept demotions two_admins).
  - repeat (apply List.Forall_cons; [vm_compute; reflexivity|]). apply List.Forall_nil.
  - vm_compute. reflexivity.
  - apply apply_all_listed, map_Forall_empty.
Defined.

(** Bo signs in, is removed from the list, and signs in as an administrator. *)
Lemma removed_signs_in :
  let ids := (ResolveOperatorIdentity "https://idp" "s-7" bo 5 two_admins ∅).1 in
  let ops := apply_all [Delete bo] two_admins in
  GetOperatorRole bo ops = None
  /\ (ResolveOperatorIdentity "https://idp" "s-7" bo 6 ops ids).2 = Ok (Some (mkIdentity "https://idp" "s-7" bo "admin" 5)).
Proof. vm_compute. split; reflexivity. Qed.

End operators_example.
