(* ===== verification/Devices.v ===== *)
(** * Device credentials

    [storage/device_identity.go]: the credential an endpoint presents, kept as
    a hash. The random bytes and the clock are arguments. *)

From Stdlib Require Import Ascii String.
From stdpp Require Import gmap.
From S2P Require Import Prelude Canonical CanonicalProps Platform.

Module devices.
Import canonical platform.

Local Open Scope string_scope.
Local Open Scope Z_scope.

Record DeviceCredentialAuth : Type := mkAuth { da_EndpointID : string; da_TenantID : string }.

(** A row of [device_credentials]; [dc_Tenant] and [dc_Hash] are never listed. *)
Record DeviceCredential : Type := mkCredential {
  dc_ID : string;
  dc_EndpointID : string;
  dc_Tenant : string;
  dc_Hash : string;
  dc_CreatedAt : Z;
  dc_LastUsedAt : option Z;
  dc_RevokedAt : option Z;
}.

#[export] Instance eta_DeviceCredential : Eta DeviceCredential :=
  fun x => mkCredential (dc_ID x) (dc_EndpointID x) (dc_Tenant x) (dc_Hash x) (dc_CreatedAt x) (dc_LastUsedAt x) (dc_RevokedAt x).

(** The credentials by id, and the tenants of the endpoints. *)
Record store : Type := mkStore { credentials : gmap string DeviceCredential; endpoints : gmap string string }.

#[export] Instance eta_store : Eta store := fun x => mkStore (credentials x) (endpoints x).

Definition deviceCredentialPrefix : string := "omd_".

Definition some_row {A} (l : list A) : bool := match l with [] => false | _ => true end.

Section Devices.
Context `{Crypto} `{Rows}.

Definition hashEnrollmentToken (token : string) : string := hex_encode (sha256 token).

Definition unrevoked (c : DeviceCredential) : bool := bool_decide (dc_RevokedAt c = None).

Definition live_of (endpointID : string) (c : DeviceCredential) : bool := String.eqb (dc_EndpointID c) endpointID && unrevoked c.

(** [UPDATE device_credentials SET revoked_at = now WHERE endpoint_id = ? AND revoked_at IS NULL]. *)
Definition revoke_live (endpointID : string) (now : Z) (m : gmap string DeviceCredential) : gmap string DeviceCredential :=
  (fun c => if live_of endpointID c then c <| dc_RevokedAt := Some now |> else c) <$> m.

Definition credential_of (raw : string) : string := deviceCredentialPrefix ++ hex_encode raw.

(** The id and the hash are unique. *)
Definition issueDeviceCredentialLocked (endpointID raw idRaw : string) (now : Z) (s : store) :
    store * result string (string * DeviceCredential) :=
  let credential := credential_of raw in
  let id := hex_encode idRaw in
  let hash := hashEnrollmentToken credential in
  match endpoints s !! endpointID with
  | None => (s, Err "endpoint does not exist")
  | Some tenant =>
    if bool_decide (is_Some (credentials s !! id)) then (s, Err "UNIQUE constraint failed: device_credentials.id")
    else if some_row (rows_where (fun c => String.eqb (dc_Hash c) hash) (credentials s))
    then (s, Err "UNIQUE constraint failed: device_credentials.credential_hash")
    else
      let c := mkCredential id endpointID tenant hash now None None in
      (s <| credentials := <[id := c]> (revoke_live endpointID now (credentials s)) |>, Ok (credential, c))
  end.

Definition IssueDeviceCredential (endpointID raw idRaw : string) (now : Z) (s : store) :
    store * result string (string * DeviceCredential) :=
  let endpointID := TrimSpace endpointID in
  if String.eqb endpointID "" then (s, Err "endpoint id is required") else
  issueDeviceCredentialLocked endpointID raw idRaw now s.

(** The latest live credential of an endpoint. *)
Definition latest_live (endpointID : string) (s : store) : option DeviceCredential :=
  pick (fun a b => dc_CreatedAt b <? dc_CreatedAt a) (rows_where (live_of endpointID) (credentials s)).

(** [None]: nothing was issued, the endpoint uses a credential already. *)
Definition EnsureDeviceCredential (endpointID raw idRaw : string) (now : Z) (s : store) : store * result string (option string) :=
  let endpointID := TrimSpace endpointID in
  if String.eqb endpointID "" then (s, Err "endpoint id is required") else
  match latest_live endpointID s ≫= dc_LastUsedAt with
  | Some _ => (s, Ok None)
  | None =>
    let '(s, r) := issueDeviceCredentialLocked endpointID raw idRaw now s in
    (s, x ← r; Ok (Some x.1))
  end.

Definition VerifyDeviceCredential (raw : string) (now : Z) (s : store) : store * option DeviceCredentialAuth :=
  let raw := TrimSpace raw in
  if String.eqb raw "" || negb (HasPrefix raw deviceCredentialPrefix) then (s, None) else
  let hash := hashEnrollmentToken raw in
  match rows_where (fun c => String.eqb (dc_Hash c) hash) (credentials s) with
  | [] => (s, None)
  | c :: _ =>
    if negb (unrevoked c) then (s, None) else
    (s <| credentials ::= fmap (fun c => if String.eqb (dc_Hash c) hash && unrevoked c then c <| dc_LastUsedAt := Some now |> else c) |>,
     Some (mkAuth (dc_EndpointID c) (dc_Tenant c)))
  end.

Definition RevokeDeviceCredentials (endpointID : string) (now : Z) (s : store) : store * result string unit :=
  let endpointID := TrimSpace endpointID in
  if String.eqb endpointID "" then (s, Err "endpoint id is required") else
  if some_row (rows_where (live_of endpointID) (credentials s))
  then (s <| credentials ::= revoke_live endpointID now |>, Ok tt)
  else (s, Err "sql: no rows in result set").

(** The part of [RetireEndpoint] that concerns credentials. *)
Definition retire_credentials (id : string) (now : Z) (s : store) : store := s <| credentials ::= revoke_live id now |>.

(** The part of [DeleteDisposableEndpoint] that concerns credentials. *)
Definition DeleteDisposableEndpoint (id : string) (s : store) : store * result string unit :=
  let id := TrimSpace id in
  if negb (HasPrefix id "diagnostic-") then (s, Err "only diagnostic endpoints may be deleted") else
  (mkStore (filter (fun kv => dc_EndpointID kv.2 <> id) (credentials s)) (delete id (endpoints s)), Ok tt).

(** ** Every sequence of operations *)

Inductive op : Type :=
| Enrol (id tenant : string)
| Issue (endpointID raw idRaw : string) (now : Z)
| Ensure (endpointID raw idRaw : string) (now : Z)
| Verify (raw : string) (now : Z)
| Revoke (endpointID : string) (now : Z)
| Retire (id : string) (now : Z)
| Drop (id : string).

(** [Enrol] stands for the registration of an endpoint, whose tenant may change. *)
Definition perform (o : op) (s : store) : store :=
  match o with
  | Enrol id tenant => s <| endpoints ::= insert id tenant |>
  | Issue e raw i now => (IssueDeviceCredential e raw i now s).1
  | Ensure e raw i now => (EnsureDeviceCredential e raw i now s).1
  | Verify raw now => (VerifyDeviceCredential raw now s).1
  | Revoke e now => (RevokeDeviceCredentials e now s).1
  | Retire id now => retire_credentials id now s
  | Drop id => (DeleteDisposableEndpoint id s).1
  end.

Definition performs (l : list op) (s : store) : store := fold_left (fun s o => perform o s) l s.

Definition empty_store : store := mkStore ∅ ∅.

(** The credential an operation would hand out. *)
Definition would_issue (o : op) : option string :=
  match o with Issue _ raw _ _ | Ensure _ raw _ _ => Some (credential_of raw) | _ => None end.

(** Rows stand under their id, hashes are unique, and an endpoint has at most
    one live credential. *)
Record tidy (s : store) : Prop := {
  td_id : forall id c, credentials s !! id = Some c -> dc_ID c = id;
  td_hash : forall i j c d, credentials s !! i = Some c -> credentials s !! j = Some d -> dc_Hash c = dc_Hash d -> i = j;
  td_live : forall i j c d, credentials s !! i = Some c -> credentials s !! j = Some d ->
    dc_EndpointID c = dc_EndpointID d -> unrevoked c = true -> unrevoked d = true -> i = j;
}.

(** What an operation does to a row already there: it stays the same
    credential, a revoked one stays revoked and a used one used. *)
Definition same_credential (c c' : DeviceCredential) : Prop :=
  dc_ID c' = dc_ID c /\ dc_Hash c' = dc_Hash c /\ dc_EndpointID c' = dc_EndpointID c /\ dc_Tenant c' = dc_Tenant c
  /\ (unrevoked c' = true -> unrevoked c = true) /\ (is_Some (dc_LastUsedAt c) -> is_Some (dc_LastUsedAt c')).

Lemma revoke_lookup e now m i c' : revoke_live e now m !! i = Some c' <->
  exists c, m !! i = Some c /\ c' = if live_of e c then c <| dc_RevokedAt := Some now |> else c.
Proof. unfold revoke_live. rewrite lookup_fmap_Some. naive_solver. Qed.

Lemma revoke_same e now c : same_credential c (if live_of e c then c <| dc_RevokedAt := Some now |> else c).
Proof. case_match; done. Qed.

Lemma revoked_after e now c : dc_EndpointID c = e -> unrevoked (if live_of e c then c <| dc_RevokedAt := Some now |> else c) = false.
Proof.
  intros <-. unfold live_of. rewrite String.eqb_refl. cbn. by destruct (unrevoked c) eqn:U.
Qed.

(** A map whose rows are rows of a tidy store, row by row. *)
Lemma tidy_mapped s s' :
  tidy s -> (forall i c', credentials s' !! i = Some c' -> exists c, credentials s !! i = Some c /\ same_credential c c') -> tidy s'.
Proof.
  intros [I Hh L] Q. split.
  - intros i c' E. destruct (Q i c' E) as (c & Ec & S & _). rewrite S. by apply I.
  - intros i j c' d' E1 E2 Eq. destruct (Q i c' E1) as (c & Ec & _ & Hc & _), (Q j d' E2) as (d & Ed & _ & Hd & _).
    apply (Hh i j c d); congruence.
  - intros i j c' d' E1 E2 Eq U1 U2. destruct (Q i c' E1) as (c & Ec & _ & _ & Hc & _ & Uc & _), (Q j d' E2) as (d & Ed & _ & _ & Hd & _ & Ud & _).
    apply (L i j c d); auto. congruence.
Qed.

Lemma by_hash s c i : tidy s -> credentials s !! i = Some c ->
  rows_where (fun d => String.eqb (dc_Hash d) (dc_Hash c)) (credentials s) = [c].
Proof.
  intros T E. set (f := fun d => _). assert (P : rows_where f (credentials s) ≡ₚ [c]); [|by apply Permutation_singleton_r in P].
  rewrite <- (insert_id (credentials s) i c E), <- insert_delete_eq, rows_where_insert by apply lookup_delete_eq.
  unfold f at 1. rewrite String.eqb_refl. cbn. rewrite rows_where_nil; [done|].
  intros j d Ed. apply lookup_delete_Some in Ed as [Ne Ed]. unfold f. apply String.eqb_neq. intros Q.
  apply Ne, (td_hash s T i j c d); [done..|by symmetry].
Qed.

Lemma no_hash s h : some_row (rows_where (fun c => String.eqb (dc_Hash c) h) (credentials s)) = false ->
  forall i c, credentials s !! i = Some c -> dc_Hash c <> h.
Proof.
  intros N i c E Q. destruct (rows_where _ _) eqn:R; [|done].
  assert (I : c ∈ rows_where (fun c => String.eqb (dc_Hash c) h) (credentials s)).
  { apply rows_where_elem. split; [by apply String.eqb_eq|eauto]. }
  rewrite R in I. set_solver.
Qed.

Lemma tidy_revoke e now s : tidy s -> tidy (s <| credentials ::= revoke_live e now |>).
Proof.
  intros T. apply (tidy_mapped s); [done|]. intros i c' E. cbn in E. apply revoke_lookup in E as (c & E & ->).
  exists c. split; [done|apply revoke_same].
Qed.

(** Issuing either changes nothing, or revokes and adds one row. *)
Lemma issue_cases e raw i now s :
  (issueDeviceCredentialLocked e raw i now s).1 = s /\ (exists err, (issueDeviceCredentialLocked e raw i now s).2 = Err err)
  \/ exists tenant,
    let c := mkCredential (hex_encode i) e tenant (hashEnrollmentToken (credential_of raw)) now None None in
    endpoints s !! e = Some tenant /\ credentials s !! hex_encode i = None
    /\ (forall j d, credentials s !! j = Some d -> dc_Hash d <> dc_Hash c)
    /\ issueDeviceCredentialLocked e raw i now s
       = (s <| credentials := <[hex_encode i := c]> (revoke_live e now (credentials s)) |>, Ok (credential_of raw, c)).
Proof.
  unfold issueDeviceCredentialLocked. destruct (endpoints s !! e) as [tenant|]; [|left; eauto].
  case_bool_decide as B; [left; eauto|]. destruct (some_row _) eqn:R; [left; eauto|]. right. exists tenant.
  split; [done|]. split; [by apply eq_None_not_Some|]. split; [|done]. intros j d. by apply no_hash.
Qed.

Lemma tidy_issue e raw i now s : tidy s -> tidy (issueDeviceCredentialLocked e raw i now s).1.
Proof.
  intros T. destruct (issue_cases e raw i now s) as [[-> _]|(tenant & _ & F & N & ->)]; [done|]. cbv zeta in *. cbn in N |- *.
  set (c := mkCredential _ _ _ _ _ _ _) in *. pose proof (tidy_revoke e now s T) as T'. cbn in T'.
  split; cbn; intros i1.
  - intros d [[<- <-]|[? E]]%lookup_insert_Some; [done|]. by apply (td_id _ T').
  - intros i2 d1 d2 [[<- <-]|[? E1]]%lookup_insert_Some [[<- <-]|[? E2]]%lookup_insert_Some Q; [done|..|by apply (td_hash _ T' i1 i2 d1 d2)].
    + apply revoke_lookup in E2 as (d & Ed & ->). destruct (revoke_same e now d) as (_ & Hd & _). exfalso. apply (N i2 d Ed). by rewrite <- Hd, <- Q.
    + apply revoke_lookup in E1 as (d & Ed & ->). destruct (revoke_same e now d) as (_ & Hd & _). exfalso. apply (N i1 d Ed). by rewrite <- Hd, Q.
  - intros i2 d1 d2 [[<- <-]|[? E1]]%lookup_insert_Some [[<- <-]|[? E2]]%lookup_insert_Some Q U1 U2; [done|..|by apply (td_live _ T' i1 i2 d1 d2)].
    + apply revoke_lookup in E2 as (d & Ed & ->). destruct (revoke_same e now d) as (_ & _ & Hd & _).
      rewrite revoked_after in U2; [done|]. by rewrite <- Hd, <- Q.
    + apply revoke_lookup in E1 as (d & Ed & ->). destruct (revoke_same e now d) as (_ & _ & Hd & _).
      rewrite revoked_after in U1; [done|]. by rewrite <- Hd, Q.
Qed.

Lemma tidy_verify raw now s : tidy s -> tidy (VerifyDeviceCredential raw now s).1.
Proof.
  intros T. unfold VerifyDeviceCredential. case_match; [done|]. case_match; [done|]. case_match; [done|]. cbn.
  apply (tidy_mapped s); [done|]. intros i c' E. cbn in E. apply lookup_fmap_Some in E as (c & <- & E).
  exists c. split; [done|]. by case_match.
Qed.

Lemma tidy_perform o s : tidy s -> tidy (perform o s).
Proof.
  intros T. destruct o; cbn.
  - by destruct T.
  - unfold IssueDeviceCredential. case_match; [done|]. by apply tidy_issue.
  - unfold EnsureDeviceCredential. case_match; [done|]. case_match; [done|].
    pose proof (tidy_issue (TrimSpace endpointID) raw idRaw now s T). by destruct (issueDeviceCredentialLocked _ _ _ _ _).
  - by apply tidy_verify.
  - unfold RevokeDeviceCredentials. case_match; [done|]. case_match; [by apply tidy_revoke|done].
  - by apply tidy_revoke.
  - unfold DeleteDisposableEndpoint. case_match; [done|]. cbn. apply (tidy_mapped s); [done|]. cbn. intros i c' E.
    apply map_lookup_filter_Some in E as [E _]. by exists c'.
Qed.

Lemma tidy_performs l s : tidy s -> tidy (performs l s).
Proof. unfold performs. revert s. induction l as [|o l IH]; intros s T; [done|]. cbn. by apply IH, tidy_perform. Qed.

Lemma tidy_empty : tidy empty_store.
Proof. split; cbn; intros *; by rewrite lookup_empty. Qed.

(** ** The life of a credential *)

Definition live (h e t : string) (s : store) : Prop :=
  exists i c, credentials s !! i = Some c /\ dc_Hash c = h /\ dc_EndpointID c = e /\ dc_Tenant c = t /\ unrevoked c = true.

Definition dead (h : string) (s : store) : Prop :=
  forall i c, credentials s !! i = Some c -> dc_Hash c = h -> unrevoked c = false.

Definition owned (h e : string) (s : store) : Prop :=
  forall i c, credentials s !! i = Some c -> dc_Hash c = h -> dc_EndpointID c = e.

(** The row of hash [h] has been used. *)
Definition used (h : string) (s : store) : Prop :=
  forall i c, credentials s !! i = Some c -> dc_Hash c = h -> is_Some (dc_LastUsedAt c).

(** The credential an operation hands out, and the endpoint it is for. *)
Definition hands_out (o : op) (s : store) : option (string * string) :=
  match o with
  | Issue e raw i now => match (IssueDeviceCredential e raw i now s).2 with Ok x => Some (TrimSpace e, x.1) | Err _ => None end
  | Ensure e raw i now => match (EnsureDeviceCredential e raw i now s).2 with Ok (Some x) => Some (TrimSpace e, x) | _ => None end
  | _ => None
  end.

(** The endpoint whose credentials an operation takes away: it hands out
    another, or revokes, retires or drops, and was not refused. *)
Definition takes (o : op) (s : store) : option string :=
  match o with
  | Issue _ _ _ _ | Ensure _ _ _ _ => fst <$> hands_out o s
  | Revoke e now => if is_ok (RevokeDeviceCredentials e now s).2 then Some (TrimSpace e) else None
  | Retire id _ => Some id
  | Drop id => if is_ok (DeleteDisposableEndpoint id s).2 then Some (TrimSpace id) else None
  | Enrol _ _ | Verify _ _ => None
  end.

(** Some operation of a run takes the credentials of [e] away. *)
Fixpoint taken (e : string) (l : list op) (s : store) : bool :=
  match l with
  | [] => false
  | o :: l => bool_decide (takes o s = Some e) || taken e l (perform o s)
  end.

(** An operation that hands out no credential of hash [h]. *)
Definition other_hash (h : string) (o : op) : Prop :=
  match would_issue o with Some cred => hashEnrollmentToken cred <> h | None => True end.

(** The rows after an operation: rows that were there, and at most the one it
    issued. *)
Definition grows (o : op) (s s' : store) : Prop :=
  forall i c', credentials s' !! i = Some c' ->
    (exists c, credentials s !! i = Some c /\ same_credential c c')
    \/ exists cred, would_issue o = Some cred /\ dc_Hash c' = hashEnrollmentToken cred.

Lemma grows_same o s s' : credentials s' = credentials s -> grows o s s'.
Proof. intros E i c' L. left. rewrite E in L. by exists c'. Qed.

Lemma grows_revoke o e now s s' : credentials s' = revoke_live e now (credentials s) -> grows o s s'.
Proof. intros E i c' L. left. rewrite E in L. apply revoke_lookup in L as (c & L & ->). exists c. split; [done|apply revoke_same]. Qed.

Lemma grows_issue o e raw i now s :
  would_issue o = Some (credential_of raw) -> grows o s (issueDeviceCredentialLocked e raw i now s).1.
Proof.
  intros W. destruct (issue_cases e raw i now s) as [[-> _]|(tenant & _ & _ & _ & ->)]; [by apply grows_same|].
  intros j c' L. cbn in L. apply lookup_insert_Some in L as [[<- <-]|[_ L]]; [right; eauto|]. left. apply revoke_lookup in L as (c & L & ->).
  exists c. split; [done|apply revoke_same].
Qed.

Lemma perform_grows o s : grows o s (perform o s).
Proof.
  destruct o; cbn; try by apply grows_same.
  - unfold IssueDeviceCredential. case_match; [by apply grows_same|]. by apply grows_issue.
  - unfold EnsureDeviceCredential. case_match; [by apply grows_same|]. case_match; [by apply grows_same|].
    pose proof (grows_issue (Ensure endpointID raw idRaw now) (TrimSpace endpointID) raw idRaw now s eq_refl).
    by destruct (issueDeviceCredentialLocked _ _ _ _ _).
  - unfold VerifyDeviceCredential. repeat case_match; try by apply grows_same. intros i c' L. left.
    cbn in L. apply lookup_fmap_Some in L as (c & <- & L). exists c. split; [done|]. by case_match.
  - unfold RevokeDeviceCredentials. repeat case_match; try by apply grows_same. by eapply grows_revoke.
  - by eapply grows_revoke.
  - unfold DeleteDisposableEndpoint. case_match; [by apply grows_same|]. intros i c' L. left. cbn in L.
    apply map_lookup_filter_Some in L as [L _]. by exists c'.
Qed.

Lemma dead_perform h o s : dead h s -> other_hash h o -> dead h (perform o s).
Proof.
  intros D N i c' L Q. destruct (perform_grows o s i c' L) as [(c & E & _ & Hc & _ & _ & U & _)|(cred & W & Hc)].
  - apply not_true_is_false. intros U'. rewrite (D i c E) in U by congruence. by specialize (U U').
  - unfold other_hash in N. rewrite W in N. congruence.
Qed.

Lemma owned_perform h e o s : owned h e s -> other_hash h o -> owned h e (perform o s).
Proof.
  intros D N i c' L Q. destruct (perform_grows o s i c' L) as [(c & E & _ & Hc & He & _)|(cred & W & Hc)].
  - rewrite He. apply (D i c E). congruence.
  - unfold other_hash in N. rewrite W in N. congruence.
Qed.

Lemma used_perform h o s : used h s -> other_hash h o -> used h (perform o s).
Proof.
  intros D N i c' L Q. destruct (perform_grows o s i c' L) as [(c & E & _ & Hc & _ & _ & _ & U)|(cred & W & Hc)].
  - apply U, (D i c E). congruence.
  - unfold other_hash in N. rewrite W in N. congruence.
Qed.

Lemma live_kept h e t s m :
  live h e t s ->
  (forall i c, credentials s !! i = Some c -> dc_EndpointID c = e -> unrevoked c = true ->
    exists c', m !! i = Some c' /\ dc_Hash c' = dc_Hash c /\ dc_EndpointID c' = e /\ dc_Tenant c' = dc_Tenant c /\ unrevoked c' = true) ->
  live h e t (s <| credentials := m |>).
Proof.
  intros (i & c & E & Hh & He & Ht & U) Q. destruct (Q i c E He U) as (c' & E' & Hh' & He' & Ht' & U').
  exists i, c'. cbn. repeat split; congruence.
Qed.

Lemma live_revoke h e e' t now s : live h e t s -> e' <> e -> live h e t (s <| credentials ::= revoke_live e' now |>).
Proof.
  intros L Ne. apply (live_kept h e t s); [done|]. intros i c E He U. exists c. split; [|done]. apply revoke_lookup.
  exists c. split; [done|]. unfold live_of. rewrite He. apply not_eq_sym, String.eqb_neq in Ne. by rewrite Ne.
Qed.

Lemma live_issue h e e' t raw i now s :
  live h e t s -> (is_ok (issueDeviceCredentialLocked e' raw i now s).2 = true -> e' <> e) ->
  live h e t (issueDeviceCredentialLocked e' raw i now s).1.
Proof.
  intros L Ne. destruct (issue_cases e' raw i now s) as [[-> _]|(tenant & _ & F & _ & Q)]; [done|]. rewrite Q in Ne |- *.
  apply (live_revoke h e e' t now s) in L; [|by apply Ne]. destruct L as (j & c & E & Hc). cbn in E.
  exists j, c. split; [|done]. cbn. rewrite lookup_insert_ne; [done|]. intros <-.
  apply revoke_lookup in E as (? & E & _). congruence.
Qed.

Lemma live_verify h e t raw now s : live h e t s -> live h e t (VerifyDeviceCredential raw now s).1.
Proof.
  intros L. unfold VerifyDeviceCredential. repeat case_match; try done. cbn. apply (live_kept h e t s); [done|].
  intros i c E He U. eexists. split; [by rewrite lookup_fmap, E|]. cbn. by case_match.
Qed.

Lemma live_perform h e t o s : live h e t s -> takes o s <> Some e -> live h e t (perform o s).
Proof.
  intros L N. destruct o; cbn in *.
  - destruct L as (i & c & L). by exists i, c.
  - unfold IssueDeviceCredential in *. destruct (String.eqb _ ""); [done|]. apply live_issue; [done|]. intros Q.
    destruct (issueDeviceCredentialLocked _ _ _ _ _).2; [|done]. cbn in N. congruence.
  - unfold EnsureDeviceCredential in *. destruct (String.eqb _ ""); [done|]. destruct (_ ≫= _); [done|].
    apply (live_issue h e (TrimSpace endpointID) t raw idRaw now s) in L.
    + by destruct (issueDeviceCredentialLocked _ _ _ _ _).
    + intros Q. destruct (issueDeviceCredentialLocked _ _ _ _ _) as [? []]; [|done]. cbn in N. congruence.
  - by apply live_verify.
  - unfold RevokeDeviceCredentials in *. destruct (String.eqb _ ""); [done|]. destruct (some_row _); [|done].
    apply live_revoke; [done|]. cbn in N. congruence.
  - apply live_revoke; [done|congruence].
  - unfold DeleteDisposableEndpoint in *. destruct (negb _); [done|]. cbn in *. destruct L as (i & c & E & Hh & He & R). exists i, c.
    split; [|done]. cbn. apply map_lookup_filter_Some. split; [done|]. cbn. congruence.
Qed.

Lemma revoke_dead h e now s s' : owned h e s -> credentials s' = revoke_live e now (credentials s) -> dead h s'.
Proof.
  intros O Q i c' L Hh. rewrite Q in L. apply revoke_lookup in L as (c & L & ->). apply revoked_after.
  apply (O i c L). destruct (revoke_same e now c) as (_ & <- & _). done.
Qed.

Lemma issue_dead h e raw i now s x :
  owned h e s -> hashEnrollmentToken (credential_of raw) <> h -> (issueDeviceCredentialLocked e raw i now s).2 = Ok x ->
  dead h (issueDeviceCredentialLocked e raw i now s).1.
Proof.
  intros O N. destruct (issue_cases e raw i now s) as [[_ [err ->]]|(tenant & _ & _ & _ & ->)]; [done|]. intros _ j c' L Hh.
  cbn in L. apply lookup_insert_Some in L as [[<- <-]|[_ L]]; [done|].
  by apply (revoke_dead h e now s (mkStore (revoke_live e now (credentials s)) (endpoints s)) O eq_refl j c' L).
Qed.

Lemma taken_dead h e o s : owned h e s -> takes o s = Some e -> other_hash h o -> dead h (perform o s).
Proof.
  intros O T N. destruct o; cbn in T |- *; try done.
  - unfold IssueDeviceCredential in *. destruct (String.eqb _ ""); [done|]. destruct (issueDeviceCredentialLocked _ _ _ _ _).2 eqn:R; [|done].
    injection T as T. rewrite T in *. by eapply issue_dead.
  - unfold EnsureDeviceCredential in *. destruct (String.eqb _ ""); [done|]. destruct (_ ≫= _); [done|].
    destruct (issueDeviceCredentialLocked (TrimSpace endpointID) raw idRaw now s) as [s' r] eqn:R. cbn in *. destruct r; [|done].
    injection T as T. rewrite T in *. pose proof (issue_dead h e raw idRaw now s a O N) as D. rewrite R in D. by apply D.
  - unfold RevokeDeviceCredentials in *. destruct (String.eqb _ ""); [done|]. destruct (some_row _); [|done].
    injection T as <-. by eapply revoke_dead.
  - injection T as ->. by eapply revoke_dead.
  - unfold DeleteDisposableEndpoint in *. destruct (negb _); [done|]. injection T as T. cbn. intros i c L Hh.
    cbn in L. apply map_lookup_filter_Some in L as [L Q]. cbn in Q. by rewrite (O i c L Hh) in Q.
Qed.

Lemma credential_plain raw : TrimSpace (credential_of raw) = credential_of raw.
Proof. apply TrimSpace_plain. unfold credential_of. by rewrite string_forallb_app, hex_plain. Qed.

Lemma credential_form raw : String.eqb (credential_of raw) "" || negb (HasPrefix (credential_of raw) deviceCredentialPrefix) = false.
Proof.
  change (credential_of raw) with (String "o" (String "m" (String "d" (String "_" (hex_encode raw))))). cbn. by destruct (hex_encode raw).
Qed.

Lemma verify_live raw e t now s : tidy s -> live (hashEnrollmentToken (credential_of raw)) e t s ->
  (VerifyDeviceCredential (credential_of raw) now s).2 = Some (mkAuth e t).
Proof.
  intros T (i & c & E & Hh & <- & <- & U). unfold VerifyDeviceCredential. rewrite credential_plain, credential_form.
  rewrite <- Hh, (by_hash s c i T E), U. done.
Qed.

Lemma verify_dead raw now s : dead (hashEnrollmentToken (credential_of raw)) s ->
  (VerifyDeviceCredential (credential_of raw) now s).2 = None.
Proof.
  intros D. unfold VerifyDeviceCredential. rewrite credential_plain, credential_form. destruct (rows_where _ _) as [|c l] eqn:R; [done|].
  assert (I : c ∈ rows_where (fun c => String.eqb (dc_Hash c) (hashEnrollmentToken (credential_of raw))) (credentials s)) by (rewrite R; set_solver).
  apply rows_where_elem in I as (Q & i & L). apply String.eqb_eq in Q. by rewrite (D i c L Q).
Qed.

Lemma live_performs h e t l : forall s, live h e t s -> taken e l s = false -> live h e t (performs l s).
Proof.
  induction l as [|o l IH]; intros s L F; [done|]. cbn in F |- *. apply orb_false_iff in F as [F1 F2].
  apply bool_decide_eq_false in F1. apply IH; [by apply live_perform|done].
Qed.

Lemma dead_performs h l : forall s, dead h s -> Forall (other_hash h) l -> dead h (performs l s).
Proof.
  induction l as [|o l IH]; intros s L F; [done|]. inversion F; subst. cbn. apply IH; [by apply dead_perform|done].
Qed.

Lemma owned_performs h e l : forall s, owned h e s -> Forall (other_hash h) l -> owned h e (performs l s).
Proof.
  induction l as [|o l IH]; intros s L F; [done|]. inversion F; subst. cbn. apply IH; [by apply owned_perform|done].
Qed.

Lemma used_performs h l : forall s, used h s -> Forall (other_hash h) l -> used h (performs l s).
Proof.
  induction l as [|o l IH]; intros s L F; [done|]. inversion F; subst. cbn. apply IH; [by apply used_perform|done].
Qed.

Lemma taken_app e l l' : forall s, taken e (l ++ l') s = taken e l s || taken e l' (performs l s).
Proof. induction l as [|o l IH]; intros s; [done|]. cbn. by rewrite IH, orb_assoc. Qed.

(** A credential taken away stays dead. *)
Lemma taken_performs h e l : forall s, owned h e s -> taken e l s = true -> Forall (other_hash h) l -> dead h (performs l s).
Proof.
  induction l as [|o l IH]; intros s O T F; [done|]. inversion F; subst. cbn in T |- *. apply orb_true_iff in T as [T|T].
  - apply dead_performs; [|done]. apply bool_decide_eq_true in T. by eapply taken_dead.
  - apply IH; [by apply owned_perform|done..].
Qed.

(** What was issued is live, and the only row of its hash. *)
Lemma issued e raw i now s s' x :
  issueDeviceCredentialLocked e raw i now s = (s', Ok x) ->
  x.1 = credential_of raw /\ exists tenant, endpoints s !! e = Some tenant
  /\ live (hashEnrollmentToken x.1) e tenant s' /\ owned (hashEnrollmentToken x.1) e s'.
Proof.
  destruct (issue_cases e raw i now s) as [[_ [err Q]]|(tenant & En & F & U & ->)].
  { intros R. rewrite R in Q. done. }
  cbv zeta in U. cbn in U. intros [= <- <-]. cbn. split; [done|]. exists tenant. split; [done|]. split.
  - eexists _, _. cbn. rewrite lookup_insert_eq. done.
  - intros j d L Hh. cbn in L. apply lookup_insert_Some in L as [[<- <-]|[_ L]]; [done|].
    apply revoke_lookup in L as (d0 & L & ->). exfalso. apply (U j d0 L).
    by destruct (revoke_same e now d0) as (_ & <- & _).
Qed.

Lemma handed_out o s e cred :
  hands_out o s = Some (e, cred) ->
  exists raw tenant, cred = credential_of raw /\ endpoints s !! e = Some tenant
  /\ live (hashEnrollmentToken cred) e tenant (perform o s) /\ owned (hashEnrollmentToken cred) e (perform o s).
Proof.
  assert (G : forall e raw i now x, (issueDeviceCredentialLocked e raw i now s).2 = Ok x ->
    exists tenant, x.1 = credential_of raw /\ endpoints s !! e = Some tenant
      /\ live (hashEnrollmentToken x.1) e tenant (issueDeviceCredentialLocked e raw i now s).1
      /\ owned (hashEnrollmentToken x.1) e (issueDeviceCredentialLocked e raw i now s).1).
  { intros e' raw i now x Q. destruct (issueDeviceCredentialLocked e' raw i now s) as [s' y] eqn:R. cbn in Q. subst y.
    apply issued in R as R'. destruct R' as (E & tenant & L). by exists tenant. }
  destruct o; cbn; try done.
  - unfold IssueDeviceCredential. destruct (String.eqb _ ""); [done|]. destruct (issueDeviceCredentialLocked _ _ _ _ _).2 as [x|] eqn:Q; [|done].
    intros [= <- <-]. destruct (G _ _ _ _ _ Q) as (t & L). by exists raw, t.
  - unfold EnsureDeviceCredential. destruct (String.eqb _ ""); [done|]. destruct (_ ≫= _); [done|].
    destruct (issueDeviceCredentialLocked _ _ _ _ _) as [s' [x|]] eqn:Q; [|done]. cbn. intros [= <- <-].
    destruct (G (TrimSpace endpointID) raw idRaw now x) as (t & L); [by rewrite Q|]. rewrite Q in L. by exists raw, t.
Qed.

Lemma verify_uses raw e t now s : tidy s -> live (hashEnrollmentToken (credential_of raw)) e t s ->
  used (hashEnrollmentToken (credential_of raw)) (VerifyDeviceCredential (credential_of raw) now s).1.
Proof.
  intros T (i & c & E & Hh & _ & _ & U). unfold VerifyDeviceCredential. rewrite credential_plain, credential_form.
  rewrite <- Hh, (by_hash s c i T E), U. cbn. intros j d L Q. cbn in L. apply lookup_fmap_Some in L as (d0 & <- & L).
  assert (Ed : dc_Hash d0 = dc_Hash c) by (by destruct (_ && _)). assert (i = j) as <- by (by apply (td_hash s T i j c d0)).
  assert (d0 = c) as -> by congruence. rewrite String.eqb_refl, U. by eexists.
Qed.

(** A used credential is not rotated by a heartbeat of a legacy agent. *)
Lemma used_kept h e t raw i now s : tidy s -> live h (TrimSpace e) t s -> used h s -> takes (Ensure e raw i now) s = None.
Proof.
  intros T (j & c & E & Hh & He & _ & Un) Us. cbn. unfold EnsureDeviceCredential. destruct (String.eqb _ ""); [done|].
  assert (R : rows_where (live_of (TrimSpace e)) (credentials s) = [c]).
  { assert (P : rows_where (live_of (TrimSpace e)) (credentials s) ≡ₚ [c]); [|by apply Permutation_singleton_r in P].
    rewrite <- (insert_id (credentials s) j c E), <- insert_delete_eq, rows_where_insert by apply lookup_delete_eq.
    unfold live_of at 1. rewrite He, String.eqb_refl, Un. cbn. rewrite rows_where_nil; [done|].
    intros k d Ed. apply lookup_delete_Some in Ed as [Ne Ed]. unfold live_of. apply not_true_is_false. intros [Q1 Q2]%andb_true_iff.
    apply String.eqb_eq in Q1. apply Ne, (td_live s T j k c d); congruence. }
  unfold latest_live. rewrite R. cbn. destruct (Us j c E Hh) as [at_ ->]. done.
Qed.

(** C17: A credential handed out to an endpoint, issued or given to a legacy
    agent on its heartbeat, is accepted as that endpoint and the tenant it had
    until an operation that is not refused issues that endpoint another, revokes,
    retires or drops it, and is refused for good from then on. Once it has been
    used, no heartbeat of a legacy agent issues another. No endpoint ever holds
    two live credentials. *)
Theorem device_credential_lifetime (l0 : list op) (o : op) (e cred : string) :
  let s := performs l0 empty_store in
  hands_out o s = Some (e, cred) ->
  exists tenant, endpoints s !! e = Some tenant
  /\ (forall l t, taken e l (perform o s) = false ->
    (VerifyDeviceCredential cred t (performs l (perform o s))).2 = Some (mkAuth e tenant))
  /\ (forall l t, taken e l (perform o s) = true -> Forall (other_hash (hashEnrollmentToken cred)) l ->
    (VerifyDeviceCredential cred t (performs l (perform o s))).2 = None)
  /\ (forall l1 at_ l2 e' raw i t, Forall (other_hash (hashEnrollmentToken cred)) l2 ->
    taken e (l1 ++ Verify cred at_ :: l2) (perform o s) = false -> TrimSpace e' = e ->
    takes (Ensure e' raw i t) (performs (l1 ++ Verify cred at_ :: l2) (perform o s)) = None)
  /\ (forall l a b ca cb, credentials (performs l (perform o s)) !! a = Some ca -> credentials (performs l (perform o s)) !! b = Some cb ->
    dc_EndpointID ca = dc_EndpointID cb -> dc_RevokedAt ca = None -> dc_RevokedAt cb = None -> a = b).
Proof.
  intros s E. assert (T : tidy (perform o s)) by apply tidy_perform, tidy_performs, tidy_empty.
  apply handed_out in E as (raw0 & tenant & -> & Et & L & O). exists tenant. split; [done|]. split; [|split; [|split]].
  - intros l t F. apply verify_live; [by apply tidy_performs|by apply live_performs].
  - intros l t F N. apply verify_dead. by eapply taken_performs.
  - intros l1 at_ l2 e' raw i t N F <-. eapply used_kept; [by apply tidy_performs|by apply live_performs|].
    rewrite taken_app in F. apply orb_false_iff in F as [F1 F2]. unfold performs. rewrite fold_left_app. cbn.
    apply (used_performs _ l2); [|done]. eapply verify_uses; [by apply (tidy_performs l1)|by eapply (live_performs _ _ _ l1)].
  - intros l a b ca cb Ea Eb Q Ua Ub. apply (td_live _ (tidy_performs l _ T) a b ca cb); try done; by apply bool_decide_eq_true.
Qed.

End Devices.

End devices.

Module devices_example.
Import canonical platform devices.

Local Open Scope string_scope.
Local Open Scope Z_scope.

#[local] Instance plain_hash : Crypto := {| sha256 := fun s => s; ed25519_verify := fun _ _ _ => false |}.
#[local] Instance as_stored : Rows := {| in_row_order := fun A l => l; in_row_order_perm := fun A l => Permutation_refl l |}.

Definition enrolled : list op := [Enrol "pc-1" "acme"; Enrol "pc-2" "acme"; Issue "pc-1" "old" "i0" 1].

(** The heartbeat of an agent that used its credential does not rotate it, nor
    does a refused deletion; a retirement ends it, and the next heartbeat brings
    another. *)
Definition quiet : list op := [Issue "pc-2" "two" "i2" 3; Verify (credential_of "raw") 4; Enrol "pc-1" "other"; Ensure "pc-1" "new" "i3" 5; Drop "pc-1"].

Definition ended : list op := (quiet ++ [Retire "pc-1" 6; Ensure "pc-1" "new" "i4" 7])%list.

Lemma device_credential_lifetime_witness :
  let s' := perform (Ensure " pc-1" "raw" "i1" 2) (performs enrolled empty_store) in
  (VerifyDeviceCredential (credential_of "raw") 9 (performs quiet s')).2 = Some (mkAuth "pc-1" "acme")
  /\ (VerifyDeviceCredential (credential_of "raw") 9 (performs ended s')).2 = None
  /\ (VerifyDeviceCredential (credential_of "new") 9 (performs ended s')).2 = Some (mkAuth "pc-1" "other")
  /\ (VerifyDeviceCredential (credential_of "old") 9 s').2 = None.
Proof.
  destruct (device_credential_lifetime enrolled (Ensure " pc-1" "raw" "i1" 2) "pc-1" (credential_of "raw")) as (tenant & Et & Q1 & Q2 & _);
    [vm_compute; reflexivity|].
  split; [|split; [|split]].
  - rewrite Q1 by (vm_compute; reflexivity). vm_compute in Et. by injection Et as <-.
  - apply Q2; [vm_compute; reflexivity|].
    repeat (apply List.Forall_cons; [vm_compute; first [discriminate|exact I]|]). apply List.Forall_nil.
  - vm_compute. reflexivity.
  - vm_compute. reflexivity.
Defined.

End devices_example.
