(* ===== verification/Enrolment.v ===== *)
(** * Enrolment

    [storage/enrollment_profile.go] and [storage/enrolment_window.go]: the codes
    an agent is enrolled with, and the windows that let machines of a network
    ask for one. Only hashes of codes and passcodes are kept. Random bytes and
    the clock are arguments; a zero time is [None]. *)

From Stdlib Require Import Ascii String.
From stdpp Require Import gmap.
From S2P Require Import Prelude NetIP Canonical Platform Devices.

Module enrolment.
Import canonical platform devices.

Local Open Scope string_scope.
Local Open Scope Z_scope.

(** ** Networks: [net.ParseIP], [net.ParseCIDR], [IPNet] *)

Definition ParseIP (s : string) : option Addr :=
  a ← ParseAddr s; if has_zone a then None else Some a.

(** [dtoi] of a whole string: digits only. *)
Definition mask_length (s : string) : option Z := if String.eqb s "" then None else digits_val 0 s.

(** The network of [net.ParseCIDR]. *)
Definition ParseCIDR (s : string) : option Prefix :=
  i ← index_byte "/" s;
  a ← ParseAddr (string_take i s);
  if has_zone a then None else
  n ← mask_length (string_drop (S i) s);
  if in_range 0 (BitLen a) n then Some (Masked (mkPrefix a n)) else None.

(** [networkNumberAndMask]: a mapped network is one of IPv4. *)
Definition plain_network (p : Prefix) : Prefix :=
  if Is4In6 (pip p) then mkPrefix (Unmap (pip p)) (pbits p - 96) else p.

Definition net_contains (p : Prefix) (ip : Addr) : bool := Contains (plain_network p) (Unmap ip).

Definition network_string (p : Prefix) : string := prefix_string (plain_network p).

(** ** Codes *)

(** A row of [enrollment_profiles]. *)
Record EnrollmentProfile : Type := mkProfile {
  ep_ID : string;
  ep_Kind : string;
  ep_Platform : string;
  ep_TenantID : string;
  ep_LocationID : string;
  ep_Role : string;
  ep_EndpointID : string;
  ep_CodeHash : string;
  ep_CreatedBy : string;
  ep_CreatedAt : Z;
  ep_ExpiresAt : option Z;
  ep_MaxUses : Z;
  ep_Used : Z;
  ep_RevokedAt : option Z;
}.

#[export] Instance eta_EnrollmentProfile : Eta EnrollmentProfile :=
  fun x => mkProfile (ep_ID x) (ep_Kind x) (ep_Platform x) (ep_TenantID x) (ep_LocationID x) (ep_Role x) (ep_EndpointID x) (ep_CodeHash x)
    (ep_CreatedBy x) (ep_CreatedAt x) (ep_ExpiresAt x) (ep_MaxUses x) (ep_Used x) (ep_RevokedAt x).

(** A row of [enrolment_windows]; [ew_Hash] is the hash of the passcode, or
    empty. The networks are stored with commas between them, which none has. *)
Record EnrolmentWindow : Type := mkEnrolmentWindow {
  ew_ID : string;
  ew_Label : string;
  ew_CIDRs : list string;
  ew_Hash : string;
  ew_TenantID : string;
  ew_LocationID : string;
  ew_Role : string;
  ew_MaxUses : Z;
  ew_Used : Z;
  ew_CreatedAt : Z;
  ew_ExpiresAt : Z;
  ew_CreatedBy : string;
  ew_RevokedAt : option Z;
  ew_LastUsedAt : option Z;
}.

#[export] Instance eta_EnrolmentWindow : Eta EnrolmentWindow :=
  fun x => mkEnrolmentWindow (ew_ID x) (ew_Label x) (ew_CIDRs x) (ew_Hash x) (ew_TenantID x) (ew_LocationID x) (ew_Role x) (ew_MaxUses x)
    (ew_Used x) (ew_CreatedAt x) (ew_ExpiresAt x) (ew_CreatedBy x) (ew_RevokedAt x) (ew_LastUsedAt x).

(** Both tables, by id. *)
Record enrolments : Type := mkEnrolments { profiles : gmap string EnrollmentProfile; windows : gmap string EnrolmentWindow }.

#[export] Instance eta_enrolments : Eta enrolments := fun x => mkEnrolments (profiles x) (windows x).

Definition is_set {A} (x : option A) : bool := match x with Some _ => true | None => false end.

Definition EnrollmentProfileTTL : Z := 1800 * Second.

(** [p.ExpiresAt.After(now)]. *)
Definition expires_after (p : EnrollmentProfile) (now : Z) : bool :=
  match ep_ExpiresAt p with Some t => now <? t | None => false end.

Definition state (p : EnrollmentProfile) (now : Z) : string :=
  if is_set (ep_RevokedAt p) then "revoked"
  else if negb (expires_after p now) then "expired"
  else if (0 <? ep_MaxUses p) && (ep_MaxUses p <=? ep_Used p) then "spent"
  else "open".

(** The last second of the year 9999. *)
Definition end_of_time : Z := 253402300799 * Second.

Section Enrolment.
Context `{Unicode} `{Crypto} `{Rows}.

Definition profile_kind (kind : string) : bool := existsb (String.eqb kind) ["invitation"; "campaign"; "deployment"].
Definition profile_platform (platform : string) : bool := existsb (String.eqb platform) ["linux"; "windows"; ""].

(** The checks, and what is filled in. *)
Definition prepare_profile (p : EnrollmentProfile) (ttl : Z) : result string (EnrollmentProfile * Z) :=
  let p := if String.eqb (ep_Kind p) "" then p <| ep_Kind := "invitation" |> else p in
  let p := p <| ep_Kind ::= fun k => ToLower (TrimSpace k) |> in
  let invitation := String.eqb (ep_Kind p) "invitation" in
  let deployment := String.eqb (ep_Kind p) "deployment" in
  if negb (profile_kind (ep_Kind p)) then Err "enrollment profile kind must be invitation, campaign, or deployment" else
  let p := p <| ep_Platform ::= fun x => ToLower (TrimSpace x) |> in
  if negb (profile_platform (ep_Platform p)) then Err "enrollment profile platform must be linux, windows, or empty" else
  let p := if String.eqb (ep_TenantID p) "" then p <| ep_TenantID := "default" |> else p in
  if ep_MaxUses p <? 0 then Err "max uses cannot be negative" else
  let p := if invitation then p <| ep_MaxUses := 1 |> else p in
  if negb invitation && negb (String.eqb (TrimSpace (ep_EndpointID p)) "")
  then Err "a reusable enrollment profile cannot pin every install to one endpoint id" else
  let ttl := if (ttl <=? 0) && negb deployment then EnrollmentProfileTTL else ttl in
  if 7 * 24 * Hour <? ttl then Err "enrollment profile may not live longer than seven days" else Ok (p, ttl).

Definition code_of (tokenRaw : string) : string := "one_" ++ hex_encode tokenRaw.

Definition CreateEnrollmentProfile (p : EnrollmentProfile) (ttl : Z) (idRaw tokenRaw : string) (now : Z) (s : enrolments) :
    enrolments * result string (EnrollmentProfile * string) :=
  match prepare_profile p ttl with
  | Err why => (s, Err why)
  | Ok (p, ttl) =>
    let code := code_of tokenRaw in
    let p := p <| ep_ID := "enr_" ++ hex_encode idRaw |> <| ep_CreatedAt := now |> in
    let p := match ep_ExpiresAt p with
             | Some _ => p
             | None => p <| ep_ExpiresAt := Some (if String.eqb (ep_Kind p) "deployment" && (ttl <=? 0) then end_of_time else now + ttl) |>
             end in
    if negb (expires_after p now) then (s, Err "enrollment profile expiry must be in the future") else
    let row := p <| ep_LocationID ::= TrimSpace |> <| ep_Role ::= TrimSpace |> <| ep_EndpointID ::= TrimSpace |>
                 <| ep_CodeHash := hashEnrollmentToken code |> <| ep_CreatedBy ::= TrimSpace |> <| ep_Used := 0 |> <| ep_RevokedAt := None |> in
    if is_set (profiles s !! ep_ID p) || some_row (rows_where (fun q => String.eqb (ep_CodeHash q) (ep_CodeHash row)) (profiles s))
    then (s, Err "UNIQUE constraint failed") else
    (s <| profiles ::= insert (ep_ID p) row |>, Ok (p, code))
  end.

(** The condition of the [UPDATE]. *)
Definition redeemable (hash platform : string) (now : Z) (p : EnrollmentProfile) : bool :=
  String.eqb (ep_CodeHash p) hash && negb (is_set (ep_RevokedAt p)) && expires_after p now
  && ((ep_MaxUses p =? 0) || (ep_Used p <? ep_MaxUses p))
  && (String.eqb (ep_Platform p) "" || String.eqb (ep_Platform p) platform).

(** [%q] of plain text. *)
Definition quoted (s : string) : string := let q := ascii_of_N 34 in String q (s ++ String q "").

(** Why a code was not redeemed. *)
Definition not_redeemed (platform : string) (now : Z) (p : option EnrollmentProfile) : string :=
  match p with
  | None => "enrollment code is invalid"
  | Some p =>
    let st := state p now in
    if String.eqb st "expired" then "enrollment code has expired"
    else if String.eqb st "spent" then "enrollment code has already been used"
    else if String.eqb st "revoked" then "enrollment code has been revoked"
    else "enrollment code is not valid for platform " ++ quoted platform
  end.

Definition RedeemEnrollmentProfile (code platform : string) (now : Z) (s : enrolments) : enrolments * result string EnrollmentProfile :=
  let code := TrimSpace code in
  let platform := ToLower (TrimSpace platform) in
  if String.eqb code "" then (s, Err "enrollment code is required") else
  let hash := hashEnrollmentToken code in
  let of_code s := head (rows_where (fun p => String.eqb (ep_CodeHash p) hash) (profiles s)) in
  if some_row (rows_where (redeemable hash platform now) (profiles s)) then
    let s := s <| profiles ::= fmap (fun p => if redeemable hash platform now p then p <| ep_Used ::= Z.add 1 |> else p) |> in
    match of_code s with Some p => (s, Ok p) | None => (s, Err "sql: no rows in result set") end
  else (s, Err (not_redeemed platform now (of_code s))).

Definition RevokeEnrollmentProfile (id : string) (now : Z) (s : enrolments) : enrolments * result string unit :=
  match profiles s !! TrimSpace id with
  | Some p =>
    if is_set (ep_RevokedAt p) then (s, Err "sql: no rows in result set")
    else (s <| profiles ::= insert (TrimSpace id) (p <| ep_RevokedAt := Some now |>) |>, Ok tt)
  | None => (s, Err "sql: no rows in result set")
  end.

Definition ListEnrollmentProfiles (s : enrolments) : list EnrollmentProfile :=
  sort_slice (fun a b => ep_CreatedAt b <? ep_CreatedAt a) (rows_where (fun _ => true) (profiles s)).

(** ** Windows *)

Definition Active (w : EnrolmentWindow) (now : Z) : bool :=
  negb (is_set (ew_RevokedAt w)) && negb (ew_ExpiresAt w <? now) && ((ew_MaxUses w <=? 0) || (ew_Used w <? ew_MaxUses w)).

Definition State (w : EnrolmentWindow) (now : Z) : string :=
  if is_set (ew_RevokedAt w) then "revoked"
  else if ew_ExpiresAt w <? now then "expired"
  else if (0 <? ew_MaxUses w) && (ew_MaxUses w <=? ew_Used w) then "spent"
  else "open".

(** One network of a window; [Ok None]: a blank one. *)
Definition parse_network (entry : string) : result string (option string) :=
  let entry := TrimSpace entry in
  if String.eqb entry "" then Ok None else
  let entry :=
    if contains_sub entry "/" then Ok entry else
    match ParseIP entry with
    | None => Err (quoted entry ++ " is not an address or a network in CIDR form")
    | Some ip => Ok (entry ++ (if Is4 (Unmap ip) then "/32" else "/128"))
    end in
  entry ← entry;
  match ParseCIDR entry with
  | None => Err (quoted entry ++ " is not a network in CIDR form")
  | Some network => Ok (Some (network_string network))
  end.

Fixpoint parse_networks (raw : list string) : result string (list string) :=
  match raw with
  | [] => Ok []
  | entry :: raw =>
    x ← parse_network entry;
    out ← parse_networks raw;
    Ok (match x with Some network => network :: out | None => out end)
  end.

Definition ParseCIDRs (raw : list string) : result string (list string) :=
  out ← parse_networks raw;
  match out with
  | [] => Err "at least one network is required; a window open to nothing authorises nothing"
  | _ => Ok out
  end.

Definition cidrsAllow (cidrs : list string) (addr : string) : bool :=
  match ParseIP (TrimSpace addr) with
  | None => false
  | Some ip => existsb (fun entry => match ParseCIDR entry with Some network => net_contains network ip | None => false end) cidrs
  end.

(** [expires]: the expiry asked for, [None] when there is none. *)
Definition CreateEnrolmentWindow (w : EnrolmentWindow) (expires : option Z) (passcode raw : string) (now : Z) (s : enrolments) :
    enrolments * result string EnrolmentWindow :=
  match ParseCIDRs (ew_CIDRs w), expires with
  | Err why, _ => (s, Err why)
  | Ok _, None => (s, Err "an enrolment window must expire; a standing authorisation with no end is not one anybody will remember to close")
  | Ok cidrs, Some expires =>
    let hash := if String.eqb (TrimSpace passcode) "" then "" else hashEnrollmentToken (TrimSpace passcode) in
    let w := w <| ew_MaxUses ::= Z.max 0 |> <| ew_ID := "win-" ++ hex_encode raw |> <| ew_CIDRs := cidrs |> <| ew_CreatedAt := now |>
               <| ew_ExpiresAt := expires |> <| ew_Used := 0 |> <| ew_Hash := hash |> in
    let row := w <| ew_Label ::= TrimSpace |> <| ew_TenantID ::= TrimSpace |> <| ew_LocationID ::= TrimSpace |> <| ew_Role ::= TrimSpace |>
                 <| ew_CreatedBy ::= TrimSpace |> <| ew_RevokedAt := None |> <| ew_LastUsedAt := None |> in
    if is_set (windows s !! ew_ID w) then (s, Err "UNIQUE constraint failed: enrolment_windows.id") else
    (s <| windows ::= insert (ew_ID w) row |>, Ok w)
  end.

Definition ListEnrolmentWindows (s : enrolments) : list EnrolmentWindow :=
  sort_slice (fun a b => ew_CreatedAt b <? ew_CreatedAt a) (rows_where (fun _ => true) (windows s)).

Definition RevokeEnrolmentWindow (id : string) (now : Z) (s : enrolments) : enrolments * result string unit :=
  match windows s !! TrimSpace id with
  | Some w =>
    if is_set (ew_RevokedAt w) then (s, Err ("no open enrolment window with id " ++ quoted id))
    else (s <| windows ::= insert (TrimSpace id) (w <| ew_RevokedAt := Some now |>) |>, Ok tt)
  | None => (s, Err ("no open enrolment window with id " ++ quoted id))
  end.

Record EnrolmentWindowUnavailable : Type := mkUnavailable { eu_Reason : string; eu_NeedsPasscode : bool; eu_Closed : string }.

(** The condition of the [UPDATE] that spends a use. *)
Definition spendable (now : Z) (w : EnrolmentWindow) : bool :=
  negb (is_set (ew_RevokedAt w)) && (now <? ew_ExpiresAt w) && ((ew_MaxUses w <=? 0) || (ew_Used w <? ew_MaxUses w)).

Definition passcode_right (passcode hash : string) : bool :=
  String.eqb hash "" || (negb (String.eqb (TrimSpace passcode) "") && String.eqb (hashEnrollmentToken (TrimSpace passcode)) hash).

(** The loop of [ClaimEnrolment] over the windows as they were listed. *)
Fixpoint claim (listed : list EnrolmentWindow) (addr passcode : string) (now : Z) (needs : bool) (closed : string) (s : enrolments) :
    enrolments * result EnrolmentWindowUnavailable EnrolmentWindow :=
  match listed with
  | [] =>
    (s, Err (if needs then mkUnavailable "this network needs the enrolment passcode" true ""
             else if negb (String.eqb closed "") then mkUnavailable ("the enrolment window for this network is " ++ closed) false closed
             else mkUnavailable ("no open enrolment window covers " ++ addr) false ""))
  | w :: listed =>
    if negb (cidrsAllow (ew_CIDRs w) addr) then claim listed addr passcode now needs closed s
    else if negb (Active w now) then claim listed addr passcode now needs (if String.eqb closed "" then State w now else closed) s
    else match windows s !! ew_ID w with
    | None => claim listed addr passcode now needs closed s
    | Some row =>
      if negb (passcode_right passcode (ew_Hash row)) then claim listed addr passcode now true closed s
      else if negb (spendable now row) then claim listed addr passcode now needs closed s
      else
        (s <| windows ::= insert (ew_ID w) (row <| ew_Used ::= Z.add 1 |> <| ew_LastUsedAt := Some now |>) |>,
         Ok (w <| ew_Used ::= Z.add 1 |> <| ew_LastUsedAt := Some now |>))
    end
  end.

Definition ClaimEnrolment (addr passcode : string) (now : Z) (s : enrolments) : enrolments * result EnrolmentWindowUnavailable EnrolmentWindow :=
  claim (ListEnrolmentWindows s) addr passcode now false "" s.

Definition CoveringWindow (addr : string) (now : Z) (s : enrolments) : option EnrolmentWindow :=
  find (fun w => Active w now && cidrsAllow (ew_CIDRs w) addr) (ListEnrolmentWindows s).

End Enrolment.

End enrolment.
