(* ===== verification/Access.v ===== *)
(** * Cloudflare Access

    [server/access.go]: the verification of a signed assertion. What an HTTP
    request for the key set answers and RSA itself are parameters; the lines
    written to the log and the marker kept of a success are events. *)

From Stdlib Require Import Ascii String.
From stdpp Require Import gmap.
From S2P Require Import Prelude Canonical Json Platform Encoding.

Module access.
Import canonical json platform encoding.

Local Open Scope string_scope.
Local Open Scope Z_scope.

(** [rsa.PublicKey]: modulus and exponent. *)
Record PublicKey : Type := mkKey { pk_N : Z; pk_E : Z }.

(** [rsa.VerifyPKCS1v15] with SHA-256: key, digest, signature. *)
Class Rsa := rsa_verify : PublicKey -> string -> string -> bool.

Definition accessJWKSTTL : Z := Hour.
Definition accessJWKSMinRefresh : Z := 60 * Second.
Definition accessRefusalLogEvery : Z := 60 * Second.
Definition accessAcceptLogEvery : Z := 300 * Second.
Definition accessSuccessRecordEvery : Z := 60 * Second.

Record AccessOptions : Type := mkOptions { ao_Team : string; ao_AUD : string; ao_BootstrapAdmin : string }.

Record accessOperator : Type := mkAccessOperator { ac_Email : string; ac_Role : string; ac_Issuer : string; ac_Subject : string }.

Definition nobody : accessOperator := mkAccessOperator "" "" "" "".

(** A zero time is [None]. *)
Record accessVerifier : Type := mkVerifier {
  av_team : string;
  av_aud : string;
  av_issuer : string;
  av_keys : gmap string PublicKey;
  av_fetchedAt : option Z;
  av_lastAttempt : option Z;
  av_lastRefusal : option Z;
  av_lastAccepted : option Z;
  av_lastRecorded : option Z;
}.

#[export] Instance eta_accessVerifier : Eta accessVerifier :=
  fun x => mkVerifier (av_team x) (av_aud x) (av_issuer x) (av_keys x) (av_fetchedAt x) (av_lastAttempt x)
    (av_lastRefusal x) (av_lastAccepted x) (av_lastRecorded x).

Definition issuer_of (team : string) : string := "https://" ++ team ++ ".cloudflareaccess.com".

(** [Ok None]: Access is not configured. *)
Definition newAccessVerifier (opts : AccessOptions) : result string (option accessVerifier) :=
  let team := TrimSpace (ao_Team opts) in
  let aud := TrimSpace (ao_AUD opts) in
  if String.eqb team "" && String.eqb aud "" then Ok None
  else if String.eqb team "" || String.eqb aud ""
  then Err "both --access-team and --access-aud are required to verify Cloudflare Access assertions"
  else Ok (Some (mkVerifier team aud (issuer_of team) ∅ None None None None None)).

(** [time.Since(t) < span]. *)
Definition recent (now : Z) (t : option Z) (span : Z) : bool := match t with Some t => now - t <? span | None => false end.

(** ** The claims of an assertion *)

Record accessClaims : Type := mkAccessClaims {
  cl_Iss : string; cl_Sub : string; cl_Email : string; cl_Exp : Z; cl_Nbf : Z; cl_Aud : list string }.

(** The fields as read, with the audience unread. *)
Record raw_claims : Type := mkRaw {
  rc_Iss : string; rc_Sub : string; rc_Email : string; rc_Exp : Z; rc_Nbf : Z; rc_Aud : option value }.

#[export] Instance eta_raw_claims : Eta raw_claims :=
  fun x => mkRaw (rc_Iss x) (rc_Sub x) (rc_Email x) (rc_Exp x) (rc_Nbf x) (rc_Aud x).

Definition raw_claims_field (k : string) (v : value) (c : raw_claims) : option raw_claims :=
  if String.eqb k "iss" then s ← string_field v (rc_Iss c); Some (c <| rc_Iss := s |>)
  else if String.eqb k "sub" then s ← string_field v (rc_Sub c); Some (c <| rc_Sub := s |>)
  else if String.eqb k "email" then s ← string_field v (rc_Email c); Some (c <| rc_Email := s |>)
  else if String.eqb k "exp" then n ← int64_field v (rc_Exp c); Some (c <| rc_Exp := n |>)
  else if String.eqb k "nbf" then n ← int64_field v (rc_Nbf c); Some (c <| rc_Nbf := n |>)
  else if String.eqb k "aud" then Some (c <| rc_Aud := Some v |>)
  else Some c.

(** One string, a list of strings, or nothing. *)
Definition read_aud (v : option value) : option (list string) :=
  match v with
  | None | Some JNull => Some []
  | Some (JArr l) => mapM (fun v => string_field v "") l
  | Some (JStr raw) => Some [unquote raw]
  | Some _ => None
  end.

Definition unmarshal_claims (b : string) : option accessClaims :=
  raw ← unmarshal raw_claims_field (mkRaw "" "" "" 0 0 None) b;
  aud ← read_aud (rc_Aud raw);
  Some (mkAccessClaims (rc_Iss raw) (rc_Sub raw) (rc_Email raw) (rc_Exp raw) (rc_Nbf raw) aud).

(** ** The key set *)

Record jwk : Type := mkJwk { jk_Kid : string; jk_Kty : string; jk_Alg : string; jk_N : string; jk_E : string }.

#[export] Instance eta_jwk : Eta jwk := fun x => mkJwk (jk_Kid x) (jk_Kty x) (jk_Alg x) (jk_N x) (jk_E x).

Definition no_jwk : jwk := mkJwk "" "" "" "" "".

Definition jwk_field (k : string) (v : value) (x : jwk) : option jwk :=
  if String.eqb k "kid" then s ← string_field v (jk_Kid x); Some (x <| jk_Kid := s |>)
  else if String.eqb k "kty" then s ← string_field v (jk_Kty x); Some (x <| jk_Kty := s |>)
  else if String.eqb k "alg" then s ← string_field v (jk_Alg x); Some (x <| jk_Alg := s |>)
  else if String.eqb k "n" then s ← string_field v (jk_N x); Some (x <| jk_N := s |>)
  else if String.eqb k "e" then s ← string_field v (jk_E x); Some (x <| jk_E := s |>)
  else Some x.

(** A slice as [encoding/json] fills it: an element is read over the one that
    stood there before. The backing array, and how much of it is in use. *)
Definition keys_field (k : string) (v : value) (x : list jwk * nat) : option (list jwk * nat) :=
  if negb (String.eqb k "keys") then Some x else
  match v with
  | JNull | JArr [] => Some ([], 0%nat)
  | JArr l =>
    read ← mapM (fun iv => unmarshal_value jwk_field (nth iv.1 x.1 no_jwk) iv.2) (imap pair l);
    Some (read ++ skipn (length l) x.1, length l)%list
  | _ => None
  end.

Definition be_value (s : string) : Z := fold_left (fun acc c => acc * 256 + byte_val c) (list_ascii_of_string s) 0.

Definition rsaKeyFromJWK (k : jwk) : option PublicKey :=
  nBytes ← base64_raw_url (jk_N k);
  eBytes ← base64_raw_url (jk_E k);
  if (String.length eBytes =? 0)%nat || (8 <? String.length eBytes)%nat then None else
  let e := fold_left (fun e b => Z.lor (int64_wrap (Z.shiftl e 8)) (byte_val b)) (list_ascii_of_string eBytes) 0 in
  if e <=? 0 then None else Some (mkKey (be_value nBytes) e).

(** The usable keys of a document, a later key of the same id over an earlier. *)
Definition usable_keys (l : list jwk) : gmap string PublicKey :=
  fold_left (fun m k =>
    if negb (String.eqb (jk_Kty k) "RSA") || String.eqb (jk_Kid k) "" then m else
    match rsaKeyFromJWK k with Some pub => <[jk_Kid k := pub]> m | None => m end) l ∅.

Definition jwks_limit : nat := Z.to_nat (256 * 1024).

Definition jwksURL (a : accessVerifier) : string := "https://" ++ av_team a ++ ".cloudflareaccess.com/cdn-cgi/access/certs".

(** [answer]: the body of a 200 answer, or what went wrong. *)
Definition fetchKeys (answer : result string string) (a : accessVerifier) : result string (gmap string PublicKey) :=
  match answer with
  | Err e => Err ("fetching " ++ jwksURL a ++ ": " ++ e)
  | Ok body =>
    match decode keys_field ([], 0%nat) (string_take jwks_limit body) with
    | None => Err ("parsing " ++ jwksURL a)
    | Some (arr, n) =>
      let keys := usable_keys (firstn n arr) in
      if (size keys =? 0)%nat then Err (jwksURL a ++ " returned no usable RSA keys") else Ok keys
    end
  end.

(** [later] is the clock after the request. *)
Definition refresh (now later : Z) (answer : result string string) (a : accessVerifier) : accessVerifier * result string unit :=
  if recent now (av_lastAttempt a) accessJWKSMinRefresh then (a, Err "key set was refreshed a moment ago") else
  let a := a <| av_lastAttempt := Some now |> in
  match fetchKeys answer a with
  | Err e => (a, Err e)
  | Ok keys => (a <| av_keys := keys |> <| av_fetchedAt := Some later |>, Ok tt)
  end.

Definition keyFor (kid : string) (now later : Z) (answer : result string string) (a : accessVerifier) :
    accessVerifier * result string PublicKey :=
  let held := av_keys a !! kid in
  match held, recent now (av_fetchedAt a) accessJWKSTTL with
  | Some key, true => (a, Ok key)
  | _, _ =>
    match refresh now later answer a with
    | (a, Err e) => (a, match held with Some key => Ok key | None => Err e end)
    | (a, Ok _) =>
      (a, match av_keys a !! kid with Some key => Ok key | None => Err ("no Access signing key with id " ++ kid) end)
    end
  end.

(** ** Verification *)

Section Access.
Context `{Unicode} `{Crypto} `{Rsa}.

Definition header_field (k : string) (v : value) (x : string * string) : option (string * string) :=
  if String.eqb k "alg" then s ← string_field v x.1; Some (s, x.2)
  else if String.eqb k "kid" then s ← string_field v x.2; Some (x.1, s)
  else Some x.

(** What is checked once the signature verified. *)
Definition check_claims (claims : accessClaims) (now : Z) (a : accessVerifier) : result string accessClaims :=
  if (cl_Exp claims =? 0) || (cl_Exp claims <=? Unix now) then Err "expired"
  else if negb (cl_Nbf claims =? 0) && (Unix now <? cl_Nbf claims) then Err "not yet valid"
  else if negb (String.eqb (cl_Iss claims) (av_issuer a)) then Err "issuer does not match this Access team"
  else if negb (existsb (fun aud => String.eqb aud (av_aud a)) (cl_Aud claims)) then Err "audience does not match this application"
  else Ok claims.

Definition check_signed (p0 p1 p2 : string) (key : PublicKey) (now : Z) (a : accessVerifier) : result string accessClaims :=
  match base64_raw_url p2 with
  | None => Err "undecodable signature"
  | Some sig =>
    if negb (rsa_verify key (sha256 (p0 ++ "." ++ p1)) sig) then Err "signature does not verify" else
    match base64_raw_url p1 with
    | None => Err "undecodable payload"
    | Some payload =>
      match unmarshal_claims payload with
      | None => Err "unparseable payload"
      | Some claims => check_claims claims now a
      end
    end
  end.

(** The texts of errors leave out what they quote. *)
Definition verifyToken (raw : string) (now later : Z) (answer : result string string) (a : accessVerifier) :
    accessVerifier * result string accessClaims :=
  match split_byte "." raw with
  | [p0; p1; p2] =>
    match base64_raw_url p0 with
    | None => (a, Err "undecodable header")
    | Some headerBytes =>
      match unmarshal header_field ("", "") headerBytes with
      | None => (a, Err "unparseable header")
      | Some (alg, kid) =>
        if negb (String.eqb alg "RS256") then (a, Err "unsupported algorithm")
        else if String.eqb kid "" then (a, Err "no key id")
        else
          match keyFor kid now later answer a with
          | (a, Err e) => (a, Err e)
          | (a, Ok key) => (a, check_signed p0 p1 p2 key later a)
          end
      end
    end
  | _ => (a, Err "not a three-part JWT")
  end.

Inductive event : Type :=
| LogRefused (why : string)
| LogUnlisted (email : string)
| LogVerified (email role : string)
| RecordSuccess (at_ : Z).

Definition noteVerified (now : Z) (a : accessVerifier) : accessVerifier * list event :=
  if recent now (av_lastRecorded a) accessSuccessRecordEvery then (a, [])
  else (a <| av_lastRecorded := Some now |>, [RecordSuccess now]).

(** [lookup]: the role of an address in the operator list. *)
Definition Verify (lookup : string -> option string) (assertion : string) (now later : Z) (answer : result string string)
    (a : accessVerifier) : accessVerifier * list event * option accessOperator :=
  let raw := TrimSpace assertion in
  if String.eqb raw "" then (a, [], None) else
  match verifyToken raw now later answer a with
  | (a, Err e) =>
    if recent later (av_lastRefusal a) accessRefusalLogEvery then (a, [], None)
    else (a <| av_lastRefusal := Some later |>, [LogRefused e], None)
  | (a, Ok claims) =>
    let email := ToLower (TrimSpace (cl_Email claims)) in
    if String.eqb email "" then (a, [], None) else
    let '(a, noted) := noteVerified later a in
    match lookup email with
    | None => (a, noted ++ [LogUnlisted email], None)%list
    | Some role =>
      let '(a, logged) :=
        if recent later (av_lastAccepted a) accessAcceptLogEvery then (a, [])
        else (a <| av_lastAccepted := Some later |>, [LogVerified email role]) in
      let subject := let s := TrimSpace (cl_Sub claims) in if String.eqb s "" then email else s in
      (a, noted ++ logged, Some (mkAccessOperator email role (av_issuer a) subject))%list
    end
  end.

(** ** Sequences of requests *)

#[local] Opaque jwks_limit decode.

(** One request: its assertion, the operator list as it stands, the clock
    before and after, and what Cloudflare answers if it is asked. *)
Record call : Type := mkCall {
  ca_lookup : string -> option string; ca_assertion : string; ca_now : Z; ca_later : Z; ca_answer : result string string }.

Definition verify (c : call) (a : accessVerifier) : accessVerifier * option accessOperator :=
  let '(a, _, r) := Verify (ca_lookup c) (ca_assertion c) (ca_now c) (ca_later c) (ca_answer c) a in (a, r).

Definition verifies (l : list call) (a : accessVerifier) : accessVerifier := fold_left (fun a c => (verify c a).1) l a.

(** When Cloudflare was asked for keys. *)
Fixpoint fetches (l : list call) (a : accessVerifier) : list Z :=
  match l with
  | [] => []
  | c :: l =>
    let a' := (verify c a).1 in
    (if bool_decide (av_lastAttempt a' = av_lastAttempt a) then [] else [ca_now c]) ++ fetches l a'
  end.

(** The key [key] of id [kid] is an RSA key a document listed. *)
Definition published (answers : list (result string string)) (kid : string) (key : PublicKey) : Prop :=
  exists body arr n k, Ok body ∈ answers /\ decode keys_field ([], 0%nat) (string_take jwks_limit body) = Some (arr, n)
    /\ k ∈ firstn n arr /\ jk_Kty k = "RSA" /\ jk_Kid k = kid /\ rsaKeyFromJWK k = Some key.

(** The assertion was signed for this application by a published key, and has
    not expired. *)
Definition genuine (a : accessVerifier) (answers : list (result string string)) (c : call) (claims : accessClaims) : Prop :=
  exists p0 p1 p2 header kid key sig payload,
    split_byte "." (TrimSpace (ca_assertion c)) = [p0; p1; p2]
    /\ base64_raw_url p0 = Some header /\ unmarshal header_field ("", "") header = Some ("RS256", kid)
    /\ published answers kid key
    /\ base64_raw_url p2 = Some sig /\ rsa_verify key (sha256 (p0 ++ "." ++ p1)) sig = true
    /\ base64_raw_url p1 = Some payload /\ unmarshal_claims payload = Some claims
    /\ cl_Iss claims = av_issuer a /\ av_aud a ∈ cl_Aud claims
    /\ Unix (ca_later c) < cl_Exp claims /\ (cl_Nbf claims = 0 \/ cl_Nbf claims <= Unix (ca_later c)).

(** Every key held was published by one of the answers. *)
Definition keys_published (answers : list (result string string)) (a : accessVerifier) : Prop :=
  forall kid key, av_keys a !! kid = Some key -> published answers kid key.

Definition same_application (a a' : accessVerifier) : Prop := av_aud a' = av_aud a /\ av_issuer a' = av_issuer a.

Lemma usable_listed l kid key : usable_keys l !! kid = Some key ->
  exists k, k ∈ l /\ jk_Kty k = "RSA" /\ jk_Kid k = kid /\ rsaKeyFromJWK k = Some key.
Proof.
  unfold usable_keys. set (step := fun m k => _).
  assert (G : forall l m, fold_left step l m !! kid = Some key -> m !! kid = Some key
    \/ exists k, k ∈ l /\ jk_Kty k = "RSA" /\ jk_Kid k = kid /\ rsaKeyFromJWK k = Some key).
  { clear l. intros l. induction l as [|k l IH]; intros m E; [by left|]. cbn in E.
    destruct (IH _ E) as [Q|(k' & I & R)]; [|right; exists k'; split; [set_solver|done]].
    unfold step in Q. destruct (negb _ || _) eqn:C; [by left|]. destruct (rsaKeyFromJWK k) as [pub|] eqn:P; [|by left].
    apply lookup_insert_Some in Q as [[Ek <-]|[_ Q]]; [|by left]. right. exists k. apply orb_false_elim in C as [C _].
    apply negb_false_iff, String.eqb_eq in C. split; [set_solver|done]. }
  intros E. destruct (G l ∅ E) as [Q|Q]; [by rewrite lookup_empty in Q|done].
Qed.

Lemma published_mono answers answers' kid key : answers ⊆ answers' -> published answers kid key -> published answers' kid key.
Proof. intros S (body & arr & n & k & I & R). exists body, arr, n, k. split; [by apply S|done]. Qed.

Lemma fetched_published answer a keys kid key : fetchKeys answer a = Ok keys -> keys !! kid = Some key -> published [answer] kid key.
Proof.
  unfold fetchKeys. destruct answer as [body|]; [|done]. destruct (decode _ _ _) as [[arr n]|] eqn:D; [|done].
  case_match; [done|]. intros [= <-] L. apply usable_listed in L as (k & I & R). exists body, arr, n, k. split; [set_solver|]. by split.
Qed.

(** Looking for a key asks at most once, not within a minute of the last time,
    and gives a published key. *)
Lemma keyFor_spec kid now later answer a :
  let '(a', r) := keyFor kid now later answer a in
  same_application a a'
  /\ (av_lastAttempt a' = av_lastAttempt a \/ av_lastAttempt a' = Some now /\ recent now (av_lastAttempt a) accessJWKSMinRefresh = false)
  /\ forall answers, keys_published answers a ->
     keys_published (answers ++ [answer])%list a' /\ forall key, r = Ok key -> published (answers ++ [answer])%list kid key.
Proof.
  assert (M : forall answers kid key, published answers kid key -> published (answers ++ [answer])%list kid key)
    by (intros answers k key; apply published_mono; set_solver).
  assert (F : forall answers keys, fetchKeys answer (a <| av_lastAttempt := Some now |>) = Ok keys ->
    forall k key, keys !! k = Some key -> published (answers ++ [answer])%list k key).
  { intros answers keys E k key L. apply (published_mono [answer]); [set_solver|]. by eapply fetched_published. }
  unfold keyFor, refresh. destruct (av_keys a !! kid) as [key|] eqn:L;
    destruct (recent now (av_fetchedAt a) accessJWKSTTL); cbv beta iota;
    try (destruct (recent now (av_lastAttempt a) accessJWKSMinRefresh) eqn:R; [|destruct (fetchKeys answer _) as [keys|e] eqn:E]);
    (split; [done|]; split; [by auto|]; intros answers P; split; [intros k key' L'; cbn in L'; by eauto|]); cbn;
    try (by intros ? [= <-]; eauto); try done;
    intros key' Q; case_match; try done; injection Q as <-; by eauto.
Qed.

Lemma verifyToken_spec c a :
  let '(a', r) := verifyToken (TrimSpace (ca_assertion c)) (ca_now c) (ca_later c) (ca_answer c) a in
  same_application a a'
  /\ (av_lastAttempt a' = av_lastAttempt a
      \/ av_lastAttempt a' = Some (ca_now c) /\ recent (ca_now c) (av_lastAttempt a) accessJWKSMinRefresh = false)
  /\ forall answers, keys_published answers a ->
     keys_published (answers ++ [ca_answer c])%list a'
     /\ forall claims, r = Ok claims -> genuine a (answers ++ [ca_answer c])%list c claims.
Proof.
  assert (Z : forall e : string, same_application a a /\ (av_lastAttempt a = av_lastAttempt a
      \/ av_lastAttempt a = Some (ca_now c) /\ recent (ca_now c) (av_lastAttempt a) accessJWKSMinRefresh = false)
    /\ forall answers, keys_published answers a -> keys_published (answers ++ [ca_answer c])%list a
       /\ forall claims, Err e = Ok claims -> genuine a (answers ++ [ca_answer c])%list c claims).
  { intros e. split; [done|]. split; [by left|]. intros answers P. split; [|done]. intros k key L.
    apply (published_mono answers); [set_solver|by apply P]. }
  unfold verifyToken. destruct (split_byte "." (TrimSpace (ca_assertion c))) as [|p0 [|p1 [|p2 [|]]]] eqn:Sp; try apply Z.
  destruct (base64_raw_url p0) as [header|] eqn:B0; [|apply Z].
  destruct (unmarshal header_field _ header) as [[alg kid]|] eqn:Hd; [|apply Z].
  destruct (String.eqb_spec alg "RS256") as [->|]; cbn [negb]; [|apply Z]. destruct (String.eqb kid ""); [apply Z|].
  pose proof (keyFor_spec kid (ca_now c) (ca_later c) (ca_answer c) a) as K. destruct (keyFor _ _ _ _ _) as [a' [key|e]].
  2: { destruct K as (A & B & C). split; [done|]. split; [done|]. intros answers P. split; [by apply C|done]. }
  destruct K as (A & B & C). split; [done|]. split; [done|]. intros answers P. destruct (C answers P) as [P' Q]. split; [done|].
  intros claims. unfold check_signed. destruct (base64_raw_url p2) as [sig|] eqn:B2; [|done].
  destruct (rsa_verify _ _ _) eqn:V; [|done]. cbn [negb]. destruct (base64_raw_url p1) as [payload|] eqn:B1; [|done].
  destruct (unmarshal_claims payload) as [cl|] eqn:U; [|done]. unfold check_claims.
  destruct ((cl_Exp cl =? 0) || _) eqn:Ex; [done|]. destruct (negb (cl_Nbf cl =? 0) && _) eqn:Nb; [done|].
  destruct (negb (String.eqb (cl_Iss cl) _)) eqn:Is; [done|]. destruct (negb (existsb _ _)) eqn:Au; [done|]. intros [= <-]. destruct A as [A1 A2].
  exists p0, p1, p2, header, kid, key, sig, payload. specialize (Q key eq_refl). repeat (split; [done|]).
  rewrite A2 in Is. rewrite A1 in Au. apply negb_false_iff in Is, Au. apply String.eqb_eq in Is. apply existsb_exists in Au as (x & I & Ex').
  apply String.eqb_eq in Ex' as ->. apply list_elem_of_In in I. split; [done|]. split; [done|]. bools. split; [lia|].
  apply andb_false_iff in Nb as [Nb|Nb]; lia.
Qed.

(** One request, whatever it brings. *)
Lemma verify_spec c a :
  same_application a (verify c a).1
  /\ (av_lastAttempt (verify c a).1 = av_lastAttempt a
      \/ av_lastAttempt (verify c a).1 = Some (ca_now c) /\ recent (ca_now c) (av_lastAttempt a) accessJWKSMinRefresh = false)
  /\ forall answers, keys_published answers a ->
     keys_published (answers ++ [ca_answer c])%list (verify c a).1
     /\ forall op, (verify c a).2 = Some op -> exists claims, genuine a (answers ++ [ca_answer c])%list c claims
          /\ ac_Email op = ToLower (TrimSpace (cl_Email claims)) /\ ca_lookup c (ac_Email op) = Some (ac_Role op)
          /\ ac_Issuer op = av_issuer a.
Proof.
  unfold verify, Verify. destruct (String.eqb (TrimSpace (ca_assertion c)) "").
  { cbn. split; [done|]. split; [by left|]. intros answers P. split; [|done]. intros k key L.
    apply (published_mono answers); [set_solver|by apply P]. }
  pose proof (verifyToken_spec c a) as T. destruct (verifyToken _ _ _ _ _) as [a' [claims|e]]; destruct T as ([A1 A2] & B & C).
  - destruct (String.eqb (ToLower _) "") eqn:Em; [cbn; split; [done|]; split; [done|]; intros answers P; split; [by apply C|done]|].
    unfold noteVerified. destruct (recent _ (av_lastRecorded a') _), (ca_lookup c _) as [role|] eqn:Lk;
      try destruct (recent _ (av_lastAccepted _) _); cbn; (split; [done|]; split; [done|]; intros answers P;
      destruct (C answers P) as [P' G]; split; [exact P'|]); intros op [= <-]; exists claims; cbn; split; [by apply G|done|by apply G|done|by apply G|done|by apply G|done].
  - destruct (recent _ (av_lastRefusal a') _); cbn; (split; [done|]; split; [done|]; intros answers P; split; [by apply C|done]).
Qed.

Lemma verifies_spec l : forall a answers, keys_published answers a ->
  same_application a (verifies l a) /\ keys_published (answers ++ map ca_answer l)%list (verifies l a).
Proof.
  unfold verifies. induction l as [|c l IH]; intros a answers P; cbn; [by rewrite app_nil_r|].
  destruct (verify_spec c a) as ([A1 A2] & _ & K). destruct (K answers P) as [P' _]. destruct (IH _ _ P') as [[B1 B2] Q].
  split; [split; congruence|]. by rewrite cons_middle, (assoc (++)%list).
Qed.

Lemma new_verifier opts a : newAccessVerifier opts = Ok (Some a) ->
  av_keys a = ∅ /\ av_lastAttempt a = None /\ av_aud a = TrimSpace (ao_AUD opts) /\ av_issuer a = issuer_of (TrimSpace (ao_Team opts))
  /\ av_aud a <> "".
Proof.
  unfold newAccessVerifier. case_match; [done|]. case_match eqn:N; [done|]. intros [= <-]. cbn. repeat split.
  apply orb_false_elim in N as [_ N]. by apply String.eqb_neq in N.
Qed.

(** C18: Whatever requests came before, an operator Cloudflare Access vouches
    for presented an unexpired assertion for this application, of this team's
    issuer, signed with an RSA key that Cloudflare published in one of its
    answers, and holds the role the operator list gives the address in it. *)
Theorem access_identity_genuine (opts : AccessOptions) (a : accessVerifier) (l : list call) (c : call) (op : accessOperator) :
  newAccessVerifier opts = Ok (Some a) -> (verify c (verifies l a)).2 = Some op ->
  exists claims, genuine a (map ca_answer (l ++ [c]))%list c claims
    /\ ac_Email op = ToLower (TrimSpace (cl_Email claims)) /\ ca_lookup c (ac_Email op) = Some (ac_Role op)
    /\ ac_Issuer op = issuer_of (TrimSpace (ao_Team opts)).
Proof.
  intros N E. destruct (new_verifier opts a N) as (K & _ & _ & Is & _).
  destruct (verifies_spec l a []) as [[A1 A2] P]; [intros kid key; by rewrite K|].
  destruct (verify_spec c (verifies l a)) as (_ & _ & Q). destruct (Q _ P) as [_ G]. destruct (G op E) as (claims & Ge & Em & Lk & Io).
  exists claims. split; [|split; [done|]; split; [done|congruence]]. rewrite map_app.
  destruct Ge as (p0 & p1 & p2 & hd & kid & key & sig & pl & Ge). exists p0, p1, p2, hd, kid, key, sig, pl.
  by rewrite <- A1, <- A2.
Qed.

(** Instants at least a refresh interval apart, the first of them after [last]. *)
Fixpoint spaced (last : option Z) (l : list Z) : Prop :=
  match l with
  | [] => True
  | t :: l => match last with Some s => s + accessJWKSMinRefresh <= t | None => True end /\ spaced (Some t) l
  end.

(** However many assertions arrive, with whatever key ids, Cloudflare is
    asked for its keys at most once a minute. *)
Theorem key_fetches_spaced (l : list call) (a : accessVerifier) : spaced (av_lastAttempt a) (fetches l a).
Proof.
  revert a. induction l as [|c l IH]; intros a; [done|]. cbn [fetches].
  destruct (verify_spec c a) as (_ & [E|[E R]] & _); specialize (IH (verify c a).1).
  - rewrite bool_decide_true by done. by rewrite <- E.
  - case_bool_decide as Q; cbn [app]; [by rewrite <- Q|]. cbn [spaced]. rewrite E in IH. split; [|done].
    unfold recent in R. destruct (av_lastAttempt a); [apply Z.ltb_ge in R; lia|done].
Qed.

End Access.

End access.

Module access_example.
Import canonical json platform encoding access.

Local Open Scope string_scope.
Local Open Scope Z_scope.

#[local] Existing Instance ascii_only.
#[local] Instance plain_hash : Crypto := {| sha256 := fun s => s; ed25519_verify := fun _ _ _ => false |}.
(** A signature is the digest after the modulus' last byte. *)
#[local] Instance toy_rsa : Rsa := fun key digest sig => String.eqb sig (String (ascii_of_N (Z.to_N (pk_N key mod 256))) digest).

Definition listed (kid kty : string) (n e : string) : value :=
  JObj [("kid", str kid); ("kty", str kty); ("n", str (base64_raw_url_encode n)); ("e", str (base64_raw_url_encode e))].

Definition certs : string := print (JObj [("keys", JArr [listed "k0" "EC" "z" "z"; listed "k1" "RSA" "key" (String "001" (String "000" (String "001" "")))])]).

Definition token (kid aud email : string) (exp : Z) : string :=
  let p0 := base64_raw_url_encode (print (JObj [("alg", str "RS256"); ("kid", str kid)])) in
  let p1 := base64_raw_url_encode (print (JObj [("iss", str "https://acme.cloudflareaccess.com"); ("sub", str "s-1"); ("email", str email);
    ("aud", JArr [str "other"; str aud]); ("exp", num exp)])) in
  p0 ++ "." ++ p1 ++ "." ++ base64_raw_url_encode (String "y" (p0 ++ "." ++ p1)).

Definition list_of (email : string) : option string := if String.eqb email "ana@example.com" then Some "admin" else None.

Definition request_at (t : Z) (assertion : string) (answer : result string string) : call :=
  mkCall list_of assertion (t * Second) (t * Second) answer.

Definition acme : AccessOptions := mkOptions "acme" " app-7 " "".

Definition verifier : accessVerifier := mkVerifier "acme" "app-7" "https://acme.cloudflareaccess.com" ∅ None None None None None.

(** Keys are fetched for the first assertion; another application's token and
    an unknown key id are refused. *)
Definition earlier : list call :=
  [request_at 100 (token "k1" "app-8" "ana@example.com" 5000) (Ok certs); request_at 130 (token "k9" "app-7" "ana@example.com" 5000) (Ok certs)].

Definition sign_in : call := request_at 140 (token "k1" "app-7" " Ana@Example.com" 5000) (Err "unreachable").

Definition ana : accessOperator := mkAccessOperator "ana@example.com" "admin" "https://acme.cloudflareaccess.com" "s-1".

Lemma access_identity_genuine_witness :
  map (fun c => (verify c (verifies earlier verifier)).2) (earlier ++ [sign_in])%list = [None; None; Some ana]
  /\ exists claims, ac_Email ana = ToLower (TrimSpace (cl_Email claims)) /\ "app-7" ∈ cl_Aud claims.
Proof.
  split; [vm_compute; reflexivity|].
  destruct (access_identity_genuine acme verifier earlier sign_in ana) as (claims & G & E & _);
    [vm_compute; reflexivity|vm_compute; reflexivity|].
  exists claims. split; [exact E|]. destruct G as (p0 & p1 & p2 & hd & kid & key & sig & pl & _ & _ & _ & _ & _ & _ & _ & _ & _ & A & _). exact A.
Defined.

End access_example.
