(* ===== verification/Http.v ===== *)
(** * Requests

    What the hub reads of an HTTP request: headers by canonical name, the
    parsed query, cookies and form, the peer address, verified certificates.
    [server/security.go] and [setup.go] have the helpers. *)

From Stdlib Require Import Ascii String.
From stdpp Require Import gmap.
From S2P Require Import Prelude Utf8.

Module http.
Import utf8.

Local Open Scope string_scope.
Local Open Scope Z_scope.

(** ** Headers *)

Definition token_byte (c : ascii) : bool :=
  is_digit c || in_range 65 90 (byte_val c) || in_range 97 122 (byte_val c)
  || existsb (Ascii.eqb c) (list_ascii_of_string "!#$%&'*+-.^_`|~").

Definition upper_byte (c : ascii) : ascii := if in_range 97 122 (byte_val c) then ascii_of_N (Z.to_N (byte_val c - 32)) else c.

Fixpoint canonical_from (upper : bool) (s : string) : string :=
  match s with
  | "" => ""
  | String c s => String (if upper then upper_byte c else lower_byte c) (canonical_from (Ascii.eqb c "-") s)
  end.

(** [textproto.CanonicalMIMEHeaderKey]. *)
Definition CanonicalHeaderKey (s : string) : string := if string_forallb token_byte s then canonical_from true s else s.

(** Headers by canonical name. *)
Notation header := (gmap string (list string)).

Definition Get (h : header) (k : string) : string := match h !! CanonicalHeaderKey k with Some (v :: _) => v | _ => "" end.
Definition Set_ (k v : string) (h : header) : header := <[CanonicalHeaderKey k := [v]]> h.
Definition Del (k : string) (h : header) : header := delete (CanonicalHeaderKey k) h.

(** ** Requests *)

Record Certificate : Type := mkCertificate { ct_CommonName : string; ct_Raw : string }.

(** [rq_TLS]: the verified chains of a request over TLS. *)
Record request : Type := mkRequest {
  rq_Method : string;
  rq_Path : string;
  rq_Header : header;
  rq_Query : list (string * string);
  rq_Cookies : list (string * string);
  rq_PostForm : list (string * string);
  rq_RemoteAddr : string;
  rq_TLS : option (list (list Certificate));
  rq_Body : string;
}.

#[export] Instance eta_request : Eta request :=
  fun x => mkRequest (rq_Method x) (rq_Path x) (rq_Header x) (rq_Query x) (rq_Cookies x) (rq_PostForm x) (rq_RemoteAddr x) (rq_TLS x) (rq_Body x).

Definition first_of (k : string) (l : list (string * string)) : option string :=
  snd <$> find (fun kv => String.eqb kv.1 k) l.

Definition header_of (r : request) (k : string) : string := Get (rq_Header r) k.
Definition query_of (r : request) (k : string) : string := default "" (first_of k (rq_Query r)).
Definition PostFormValue (r : request) (k : string) : string := default "" (first_of k (rq_PostForm r)).
Definition Cookie (r : request) (k : string) : option string := first_of k (rq_Cookies r).

Definition set_header (k v : string) (r : request) : request := r <| rq_Header ::= Set_ k v |>.

Definition strip (l : list string) (r : request) : request := r <| rq_Header ::= fun h => foldr Del h l |>.

(** The common name of a verified certificate. A chain is never empty. *)
Definition clientCertCN (r : request) : string :=
  match rq_TLS r with Some ((leaf :: _) :: _) => ct_CommonName leaf | _ => "" end.

(** ** Addresses *)

Definition found (i : option nat) : bool := match i with Some _ => true | None => false end.

(** The host of [net.SplitHostPort]. *)
Definition SplitHostPort (hostport : string) : option string :=
  match last_index_byte ":" hostport with
  | None => None
  | Some i =>
    if HasPrefix hostport "[" then
      match index_byte "]" hostport with
      | None => None
      | Some end_ =>
        if negb (Nat.eqb (S end_) i) then None
        else if found (index_byte "[" (string_drop 1 hostport)) then None
        else if found (index_byte "]" (string_drop (S end_) hostport)) then None
        else Some (string_take (end_ - 1) (string_drop 1 hostport))
      end
    else
      let host := string_take i hostport in
      if found (index_byte ":" host) || found (index_byte "[" hostport) || found (index_byte "]" hostport) then None
      else Some host
  end.

Definition clientIP (r : request) : string := default (rq_RemoteAddr r) (SplitHostPort (rq_RemoteAddr r)).

(** ** Comparing secrets *)

(** The loop of [secureStringEqual]: [range] visits where the runes of [a]
    start, and only the bytes there are compared. *)
Fixpoint same_starts (a b : string) : bool :=
  match a, b with
  | String x a1, String y b1 =>
    Ascii.eqb x y &&
    (if valid1 x then same_starts a1 b1 else
     match a1 with
     | "" => true
     | String x2 a2 =>
       if valid2 x x2 then same_starts a2 (string_drop 1 b1) else
       match a2 with
       | "" => same_starts a1 b1
       | String x3 a3 =>
         if valid3 x x2 x3 then same_starts a3 (string_drop 2 b1) else
         match a3 with
         | "" => same_starts a1 b1
         | String x4 a4 => if valid4 x x2 x3 x4 then same_starts a4 (string_drop 3 b1) else same_starts a1 b1
         end
       end
     end)
  | _, _ => true
  end.

Definition secureStringEqual (a b : string) : bool :=
  if negb (Nat.eqb (String.length a) (String.length b)) || String.eqb a "" then false else same_starts a b.

(** It decides equality with an ASCII secret. *)
Lemma secure_equal_ascii a b : is_ascii b = true -> secureStringEqual a b = negb (String.eqb b "") && String.eqb a b.
Proof.
  intros A. unfold secureStringEqual. destruct (Nat.eqb_spec (String.length a) (String.length b)) as [L|L].
  2: { cbn. symmetry. apply andb_false_iff. right. apply String.eqb_neq. by intros ->. }
  cbn. destruct (String.eqb_spec a "") as [->|Na].
  { destruct b; done. }
  assert (Nb : String.eqb b "" = false) by (apply String.eqb_neq; intros ->; by destruct a). rewrite Nb. cbn. clear Na Nb.
  revert b A L. induction a as [|x a IH]; intros [|y b] A L; try done. cbn in A, L. bools. cbn [same_starts String.eqb].
  destruct (Ascii.eqb_spec x y) as [->|]; [|done]. cbn.
  assert (V : valid1 y = true) by (unfold is_ascii_byte in H; unfold valid1, byte_in, in_range; pose proof (N2Z.is_nonneg (N_of_ascii y)); unfold byte_val in *; lia).
  rewrite V. apply IH; [done|]. lia.
Qed.

(** It does not decide equality in general: here two letters with accents. *)
Lemma secure_equal_accents :
  let e_acute := String "195" (String "169" "") in let e_grave := String "195" (String "168" "") in
  secureStringEqual e_acute e_grave = true /\ e_acute <> e_grave.
Proof. split; [reflexivity|discriminate]. Qed.

End http.
