(* ===== verification/Gate.v ===== *)
(** * Who is calling

    The middleware of the hub's routes ([server/server.go], [device_auth.go],
    [router_identity.go], [nightshift_feed.go], [approval_relay.go],
    [setup.go], [steward.go], [operators.go]): a request is refused, or handed
    to its handler with headers that say who calls. *)

From Stdlib Require Import Ascii String.
From stdpp Require Import gmap.
From S2P Require Import Prelude Canonical Json Platform Http Jwt Throttle Operators Devices Enrolment Access.

Module gate.
Import canonical json platform http jwt.

Local Open Scope string_scope.
Local Open Scope Z_scope.

(** ** The hub, as far as authentication goes *)

Record setupSession : Type := mkSetup { ss_CSRF : string; ss_ExpiresAt : Z }.
Record oidcState : Type := mkOidc { os_Nonce : string; os_Verifier : string; os_Expires : Z }.
Record Tenant : Type := mkTenant { tn_ID : string; tn_Name : string }.

Record AuditEntry : Type := mkAudit {
  au_ID : string; au_TenantID : string; au_UserID : string; au_Username : string; au_Action : string;
  au_Resource : string; au_Details : string; au_IPAddress : string; au_Timestamp : Z }.

(** Tenants are found by their API key, which is unique. *)
Record hub : Type := mkHub {
  h_adminKey : string;
  h_throttle : throttle.authThrottle;
  h_access : option access.accessVerifier;
  h_setupSessions : gmap string setupSession;
  h_oidcStates : gmap string oidcState;
  h_settings : gmap string string;
  h_tenants : gmap string Tenant;
  h_operators : gmap string operators.Operator;
  h_identities : gmap (string * string) operators.OperatorIdentity;
  h_devices : devices.store;
  h_enrolments : enrolment.enrolments;
  h_routers : gmap string string;
  h_audit : list AuditEntry;
}.

#[export] Instance eta_hub : Eta hub :=
  fun x => mkHub (h_adminKey x) (h_throttle x) (h_access x) (h_setupSessions x) (h_oidcStates x) (h_settings x) (h_tenants x)
    (h_operators x) (h_identities x) (h_devices x) (h_enrolments x) (h_routers x) (h_audit x).

(** What a request meets: the clock before and after a call to Cloudflare, its
    answer, the order of a map, an identifier. *)
Record env : Type := mkEnv {
  ev_now : Z; ev_later : Z; ev_answer : result string string; ev_order : list string; ev_uuid : string }.

(** A cookie set, by name; a negative age deletes it. *)
Record cookie : Type := mkCookie { ck_Name : string; ck_Value : string; ck_Path : string; ck_Secure : bool; ck_Strict : bool; ck_MaxAge : Z }.

(** [rp_Body]: the members of the JSON object answered, or what a page is made of. *)
Record reply : Type := mkReply { rp_Status : Z; rp_Body : list (string * string); rp_Cookies : list cookie }.

Definition writeJSON (status : Z) (body : list (string * string)) : reply := mkReply status body [].
Definition writeJSONError (status : Z) (msg : string) : reply := writeJSON status [("error", msg)].

(** A step of serving a request: it goes on with a value, or the answer is given. *)
Definition gate (A : Type) : Type := hub -> hub * result reply A.

#[export] Instance gate_ret : MRet gate := fun A x h => (h, Ok x).
#[export] Instance gate_bind : MBind gate :=
  fun A B k m h => match m h with (h, Ok x) => k x h | (h, Err e) => (h, Err e) end.

Definition refuse {A} (status : Z) (msg : string) : gate A := fun h => (h, Err (writeJSONError status msg)).
Definition read {A} (f : hub -> A) : gate A := fun h => (h, Ok (f h)).
Definition change (f : hub -> hub) : gate unit := fun h => (f h, Ok tt).

Definition GetSetting (k : string) (h : hub) : string := default "" (h_settings h !! k).
Definition SetSetting (k v : string) : gate unit := change (fun h => h <| h_settings ::= insert k v |>).

(** The throttle, by the address of the caller. *)
Definition blocked (e : env) (r : request) : gate bool := fun h =>
  let '(t, b) := throttle.blocked (clientIP r) (ev_now e) (h_throttle h) in (h <| h_throttle := t |>, Ok b).
Definition failed (e : env) (r : request) : gate unit :=
  change (fun h => h <| h_throttle ::= fun t => fst (throttle.fail (ev_order e) (clientIP r) (ev_now e) t) |>).
Definition succeeded (r : request) : gate unit := change (fun h => h <| h_throttle ::= throttle.succeed (clientIP r) |>).

Definition too_many : string := "too many failed authentication attempts; try again shortly".

(** The first thing a route with a credential does. *)
Definition unless_blocked (e : env) (r : request) : gate unit :=
  b ← blocked e r; if (b : bool) then refuse 429 too_many else mret tt.

(** A wrong credential. *)
Definition fail_with {A} (e : env) (r : request) (msg : string) : gate A := _ ← failed e r; refuse 401 msg.

Section Gate.
Context `{Unicode} `{Crypto} `{Rows} `{Hmac}.

(** ** Roles *)

Definition roleAllows (role method : string) : bool :=
  negb (String.eqb role RoleAuditor) || existsb (String.eqb method) ["GET"; "HEAD"; "OPTIONS"].

Definition requireAdmin (r : request) : gate request :=
  if negb (String.eqb (header_of r "X-Role") "admin") then refuse 403 "admin credential required for this route" else mret r.

Definition requireAdminRole (r : request) : gate request :=
  if negb (String.eqb (header_of r "X-Role") "admin") then refuse 403 "admin role required" else mret r.

Definition hashFeedKey (key : string) : string := hex_encode (sha256 key).

Definition stewardKeySetting : string := "steward.key_hash".
Definition nightshiftFeedKeySetting : string := "nightshift_feed_key_sha256".
Definition approvalRelayKeySetting : string := "nightshift_approval_relay_key_sha256".

Definition stewardRoutes : list (string * list string) :=
  [("/api/v1/maintenance/wait", ["GET"]); ("/api/v1/maintenance/escalate", ["POST"]); ("/api/v1/maintenance", ["GET"]);
   ("/api/v1/screen/sessions", ["POST"; "DELETE"]); ("/api/v1/screen/sessions/attach", ["POST"]);
   ("/api/v1/screen/sessions/close", ["POST"])].

Definition stewardAllowed (r : request) : bool :=
  existsb (fun pm => String.eqb pm.1 (rq_Path r) && existsb (String.eqb (rq_Method r)) pm.2) stewardRoutes.

Definition stewardAuthMethod : string := "steward-key".

Definition isSteward (r : request) : bool := String.eqb (header_of r "X-Auth-Method") stewardAuthMethod.

(** A key and the hash stored of one. *)
Definition key_matches (key want : string) : bool :=
  negb (String.eqb key "") && negb (String.eqb want "") && throttle.secretEqual (hashFeedKey key) want.

Definition stewardKeyMatches (key : string) (h : hub) : bool := key_matches key (GetSetting stewardKeySetting h).

(** ** The console session *)

Definition consoleSessionCookie : string := "ominull_console".
Definition consoleSessionTTL : Z := 12 * Hour.

Definition consoleSession (e : env) (r : request) (h : hub) : option access.accessOperator :=
  c ← Cookie r consoleSessionCookie;
  if String.eqb c "" then None else
  match ValidateJWT c (h_adminKey h) (ev_now e) with
  | Err _ => None
  | Ok claims =>
    if negb (contains_sub (c_Username claims) "@")
    then Some (access.mkAccessOperator (c_Username claims) (c_Role claims) "" "")
    else
      role ← operators.GetOperatorRole (c_Username claims) (h_operators h);
      Some (access.mkAccessOperator (c_Username claims) role "" "")
  end.

(** The claims of a bearer token. *)
Definition bearer (e : env) (r : request) (h : hub) : option Claims :=
  let authHeader := header_of r "Authorization" in
  if HasPrefix authHeader "Bearer " then
    match ValidateJWT (TrimPrefix authHeader "Bearer ") (h_adminKey h) (ev_now e) with Ok c => Some c | Err _ => None end
  else None.

(** ** [authMiddleware] *)

Definition identity_headers : list string :=
  ["X-Role"; "X-Tenant-ID"; "X-Username"; "X-User-ID"; "X-Client-CN"; "X-Device-Endpoint-ID"; "X-Operator-ID"; "X-Auth-Method"].

Definition note_cert (r : request) : request :=
  if String.eqb (clientCertCN r) "" then r else set_header "X-Client-CN" (clientCertCN r) r.

Definition proceed (r : request) : gate request :=
  if roleAllows (header_of r "X-Role") (rq_Method r) then mret r
  else refuse 403 "this role can read the fleet but not change it".

Definition as_claims (c : Claims) (r : request) : request :=
  let r := set_header "X-Role" (c_Role c) r in
  let r := set_header "X-User-ID" (c_UserID c) r in
  let r := set_header "X-Username" (c_Username c) r in
  let r := set_header "X-Auth-Method" "jwt" r in
  if String.eqb (c_TenantID c) "" then r else set_header "X-Tenant-ID" (c_TenantID c) r.

Definition as_session (op : access.accessOperator) (r : request) : request :=
  let r := set_header "X-Role" (access.ac_Role op) r in
  let r := set_header "X-Username" (access.ac_Email op) r in
  set_header "X-Auth-Method" "console" r.

Definition as_admin (r : request) : request :=
  let r := set_header "X-Role" "admin" r in
  let r := set_header "X-Username" "admin" r in
  set_header "X-Auth-Method" "api-key" r.

Definition as_steward (r : request) : request :=
  let r := set_header "X-Role" "steward" r in
  let r := set_header "X-Username" "steward" r in
  set_header "X-Auth-Method" stewardAuthMethod r.

Definition as_tenant (t : Tenant) (r : request) : request :=
  let r := set_header "X-Role" "tenant" r in
  let r := set_header "X-Tenant-ID" (tn_ID t) r in
  let r := set_header "X-Username" (tn_Name t) r in
  set_header "X-Auth-Method" "api-key" r.

Definition steward_only : string :=
  "the steward key reaches only maintenance runs, escalation, its own approvals and the screen for a stuck run".

(** The keys presented, one after the other. *)
Fixpoint try_keys (e : env) (keys : list string) (r : request) : gate request :=
  match keys with
  | [] => fail_with e r "invalid or missing api key"
  | key :: keys =>
    if String.eqb key "" then try_keys e keys r else
    h ← read (fun h => h);
    if throttle.secretEqual key (h_adminKey h) then (_ ← succeeded r; proceed (as_admin r))
    else if stewardKeyMatches key h then
      (_ ← succeeded r;
       if negb (stewardAllowed (as_steward r)) then refuse 403 steward_only else proceed (as_steward r))
    else match h_tenants h !! key with
    | Some tenant => _ ← succeeded r; proceed (as_tenant tenant r)
    | None => try_keys e keys r
    end
  end.

Definition presented_keys (r : request) : list string :=
  [TrimSpace (header_of r "X-API-Key"); TrimSpace (query_of r "api_key")].

Definition authMiddleware (e : env) (r : request) : gate request :=
  let r := note_cert (strip identity_headers r) in
  h ← read (fun h => h);
  match bearer e r h with
  | Some claims => proceed (as_claims claims r)
  | None =>
    match consoleSession e r h with
    | Some op => proceed (as_session op r)
    | None => _ ← unless_blocked e r; try_keys e (presented_keys r) r
    end
  end.

(** ** Agents *)

Definition deviceCredentialHeader : string := "X-Ominull-Device-Credential".

Definition legacyAgentAuthEnabled (h : hub) : bool := EqualFold (TrimSpace (GetSetting "legacy_agent_auth" h)) "migration".

Definition isAllowedDeviceRoute (method path : string) : bool :=
  let post := String.eqb method "POST" in
  (post && String.eqb path "/api/v1/events")
  || (String.eqb method "GET" && String.eqb path "/api/v1/agent/config")
  || (post && (String.eqb path "/api/v1/response/jobs/ack" || String.eqb path "/api/v1/response/jobs/result"))
  || ((post || String.eqb method "PUT") && String.eqb path "/api/v1/evidence/items")
  || (post && String.eqb path "/api/v1/evidence/finalize")
  || (post && (String.eqb path "/api/v1/data/policy" || String.eqb path "/api/v1/data/inventory")).

Definition device_headers : list string :=
  ["X-Role"; "X-Tenant-ID"; "X-Username"; "X-User-ID"; "X-Client-CN"; "X-Device-Endpoint-ID"; "X-Operator-ID"].

Definition as_device (id : devices.DeviceCredentialAuth) (r : request) : request :=
  let r := set_header "X-Role" "tenant" r in
  let r := set_header "X-Tenant-ID" (devices.da_TenantID id) r in
  let r := set_header "X-Username" ("device:" ++ devices.da_EndpointID id) r in
  set_header "X-Device-Endpoint-ID" (devices.da_EndpointID id) r.

Definition VerifyDeviceCredential (e : env) (raw : string) : gate (option devices.DeviceCredentialAuth) := fun h =>
  let '(d, id) := devices.VerifyDeviceCredential raw (ev_now e) (h_devices h) in (h <| h_devices := d |>, Ok id).

Definition deviceOrLegacyMiddleware (e : env) (r : request) : gate request :=
  let credential := TrimSpace (header_of r deviceCredentialHeader) in
  if String.eqb credential "" then
    (r ← authMiddleware e r;
     legacy ← read legacyAgentAuthEnabled;
     if String.eqb (header_of r "X-Role") "tenant" && negb legacy
     then refuse 401 "legacy agent authentication is disabled; enroll this device for a unique credential" else mret r)
  else
    _ ← unless_blocked e r;
    id ← VerifyDeviceCredential e credential;
    match id with
    | None => fail_with e r "invalid or revoked device credential"
    | Some id =>
      _ ← succeeded r;
      let r := as_device id (note_cert (strip device_headers r)) in
      if negb (isAllowedDeviceRoute (rq_Method r) (rq_Path r))
      then refuse 403 "device credentials may only access permitted agent endpoints" else mret r
    end.

(** ** Gateways *)

Definition routerCNPrefix : string := "router:".

(** [^[a-z0-9][a-z0-9._-]{0,63}$]. *)
Definition router_first (c : ascii) : bool := is_digit c || in_range 97 122 (byte_val c).
Definition routerIDPattern (id : string) : bool :=
  match id with
  | "" => false
  | String c rest =>
    router_first c && string_forallb (fun c => router_first c || existsb (Ascii.eqb c) ["."; "_"; "-"]%char) rest
    && (String.length rest <=? 63)%nat
  end.

Definition verifiedRouter (r : request) (h : hub) : option string :=
  match rq_TLS r with
  | Some ((leaf :: _) :: _) =>
    if negb (HasPrefix (ct_CommonName leaf) routerCNPrefix) then None else
    let id := TrimPrefix (ct_CommonName leaf) routerCNPrefix in
    if negb (routerIDPattern id) then None else
    registered ← h_routers h !! id;
    if String.eqb (hex_encode (sha256 (ct_Raw leaf))) registered then Some id else None
  | _ => None
  end.

Definition as_router (id : string) (r : request) : request :=
  let r := set_header "X-Router-ID" id r in
  let r := set_header "X-Role" "router" r in
  let r := set_header "X-Username" (routerCNPrefix ++ id) r in
  set_header "X-Auth-Method" "router-cert" r.

Definition routerAuth (e : env) (r : request) : gate request :=
  let r := strip ["X-Router-ID"] r in
  id ← read (verifiedRouter r);
  match id with
  | Some id => mret (as_router id (strip identity_headers r))
  | None => authMiddleware e r
  end.

(** ** The feed and the relay *)

Definition relay_headers : list string := (identity_headers ++ ["X-Router-ID"])%list.

Definition as_feed (r : request) : request :=
  let r := set_header "X-Role" "nightshift-feed" r in
  let r := set_header "X-Username" "nightshift" r in
  set_header "X-Auth-Method" "feed-key" r.

Definition nightshiftFeedAuth (e : env) (r : request) : gate request :=
  let key := TrimSpace (header_of r "X-API-Key") in
  want ← read (GetSetting nightshiftFeedKeySetting);
  if key_matches key want then
    (_ ← unless_blocked e r; mret (as_feed (strip relay_headers r)))
  else
    r ← authMiddleware e r;
    r ← requireAdmin r;
    if negb (String.eqb (header_of r "X-Tenant-ID") "")
    then refuse 403 "the Nightshift feed is fleet-wide; a tenant administrator cannot read it" else mret r.

Definition as_relay (r : request) : request :=
  let r := set_header "X-Role" "approval-relay" r in
  let r := set_header "X-Username" "nightshift-relay" r in
  set_header "X-Auth-Method" "relay-key" r.

Definition approvalRelayAuth (e : env) (r : request) : gate request :=
  _ ← unless_blocked e r;
  let key := TrimSpace (header_of r "X-API-Key") in
  want ← read (GetSetting approvalRelayKeySetting);
  if negb (key_matches key want) then fail_with e r "the Nightshift relay key is required" else
  _ ← succeeded r;
  mret (as_relay (strip relay_headers r)).

(** ** Setup *)

Definition setupSessionCookie : string := "ominull_setup".
Definition setupSessionTTL : Z := 1800 * Second.

Definition setupSessionFromRequest (e : env) (r : request) : gate (option setupSession) := fun h =>
  match Cookie r setupSessionCookie with
  | None | Some "" => (h, Ok None)
  | Some id =>
    match h_setupSessions h !! id with
    | Some s => if ss_ExpiresAt s <? ev_now e then (h <| h_setupSessions ::= delete id |>, Ok None) else (h, Ok (Some s))
    | None => (h <| h_setupSessions ::= delete id |>, Ok None)
    end
  end.

Definition reading (r : request) : bool := String.eqb (rq_Method r) "GET" || String.eqb (rq_Method r) "HEAD".

Definition setupCSRF (e : env) (r : request) : gate (option setupSession) :=
  s ← setupSessionFromRequest e r;
  match s with
  | None => mret None
  | Some session =>
    let presented := TrimSpace (header_of r "X-CSRF-Token") in
    let presented := if String.eqb presented "" && String.eqb (rq_Method r) "POST"
                     then TrimSpace (PostFormValue r "csrf_token") else presented in
    if negb (reading r) && negb (secureStringEqual presented (ss_CSRF session)) then mret None else mret (Some session)
  end.

Definition setupOrAuthMiddleware (e : env) (r : request) : gate request :=
  ok ← setupCSRF e r;
  match ok with
  | Some _ => mret (set_header "X-Username" "local-setup" (set_header "X-Role" "admin" r))
  | None =>
    s ← setupSessionFromRequest e r;
    match s with
    | Some _ => if negb (reading r) then refuse 403 "missing or invalid CSRF token" else authMiddleware e r
    | None => authMiddleware e r
    end
  end.

(** ** What handlers read *)

Definition tenantFromRequest (r : request) : string :=
  if String.eqb (header_of r "X-Role") "tenant" then header_of r "X-Tenant-ID"
  else if String.eqb (query_of r "tenant_id") "" then header_of r "X-Tenant-ID" else query_of r "tenant_id".

Definition operatorFromRequest (r : request) : string :=
  if String.eqb (header_of r "X-Username") "" then "admin" else header_of r "X-Username".

Definition credentialOf (r : request) : string :=
  let m := header_of r "X-Auth-Method" in
  if existsb (String.eqb m) ["api-key"; "jwt"; "console"; "relay-key"] then m else "unknown".

End Gate.

End gate.
