(* ===== verification/Handlers.v ===== *)
(** * Signing in and handing out credentials

    The handlers of the hub that create sessions, keys and credentials:
    [server/server.go], [setup.go], [oidc.go], [steward.go],
    [nightshift_feed.go], [approval_relay.go], [router_identity.go],
    [device_auth.go], [operators.go]. Random bytes, an issued certificate and
    the answers of an OIDC provider are arguments. *)

From Stdlib Require Import Ascii String.
From stdpp Require Import gmap.
From S2P Require Import Prelude Canonical Json Platform Encoding Http Jwt Throttle Operators Devices Enrolment Access Gate.

Module handlers.
Import canonical json platform encoding http jwt gate.

Local Open Scope string_scope.
Local Open Scope Z_scope.

(** [t.Format(time.RFC3339)]. *)
Class TimeFormat := rfc3339 : Z -> string.

Section Handlers.
Context `{Unicode} `{Crypto} `{Rows} `{Hmac} `{access.Rsa} `{TimeFormat}.

(** ** The audit log *)

Definition RecordAudit (x : AuditEntry) : gate unit := change (fun h => h <| h_audit ::= fun l => (l ++ [x])%list |>).

Definition or_unknown (s : string) : string := if String.eqb s "" then "unknown" else s.

Definition audit (e : env) (r : request) (action resource details : string) : gate unit :=
  RecordAudit (mkAudit (ev_uuid e) (header_of r "X-Tenant-ID") (header_of r "X-User-ID") (or_unknown (header_of r "X-Username"))
    action resource details (clientIP r) (ev_now e)).

Definition auditAs (e : env) (r : request) (username action resource details : string) : gate unit :=
  RecordAudit (mkAudit (ev_uuid e) "" "" (or_unknown username) action resource details (clientIP r) (ev_now e)).

(** ** Reading a body *)

Definition limited (n : nat) (r : request) : string := string_take n (rq_Body r).

(** One string member of an object. *)
Definition one_field (name : string) (k : string) (v : value) (x : string) : option string :=
  if String.eqb k name then string_field v x else Some x.

(** Two string members. *)
Definition two_fields (n1 n2 : string) (k : string) (v : value) (x : string * string) : option (string * string) :=
  if String.eqb k n1 then s ← string_field v x.1; Some (s, x.2)
  else if String.eqb k n2 then s ← string_field v x.2; Some (x.1, s)
  else Some x.

Definition decoded {A} (x : option A) (msg : string) : gate A := match x with Some a => mret a | None => refuse 400 msg end.

Definition only (method : string) (r : request) : gate unit :=
  if String.eqb (rq_Method r) method then mret tt else refuse 405 "method not allowed".

(** ** Sessions *)

Definition over_tls (r : request) : bool :=
  (match rq_TLS r with Some _ => true | None => false end) || EqualFold (header_of r "X-Forwarded-Proto") "https".

Definition setConsoleSession (e : env) (r : request) (operator : access.accessOperator) (h : hub) : cookie :=
  let '(username, role) :=
    if String.eqb (access.ac_Email operator) "" then ("admin", RoleAdmin)
    else (access.ac_Email operator, access.ac_Role operator) in
  let token := GenerateJWT (mkClaims "" username role "" 0) (h_adminKey h) consoleSessionTTL (ev_now e) in
  mkCookie consoleSessionCookie token "/" (over_tls r) true (consoleSessionTTL / Second).

(** [handleLogin]; the body was limited on its way in. *)
Definition handleLogin (e : env) (r : request) : gate reply :=
  _ ← only "POST" r;
  _ ← unless_blocked e r;
  up ← decoded (decode (two_fields "username" "password") ("", "") (rq_Body r)) "invalid json";
  h ← read (fun h => h);
  if String.eqb up.1 "admin" && throttle.secretEqual up.2 (h_adminKey h) then
    (_ ← succeeded r;
     let token := GenerateJWT (mkClaims "usr-admin" "admin" RoleAdmin "default" 0) (h_adminKey h) (24 * Hour) (ev_now e) in
     _ ← RecordAudit (mkAudit (ev_uuid e) "default" "usr-admin" "admin" "LOGIN" "auth" "Admin user logged in via master key" (clientIP r) (ev_now e));
     mret (writeJSON 200 [("status", "authenticated"); ("token", token); ("role", RoleAdmin)]))
  else fail_with e r "invalid credentials".

(** What a verification leaves behind: the log is not kept. *)
Definition note_events (l : list access.event) : gate unit :=
  change (fun h => fold_left (fun h x =>
    match x with access.RecordSuccess at_ => h <| h_settings ::= insert "access.last_success" (rfc3339 at_) |> | _ => h end) l h).

Definition verify_access (e : env) (r : request) : gate (option access.accessOperator) := fun h =>
  match h_access h with
  | None => (h, Ok None)
  | Some a =>
    let '(a, l, op) := access.Verify (fun email => operators.GetOperatorRole email (h_operators h))
      (header_of r "Cf-Access-Jwt-Assertion") (ev_now e) (ev_later e) (ev_answer e) a in
    let '(h, _) := note_events l (h <| h_access := Some a |>) in
    (h, Ok op)
  end.

Definition service_token (r : request) : bool :=
  negb (String.eqb (header_of r "CF-Access-Client-Id") "") || negb (String.eqb (header_of r "Cf-Access-Service-Token-Id") "").

(** The admin key as it is presented to the console. *)
Definition console_key (r : request) : string :=
  let provided := TrimSpace (query_of r "key") in
  let provided := if String.eqb provided "" && String.eqb (rq_Method r) "POST" then TrimSpace (PostFormValue r "key") else provided in
  if String.eqb provided "" then TrimSpace (header_of r "X-API-Key") else provided.

(** The page once the caller is known: [operator] signed in with Cloudflare
    just now, [prior] had a session. *)
Definition open_console (e : env) (r : request) (held : bool) (viewer : access.accessOperator)
    (operator prior : option access.accessOperator) : gate reply :=
  _ ← succeeded r;
  h ← read (fun h => h);
  let cookies :=
    if held || match operator with Some _ => true | None => false end
    then [setConsoleSession e r (default access.nobody operator) h] else [] in
  let how := match operator with Some _ => "Cloudflare Access" | None => "the admin key" end in
  _ ← (if match prior with Some p => negb (String.eqb (access.ac_Email p) (access.ac_Email viewer)) | None => true end
       then auditAs e r (access.ac_Email viewer) "CONSOLE_SIGNIN" (access.ac_Email viewer)
              ("Opened the console via " ++ how ++ " with the " ++ access.ac_Role viewer ++ " role")
       else mret tt);
  if negb (String.eqb (TrimSpace (query_of r "key")) "") then mret (mkReply 303 [("location", "/")] cookies) else
  mret (mkReply 200 [("key", if held then h_adminKey h else ""); ("viewer", access.ac_Email viewer); ("role", access.ac_Role viewer)] cookies).

Definition handleDashboard (e : env) (r : request) : gate reply :=
  if negb (String.eqb (rq_Path r) "/") then refuse 404 "not found" else
  if service_token r
  then refuse 403 "Access Denied: Service Tokens are restricted to agent telemetry and API endpoints only." else
  _ ← unless_blocked e r;
  let provided := console_key r in
  held ← read (fun h => throttle.secretEqual provided (h_adminKey h));
  operator ← (if (held : bool) then mret None else verify_access e r);
  prior ← read (consoleSession e r);
  token ← read (bearer e r);
  let viewer :=
    if (held : bool) then Some (access.mkAccessOperator "admin" RoleAdmin "" "") else
    match operator, prior, token with
    | Some op, _, _ => Some op
    | None, Some p, _ => Some p
    | None, None, Some claims => Some (access.mkAccessOperator (c_Username claims) (c_Role claims) "" "")
    | None, None, None => None
    end in
  match viewer with
  | None => if String.eqb provided "" then refuse 401 "gate" else fail_with e r "gate"
  | Some viewer => open_console e r held viewer operator prior
  end.

(** ** Setup sessions *)

Definition createSetupSession (e : env) (r : request) (rawID rawCSRF : string) : gate cookie :=
  let id := base64_raw_url_encode rawID in
  let csrf := base64_raw_url_encode rawCSRF in
  _ ← change (fun h => h <| h_setupSessions ::= insert id (mkSetup csrf (ev_now e + setupSessionTTL)) |>);
  mret (mkCookie setupSessionCookie id "/" (over_tls r) true (setupSessionTTL / Second)).

Definition invalidateSetupSessions (r : request) : gate cookie :=
  _ ← change (fun h => h <| h_setupSessions := ∅ |>);
  mret (mkCookie setupSessionCookie "" "/" (over_tls r) true (-1)).

(** ** Keys of other services *)

Definition fleet_admin (r : request) : bool := String.eqb (header_of r "X-Role") "admin" && String.eqb (header_of r "X-Tenant-ID") "".

Definition handleNightshiftFeedKey (e : env) (r : request) (raw : string) : gate reply :=
  _ ← only "POST" r;
  if negb (fleet_admin r) then refuse 403 "only an administrator can issue the Nightshift feed key" else
  let key := "nsf_" ++ hex_encode raw in
  _ ← SetSetting nightshiftFeedKeySetting (hashFeedKey key);
  _ ← audit e r "NIGHTSHIFT_FEED_KEY_ISSUED" "nightshift" "Issued the Nightshift findings feed key; any earlier key is revoked";
  mret (writeJSON 200 [("key", key); ("route", "/api/v1/integrations/nightshift/findings")]).

Definition handleApprovalRelayKey (e : env) (r : request) (raw : string) : gate reply :=
  _ ← only "POST" r;
  if negb (fleet_admin r) then refuse 403 "only an administrator can issue the Nightshift relay key" else
  let key := "nsa_" ++ hex_encode raw in
  _ ← SetSetting approvalRelayKeySetting (hashFeedKey key);
  _ ← audit e r "APPROVAL_RELAY_KEY_ISSUED" "nightshift"
    ("Issued the Nightshift relay key; any earlier key is revoked; credential " ++ credentialOf r ++ " (unverified)");
  mret (writeJSON 200 [("key", key); ("route", "/api/v1/integrations/nightshift/locks")]).

Definition stewardRouteList : string :=
  join "," (sort_slice string_lt (flat_map (fun pm => map (fun m => m ++ " " ++ pm.1) pm.2) stewardRoutes)).

Definition handleStewardKey (e : env) (r : request) (raw : string) : gate reply :=
  if negb (fleet_admin r) || isSteward r then refuse 403 "only an administrator can issue the steward key" else
  if String.eqb (rq_Method r) "POST" then
    let key := "nss_" ++ hex_encode raw in
    _ ← SetSetting stewardKeySetting (hashFeedKey key);
    _ ← audit e r "STEWARD_KEY_ISSUED" "steward" ("Issued the steward key; any earlier steward key is revoked; credential " ++ credentialOf r);
    mret (writeJSON 200 [("key", key); ("routes", stewardRouteList)])
  else if String.eqb (rq_Method r) "DELETE" then
    _ ← SetSetting stewardKeySetting "";
    _ ← audit e r "STEWARD_KEY_ISSUED" "steward" ("Revoked the steward key; credential " ++ credentialOf r);
    mret (writeJSON 200 [("revoked", "true")])
  else refuse 405 "method not allowed".

(** ** Gateways *)

Definition SetRouterIdentity (id cert_sha256 : string) : gate unit := change (fun h => h <| h_routers ::= insert id (ToLower cert_sha256) |>).

(** [pki]: the bytes of the certificate the PKI issues for a common name, or
    why it could not be issued or read. *)
Definition handleRouterIdentity (e : env) (r : request) (pki : option (string -> result string string)) : gate reply :=
  _ ← only "POST" r;
  if negb (fleet_admin r) then refuse 403 "only an administrator can issue a router identity" else
  match pki with None => refuse 503 "PKI not initialized" | Some issue =>
  body ← decoded (decode (one_field "router_id") "" (limited 4096 r)) "invalid json";
  let id := ToLower (TrimSpace body) in
  if negb (routerIDPattern id) then refuse 400 "router_id must be 1-64 characters of a-z, 0-9, '.', '_' or '-'" else
  match issue (routerCNPrefix ++ id) with
  | Err why => refuse 500 why
  | Ok der =>
    let fingerprint := hex_encode (sha256 der) in
    _ ← SetRouterIdentity id fingerprint;
    _ ← audit e r "ROUTER_IDENTITY_ISSUED" id
      ("Issued router client certificate " ++ string_take 16 fingerprint ++ "…; any earlier certificate for this router is revoked");
    mret (writeJSON 200 [("router_id", id); ("cert_sha256", fingerprint)])
  end end.

(** ** Agents *)

Definition handleLegacyAgentAuth (e : env) (r : request) : gate reply :=
  if String.eqb (rq_Method r) "GET" then
    mode ← read (GetSetting "legacy_agent_auth");
    mret (writeJSON 200 [("mode", TrimSpace mode)])
  else
    _ ← only "POST" r;
    body ← decoded (decode (one_field "mode") "" (limited 1024 r)) "unreadable legacy authentication body";
    let mode := ToLower (TrimSpace body) in
    if negb (String.eqb mode "migration") && negb (String.eqb mode "disabled") then refuse 400 "mode must be migration or disabled" else
    _ ← SetSetting "legacy_agent_auth" mode;
    _ ← audit e r "LEGACY_AGENT_AUTH_CHANGED" "agent-auth" ("Set legacy agent authentication mode to " ++ mode);
    mret (writeJSON 200 [("mode", mode)]).

Definition with_devices {A} (f : devices.store -> devices.store * A) : gate A := fun h =>
  let '(d, x) := f (h_devices h) in (h <| h_devices := d |>, Ok x).

Definition rotate_credential (e : env) (r : request) (raw idRaw : string) : gate reply :=
  body ← decoded (decode (one_field "endpoint_id") "" (limited 2048 r)) "unreadable device credential body";
  let endpointID := TrimSpace body in
  if String.eqb endpointID "" then refuse 400 "endpoint_id is required" else
  known ← read (fun h => devices.endpoints (h_devices h) !! endpointID);
  match known with
  | None => refuse 404 "endpoint not registered"
  | Some _ =>
    x ← with_devices (devices.IssueDeviceCredential endpointID raw idRaw (ev_now e));
    match x with
    | Err _ => refuse 500 "device credential could not be rotated"
    | Ok (credential, record) =>
      _ ← audit e r "DEVICE_CREDENTIAL_ROTATED" endpointID "Rotated the unique device credential; the previous credential is revoked";
      mret (writeJSON 200 [("id", devices.dc_ID record); ("device_credential", credential)])
    end
  end.

Definition revoke_credential (e : env) (r : request) : gate reply :=
  let endpointID := TrimSpace (query_of r "endpoint_id") in
  if String.eqb endpointID "" then refuse 400 "endpoint_id is required" else
  x ← with_devices (devices.RevokeDeviceCredentials endpointID (ev_now e));
  match x with
  | Err _ => refuse 404 "active device credential not found"
  | Ok _ =>
    _ ← audit e r "DEVICE_CREDENTIAL_REVOKED" endpointID "Revoked the unique device credential for this endpoint";
    mret (writeJSON 200 [("revoked", endpointID)])
  end.

(** Listed without the hashes, newest first. *)
Definition ListDeviceCredentials (h : hub) : list devices.DeviceCredential :=
  sort_slice (fun a b => devices.dc_CreatedAt b <? devices.dc_CreatedAt a)
    (rows_where (fun _ => true) (devices.credentials (h_devices h))).

Definition handleDeviceCredentials (e : env) (r : request) (raw idRaw : string) : gate reply :=
  if String.eqb (rq_Method r) "GET" then
    items ← read ListDeviceCredentials;
    mret (writeJSON 200 (map (fun c => (devices.dc_ID c, devices.dc_EndpointID c)) items))
  else if String.eqb (rq_Method r) "POST" then rotate_credential e r raw idRaw
  else if String.eqb (rq_Method r) "DELETE" then revoke_credential e r
  else refuse 405 "method not allowed".

(** ** Operators *)

Definition change_operators {A} (f : gmap string operators.Operator -> gmap string operators.Operator * A) : gate A := fun h =>
  let '(m, x) := f (h_operators h) in (h <| h_operators := m |>, Ok x).

Definition operator_refusal (x : operators.operator_error) : reply :=
  match x with
  | operators.LastAdmin => writeJSONError 409 "this is the only administrator left; promote someone else first"
  | operators.NoEmail => writeJSONError 400 "an operator is identified by an email address"
  | operators.NoRole role => writeJSONError 400 (role ++ " is not a role (admin, analyst, auditor)")
  end.

Definition handleOperators (e : env) (r : request) : gate reply :=
  if String.eqb (rq_Method r) "GET" then
    l ← read (fun h => operators.ListOperators (h_operators h));
    mret (writeJSON 200 (map (fun o => (operators.op_Email o, operators.op_Role o)) l ++ [("you", header_of r "X-Username")])%list)
  else
    _ ← only "POST" r;
    body ← decoded (decode (two_fields "email" "role") ("", "") (limited 4096 r)) "unreadable request body";
    let email := ToLower (TrimSpace body.1) in
    let role := ToLower (TrimSpace body.2) in
    x ← change_operators (operators.UpsertOperator email role (header_of r "X-Username") (ev_now e));
    match x with
    | Err err => fun h => (h, Err (operator_refusal err))
    | Ok _ =>
      _ ← audit e r "OPERATOR_GRANT" email ("Granted " ++ email ++ " the " ++ role ++ " role on this console");
      mret (writeJSON 200 [("email", email); ("role", role)])
    end.

Definition handleOperatorRemove (e : env) (r : request) : gate reply :=
  _ ← only "POST" r;
  body ← decoded (decode (one_field "email") "" (limited 4096 r)) "unreadable request body";
  let email := ToLower (TrimSpace body) in
  x ← change_operators (operators.DeleteOperator email);
  match x with
  | Err err => fun h => (h, Err (operator_refusal err))
  | Ok _ =>
    _ ← audit e r "OPERATOR_REVOKE" email ("Removed " ++ email ++ " from the console operator list");
    mret (writeJSON 200 [("email", email)])
  end.

(** ** Signing in through OIDC *)

Definition maxOIDCStates : Z := 1024.

Definition oidcRandom (raw : string) : string := base64_raw_url_encode raw.
Definition oidcS256 (value : string) : string := base64_raw_url_encode (sha256 value).

Record oidcProvider : Type := mkProvider { op_Issuer : string; op_ClientID : string; op_Redirect : string }.

(** [discovered]: whether discovery reached the issuer, or why not. *)
Definition oidcSettings (discovered : result string unit) (h : hub) : result string oidcProvider :=
  let issuer := TrimSpace (GetSetting "oidc.issuer" h) in
  let clientID := TrimSpace (GetSetting "oidc.client_id" h) in
  let redirect := TrimSpace (GetSetting "oidc.redirect_url" h) in
  if String.eqb issuer "" || String.eqb clientID "" || String.eqb redirect ""
  then Err "OIDC is not configured: issuer, client id, and redirect URL are required"
  else match discovered with
       | Err why => Err ("OIDC discovery failed: " ++ why)
       | Ok _ => Ok (mkProvider issuer clientID redirect)
       end.

Definition need {A} (x : result string A) (status : Z) : gate A := match x with Ok a => mret a | Err why => refuse status why end.

Definition oidc_cookie (r : request) (value : string) (age : Z) : cookie :=
  mkCookie "ominull_oidc_state" value "/oidc" (over_tls r) false age.

Definition handleOIDCStart (e : env) (r : request) (discovered : result string unit) (rawState rawNonce rawVerifier : string) : gate reply :=
  _ ← only "GET" r;
  settings ← read (oidcSettings discovered);
  provider ← need settings 503;
  let state := oidcRandom rawState in
  let nonce := oidcRandom rawNonce in
  let verifier := oidcRandom rawVerifier in
  _ ← change (fun h => h <| h_oidcStates ::= filter (fun kv => (os_Expires kv.2 <? ev_now e) = false) |>);
  pending ← read (fun h => Z.of_nat (size (h_oidcStates h)));
  if maxOIDCStates <=? pending then refuse 503 "too many pending OIDC sign-ins; retry shortly" else
  _ ← change (fun h => h <| h_oidcStates ::= insert state (mkOidc nonce verifier (ev_now e + 600 * Second)) |>);
  mret (mkReply 302 [("client_id", op_ClientID provider); ("redirect_uri", op_Redirect provider); ("state", state); ("nonce", nonce);
    ("code_challenge", oidcS256 verifier); ("code_challenge_method", "S256")] [oidc_cookie r state 600]).

(** What the provider says of an authorization code: the verified claims of
    the ID token. *)
Record idToken : Type := mkToken { it_Nonce : string; it_Subject : string; it_Email : string; it_Issuer : string }.

Definition ResolveOperatorIdentity (e : env) (issuer subject email : string) : gate (option operators.OperatorIdentity) := fun h =>
  let '(ids, x) := operators.ResolveOperatorIdentity issuer subject email (ev_now e) (h_operators h) (h_identities h) in
  (h <| h_identities := ids |>, Ok (match x with Ok y => y | Err _ => None end)).

(** [secret]: the client secret or why its file was refused; [redeem]: the
    provider's answer to a code presented with a PKCE verifier. *)
Definition handleOIDCCallback (e : env) (r : request) (discovered : result string unit) (secret : result string string)
    (redeem : string -> string -> result string idToken) : gate reply :=
  _ ← only "GET" r;
  let state := TrimSpace (query_of r "state") in
  if negb (bool_decide (Cookie r "ominull_oidc_state" = Some state)) || String.eqb state ""
  then refuse 400 "OIDC state validation failed" else
  stored ← read (fun h => h_oidcStates h !! state);
  _ ← change (fun h => h <| h_oidcStates ::= delete state |>);
  match stored with
  | None => refuse 400 "OIDC state expired"
  | Some stored =>
    if os_Expires stored <? ev_now e then refuse 400 "OIDC state expired" else
    if String.eqb (TrimSpace (query_of r "code")) "" then refuse 400 "OIDC authorization code missing" else
    settings ← read (oidcSettings discovered);
    provider ← need settings 503;
    _ ← need secret 503;
    token ← need (redeem (query_of r "code") (os_Verifier stored)) 401;
    if negb (secureStringEqual (it_Nonce token) (os_Nonce stored)) then refuse 401 "OIDC nonce validation failed" else
    if String.eqb (it_Subject token) "" || String.eqb (it_Email token) "" || negb (String.eqb (it_Issuer token) (op_Issuer provider))
    then refuse 401 "OIDC identity claims are incomplete" else
    identity ← ResolveOperatorIdentity e (op_Issuer provider) (it_Subject token) (it_Email token);
    match identity with
    | None => refuse 403 "OIDC identity is not an Ominull operator"
    | Some identity =>
      _ ← SetSetting "oidc.last_success" (rfc3339 (ev_now e));
      h ← read (fun h => h);
      let operator := access.mkAccessOperator (operators.oi_Email identity) (operators.oi_Role identity)
        (operators.oi_Issuer identity) (operators.oi_Subject identity) in
      _ ← auditAs e r (operators.oi_Email identity) "OIDC_SIGNIN" (operators.oi_Subject identity) "Signed in through verified OIDC issuer";
      mret (mkReply 303 [("location", "/")] [oidc_cookie r "" (-1); setConsoleSession e r operator h])
    end
  end.

End Handlers.

End handlers.
