(* ===== verification/EnrolHandlers.v ===== *)
(** * Enrolling a machine

    The two routes that hand out credentials to machines without any
    ([server/enrollment_api.go], [enrol_portal.go], [enrol.go]): a code is
    redeemed for a device credential, and the portal gives a code to a machine
    of a network an administrator opened a window for. *)

From Stdlib Require Import Ascii String.
From stdpp Require Import gmap.
From S2P Require Import Prelude Utf8 Canonical Json Platform Http Throttle Devices Enrolment Gate Handlers.

Module enrolling.
Import utf8 canonical json platform http gate handlers enrolment.

Local Open Scope string_scope.
Local Open Scope Z_scope.

(** What a request to enrol meets besides its [env]: whether its form can be
    read, the PKI with the certificate it issues for a name and an address,
    random bytes, a UUID and the address agents are told. *)
Record supply : Type := mkSupply {
  el_form : bool;
  el_pki : option (string -> string -> result string string);
  el_raw : string;
  el_idRaw : string;
  el_uuid : string;
  el_hubURL : string;
}.

Section Enrolling.
Context `{Unicode} `{Crypto} `{Rows} `{TimeFormat}.

(** ** Endpoint ids *)

Definition alnum (c : ascii) : bool := is_digit c || in_range 65 90 (byte_val c) || in_range 97 122 (byte_val c).

(** [^[A-Za-z0-9][A-Za-z0-9._-]{0,62}$]. *)
Definition enrollmentEndpointID (id : string) : bool :=
  match id with
  | "" => false
  | String c rest =>
    alnum c && string_forallb (fun c => alnum c || existsb (Ascii.eqb c) ["."; "_"; "-"]%char) rest && (String.length rest <=? 62)%nat
  end.

Definition host_rune (r : rune) : string :=
  match r with
  | [c] => if is_digit c || in_range 97 122 (byte_val c) || existsb (Ascii.eqb c) ["-"; "_"; "."]%char then String c "" else "-"
  | _ => "-"
  end.

Definition punctuation (c : ascii) : bool := existsb (Ascii.eqb c) ["-"; "."; "_"]%char.

Fixpoint trim_left_punctuation (s : string) : string :=
  match s with String c s' => if punctuation c then trim_left_punctuation s' else s | "" => "" end.

Definition trim_right_punctuation (s : string) : string := string_rev (trim_left_punctuation (string_rev s)).

Definition enrollmentEndpointIDFor (platform requested hostname uuid : string) : string :=
  let requested := TrimSpace requested in
  if negb (String.eqb requested "") then requested else
  let value := ToLower (TrimSpace hostname) in
  let value := fold_right (fun r s => host_rune r ++ s) "" (range_runes value) in
  let value := trim_right_punctuation (trim_left_punctuation value) in
  let value := if String.eqb value "" then uuid else value in
  let value := (if String.eqb platform "windows" then "windows-" else "linux-") ++ value in
  trim_right_punctuation (string_take 63 value).

(** ** Redeeming a code *)

Record enrollmentRedeemRequest : Type := mkRedeem {
  er_Code : string; er_Platform : string; er_EndpointID : string; er_Hostname : string; er_IP : string; er_MAC : string; er_OS : string }.

#[export] Instance eta_redeem : Eta enrollmentRedeemRequest :=
  fun x => mkRedeem (er_Code x) (er_Platform x) (er_EndpointID x) (er_Hostname x) (er_IP x) (er_MAC x) (er_OS x).

Definition redeem_field (k : string) (v : value) (x : enrollmentRedeemRequest) : option enrollmentRedeemRequest :=
  if String.eqb k "code" then s ← string_field v (er_Code x); Some (x <| er_Code := s |>)
  else if String.eqb k "platform" then s ← string_field v (er_Platform x); Some (x <| er_Platform := s |>)
  else if String.eqb k "endpoint_id" then s ← string_field v (er_EndpointID x); Some (x <| er_EndpointID := s |>)
  else if String.eqb k "hostname" then s ← string_field v (er_Hostname x); Some (x <| er_Hostname := s |>)
  else if String.eqb k "ip" then s ← string_field v (er_IP x); Some (x <| er_IP := s |>)
  else if String.eqb k "mac" then s ← string_field v (er_MAC x); Some (x <| er_MAC := s |>)
  else if String.eqb k "os" then s ← string_field v (er_OS x); Some (x <| er_OS := s |>)
  else Some x.

Definition redeem_body (x : supply) (r : request) : option enrollmentRedeemRequest :=
  if contains_sub (header_of r "Content-Type") "application/x-www-form-urlencoded" then
    if el_form x then
      Some (mkRedeem (PostFormValue r "code") (PostFormValue r "platform") (PostFormValue r "endpoint_id")
        (PostFormValue r "hostname") (PostFormValue r "ip") (PostFormValue r "mac") (PostFormValue r "os"))
    else None
  else decode redeem_field (mkRedeem "" "" "" "" "" "" "") (limited 8192 r).

Definition with_enrolments {A} (f : enrolments -> enrolments * A) : gate A := fun h =>
  let '(d, x) := f (h_enrolments h) in (h <| h_enrolments := d |>, Ok x).

Definition GetTenant (id : string) (h : hub) : option Tenant := head (rows_where (fun t => String.eqb (tn_ID t) id) (h_tenants h)).

(** The part of [UpsertEndpoint] that concerns credentials: an endpoint that is
    known keeps its tenant. *)
Definition UpsertEndpoint (id tenant : string) : gate unit :=
  change (fun h => h <| h_devices ::= fun s =>
    match devices.endpoints s !! id with
    | Some _ => s
    | None => devices.mkStore (devices.credentials s) (<[id := if String.eqb tenant "" then "default" else tenant]> (devices.endpoints s))
    end |>).

(** What follows once a code was redeemed for [profile]. *)
Definition enrol_endpoint (x : supply) (e : env) (r : request) (req : enrollmentRedeemRequest)
    (issue : string -> string -> result string string) (profile : EnrollmentProfile) : gate reply :=
  let endpointID := TrimSpace (ep_EndpointID profile) in
  let endpointID := if String.eqb endpointID "" then enrollmentEndpointIDFor (er_Platform req) (er_EndpointID req) (er_Hostname req) (el_uuid x)
                    else endpointID in
  if negb (enrollmentEndpointID endpointID) then refuse 400 "endpoint id is invalid" else
  tenant ← read (GetTenant (ep_TenantID profile));
  match tenant with
  | None => refuse 400 "enrollment profile names an unknown tenant"
  | Some tenant =>
    _ ← UpsertEndpoint endpointID (tn_ID tenant);
    match issue endpointID (er_IP req) with
    | Err _ => refuse 500 "endpoint certificate could not be issued"
    | Ok cert =>
      c ← with_devices (devices.IssueDeviceCredential endpointID (el_raw x) (el_idRaw x) (ev_now e));
      match c with
      | Err _ => refuse 500 "device credential could not be issued"
      | Ok (credential, _) =>
        _ ← auditAs e r ("enrollment:" ++ endpointID) "ENROLLMENT_REDEEMED" endpointID
          ("Redeemed a " ++ er_Platform req ++ " enrollment profile from " ++ clientIP r);
        mret (writeJSON 200 [("endpoint_id", endpointID); ("agent_hub_url", el_hubURL x); ("device_credential", credential); ("cert_pem", cert)])
      end
    end
  end.

Definition handleEnrollmentRedeem (x : supply) (e : env) (r : request) : gate reply :=
  _ ← only "POST" r;
  b ← blocked e r;
  if (b : bool) then refuse 429 "too many enrollment attempts; try again shortly" else
  req ← decoded (redeem_body x r) "unreadable enrollment body";
  let req := req <| er_Platform ::= fun p => ToLower (TrimSpace p) |> in
  if negb (String.eqb (er_Platform req) "linux") && negb (String.eqb (er_Platform req) "windows")
  then refuse 400 "platform must be linux or windows" else
  match el_pki x with
  | None => refuse 503 "hub PKI is unavailable"
  | Some issue =>
    p ← with_enrolments (RedeemEnrollmentProfile (er_Code req) (er_Platform req) (ev_now e));
    match p with
    | Err why => fail_with e r why
    | Ok profile => _ ← succeeded r; enrol_endpoint x e r req issue profile
    end
  end.

(** ** The portal *)

(** The platforms an installer is made for: key, label, file name. *)
Definition enrolmentPlatforms : list (string * string * string) :=
  [("linux", "Linux", "ominull-install.sh"); ("windows", "Windows", "ominull-install.ps1")].

Definition enrolmentPlatform_ (key : string) : option (string * string * string) := find (fun p => String.eqb p.1.1 key) enrolmentPlatforms.

Definition portalOSFromAgent (ua : string) : string := if contains_sub (ToLower ua) "windows" then "windows" else "linux".

(** What a visitor reads, without the installer script and its command. *)
Record portalView : Type := mkView {
  pv_Covered : bool; pv_NeedsPass : bool; pv_Platform : string; pv_Filename : string; pv_Code : string; pv_ProfileID : string;
  pv_Error : string; pv_WindowLabel : string }.

#[export] Instance eta_portalView : Eta portalView :=
  fun x => mkView (pv_Covered x) (pv_NeedsPass x) (pv_Platform x) (pv_Filename x) (pv_Code x) (pv_ProfileID x) (pv_Error x) (pv_WindowLabel x).

(** [r.FormValue]: the form before the query. *)
Definition FormValue (r : request) (k : string) : string := default "" (first_of k (rq_PostForm r ++ rq_Query r)%list).

Definition too_many_attempts : string := "Too many attempts from this address. Wait a minute and try again.".
Definition wrong_passcode : string := "That passcode is not right.".

(** The page of a visitor whose claim was refused. *)
Definition refused_view (u : EnrolmentWindowUnavailable) (r : request) (view : portalView) : portalView :=
  if eu_NeedsPasscode u then
    let view := view <| pv_NeedsPass := true |> <| pv_Covered := true |> in
    if String.eqb (TrimSpace (FormValue r "passcode")) "" then view else view <| pv_Error := wrong_passcode |>
  else
    view <| pv_Covered := false |> <| pv_Error :=
      if negb (String.eqb (eu_Closed u) "")
      then "The enrolment window for this network is " ++ eu_Closed u ++ ". Ask an administrator to open another one."
      else "This machine is not authorised to enrol itself. Ask an administrator to open an enrolment window for " ++ clientIP r ++ "." |>.

(** The code for a machine whose claim on [window] was accepted. *)
Definition mint (x : supply) (e : env) (r : request) (plat : string * string * string) (window : EnrolmentWindow) (view : portalView) :
    gate portalView :=
  y ← with_enrolments (CreateEnrollmentProfile
        (mkProfile "" "campaign" plat.1.1 (ew_TenantID window) (ew_LocationID window) (ew_Role window) "" "" "self-service" 0 None 1 0 None)
        EnrollmentProfileTTL (el_idRaw x) (el_raw x) (ev_now e));
  match y with
  | Err why => mret (view <| pv_Error := "The hub could not mint an enrollment profile: " ++ why |>)
  | Ok (profile, code) =>
    let r := strip ["X-Role"; "X-Tenant-ID"; "X-Username"; "X-User-ID"] r in
    let r := set_header "X-Username" "self-service" (set_header "X-Role" "admin" r) in
    _ ← audit e r "ENROLLMENT_PROFILE_CREATED" (ep_ID profile)
      ("Self-service: " ++ clientIP r ++ " received a one-use " ++ plat.1.2 ++ " enrollment code from window " ++ ew_ID window
       ++ " (" ++ ew_Label window ++ ") at " ++ rfc3339 (ev_now e));
    mret (view <| pv_Covered := true |> <| pv_NeedsPass := false |> <| pv_WindowLabel := ew_Label window |> <| pv_Filename := plat.2 |>
               <| pv_Code := code |> <| pv_ProfileID := ep_ID profile |>)
  end.

Definition portalMint (x : supply) (e : env) (r : request) (view : portalView) : gate portalView :=
  if negb (el_form x) then mret (view <| pv_Error := "That request could not be read. Reload the page and try again." |>) else
  let want := TrimSpace (FormValue r "platform") in
  let view := if String.eqb want "" then view else view <| pv_Platform := want |> in
  match enrolmentPlatform_ (ToLower (pv_Platform view)) with
  | None => mret (view <| pv_Error := "Pick Linux or Windows." |>)
  | Some plat =>
    b ← blocked e r;
    if (b : bool) then mret (view <| pv_Error := too_many_attempts |> <| pv_NeedsPass := true |>) else
    c ← with_enrolments (ClaimEnrolment (clientIP r) (FormValue r "passcode") (ev_now e));
    match c with
    | Err u => _ ← (if eu_NeedsPasscode u then failed e r else mret tt); mret (refused_view u r view)
    | Ok window => _ ← succeeded r; mint x e r plat window view
    end
  end.

Definition show (b : bool) : string := if b then "true" else "false".

Definition page (v : portalView) : reply :=
  mkReply 200 [("covered", show (pv_Covered v)); ("needs_pass", show (pv_NeedsPass v)); ("platform", pv_Platform v); ("filename", pv_Filename v);
    ("code", pv_Code v); ("profile_id", pv_ProfileID v); ("error", pv_Error v); ("window", pv_WindowLabel v)] [].

Definition handleEnrolPortal (x : supply) (e : env) (r : request) : gate reply :=
  if negb (String.eqb (rq_Method r) "GET") && negb (String.eqb (rq_Method r) "POST") then refuse 405 "method not allowed" else
  covering ← read (fun h => CoveringWindow (clientIP r) (ev_now e) (h_enrolments h));
  let view := mkView (is_set covering) false (portalOSFromAgent (header_of r "User-Agent")) "" "" "" "" "" in
  view ← (if String.eqb (rq_Method r) "POST" then portalMint x e r view else
          mret match covering with
               | Some w => view <| pv_NeedsPass := negb (String.eqb (ew_Hash w) "") |> <| pv_WindowLabel := ew_Label w |>
               | None => view
               end);
  mret (page view).

End Enrolling.

End enrolling.
