(* ===== verification/GateProps.v ===== *)
(** * What the gates guarantee

    Which headers a client has no say in at each gate; who gets through, and as
    whom; how many wrong credentials are answered over all routes, and that a
    lockout turns visits away. *)

From Stdlib Require Import Ascii String.
From stdpp Require Import gmap.
From S2P Require Import Prelude Utf8 Canonical Json Platform Encoding Http Jwt Throttle Operators Devices Enrolment Access Gate Handlers EnrolHandlers.

Import utf8 canonical platform http jwt gate handlers.

Local Open Scope string_scope.
Local Open Scope Z_scope.

(** ** Headers *)

(** [k] is one of the names [l]. *)
Definition named (l : list string) (k : string) : bool := existsb (String.eqb k) (map CanonicalHeaderKey l).

Lemma del_all_lookup l h k : foldr Del h l !! k = if named l k then None else h !! k.
Proof.
  unfold named. induction l as [|x l IH]; [done|]. cbn. unfold Del at 1. destruct (String.eqb_spec k (CanonicalHeaderKey x)) as [->|N].
  - by rewrite lookup_delete_eq.
  - by rewrite lookup_delete_ne by done.
Qed.

Lemma header_set_eq k v r : header_of (set_header k v r) k = v.
Proof. unfold header_of, set_header, Get, Set_. cbn. by rewrite lookup_insert_eq. Qed.

Lemma header_set_ne k k' v r : CanonicalHeaderKey k <> CanonicalHeaderKey k' -> header_of (set_header k v r) k' = header_of r k'.
Proof. intros N. unfold header_of, set_header, Get, Set_. cbn. by rewrite lookup_insert_ne. Qed.

Lemma header_strip l r k : header_of (strip l r) k = if named l (CanonicalHeaderKey k) then "" else header_of r k.
Proof. unfold header_of, strip, Get. cbn. rewrite del_all_lookup. by destruct (named l _). Qed.

Lemma strip_eq l r r' :
  strip l r = strip l r' <->
  rq_Method r = rq_Method r' /\ rq_Path r = rq_Path r' /\ rq_Query r = rq_Query r' /\ rq_Cookies r = rq_Cookies r'
  /\ rq_PostForm r = rq_PostForm r' /\ rq_RemoteAddr r = rq_RemoteAddr r' /\ rq_TLS r = rq_TLS r' /\ rq_Body r = rq_Body r'
  /\ forall k, named l k = false -> rq_Header r !! k = rq_Header r' !! k.
Proof.
  unfold strip. destruct r as [m p h q c f a t b], r' as [m' p' h' q' c' f' a' t' b']. cbn. split.
  - intros [= -> -> E -> -> -> -> -> ->]. repeat split. intros k N.
    pose proof (del_all_lookup l h k) as L. pose proof (del_all_lookup l h' k) as L'. rewrite N in L, L'. congruence.
  - intros (-> & -> & -> & -> & -> & -> & -> & -> & E). f_equal. apply map_eq. intros k. rewrite !del_all_lookup.
    destruct (named l k) eqn:N; [done|]. by apply E.
Qed.

(** All the names of [l'] are among [l]. *)
Definition covers (l l' : list string) : bool := forallb (fun k => named l (CanonicalHeaderKey k)) l'.

Lemma named_covers l l' k : covers l l' = true -> named l' k = true -> named l k = true.
Proof.
  unfold covers. rewrite forallb_forall. intros C N. unfold named in N. apply existsb_exists in N as (x & I & Q).
  apply String.eqb_eq in Q as ->. apply in_map_iff in I as (y & <- & I). by apply C.
Qed.

Lemma strip_covers l l' r r' : covers l l' = true -> strip l' r = strip l' r' -> strip l r = strip l r'.
Proof.
  intros C E. apply strip_eq in E as (A1 & A2 & A3 & A4 & A5 & A6 & A7 & A8 & A9). apply strip_eq. repeat (split; [done|]).
  intros k N. apply A9. destruct (named l' k) eqn:N'; [|done]. by rewrite (named_covers l l' k C N') in N.
Qed.

(** What a strip does to a request that was stripped or given headers. *)
Lemma strip_strip l l' r : covers l l' = true -> strip l (strip l' r) = strip l r.
Proof.
  intros C. apply strip_eq. repeat (split; [done|]). intros k N. cbn. rewrite del_all_lookup.
  destruct (named l' k) eqn:N'; [|done]. by rewrite (named_covers l l' k C N') in N.
Qed.

Lemma strip_set l k v r : named l (CanonicalHeaderKey k) = true -> strip l (set_header k v r) = strip l r.
Proof.
  intros C. apply strip_eq. repeat (split; [done|]). intros k' N. cbn. unfold Set_. rewrite lookup_insert_ne; [done|]. congruence.
Qed.

Lemma header_agree l r r' k : strip l r = strip l r' -> named l (CanonicalHeaderKey k) = false -> header_of r k = header_of r' k.
Proof. intros E N. apply strip_eq in E as (_ & _ & _ & _ & _ & _ & _ & _ & E). unfold header_of, Get. by rewrite E. Qed.

(** Compute a header of a request with headers set and stripped. *)
Ltac headers :=
  repeat first
  [ rewrite header_set_eq
  | rewrite header_set_ne by (vm_compute; discriminate)
  | rewrite header_strip; match goal with |- context [named ?l (CanonicalHeaderKey ?k)] =>
      let b := eval vm_compute in (named l (CanonicalHeaderKey k)) in change (named l (CanonicalHeaderKey k)) with b end; cbv iota ].

Section Gates.
Context `{U : Unicode} `{K : Crypto} `{R : Rows} `{M : Hmac}.

(** ** The gates *)

Inductive door : Type := Api | Agents | Gateways | Feed | Relay | Setup.

Definition enter (d : door) (e : env) (r : request) : gate request :=
  match d with
  | Api => authMiddleware e r
  | Agents => deviceOrLegacyMiddleware e r
  | Gateways => routerAuth e r
  | Feed => nightshiftFeedAuth e r
  | Relay => approvalRelayAuth e r
  | Setup => setupOrAuthMiddleware e r
  end.

(** The headers that say who calls. *)
Definition who : list string :=
  ["X-Role"; "X-Tenant-ID"; "X-Username"; "X-User-ID"; "X-Client-CN"; "X-Device-Endpoint-ID"; "X-Operator-ID"].

(** The headers a gate vouches for, whatever credential is shown. The agents'
    gate leaves [X-Auth-Method] to a client with a device credential, and the
    setup gate all but the role and the name to one with a setup session. *)
Definition vouched (d : door) : list string :=
  match d with
  | Setup => ["X-Role"; "X-Username"]
  | Agents => who
  | Api | Feed => "X-Auth-Method" :: who
  | Gateways | Relay => "X-Auth-Method" :: "X-Router-ID" :: who
  end.

Lemma agree_addr l r r' : strip l r = strip l r' -> clientIP r = clientIP r'.
Proof. intros E. apply strip_eq in E as (_ & _ & _ & _ & _ & A & _). unfold clientIP. by rewrite A. Qed.

Lemma agree_unless l e r r' : strip l r = strip l r' -> unless_blocked e r = unless_blocked e r'.
Proof. intros E. unfold unless_blocked, blocked. by rewrite (agree_addr l r r' E). Qed.

Lemma agree_failed {A} l e r r' msg : strip l r = strip l r' -> fail_with (A := A) e r msg = fail_with e r' msg.
Proof. intros E. unfold fail_with, failed. by rewrite (agree_addr l r r' E). Qed.

Lemma agree_succeeded l r r' : strip l r = strip l r' -> succeeded r = succeeded r'.
Proof. intros E. unfold succeeded. by rewrite (agree_addr l r r' E). Qed.

Lemma agree_auth e r r' : strip identity_headers r = strip identity_headers r' -> authMiddleware e r = authMiddleware e r'.
Proof. intros E. unfold authMiddleware. by rewrite E. Qed.

Lemma agree_device e r r' : strip device_headers r = strip device_headers r' -> deviceOrLegacyMiddleware e r = deviceOrLegacyMiddleware e r'.
Proof.
  intros E. unfold deviceOrLegacyMiddleware. rewrite (header_agree device_headers r r' deviceCredentialHeader E) by reflexivity.
  rewrite (agree_auth e r r') by (by apply (strip_covers identity_headers device_headers)).
  rewrite (agree_unless device_headers e r r' E), (agree_failed device_headers e r r' _ E), (agree_succeeded device_headers r r' E).
  by rewrite E.
Qed.

Lemma agree_router e r r' : strip relay_headers r = strip relay_headers r' -> routerAuth e r = routerAuth e r'.
Proof.
  intros E. unfold routerAuth. assert (I : strip identity_headers (strip ["X-Router-ID"] r) = strip identity_headers (strip ["X-Router-ID"] r')).
  { apply strip_eq in E as (A1 & A2 & A3 & A4 & A5 & A6 & A7 & A8 & A9). apply strip_eq. repeat (split; [done|]). intros k N. cbn -[Del].
    pose proof (del_all_lookup ["X-Router-ID"] (rq_Header r) k) as L.
    pose proof (del_all_lookup ["X-Router-ID"] (rq_Header r') k) as L'. cbn [foldr] in L, L'. rewrite L, L'.
    destruct (named ["X-Router-ID"] k) eqn:Q; [done|]. apply A9. unfold relay_headers, named. rewrite map_app, existsb_app.
    unfold named in N, Q. by rewrite N, Q. }
  rewrite I. rewrite (agree_auth e _ _ I). assert (V : verifiedRouter (strip ["X-Router-ID"] r) = verifiedRouter (strip ["X-Router-ID"] r')).
  { apply strip_eq in E as (_ & _ & _ & _ & _ & _ & T & _). unfold verifiedRouter. cbn. by rewrite T. }
  by rewrite V.
Qed.

Lemma agree_feed e r r' : strip identity_headers r = strip identity_headers r' -> nightshiftFeedAuth e r = nightshiftFeedAuth e r'.
Proof.
  intros E. unfold nightshiftFeedAuth. rewrite (header_agree identity_headers r r' "X-API-Key" E) by reflexivity.
  rewrite (agree_auth e r r' E), (agree_unless identity_headers e r r' E).
  by rewrite (strip_covers relay_headers identity_headers r r' eq_refl E).
Qed.

Lemma agree_relay e r r' : strip relay_headers r = strip relay_headers r' -> approvalRelayAuth e r = approvalRelayAuth e r'.
Proof.
  intros E. unfold approvalRelayAuth. rewrite (header_agree relay_headers r r' "X-API-Key" E) by reflexivity.
  by rewrite (agree_unless relay_headers e r r' E), (agree_failed relay_headers e r r' _ E), (agree_succeeded relay_headers r r' E), E.
Qed.

(** Headers that are set do not depend on what was there. *)
Lemma set_agree r r' :
  strip (vouched Setup) r = strip (vouched Setup) r' ->
  set_header "X-Username" "local-setup" (set_header "X-Role" "admin" r) = set_header "X-Username" "local-setup" (set_header "X-Role" "admin" r').
Proof.
  intros E. apply strip_eq in E as (A1 & A2 & A3 & A4 & A5 & A6 & A7 & A8 & A9).
  destruct r as [m p hd q c f a t b], r' as [m' p' hd' q' c' f' a' t' b']. cbn in *. subst. unfold set_header. cbn. f_equal.
  apply map_eq. intros k. unfold Set_. rewrite !lookup_insert. case_decide as N1; [done|]. case_decide as N2; [done|].
  apply A9. apply not_eq_sym, String.eqb_neq in N1, N2. by rewrite N1, N2.
Qed.

Lemma agree_setup e r r' : strip (vouched Setup) r = strip (vouched Setup) r' -> setupOrAuthMiddleware e r = setupOrAuthMiddleware e r'.
Proof.
  intros E. unfold setupOrAuthMiddleware, setupCSRF. rewrite (set_agree r r' E).
  rewrite (agree_auth e r r') by (by apply (strip_covers identity_headers (vouched Setup))).
  rewrite (header_agree (vouched Setup) r r' "X-CSRF-Token" E) by reflexivity.
  apply strip_eq in E as (A1 & A2 & A3 & A4 & A5 & A6 & A7 & A8 & _).
  assert (S : setupSessionFromRequest e r = setupSessionFromRequest e r') by (unfold setupSessionFromRequest, Cookie; by rewrite A4).
  unfold reading, PostFormValue. by rewrite S, A1, A5.
Qed.

(** C15: At every gate the headers it vouches for ([vouched]) are what the hub
    found and never what the client says: requests that differ only in those
    are refused alike, or handed on as the very same request, and leave the hub
    in the same state. These are all headers that name the caller at the gates
    of the API, gateways, feed and relay; at the agents' gate all but
    [X-Auth-Method]; at the setup gate the role and the name only. *)
Theorem identity_unforgeable (d : door) (e : env) (r r' : request) (h : hub) :
  strip (vouched d) r = strip (vouched d) r' -> enter d e r h = enter d e r' h.
Proof.
  intros E. destruct d; cbn [enter vouched] in *.
  - apply (strip_covers identity_headers) in E; [|reflexivity]. by rewrite (agree_auth e r r' E).
  - apply (strip_covers device_headers) in E; [|reflexivity]. by rewrite (agree_device e r r' E).
  - apply (strip_covers relay_headers) in E; [|reflexivity]. by rewrite (agree_router e r r' E).
  - apply (strip_covers identity_headers) in E; [|reflexivity]. by rewrite (agree_feed e r r' E).
  - apply (strip_covers relay_headers) in E; [|reflexivity]. by rewrite (agree_relay e r r' E).
  - by rewrite (agree_setup e r r' E).
Qed.

(** ** Who gets through *)

Record caller : Type := mkCaller {
  cr_Role : string; cr_Username : string; cr_TenantID : string; cr_UserID : string; cr_Device : string; cr_Method : string }.

(** The caller as the hub told the handler. *)
Definition caller_of (r : request) : caller :=
  mkCaller (header_of r "X-Role") (header_of r "X-Username") (header_of r "X-Tenant-ID") (header_of r "X-User-ID")
    (header_of r "X-Device-Endpoint-ID") (header_of r "X-Auth-Method").

(** The credential of a request, and the caller it stands for. *)
Inductive entitled (e : env) (r : request) (h : hub) : caller -> Prop :=
| by_token claims : bearer e r h = Some claims ->
    entitled e r h (mkCaller (c_Role claims) (c_Username claims) (c_TenantID claims) (c_UserID claims) "" "jwt")
| by_session op : consoleSession e r h = Some op ->
    entitled e r h (mkCaller (access.ac_Role op) (access.ac_Email op) "" "" "" "console")
| by_admin_key : h_adminKey h <> "" -> h_adminKey h ∈ presented_keys r -> entitled e r h (mkCaller "admin" "admin" "" "" "" "api-key")
| by_steward_key key : key ∈ presented_keys r -> stewardKeyMatches key h = true ->
    entitled e r h (mkCaller "steward" "steward" "" "" "" stewardAuthMethod)
| by_tenant_key key t : key <> "" -> key ∈ presented_keys r -> h_tenants h !! key = Some t ->
    entitled e r h (mkCaller "tenant" (tn_Name t) (tn_ID t) "" "" "api-key").

(** What a caller may do: an auditor reads, the steward keeps to its routes. *)
Definition permitted (c : caller) (r : request) : bool :=
  (negb (String.eqb (cr_Role c) "auditor") || bool_decide (rq_Method r ∈ ["GET"; "HEAD"; "OPTIONS"])) && (negb (String.eqb (cr_Method c) stewardAuthMethod) || stewardAllowed r).

(** The address is serving a lockout. *)
Definition locked_out (e : env) (r : request) (h : hub) : bool :=
  match throttle.failures (h_throttle h) !! clientIP r with Some f => throttle.serving (ev_now e) f | None => false end.

(** The request as it is looked at. *)
Definition seen (r : request) : request := note_cert (strip identity_headers r).

Lemma seen_header r k :
  CanonicalHeaderKey "X-Client-CN" <> CanonicalHeaderKey k ->
  header_of (seen r) k = if named identity_headers (CanonicalHeaderKey k) then "" else header_of r k.
Proof. intros N. unfold seen, note_cert. case_match; [by rewrite header_strip|]. by rewrite header_set_ne, header_strip. Qed.

Lemma seen_strip r : strip identity_headers (seen r) = strip identity_headers r.
Proof. unfold seen, note_cert. case_match; [|rewrite strip_set by reflexivity]; by rewrite strip_strip. Qed.

Lemma seen_client r k : named identity_headers (CanonicalHeaderKey k) = false -> header_of (seen r) k = header_of r k.
Proof. intros N. rewrite seen_header; [by rewrite N|]. intros Q. rewrite <- Q in N. by vm_compute in N. Qed.

Lemma seen_shape r : exists hd, seen r = r <| rq_Header := hd |>.
Proof. unfold seen, note_cert. case_match; eexists; reflexivity. Qed.

Lemma seen_keys r : presented_keys (seen r) = presented_keys r.
Proof. unfold presented_keys. rewrite seen_client by reflexivity. by destruct (seen_shape r) as [hd ->]. Qed.

Lemma seen_bearer e r h : bearer e (seen r) h = bearer e r h.
Proof. unfold bearer. by rewrite seen_client by reflexivity. Qed.

Lemma seen_session e r h : consoleSession e (seen r) h = consoleSession e r h.
Proof. by destruct (seen_shape r) as [hd ->]. Qed.

Lemma auth_run e r h : authMiddleware e r h =
  match bearer e r h, consoleSession e r h with
  | Some claims, _ => proceed (as_claims claims (seen r)) h
  | None, Some op => proceed (as_session op (seen r)) h
  | None, None => (unless_blocked e (seen r) ≫= fun _ => try_keys e (presented_keys r) (seen r)) h
  end.
Proof.
  unfold authMiddleware. fold (seen r). unfold mbind at 1, gate_bind at 1, read. cbv beta iota.
  rewrite seen_bearer, seen_session, seen_keys. by destruct (bearer e r h), (consoleSession e r h).
Qed.

(** What the throttle makes of a request that shows its credential. *)
Lemma unless_blocked_run e r h :
  unless_blocked e r h =
    (h <| h_throttle := (throttle.blocked (clientIP r) (ev_now e) (h_throttle h)).1 |>,
     if locked_out e r h then Err (writeJSONError 429 too_many) else Ok tt).
Proof.
  unfold unless_blocked, blocked, locked_out, throttle.blocked, mbind, gate_bind.
  destruct (throttle.failures (h_throttle h) !! clientIP r) as [f|]; [|by destruct h].
  destruct (_ && _) eqn:Q; cbn; [|by destruct h, (throttle.serving (ev_now e) f)].
  assert (S : throttle.serving (ev_now e) f = false); [|by rewrite S].
  unfold throttle.serving, throttle.Before, throttle.After in *. destruct (throttle.fw_blockedTill f); [|done]. bools. lia.
Qed.

(** The keys are tried in a hub that differs in the throttle only. *)
Inductive key_verdict (e : env) (r : request) (h : hub) : result reply request -> Prop :=
| KeyKnown c r' : entitled e r h c -> caller_of r' = c -> permitted c r = true -> strip identity_headers r' = strip identity_headers r ->
    key_verdict e r h (Ok r')
| KeyLimited c msg : entitled e r h c -> permitted c r = false -> key_verdict e r h (Err (writeJSONError 403 msg))
| KeyUnknown : Forall (fun key => key = "" \/ throttle.secretEqual key (h_adminKey h) = false /\ stewardKeyMatches key h = false
      /\ h_tenants h !! key = None) (presented_keys r) ->
    key_verdict e r h (Err (writeJSONError 401 "invalid or missing api key")).

(** A request handed on as the caller [c]. *)
Record handed (r : request) (c : caller) (r1 : request) : Prop := {
  hd_caller : caller_of r1 = c;
  hd_method : rq_Method r1 = rq_Method r;
  hd_strip : strip identity_headers r1 = strip identity_headers r;
  hd_steward : cr_Method c = stewardAuthMethod -> stewardAllowed r = true;
}.

Lemma roleAllows_spec role method :
  roleAllows role method = negb (String.eqb role "auditor") || bool_decide (method ∈ ["GET"; "HEAD"; "OPTIONS"]).
Proof.
  unfold roleAllows, RoleAuditor. f_equal. apply eq_bool_prop_intro. rewrite bool_decide_spec, !elem_of_cons, elem_of_nil. cbn.
  destruct (String.eqb_spec method "GET"), (String.eqb_spec method "HEAD"), (String.eqb_spec method "OPTIONS"); cbn; tauto.
Qed.

Lemma proceed_run r c r1 h1 : handed r c r1 ->
  proceed r1 h1 = (h1, if permitted c r then Ok r1 else Err (writeJSONError 403 "this role can read the fleet but not change it")).
Proof.
  intros [C Me St Sw]. unfold proceed. assert (P : permitted c r = roleAllows (header_of r1 "X-Role") (rq_Method r1)).
  { unfold permitted. rewrite roleAllows_spec. rewrite <- C at 1. cbn [cr_Role caller_of]. rewrite Me.
    destruct (String.eqb_spec (cr_Method c) stewardAuthMethod) as [Q|Q]; [rewrite (Sw Q)|]; apply andb_true_r. }
  rewrite P. by destruct (roleAllows _ _).
Qed.

Lemma handed_on e r h c r1 h1 : entitled e r h c -> handed r c r1 -> key_verdict e r h (proceed r1 h1).2.
Proof.
  intros En Ha. rewrite (proceed_run r c r1 h1 Ha). cbn. destruct Ha. destruct (permitted c r) eqn:P; [by apply (KeyKnown e r h c)|by apply (KeyLimited e r h c)].
Qed.

Lemma method_seen r : rq_Method (seen r) = rq_Method r.
Proof. by destruct (seen_shape r) as [hd ->]. Qed.

(** The headers set for each kind of caller, and the ones left empty. *)
Ltac found := unfold caller_of; headers; rewrite ?seen_header by (vm_compute; discriminate); reflexivity.

Ltac stripped := repeat rewrite strip_set by reflexivity; apply seen_strip.

Lemma admin_handed r : handed r (mkCaller "admin" "admin" "" "" "" "api-key") (as_admin (seen r)).
Proof. unfold as_admin. split; [found|apply method_seen|stripped|discriminate]. Qed.

Lemma steward_handed r : stewardAllowed r = true -> handed r (mkCaller "steward" "steward" "" "" "" stewardAuthMethod) (as_steward (seen r)).
Proof. intros Al. unfold as_steward. split; [found|apply method_seen|stripped|done]. Qed.

Lemma tenant_handed t r : handed r (mkCaller "tenant" (tn_Name t) (tn_ID t) "" "" "api-key") (as_tenant t (seen r)).
Proof. unfold as_tenant. split; [found|apply method_seen|stripped|discriminate]. Qed.

Lemma session_handed op r : handed r (mkCaller (access.ac_Role op) (access.ac_Email op) "" "" "" "console") (as_session op (seen r)).
Proof. unfold as_session. split; [found|apply method_seen|stripped|discriminate]. Qed.

Lemma claims_handed c r : handed r (mkCaller (c_Role c) (c_Username c) (c_TenantID c) (c_UserID c) "" "jwt") (as_claims c (seen r)).
Proof.
  unfold as_claims. destruct (String.eqb_spec (c_TenantID c) "") as [->|];
    (split; [found|apply method_seen|stripped|discriminate]).
Qed.

Definition same_secrets (h h1 : hub) : Prop :=
  h_adminKey h1 = h_adminKey h /\ h_settings h1 = h_settings h /\ h_tenants h1 = h_tenants h.

Lemma steward_seen r : stewardAllowed (as_steward (seen r)) = stewardAllowed r.
Proof. unfold stewardAllowed, as_steward. cbn -[existsb seen]. by destruct (seen_shape r) as [hd ->]. Qed.

Lemma try_keys_verdict e r h : forall keys before h1,
  same_secrets h h1 -> presented_keys r = (before ++ keys)%list ->
  Forall (fun key => key = "" \/ throttle.secretEqual key (h_adminKey h) = false /\ stewardKeyMatches key h = false
    /\ h_tenants h !! key = None) before ->
  key_verdict e r h (try_keys e keys (seen r) h1).2.
Proof.
  induction keys as [|key keys IH]; intros before h1 S P F.
  { apply KeyUnknown. by rewrite P, app_nil_r. }
  assert (I : key ∈ presented_keys r) by (rewrite P; set_solver).
  assert (P' : presented_keys r = ((before ++ [key]) ++ keys)%list) by (by rewrite <- app_assoc).
  cbn [try_keys]. destruct (String.eqb_spec key "") as [->|Ne].
  { apply (IH (before ++ [""])%list h1 S P'). apply Forall_app. split; [done|]. apply Forall_singleton. by left. }
  destruct S as (S1 & S2 & S3). unfold mbind, gate_bind, read. cbn beta iota. rewrite S1, S3.
  assert (Sk : stewardKeyMatches key h1 = stewardKeyMatches key h) by (unfold stewardKeyMatches, GetSetting; by rewrite S2).
  rewrite Sk. destruct (throttle.secretEqual key (h_adminKey h)) eqn:A.
  { unfold throttle.secretEqual in A. apply andb_true_iff in A as [A1 A2]. apply String.eqb_eq in A2 as ->.
    apply negb_true_iff, String.eqb_neq in A1. cbn.
    apply (handed_on e r h _ _ _ (by_admin_key e r h A1 I) (admin_handed r)). }
  destruct (stewardKeyMatches key h) eqn:B.
  { unfold succeeded, change. cbv beta iota. rewrite steward_seen. pose proof (by_steward_key e r h key I B) as En.
    destruct (stewardAllowed r) eqn:Al.
    - apply (handed_on e r h _ _ _ En (steward_handed r Al)).
    - eapply KeyLimited; [exact En|]. unfold permitted. rewrite Al. apply andb_false_r. }
  destruct (h_tenants h !! key) as [t|] eqn:T.
  { apply (handed_on e r h _ _ _ (by_tenant_key e r h key t Ne I T) (tenant_handed t r)). }
  apply (IH (before ++ [key])%list h1 ltac:(done) P'). apply Forall_app. split; [done|]. apply Forall_singleton. by right.
Qed.

Lemma no_entitlement e r h c :
  bearer e r h = None -> consoleSession e r h = None ->
  Forall (fun key => key = "" \/ throttle.secretEqual key (h_adminKey h) = false /\ stewardKeyMatches key h = false
    /\ h_tenants h !! key = None) (presented_keys r) -> ~ entitled e r h c.
Proof.
  intros B Se F En. rewrite Forall_forall in F. destruct En as [claims Q|op Q|Ne I|key I Q|key t Ne I Q]; try congruence.
  - destruct (F _ I) as [Q|(Q & _)]; [done|]. unfold throttle.secretEqual in Q. rewrite String.eqb_refl in Q.
    apply String.eqb_neq in Ne. by rewrite Ne in Q.
  - destruct (F _ I) as [->|(_ & Q' & _)]; [|congruence]. by unfold stewardKeyMatches, key_matches in Q.
  - destruct (F _ I) as [->|(_ & _ & Q')]; [done|congruence].
Qed.

(** An answer of the API's middleware that the credentials of a request justify. *)
Definition justified (e : env) (r : request) (h : hub) (v : result reply request) : Prop :=
  match v with
  | Ok r' => entitled e r h (caller_of r') /\ permitted (caller_of r') r = true
      /\ strip identity_headers r' = strip identity_headers r
  | Err a =>
    rp_Status a = 401 /\ (forall c, ~ entitled e r h c)
    \/ rp_Status a = 403 /\ (exists c, entitled e r h c /\ permitted c r = false)
    \/ rp_Status a = 429 /\ locked_out e r h = true
  end.

Lemma handed_justified e r h c r1 h1 : entitled e r h c -> handed r c r1 -> justified e r h (proceed r1 h1).2.
Proof.
  intros En Ha. rewrite (proceed_run r c r1 h1 Ha). destruct Ha as [<- Me St Sw]. destruct (permitted _ r) eqn:P; cbn; [done|].
  right. left. eauto.
Qed.

(** C14: What the middleware of the API makes of a request, whatever it
    carries. It is handed on only with a credential, as the caller that
    credential stands for, an auditor only to read and the steward only on its
    routes, and with nothing but those headers changed. It is refused with 401
    only when it shows no credential, with 403 only when its caller may not do
    this, with 429 only from an address that is locked out. *)
Theorem callers_established (e : env) (r : request) (h : hub) : justified e r h (authMiddleware e r h).2.
Proof.
  rewrite auth_run. destruct (bearer e r h) as [claims|] eqn:B.
  { apply (handed_justified e r h _ _ _ (by_token e r h claims B) (claims_handed claims r)). }
  destruct (consoleSession e r h) as [op|] eqn:S.
  { apply (handed_justified e r h _ _ _ (by_session e r h op S) (session_handed op r)). }
  unfold mbind, gate_bind. rewrite unless_blocked_run. destruct (locked_out e (seen r) h) eqn:Lo.
  { cbn. right. right. split; [done|]. unfold locked_out, clientIP in *. by destruct (seen_shape r) as [hd Q]; rewrite Q in Lo. }
  cbn beta iota. set (h1 := h <| h_throttle := _ |>).
  pose proof (try_keys_verdict e r h (presented_keys r) [] h1 ltac:(done) eq_refl ltac:(constructor)) as V.
  destruct V as [c r' En <- P St|c msg En P|F]; cbn; [done|right; left; eauto|]. left. split; [done|]. intros c. by apply no_entitlement.
Qed.

(** ** What a gate changes *)

Definition only_throttle (h h1 : hub) : Prop := exists t, h1 = h <| h_throttle := t |>.

#[local] Instance only_throttle_refl : Reflexive only_throttle.
Proof. intros h. exists (h_throttle h). by destruct h. Qed.

#[local] Instance only_throttle_trans : Transitive only_throttle.
Proof. intros h h1 h2 [t ->] [t' ->]. by exists t'. Qed.

Lemma unless_only e r h : only_throttle h (unless_blocked e r h).1.
Proof. rewrite unless_blocked_run. by eexists. Qed.

Lemma proceed_only r h : only_throttle h (proceed r h).1.
Proof. unfold proceed. by case_match. Qed.

Lemma try_keys_only e keys r : forall h, only_throttle h (try_keys e keys r h).1.
Proof.
  induction keys as [|key keys IH]; intros h; [by eexists|]. cbn [try_keys]. case_match; [apply IH|].
  unfold mbind, gate_bind, read, succeeded, change. cbv beta iota.
  destruct (throttle.secretEqual _ _); [etrans; [|apply proceed_only]; by eexists|].
  destruct (stewardKeyMatches _ _); [destruct (negb _); [by eexists|etrans; [|apply proceed_only]; by eexists]|].
  destruct (_ !! key); [etrans; [|apply proceed_only]; by eexists|apply IH].
Qed.

Lemma auth_only e r h : only_throttle h (authMiddleware e r h).1.
Proof.
  rewrite auth_run. destruct (bearer _ _ _); [apply proceed_only|].
  destruct (consoleSession _ _ _); [apply proceed_only|]. unfold mbind, gate_bind.
  pose proof (unless_only e (seen r) h) as O. destruct (unless_blocked _ _ h) as [h1 [u|a]]; [|done].
  etrans; [exact O|apply try_keys_only].
Qed.

Lemma entitled_device e r h c : entitled e r h c -> cr_Device c = "".
Proof. by destruct 1. Qed.

(** ** Agents *)

(** C37: An agent gets through with its device credential only as the endpoint
    and the tenant the credential was issued for, from an address that is not
    locked out, and only to the routes of agents. Without one it gets through
    as any caller does, with a tenant key only during the migration, and never
    as a device. *)
Theorem device_confined (e : env) (r : request) (h h' : hub) (r' : request) :
  deviceOrLegacyMiddleware e r h = (h', Ok r') ->
  let credential := TrimSpace (header_of r deviceCredentialHeader) in
  (credential <> "" /\ locked_out e r h = false /\ isAllowedDeviceRoute (rq_Method r) (rq_Path r) = true /\
   exists id, (devices.VerifyDeviceCredential credential (ev_now e) (h_devices h)).2 = Some id
     /\ header_of r' "X-Role" = "tenant" /\ header_of r' "X-Tenant-ID" = devices.da_TenantID id
     /\ header_of r' "X-Device-Endpoint-ID" = devices.da_EndpointID id
     /\ header_of r' "X-Username" = "device:" ++ devices.da_EndpointID id /\ header_of r' "X-User-ID" = "")
  \/ (credential = "" /\ entitled e r h (caller_of r') /\ cr_Device (caller_of r') = ""
      /\ (cr_Role (caller_of r') = "tenant" -> legacyAgentAuthEnabled h = true)).
Proof.
  intros E credential. unfold deviceOrLegacyMiddleware in E. fold credential in E.
  destruct (String.eqb_spec credential "") as [Q|Ne]; [right|left].
  - unfold mbind, gate_bind, read in E. pose proof (callers_established e r h) as C. pose proof (auth_only e r h) as [t O].
    destruct (authMiddleware e r h) as [h1 [r1|a]]; [|done]. cbn in C, O. subst h1. destruct C as (En & _).
    destruct (_ && _) eqn:Le in E; [done|]. injection E as <- <-. split; [done|]. split; [done|].
    split; [by eapply entitled_device|]. cbn. intros T. rewrite T in Le. by apply negb_false_iff in Le.
  - split; [done|]. unfold mbind, gate_bind in E. rewrite unless_blocked_run in E.
    destruct (locked_out e r h); [done|]. split; [done|]. cbv beta iota in E. unfold VerifyDeviceCredential in E.
    match type of E with context [h_devices ?x] => change (h_devices x) with (h_devices h) in E end.
    destruct (devices.VerifyDeviceCredential credential (ev_now e) (h_devices h)) as [d [id|]] eqn:V;
      [|by unfold fail_with, failed, refuse, change, mbind, gate_bind in E].
    unfold succeeded, change, mbind, gate_bind in E. cbv beta iota in E.
    set (r1 := as_device id (note_cert (strip device_headers r))) in E.
    destruct (isAllowedDeviceRoute _ _) eqn:Al in E; [|done]. injection E as _ <-.
    assert (Sh : exists hd, note_cert (strip device_headers r) = r <| rq_Header := hd |>) by (unfold note_cert; case_match; by eexists).
    split; [destruct Sh as [hd Sh]; unfold r1, as_device in Al; rewrite Sh in Al; exact Al|].
    exists id. split; [done|]. unfold r1, as_device. headers. repeat (split; [done|]).
    unfold note_cert. case_match; headers; done.
Qed.

End Gates.

(** ** Guesses *)

Section Guesses.
Context `{U : Unicode} `{K : Crypto} `{R : Rows} `{M : Hmac} `{A : access.Rsa} `{F : TimeFormat}.

(** Every place that takes a credential. *)
Inductive visit : Type :=
| Through (d : door)
| Login
| Console
| Redeem (x : enrolling.supply)
| Portal (x : enrolling.supply).

Definition answer {X} (f : X -> reply) (v : result reply X) : reply := match v with Ok x => f x | Err a => a end.

(** A visit, and what is answered; a request handed on counts as 200. *)
Definition serve (v : visit) (e : env) (r : request) (h : hub) : hub * reply :=
  match v with
  | Through d => let '(h, x) := enter d e r h in (h, answer (fun _ => writeJSON 200 []) x)
  | Login => let '(h, x) := handleLogin e r h in (h, answer id x)
  | Console => let '(h, x) := handleDashboard e r h in (h, answer id x)
  | Redeem s => let '(h, x) := enrolling.handleEnrollmentRedeem s e r h in (h, answer id x)
  | Portal s => let '(h, x) := enrolling.handleEnrolPortal s e r h in (h, answer id x)
  end.

Definition shown (k : string) (a : reply) : string := default "" (first_of k (rp_Body a)).

(** The answer says that the credential is wrong: the portal asks for the
    passcode again, the other routes answer 401. *)
Definition told (v : visit) (a : reply) : bool :=
  match v with
  | Portal _ => String.eqb (shown "needs_pass" a) "true" && negb (String.eqb (shown "error" a) enrolling.too_many_attempts)
  | _ => rp_Status a =? 401
  end.

(** The answer turns the address away, whatever it shows. *)
Definition turned_away (v : visit) (a : reply) : bool :=
  match v with
  | Portal _ => String.eqb (shown "error" a) enrolling.too_many_attempts
  | _ => rp_Status a =? 429
  end.

(** Whether one of the keys is a key of the hub. *)
Definition key_known (key : string) (h : hub) : bool :=
  negb (String.eqb key "") &&
  (throttle.secretEqual key (h_adminKey h) || stewardKeyMatches key h || match h_tenants h !! key with Some _ => true | None => false end).

Definition judge (right : bool) : throttle.credential := if right then throttle.Right else throttle.Wrong.

(** What becomes of the credential of a visit; [None]: the throttle is not
    asked, as for a token, a session or a certificate. *)
Definition api_judgement (e : env) (r : request) (h : hub) : option throttle.credential :=
  if bool_decide (bearer e r h = None /\ consoleSession e r h = None)
  then Some (judge (existsb (fun key => key_known key h) (presented_keys r))) else None.

(** What the throttle is after an attempt that was not refused. *)
Definition after (k : throttle.credential) (e : env) (r : request) (t : throttle.authThrottle) : throttle.authThrottle :=
  match k with
  | throttle.Right => throttle.succeed (clientIP r) t
  | throttle.Wrong => (throttle.fail (ev_order e) (clientIP r) (ev_now e) t).1
  | throttle.Unjudged => t
  end.

Definition attempt_of (e : env) (r : request) (k : throttle.credential) : throttle.attempt :=
  throttle.mkAttempt (ev_now e) (clientIP r) k (ev_order e).

(** A step of a visit treats the throttle as an attempt with the credential
    [k] does, answers 429 when it is refused and 401 to a wrong credential. *)
Definition behaves {X} (k : throttle.credential) (e : env) (r : request) (h : hub) (x : hub * result reply X) : Prop :=
  let y := throttle.try (attempt_of e r k) (h_throttle h) in
  h_throttle x.1 = y.1 /\ (y.2 = throttle.TooMany -> exists a, x.2 = Err a /\ rp_Status a = 429)
  /\ (k = throttle.Wrong -> exists a, x.2 = Err a /\ (rp_Status a = 401 <-> y.2 = throttle.Failed)).

(** A step that leaves the throttle alone. *)
Definition aside {X} (m : gate X) : Prop := forall h, h_throttle (m h).1 = h_throttle h.

Lemma behaves_addr {X} k e r r' h (x : hub * result reply X) : clientIP r = clientIP r' -> behaves k e r h x -> behaves k e r' h x.
Proof. intros E. unfold behaves, attempt_of. by rewrite E. Qed.

Lemma behaves_bind {X Y} k e r h (m : gate X) (g : X -> gate Y) :
  behaves k e r h (m h) -> (forall x, aside (g x)) -> behaves k e r h ((m ≫= g) h).
Proof.
  unfold behaves, mbind, gate_bind. intros (B1 & B2 & B3) G. destruct (m h) as [h1 [x|a]]; cbn [fst snd] in *.
  - split; [by rewrite G|]. split; [intros To; by destruct (B2 To) as (a & Q & _)|]. intros Wk. by destruct (B3 Wk) as (a & Q & _).
  - split; [done|]. split; [intros To; destruct (B2 To) as (a' & [= <-] & Q); by exists a|].
    intros Wk. destruct (B3 Wk) as (a' & [= <-] & Q). by exists a.
Qed.

Lemma held_behaves {X} (g : gate X) msg k e r h :
  (forall t, h_throttle (g (h <| h_throttle := t |>)).1 = after k e r t
    /\ (k = throttle.Wrong -> exists a, (g (h <| h_throttle := t |>)).2 = Err a /\ rp_Status a = 401)) ->
  behaves k e r h ((b ← blocked e r; if (b : bool) then refuse 429 msg else g) h).
Proof.
  intros G. unfold behaves, throttle.try, attempt_of, blocked. cbn [throttle.at_addr throttle.at_time throttle.at_credential throttle.at_order].
  unfold mbind, gate_bind. destruct (throttle.blocked (clientIP r) (ev_now e) (h_throttle h)) as [t b].
  destruct b; cbv beta iota.
  - cbn. split; [done|]. split; [intros _; by eexists|]. intros _. by eexists.
  - specialize (G t) as [G1 G2]. cbn [fst snd]. rewrite G1. destruct k; cbn; (split; [done|]); (split; [done|]); try done.
    intros Wk. destruct (G2 Wk) as (a & Q & St). by exists a.
Qed.

Lemma attempt_behaves {X} (g : unit -> gate X) k e r h :
  (forall t, h_throttle (g tt (h <| h_throttle := t |>)).1 = after k e r t
    /\ (k = throttle.Wrong -> exists a, (g tt (h <| h_throttle := t |>)).2 = Err a /\ rp_Status a = 401)) ->
  behaves k e r h ((unless_blocked e r ≫= g) h).
Proof.
  intros G. apply (held_behaves (g tt) too_many) in G. unfold unless_blocked, mbind, gate_bind in *.
  by destruct (blocked e r h) as [h1 [[]|a]].
Qed.

Lemma fail_after {X} e r msg h : h_throttle (fail_with (A := X) e r msg h).1 = after throttle.Wrong e r (h_throttle h)
  /\ (fail_with (A := X) e r msg h).2 = Err (writeJSONError 401 msg).
Proof. done. Qed.

Lemma proceed_same r h : (proceed r h).1 = h.
Proof. unfold proceed. by case_match. Qed.

Lemma try_keys_after e keys r : forall h,
  let k := judge (existsb (fun key => key_known key h) keys) in
  h_throttle (try_keys e keys r h).1 = after k e r (h_throttle h)
  /\ (k = throttle.Wrong -> exists a, (try_keys e keys r h).2 = Err a /\ rp_Status a = 401).
Proof.
  induction keys as [|key keys IH]; intros h; [cbn; split; [done|]; intros _; by eexists|]. cbn [try_keys existsb]. cbv zeta.
  unfold key_known at 1 3. destruct (String.eqb key ""); [apply IH|]. cbn [negb andb].
  unfold mbind, gate_bind, read, succeeded, change. cbv beta iota.
  destruct (throttle.secretEqual key (h_adminKey h)); cbn [orb]; [split; [by rewrite proceed_same|done]|].
  destruct (stewardKeyMatches key h); cbn [orb]; [split; [destruct (negb _); [done|by rewrite proceed_same]|done]|].
  destruct (h_tenants h !! key); cbn [orb]; [split; [by rewrite proceed_same|done]|]. apply IH.
Qed.

Lemma seen_addr r : clientIP (seen r) = clientIP r.
Proof. by destruct (seen_shape r) as [hd ->]. Qed.

Lemma api_behaves e r h :
  match api_judgement e r h with
  | None => h_throttle (authMiddleware e r h).1 = h_throttle h
  | Some k => behaves k e r h (authMiddleware e r h)
  end.
Proof.
  unfold api_judgement. rewrite auth_run. destruct (bearer e r h); [rewrite bool_decide_false by naive_solver; by rewrite proceed_same|].
  destruct (consoleSession e r h); [rewrite bool_decide_false by naive_solver; by rewrite proceed_same|].
  rewrite bool_decide_true by done. apply (behaves_addr _ _ (seen r)); [apply seen_addr|]. apply attempt_behaves. intros t.
  exact (try_keys_after e (presented_keys r) (seen r) (h <| h_throttle := t |>)).
Qed.

(** ** What becomes of the credential of a visit *)

Definition key_shown (r : request) : string := TrimSpace (header_of r "X-API-Key").

Definition setup_judgement (e : env) (r : request) (h : hub) : option throttle.credential :=
  match setupCSRF e r h with
  | (_, Ok (Some _)) => None
  | (h, _) =>
    match setupSessionFromRequest e r h with
    | (h, Ok (Some _)) => if negb (reading r) then None else api_judgement e r h
    | (h, _) => api_judgement e r h
    end
  end.

Definition door_judgement (d : door) (e : env) (r : request) (h : hub) : option throttle.credential :=
  match d with
  | Api => api_judgement e r h
  | Agents =>
    let credential := TrimSpace (header_of r deviceCredentialHeader) in
    if String.eqb credential "" then api_judgement e r h
    else Some (judge (bool_decide (is_Some (devices.VerifyDeviceCredential credential (ev_now e) (h_devices h)).2)))
  | Gateways => match verifiedRouter r h with Some _ => None | None => api_judgement e (strip ["X-Router-ID"] r) h end
  | Feed => if key_matches (key_shown r) (GetSetting nightshiftFeedKeySetting h) then Some throttle.Unjudged else api_judgement e r h
  | Relay => Some (judge (key_matches (key_shown r) (GetSetting approvalRelayKeySetting h)))
  | Setup => setup_judgement e r h
  end.

Definition login_judgement (r : request) (h : hub) : option throttle.credential :=
  if negb (String.eqb (rq_Method r) "POST") then None else
  match json.decode (two_fields "username" "password") ("", "") (rq_Body r) with
  | None => Some throttle.Unjudged
  | Some up => Some (judge (String.eqb up.1 "admin" && throttle.secretEqual up.2 (h_adminKey h)))
  end.

Definition console_judgement (e : env) (r : request) (h : hub) : option throttle.credential :=
  if negb (String.eqb (rq_Path r) "/") || service_token r then None else
  Some (if throttle.secretEqual (console_key r) (h_adminKey h)
           || match (verify_access e r h).2 with Ok (Some _) => true | _ => false end
           || bool_decide (is_Some (consoleSession e r h)) || bool_decide (is_Some (bearer e r h))
        then throttle.Right else if String.eqb (console_key r) "" then throttle.Unjudged else throttle.Wrong).

Definition redeem_judgement (s : enrolling.supply) (e : env) (r : request) (h : hub) : option throttle.credential :=
  if negb (String.eqb (rq_Method r) "POST") then None else
  Some match enrolling.redeem_body s r, enrolling.el_pki s with
       | Some req, Some _ =>
         let platform := ToLower (TrimSpace (enrolling.er_Platform req)) in
         if negb (String.eqb platform "linux") && negb (String.eqb platform "windows") then throttle.Unjudged else
         judge (is_ok (enrolment.RedeemEnrollmentProfile (enrolling.er_Code req) platform (ev_now e) (h_enrolments h)).2)
       | _, _ => throttle.Unjudged
       end.

Definition chosen_platform (r : request) : string :=
  let want := TrimSpace (enrolling.FormValue r "platform") in
  if String.eqb want "" then enrolling.portalOSFromAgent (header_of r "User-Agent") else want.

Definition portal_claim (e : env) (r : request) (h : hub) : option throttle.credential :=
  match enrolling.enrolmentPlatform_ (ToLower (chosen_platform r)) with
  | None => None
  | Some _ =>
    Some match (enrolment.ClaimEnrolment (clientIP r) (enrolling.FormValue r "passcode") (ev_now e) (h_enrolments h)).2 with
         | Ok _ => throttle.Right
         | Err u => if enrolment.eu_NeedsPasscode u then throttle.Wrong else throttle.Unjudged
         end
  end.

Definition portal_judgement (s : enrolling.supply) (e : env) (r : request) (h : hub) : option throttle.credential :=
  if negb (String.eqb (rq_Method r) "POST") || negb (enrolling.el_form s) then None else portal_claim e r h.

Definition judgement (v : visit) (e : env) (r : request) (h : hub) : option throttle.credential :=
  match v with
  | Through d => door_judgement d e r h
  | Login => login_judgement r h
  | Console => console_judgement e r h
  | Redeem s => redeem_judgement s e r h
  | Portal s => portal_judgement s e r h
  end.

(** [x] is what a visit whose credential was judged [j] left and answered. *)
Definition treats {X} (j : option throttle.credential) (e : env) (r : request) (h : hub) (x : hub * result reply X) : Prop :=
  match j with None => h_throttle x.1 = h_throttle h | Some k => behaves k e r h x end.

Lemma treats_bind {X Y} j e r h (m : gate X) (g : X -> gate Y) :
  treats j e r h (m h) -> (forall x, aside (g x)) -> treats j e r h ((m ≫= g) h).
Proof.
  destruct j as [k|]; [apply behaves_bind|]. cbn. unfold mbind, gate_bind. intros E G. destruct (m h) as [h1 [x|a]]; [by rewrite G|done].
Qed.

Lemma api_treats e r h : treats (api_judgement e r h) e r h (authMiddleware e r h).
Proof. exact (api_behaves e r h). Qed.

Lemma treats_addr {X} j e r r' h (x : hub * result reply X) : clientIP r = clientIP r' -> treats j e r h x -> treats j e r' h x.
Proof. destruct j; [apply behaves_addr|done]. Qed.

Lemma aside_ret {X} (x : X) : aside (mret x).
Proof. done. Qed.

Lemma aside_refuse {X} st msg : aside (refuse (A := X) st msg).
Proof. done. Qed.

Lemma aside_bind {X Y} (m : gate X) (g : X -> gate Y) : aside m -> (forall x, aside (g x)) -> aside (m ≫= g).
Proof. intros A1 A2 h. unfold mbind, gate_bind. specialize (A1 h). destruct (m h) as [h1 [x|a]]; [by rewrite A2|done]. Qed.

Lemma agents_treats e r h : treats (door_judgement Agents e r h) e r h (deviceOrLegacyMiddleware e r h).
Proof.
  unfold deviceOrLegacyMiddleware. cbn [door_judgement]. set (c := TrimSpace (header_of r deviceCredentialHeader)).
  destruct (String.eqb c "").
  - apply treats_bind; [apply api_treats|]. intros x h1. unfold mbind, gate_bind, read. cbv beta iota. by case_match.
  - apply attempt_behaves. intros t. unfold mbind, gate_bind, VerifyDeviceCredential. change (h_devices (h <| h_throttle := t |>)) with (h_devices h).
    destruct (devices.VerifyDeviceCredential c (ev_now e) (h_devices h)) as [d [id|]]; cbv beta iota; cbn [snd].
    + rewrite bool_decide_true by (by eexists). split; [|done]. cbn. by case_match.
    + rewrite bool_decide_false by (by intros [? ?]). split; [done|]. intros _. by eexists.
Qed.

Lemma gateways_treats e r h : treats (door_judgement Gateways e r h) e r h (routerAuth e r h).
Proof.
  unfold routerAuth, mbind, gate_bind, read. cbv beta iota. cbn [door_judgement].
  change (verifiedRouter (strip ["X-Router-ID"] r) h) with (verifiedRouter r h). destruct (verifiedRouter r h); [done|].
  apply (treats_addr _ _ (strip ["X-Router-ID"] r)); [done|apply api_treats].
Qed.

Lemma feed_treats e r h : treats (door_judgement Feed e r h) e r h (nightshiftFeedAuth e r h).
Proof.
  unfold nightshiftFeedAuth. unfold mbind at 1, gate_bind at 1, read. cbv beta iota. cbn [door_judgement]. fold (key_shown r).
  destruct (key_matches _ _).
  - apply attempt_behaves. intros t. done.
  - apply treats_bind; [apply api_treats|]. intros x. apply aside_bind; [intros h1; unfold requireAdmin; by case_match|].
    intros y h1. by case_match.
Qed.

Lemma relay_treats e r h : treats (door_judgement Relay e r h) e r h (approvalRelayAuth e r h).
Proof.
  unfold approvalRelayAuth. cbn [door_judgement treats]. apply attempt_behaves. intros t. unfold mbind, gate_bind, read. cbv beta iota.
  change (GetSetting approvalRelayKeySetting (h <| h_throttle := t |>)) with (GetSetting approvalRelayKeySetting h). fold (key_shown r).
  destruct (key_matches _ _); cbn [negb judge]; [done|]. split; [done|]. intros _. by eexists.
Qed.

Lemma setup_session_aside e r : aside (setupSessionFromRequest e r).
Proof. intros h. unfold setupSessionFromRequest. repeat case_match; done. Qed.

Lemma setup_csrf_aside e r : aside (setupCSRF e r).
Proof. apply aside_bind; [apply setup_session_aside|]. intros [s|] h; [|done]. cbv zeta. by destruct (_ && negb (secureStringEqual _ _)). Qed.

Lemma setup_session_ok e r h : exists s, (setupSessionFromRequest e r h).2 = Ok s.
Proof. unfold setupSessionFromRequest. repeat case_match; by eexists. Qed.

Lemma treats_from {X} j e r h h1 (x : hub * result reply X) : h_throttle h1 = h_throttle h -> treats j e r h1 x -> treats j e r h x.
Proof. intros E. destruct j; cbn; unfold behaves; by rewrite E. Qed.

Lemma setup_treats e r h : treats (setup_judgement e r h) e r h (setupOrAuthMiddleware e r h).
Proof.
  unfold setup_judgement, setupOrAuthMiddleware, mbind at 1, gate_bind at 1. pose proof (setup_csrf_aside e r h) as C.
  assert (T : forall h1, h_throttle h1 = h_throttle h ->
    treats (match setupSessionFromRequest e r h1 with
            | (h, Ok (Some _)) => if negb (reading r) then None else api_judgement e r h
            | (h, _) => api_judgement e r h
            end) e r h ((s ← setupSessionFromRequest e r;
      match s with Some _ => if negb (reading r) then refuse 403 "missing or invalid CSRF token" else authMiddleware e r | None => authMiddleware e r end) h1)).
  { intros h1 E1. unfold mbind, gate_bind. pose proof (setup_session_aside e r h1) as Q.
    destruct (setup_session_ok e r h1) as [s0 Sx]. destruct (setupSessionFromRequest e r h1) as [h2 x]; cbn [fst snd] in Q, Sx.
    subst x. destruct s0 as [s|].
    - destruct (negb (reading r)); [cbn; by rewrite Q|]. apply (treats_from _ _ _ _ h2); [by rewrite Q|apply api_treats].
    - apply (treats_from _ _ _ _ h2); [by rewrite Q|apply api_treats]. }
  destruct (setupCSRF e r h) as [h1 [[s|]|a]] eqn:Sc; cbn [fst] in C; [done|by apply T|].
  exfalso. unfold setupCSRF, mbind, gate_bind in Sc. destruct (setup_session_ok e r h) as [s0 Sx].
  destruct (setupSessionFromRequest e r h) as [h2 x]; cbn [snd] in Sx. subst x. destruct s0 as [s|]; [|done].
  cbv zeta in Sc. by destruct (_ && negb (secureStringEqual _ _)).
Qed.

Lemma door_treats d e r h : treats (door_judgement d e r h) e r h (enter d e r h).
Proof. destruct d; [apply api_treats|apply agents_treats|apply gateways_treats|apply feed_treats|apply relay_treats|apply setup_treats]. Qed.

Lemma login_treats e r h : treats (login_judgement r h) e r h (handleLogin e r h).
Proof.
  unfold login_judgement, handleLogin, only. destruct (String.eqb (rq_Method r) "POST"); [|done]. cbn [negb].
  unfold mbind at 1, gate_bind at 1. cbn [mret gate_ret]. unfold mret, gate_ret. cbv beta iota.
  destruct (json.decode _ _ (rq_Body r)) as [up|]; cbn [treats]; apply attempt_behaves; intros t; cbn [decoded]; [|done].
  unfold mbind, gate_bind, mret, gate_ret, read. cbv beta iota. change (h_adminKey (h <| h_throttle := t |>)) with (h_adminKey h).
  destruct (_ && _); cbn [judge]; [done|]. split; [done|]. intros _. by eexists.
Qed.

Lemma note_events_same l h :
  let h1 := (note_events l h).1 in
  h_throttle h1 = h_throttle h /\ h_adminKey h1 = h_adminKey h /\ h_operators h1 = h_operators h.
Proof.
  unfold note_events, change. cbn. revert h. induction l as [|x l IH]; intros h; [done|]. cbn.
  match goal with |- context [fold_left _ l ?y] => destruct (IH y) as (-> & -> & ->) end. by destruct x.
Qed.

Lemma verify_access_same e r h t :
  let x := verify_access e r (h <| h_throttle := t |>) in
  x.2 = (verify_access e r h).2 /\ h_throttle x.1 = t /\ h_adminKey x.1 = h_adminKey h /\ h_operators x.1 = h_operators h.
Proof.
  unfold verify_access. cbn [h_access h_operators]. change (h_access (h <| h_throttle := t |>)) with (h_access h).
  destruct (h_access h) as [a|]; [|done]. change (h_operators (h <| h_throttle := t |>)) with (h_operators h).
  destruct (access.Verify _ _ _ _ _ _) as [[a' l] op].
  pose proof (note_events_same l (h <| h_throttle := t |> <| h_access := Some a' |>)) as (N1 & N2 & N3).
  destruct (note_events l (h <| h_throttle := t |> <| h_access := Some a' |>)) as [h1 ?].
  destruct (note_events l (h <| h_access := Some a' |>)) as [h2 ?]. cbn in *. done.
Qed.

Lemma verify_access_ok e r h : exists op, (verify_access e r h).2 = Ok op.
Proof.
  unfold verify_access. destruct (h_access h); [|by eexists]. destruct (access.Verify _ _ _ _ _ _) as [[? ?] ?].
  destruct (note_events _ _). by eexists.
Qed.

Lemma session_same e r h h1 : h_adminKey h1 = h_adminKey h -> h_operators h1 = h_operators h -> consoleSession e r h1 = consoleSession e r h.
Proof. intros E1 E2. unfold consoleSession. by rewrite E1, E2. Qed.

Lemma bearer_same e r h h1 : h_adminKey h1 = h_adminKey h -> bearer e r h1 = bearer e r h.
Proof. intros E1. unfold bearer. by rewrite E1. Qed.

Lemma open_after e r held viewer operator prior h :
  h_throttle (open_console e r held viewer operator prior h).1 = after throttle.Right e r (h_throttle h).
Proof.
  unfold open_console. unfold mbind at 1 2, gate_bind at 1 2, succeeded at 1, change at 1, read. cbv beta iota.
  match goal with |- context [_ ≫= ?g] => apply (aside_bind _ g) end.
  - by destruct (match prior with Some _ => _ | None => _ end).
  - intros u h1. by destruct (negb (String.eqb (TrimSpace (query_of r "key")) "")).
Qed.

Lemma console_treats e r h : treats (console_judgement e r h) e r h (handleDashboard e r h).
Proof.
  unfold console_judgement, handleDashboard. destruct (String.eqb (rq_Path r) "/"); [|done]. cbn [negb orb].
  destruct (service_token r); [done|]. cbn [treats]. apply attempt_behaves. intros t.
  pose proof (verify_access_same e r h t) as (V1 & V2 & V3 & V4). unfold mbind, gate_bind, read. cbv beta iota.
  change (h_adminKey (h <| h_throttle := t |>)) with (h_adminKey h). destruct (throttle.secretEqual _ _).
  { unfold mret, gate_ret. cbv beta iota. cbn [orb]. split; [apply open_after|done]. }
  destruct (verify_access e r (h <| h_throttle := t |>)) as [h1 x]. cbn [fst snd] in *. subst x. cbn [orb].
  destruct (verify_access_ok e r h) as [[op|] ->]; cbn [orb]; cbv beta iota.
  - split; [by rewrite open_after, V2|done].
  - rewrite (session_same e r h h1 V3 V4), (bearer_same e r h h1 V3).
    destruct (consoleSession e r h), (bearer e r h); cbn [bool_decide]; rewrite ?bool_decide_true, ?bool_decide_false by (by eexists || by intros [? ?]); cbn [orb];
      try (split; [by rewrite open_after, V2|done]).
    destruct (String.eqb (console_key r) ""); [done|]. split; [by rewrite <- V2|]. intros _. by eexists.
Qed.

Lemma aside_read {X} (f : hub -> X) : aside (read f).
Proof. done. Qed.

Lemma aside_enrolments {X} f : aside (enrolling.with_enrolments (A := X) f).
Proof. intros h. unfold enrolling.with_enrolments. by destruct (f (h_enrolments h)). Qed.

Lemma aside_devices {X} f : aside (with_devices (A := X) f).
Proof. intros h. unfold with_devices. by destruct (f (h_devices h)). Qed.

Lemma enrol_aside s e r req issue p : aside (enrolling.enrol_endpoint s e r req issue p).
Proof.
  unfold enrolling.enrol_endpoint. case_match; [apply aside_refuse|]. apply aside_bind; [apply aside_read|]. intros [t|]; [|apply aside_refuse].
  apply aside_bind; [done|]. intros _. destruct (issue _ _); [|apply aside_refuse].
  apply aside_bind; [apply aside_devices|]. intros [[c d]|]; [|apply aside_refuse]. by apply aside_bind.
Qed.

Lemma redeem_treats s e r h : treats (redeem_judgement s e r h) e r h (enrolling.handleEnrollmentRedeem s e r h).
Proof.
  unfold redeem_judgement, enrolling.handleEnrollmentRedeem, only. destruct (String.eqb (rq_Method r) "POST"); [|done]. cbn [negb treats].
  unfold mbind at 1, gate_bind at 1. unfold mret, gate_ret. cbv beta iota. apply held_behaves. intros t.
  unfold decoded, fail_with, failed, succeeded, change, refuse, enrolling.with_enrolments, mbind, gate_bind, mret, gate_ret.
  destruct (enrolling.redeem_body s r) as [req|]; [|done]. cbv beta iota zeta.
  change (enrolling.er_Platform (req <| enrolling.er_Platform ::= fun p => ToLower (TrimSpace p) |>)) with (ToLower (TrimSpace (enrolling.er_Platform req))).
  change (enrolling.er_Code (req <| enrolling.er_Platform ::= fun p => ToLower (TrimSpace p) |>)) with (enrolling.er_Code req).
  destruct (enrolling.el_pki s) as [issue|]; [|by destruct (negb _ && negb _)]. destruct (negb _ && negb _); [done|].
  change (h_enrolments (h <| h_throttle := t |>)) with (h_enrolments h).
  destruct (enrolment.RedeemEnrollmentProfile _ _ _ _) as [d [p|why]]; cbn [is_ok judge snd]; cbv beta iota.
  - split; [|done]. by rewrite enrol_aside.
  - split; [done|]. intros _. by eexists.
Qed.

(** What a visit is answered, and what is left of the throttle. *)
Definition served (v : visit) (e : env) (r : request) (h : hub) (x : hub * reply) : Prop :=
  match judgement v e r h with
  | None => h_throttle x.1 = h_throttle h
  | Some k =>
    let y := throttle.try (attempt_of e r k) (h_throttle h) in
    h_throttle x.1 = y.1 /\ (y.2 = throttle.TooMany -> turned_away v x.2 = true)
    /\ (k = throttle.Wrong -> (told v x.2 = true <-> y.2 = throttle.Failed))
  end.

Lemma mint_aside s e r plat w view : aside (enrolling.mint s e r plat w view).
Proof. unfold enrolling.mint. apply aside_bind; [apply aside_enrolments|]. intros [[p c]|]; [by apply aside_bind|done]. Qed.

Lemma mint_ok s e r plat w view h : exists view', (enrolling.mint s e r plat w view h).2 = Ok view'.
Proof.
  unfold enrolling.mint, mbind, gate_bind, enrolling.with_enrolments. destruct (enrolment.CreateEnrollmentProfile _ _ _ _ _ _) as [d [[p c]|]]; by eexists.
Qed.

(** The page after a claim that was not turned away. *)
Lemma portal_claimed s e r h plat view t :
  enrolling.pv_NeedsPass view = false -> enrolling.pv_Error view = "" ->
  let c := (enrolment.ClaimEnrolment (clientIP r) (enrolling.FormValue r "passcode") (ev_now e) (h_enrolments h)).2 in
  let k := match c with Ok _ => throttle.Right | Err u => if enrolment.eu_NeedsPasscode u then throttle.Wrong else throttle.Unjudged end in
  let x := (c ← enrolling.with_enrolments (enrolment.ClaimEnrolment (clientIP r) (enrolling.FormValue r "passcode") (ev_now e));
            match c with
            | Err u => _ ← (if enrolment.eu_NeedsPasscode u then failed e r else mret tt); mret (enrolling.refused_view u r view)
            | Ok window => _ ← succeeded r; enrolling.mint s e r plat window view
            end) (h <| h_throttle := t |>) in
  h_throttle x.1 = after k e r t /\ exists view', x.2 = Ok view'
  /\ (k = throttle.Wrong -> enrolling.pv_NeedsPass view' = true /\ enrolling.pv_Error view' <> enrolling.too_many_attempts).
Proof.
  intros Np Er c k x. subst x k. unfold mbind, gate_bind, enrolling.with_enrolments.
  change (h_enrolments (h <| h_throttle := t |>)) with (h_enrolments h). subst c.
  destruct (enrolment.ClaimEnrolment _ _ _ _) as [d [w|u]]; cbn [snd]; cbv beta iota.
  - unfold succeeded, change. cbv beta iota. split; [by rewrite mint_aside|]. destruct (mint_ok s e r plat w view
      (h <| h_throttle := t |> <| h_enrolments := d |> <| h_throttle ::= throttle.succeed (clientIP r) |>)) as [v ->]. by exists v.
  - destruct (enrolment.eu_NeedsPasscode u) eqn:N; cbv beta iota; (split; [done|]); eexists; (split; [done|]); [|done].
    intros _. unfold enrolling.refused_view. rewrite N. case_match; cbn; [by rewrite Er|done].
Qed.

(** What the portal does with a claim: [view] is the page so far. *)
Lemma portal_claims s e r h view :
  enrolling.el_form s = true -> enrolling.pv_Platform view = enrolling.portalOSFromAgent (header_of r "User-Agent") ->
  enrolling.pv_NeedsPass view = false -> enrolling.pv_Error view = "" ->
  match portal_claim e r h with
  | None => h_throttle (enrolling.portalMint s e r view h).1 = h_throttle h
  | Some k =>
    let y := throttle.try (attempt_of e r k) (h_throttle h) in
    exists h1 v, enrolling.portalMint s e r view h = (h1, Ok v) /\ h_throttle h1 = y.1
    /\ (y.2 = throttle.TooMany -> enrolling.pv_Error v = enrolling.too_many_attempts)
    /\ (k = throttle.Wrong -> enrolling.pv_NeedsPass v = true /\ (enrolling.pv_Error v <> enrolling.too_many_attempts <-> y.2 = throttle.Failed))
  end.
Proof.
  intros Fo Pl Np Er. unfold enrolling.portalMint, portal_claim, chosen_platform. rewrite Fo. cbn [negb].
  set (view1 := if String.eqb _ "" then view else _).
  assert (P : enrolling.pv_Platform view1 = chosen_platform r /\ enrolling.pv_NeedsPass view1 = false /\ enrolling.pv_Error view1 = "").
  { unfold view1, chosen_platform. by case_match. }
  destruct P as (P1 & P2 & P3). rewrite P1. fold (chosen_platform r). destruct (enrolling.enrolmentPlatform_ _) as [plat|]; [|done]. cbv zeta.
  match goal with |- context [attempt_of e r ?k0] => set (k := k0) end.
  unfold throttle.try, attempt_of. cbn [throttle.at_addr throttle.at_time throttle.at_credential throttle.at_order].
  unfold mbind at 1, gate_bind at 1, blocked at 1.
  destruct (throttle.blocked (clientIP r) (ev_now e) (h_throttle h)) as [t b]. cbv beta iota.
  destruct b; [eexists _, _; split; [reflexivity|]; cbn; by rewrite P3 || done|].
  destruct (portal_claimed s e r h plat view1 t P2 P3) as (T1 & v & T2 & T3). cbv zeta in T1, T2, T3. fold k in T1, T3.
  match type of T1 with h_throttle ?m.1 = _ => destruct m as [h1 x1] end. cbn [fst snd] in T1, T2. subst x1.
  exists h1, v. split; [done|]. destruct k; cbn; (split; [done|]); (split; [done|]); try done.
  intros Wk. destruct (T3 Wk) as [Q1 Q2]. split; [done|]. split; done.
Qed.

Lemma portal_served s e r h : served (Portal s) e r h (serve (Portal s) e r h).
Proof.
  unfold served. remember (serve (Portal s) e r h) as x eqn:Ex. cbn [judgement serve] in *. unfold portal_judgement.
  unfold enrolling.handleEnrolPortal, mbind, gate_bind, read, mret, gate_ret in Ex.
  destruct (String.eqb (rq_Method r) "POST") eqn:Me; cbn [negb orb].
  2: { subst x. rewrite andb_true_r. by destruct (negb _). }
  rewrite andb_false_r in Ex. cbv beta iota zeta in Ex. destruct (enrolling.el_form s) eqn:Fo; cbn [negb].
  2: { subst x. unfold enrolling.portalMint. by rewrite Fo. }
  match type of Ex with context [enrolling.portalMint s e r ?view h] => pose proof (portal_claims s e r h view Fo eq_refl eq_refl eq_refl) as Q end.
  destruct (portal_claim e r h) as [k|].
  - destruct Q as (h1 & v & Q & Q1 & Q2 & Q3). rewrite Q in Ex. subst x. cbn [fst snd]. split; [done|].
    unfold turned_away, told. cbn. split; [intros To; rewrite (Q2 To); apply String.eqb_refl|].
    intros Wk. destruct (Q3 Wk) as [-> Q4]. rewrite <- Q4. cbn. destruct (String.eqb_spec (enrolling.pv_Error v) enrolling.too_many_attempts); naive_solver.
  - subst x. rewrite <- Q. by destruct (enrolling.portalMint _ _ _ _ h) as [h1 [v|a]].
Qed.

Lemma serve_spec v e r h : served v e r h (serve v e r h).
Proof.
  assert (G : forall X (f : X -> reply) v (x : hub * result reply X), (forall s, v <> Portal s) -> treats (judgement v e r h) e r h x ->
    served v e r h (let '(h, y) := x in (h, answer f y))).
  { intros X f w [h1 y] N T. unfold served. destruct (judgement w e r h) as [k|]; [|exact T]. destruct T as (T1 & T2 & T3).
    assert (Td : forall a, told w a = (rp_Status a =? 401)) by (by destruct w; [..|by destruct (N x)]).
    assert (Aw : forall a, turned_away w a = (rp_Status a =? 429)) by (by destruct w; [..|by destruct (N x)]).
    split; [exact T1|]. cbn [snd] in *. split.
    - intros To. destruct (T2 To) as (a & -> & St). rewrite Aw. cbn. by apply Z.eqb_eq.
    - intros Wk. destruct (T3 Wk) as (a & -> & I). rewrite Td. cbn. by rewrite Z.eqb_eq. }
  destruct v as [d| | |s|s]; [apply G; [done|apply door_treats]|apply G; [done|apply login_treats]|apply G; [done|apply console_treats]
    |apply G; [done|apply redeem_treats]|apply portal_served].
Qed.

(** ** The hub over time *)

(** One visit, as a log would have it: where, when and from whom, what became
    of its credential, and what was answered. *)
Record entry : Type := mkEntry { en_visit : visit; en_attempt : throttle.attempt; en_reply : reply }.

Definition logged (v : visit) (e : env) (r : request) (h : hub) : list entry :=
  match judgement v e r h with Some k => [mkEntry v (attempt_of e r k) (serve v e r h).2] | None => [] end.

(** What happens to a hub: visits, and anything else that leaves the throttle
    alone. The visits whose credential the throttle is asked about are logged. *)
Inductive history (h0 : hub) : list entry -> hub -> Prop :=
| start : history h0 [] h0
| visited l h v e r : history h0 l h -> history h0 (l ++ logged v e r h) (serve v e r h).1
| otherwise l h h' : history h0 l h -> h_throttle h' = h_throttle h -> history h0 l h'.

(** A run of visits. *)
Fixpoint visits (l : list (visit * env * request)) (h : hub) : list entry * hub :=
  match l with
  | [] => ([], h)
  | (v, e, r) :: l => let '(es, h1) := visits l (serve v e r h).1 in (logged v e r h ++ es, h1)%list
  end.

Lemma history_app h0 l h l' h' : history h0 l h -> history h l' h' -> history h0 (l ++ l')%list h'.
Proof.
  intros H1 H2. induction H2 as [|l' h' v e r H2 IH|l' h' h'' H2 IH E]; [by rewrite app_nil_r|rewrite (assoc (++)%list); by constructor|].
  by eapply otherwise.
Qed.

Lemma visits_history l : forall h, history h (visits l h).1 (visits l h).2.
Proof.
  induction l as [|[[v e] r] l IH]; intros h; [constructor|]. cbn [visits]. specialize (IH (serve v e r h).1).
  destruct (visits l (serve v e r h).1) as [es h1]. cbn [fst snd] in *. eapply history_app; [|exact IH].
  exact (visited h [] h v e r (start h)).
Qed.

(** The wrong credentials of an address that were answered as such. *)
Definition answered_guesses (addr : string) (l : list entry) : list Z :=
  omap (fun x => if String.eqb (throttle.at_addr (en_attempt x)) addr && told (en_visit x) (en_reply x)
                 then match throttle.at_credential (en_attempt x) with throttle.Wrong => Some (throttle.at_time (en_attempt x)) | _ => None end
                 else None) l.

(** The throttle of a hub has seen exactly the logged attempts. *)
Lemma history_tries h0 l h : history h0 l h ->
  h_throttle h = (throttle.tries (map en_attempt l) (h_throttle h0)).1
  /\ forall addr, Forall (fun x => throttle.at_addr (en_attempt x) = addr -> throttle.at_credential (en_attempt x) <> throttle.Right) l ->
     answered_guesses addr l = throttle.guesses addr (throttle.tries (map en_attempt l) (h_throttle h0)).2.
Proof.
  induction 1 as [|l h v e r Hi [IH1 IH2]|l h h' Hi [IH1 IH2] E]; [done| |by rewrite E].
  pose proof (serve_spec v e r h) as S. unfold logged, served in *. destruct (judgement v e r h) as [k|] eqn:J.
  2: { rewrite app_nil_r, S. done. }
  destruct S as (S1 & _ & S2). rewrite map_app, throttle.tries_app. cbn [map en_attempt]. rewrite <- IH1.
  destruct (throttle.try (attempt_of e r k) (h_throttle h)) as [t o] eqn:T. cbn [throttle.tries]. rewrite T. cbn [fst snd].
  split; [exact S1|].
  intros addr Fo. apply Forall_app in Fo as [F1 F2]. rewrite throttle.guesses_app, <- (IH2 addr F1). unfold answered_guesses. rewrite omap_app.
  f_equal. inversion F2 as [|? ? Q _]; subst. unfold throttle.guesses. cbn in *. destruct (String.eqb_spec (clientIP r) addr) as [Ea|]; cbn.
  2: { by destruct o. }
  destruct k; [by destruct (Q Ea)| |].
  - specialize (S2 eq_refl). cbn [snd] in S2. destruct (told v (serve v e r h).2) eqn:St; [by rewrite (proj1 S2 eq_refl)|].
    destruct o; try done. by discriminate (proj2 S2 eq_refl).
  - unfold throttle.try in T. destruct (throttle.blocked _ _ _) as [? []]; cbn in T; injection T as _ <-; by destruct (told _ _).
Qed.


(** ** Lockouts *)

(** A lockout outlasts every visit before its end. *)
Lemma history_locked h0 l h addr till : history h0 l h -> throttle.locked addr till (h_throttle h0) ->
  Forall (fun x => throttle.at_time (en_attempt x) < till) l ->
  throttle.locked addr till (h_throttle h)
  /\ Forall (fun x => throttle.at_addr (en_attempt x) = addr -> turned_away (en_visit x) (en_reply x) = true) l.
Proof.
  intros Hi L. induction Hi as [|l h v e r Hi IH|l h h' Hi IH E]; intros Fo; [done| |by rewrite E; apply IH].
  apply Forall_app in Fo as [F1 F2]. destruct (IH F1) as [Lo Aw]. pose proof (serve_spec v e r h) as S. unfold logged, served in *.
  destruct (judgement v e r h) as [k|]; [|by rewrite S, app_nil_r]. destruct S as (S1 & S2 & _). inversion F2 as [|? ? T _]; subst.
  destruct (throttle.locked_try addr till (attempt_of e r k) (h_throttle h) Lo T) as [Lo' To]. rewrite S1. split; [done|].
  apply Forall_app. split; [done|]. apply Forall_singleton. cbn. intros Ea. by apply S2, To.
Qed.

Lemma history_sane h0 l h : history h0 l h -> throttle.sane (h_throttle h0) -> throttle.sane (h_throttle h).
Proof. intros Hi S. rewrite (proj1 (history_tries h0 l h Hi)). by apply throttle.tries_sane. Qed.

Lemma history_settings h0 l h : history h0 l h -> throttle.same_settings (h_throttle h0) (h_throttle h).
Proof. intros Hi. rewrite (proj1 (history_tries h0 l h Hi)). apply throttle.tries_settings. Qed.


End Guesses.

(** ** Sessions *)

Section Sessions.
Context `{U : Unicode} `{M : Hmac}.

Lemma token_nonempty claims secret ttl now : String.eqb (GenerateJWT claims secret ttl now) "" = false.
Proof.
  apply String.eqb_neq. unfold GenerateJWT. cbv zeta. intros Q. apply (f_equal String.length) in Q.
  rewrite !length_app_str in Q. change (String.length ".") with 1%nat in Q. cbn in Q. lia.
Qed.

(** The claims a session cookie of an operator with an address carries. *)
Definition session_claims (e : env) (op : access.accessOperator) : Claims :=
  mkClaims "" (access.ac_Email op) (access.ac_Role op) "" (Unix (ev_now e + consoleSessionTTL)).

Definition in_clock (e : env) : Prop := min_int64 <= Unix (ev_now e + consoleSessionTTL) <= max_int64.

Lemma session_valid e r op h t :
  contains_sub (access.ac_Email op) "@" = true -> valid_utf8 (access.ac_Email op) -> valid_utf8 (access.ac_Role op) -> in_clock e ->
  ValidateJWT (ck_Value (setConsoleSession e r op h)) (h_adminKey h) t =
    if Unix (ev_now e + consoleSessionTTL) <? Unix t then Err "token expired" else Ok (session_claims e op).
Proof.
  intros At Ve Vr Cl. unfold setConsoleSession. destruct (String.eqb_spec (access.ac_Email op) "") as [Q|_]; [by rewrite Q in At|].
  cbn [ck_Value]. rewrite generated_token; [|split; [by apply valid_ascii|done|done|by apply valid_ascii]|done].
  cbv zeta. by rewrite String.eqb_refl.
Qed.

(** C38: The cookie of an operator who signed in is accepted for twelve hours
    and no longer, as the operator it was made for, and with the role the
    operator list gives them at the time of each request: a demotion counts from
    the next request on, and a removal ends the session. *)
Theorem console_session_current (e e' : env) (r r' : request) (op : access.accessOperator) (h h' : hub) :
  contains_sub (access.ac_Email op) "@" = true -> valid_utf8 (access.ac_Email op) -> valid_utf8 (access.ac_Role op) -> in_clock e ->
  h_adminKey h' = h_adminKey h -> Cookie r' consoleSessionCookie = Some (ck_Value (setConsoleSession e r op h)) ->
  consoleSession e' r' h' =
    if Unix (ev_now e + consoleSessionTTL) <? Unix (ev_now e') then None
    else match operators.GetOperatorRole (access.ac_Email op) (h_operators h') with
         | Some role => Some (access.mkAccessOperator (access.ac_Email op) role "" "")
         | None => None
         end.
Proof.
  intros At Ve Vr Cl Ak Co. unfold consoleSession. rewrite Co. cbn [mbind option_bind]. rewrite Ak, session_valid by done.
  assert (Ne : String.eqb (ck_Value (setConsoleSession e r op h)) "" = false).
  { unfold setConsoleSession. by case_match; cbn [ck_Value]; apply token_nonempty. }
  rewrite Ne. destruct (_ <? _); [done|]. cbn [c_Username session_claims]. rewrite At. cbn. by destruct (operators.GetOperatorRole _ _).
Qed.

(** The same cookie shown as a bearer token brings the role of the sign-in,
    whatever the list says since. *)
Lemma bearer_keeps_role e e' r r' op h h' :
  contains_sub (access.ac_Email op) "@" = true -> valid_utf8 (access.ac_Email op) -> valid_utf8 (access.ac_Role op) -> in_clock e ->
  h_adminKey h' = h_adminKey h -> header_of r' "Authorization" = "Bearer " ++ ck_Value (setConsoleSession e r op h) ->
  Unix (ev_now e') <= Unix (ev_now e + consoleSessionTTL) ->
  bearer e' r' h' = Some (session_claims e op).
Proof.
  intros At Ve Vr Cl Ak Au Ti. unfold bearer, TrimPrefix, HasPrefix.
  rewrite Au, prefix_self, string_drop_app, Ak, session_valid by done.
  assert (Q : (Unix (ev_now e + consoleSessionTTL) <? Unix (ev_now e')) = false) by lia. by rewrite Q.
Qed.

End Sessions.
