(* ===== verification/GateExamples.v ===== *)
(** * The gates at work

    A small hub: what the gates do with concrete requests, and behaviours worth
    knowing. *)

From Stdlib Require Import Ascii String.
From stdpp Require Import gmap.
From S2P Require Import Prelude Utf8 Canonical Json Platform Encoding Http Jwt Throttle Operators Devices Enrolment Access Gate Handlers EnrolHandlers GateProps.

Module gate_example.
Import utf8 canonical platform http jwt gate handlers.

Local Open Scope string_scope.
Local Open Scope Z_scope.

#[local] Existing Instance ascii_only.
#[local] Instance plain_hash : Crypto := {| sha256 := fun s => s; ed25519_verify := fun _ _ _ => false |}.
#[local] Instance as_stored : Rows := {| in_row_order := fun A l => l; in_row_order_perm := fun A l => Permutation_refl l |}.
#[local] Instance toy_hmac : Hmac := fun key m => string_take 8 (key ++ m).
#[local] Instance toy_rsa : access.Rsa := fun _ _ _ => false.
#[local] Instance toy_time : TimeFormat := fun _ => "now".

Definition device_key : string := devices.credential_of "raw".

Definition fleet : devices.store :=
  devices.performs [devices.Enrol "pc-1" "acme"; devices.Issue "pc-1" "raw" "i1" 1] devices.empty_store.

Definition admins : gmap string operators.Operator :=
  operators.apply_all [operators.Bootstrap "ana@example.com" 1; operators.Upsert "bo@example.com" "admin" "" 2] ∅.

(** A window that needs a passcode, and a code for the machines of Beta. *)
Definition lab (passcode : string) (s : enrolment.enrolments) : enrolment.enrolments :=
  (enrolment.CreateEnrolmentWindow (enrolment.mkEnrolmentWindow "" "lab" ["198.51.100.0/24"] "" "acme" "" "" 0 0 0 0 "" None None)
    (Some (9000 * Second)) passcode "w" 0 s).1.

Definition beta_code : enrolment.enrolments :=
  (enrolment.CreateEnrollmentProfile (enrolment.mkProfile "" "campaign" "linux" "beta" "" "" "" "" "" 0 None 0 0 None)
    (3600 * Second) "p" "q" 0 (enrolment.mkEnrolments ∅ ∅)).1.

Definition home : hub := mkHub "k-admin" throttle.newAuthThrottle None {[ "sid" := mkSetup "tok" (9000 * Second) ]} ∅
  {[ stewardKeySetting := hashFeedKey "nss_1" ]} {[ "tk" := mkTenant "acme" "Acme"; "tk2" := mkTenant "beta" "Beta" ]} admins ∅ fleet (lab "sesame" beta_code) ∅ [].

Definition at_ (t : Z) : env := mkEnv (t * Second) (t * Second) (Err "unreachable") [] "id".

Definition plain (method path : string) (headers : list (string * string)) : request :=
  mkRequest method path (fold_right (fun kv h => Set_ kv.1 kv.2 h) ∅ headers) [] [] [] "198.51.100.7:4711" None "".

(** ** What a client says of itself *)

Definition honest : request := plain "POST" "/api/v1/events" [(deviceCredentialHeader, device_key)].
Definition boastful : request :=
  plain "POST" "/api/v1/events" [(deviceCredentialHeader, device_key); ("x-role", "admin"); ("X-DEVICE-ENDPOINT-ID", "pc-9"); ("X-Tenant-ID", "other")].

Lemma identity_unforgeable_witness :
  enter Agents (at_ 5) boastful home = enter Agents (at_ 5) honest home
  /\ match (enter Agents (at_ 5) boastful home).2 with
     | Ok r => (header_of r "X-Role", header_of r "X-Tenant-ID", header_of r "X-Device-Endpoint-ID") = ("tenant", "acme", "pc-1")
     | Err _ => False
     end.
Proof.
  split; [|vm_compute; reflexivity]. apply (identity_unforgeable Agents (at_ 5) boastful honest home). vm_compute. reflexivity.
Defined.

Definition passed : hub * result reply request := deviceOrLegacyMiddleware (at_ 5) boastful home.
Definition passed_request : request := match passed.2 with Ok r => r | Err _ => honest end.

Lemma device_confined_witness :
  isAllowedDeviceRoute (rq_Method boastful) (rq_Path boastful) = true /\ header_of passed_request "X-Device-Endpoint-ID" = "pc-1".
Proof.
  destruct (device_confined (at_ 5) boastful home passed.1 passed_request) as [(_ & _ & A & id & V & _ & _ & D & _)|(Q & _)].
  - vm_compute. reflexivity.
  - split; [exact A|]. rewrite D. vm_compute in V. injection V as <-. reflexivity.
  - vm_compute in Q. discriminate Q.
Defined.

(** ** Guessing *)

Definition supplied : enrolling.supply := enrolling.mkSupply true (Some (fun _ _ => Ok "cert")) "new" "i2" "uuid" "https://hub".

Definition form (path : string) (l : list (string * string)) : request :=
  (plain "POST" path [("Content-Type", "application/x-www-form-urlencoded")]) <| rq_PostForm := l |>.

(** Five routes in turn. *)
Definition guess (n : nat) : visit * env * request :=
  let e := at_ (Z.of_nat n) in
  let r := plain "GET" "/api/v1/endpoints" [("X-API-Key", "wrong"); (deviceCredentialHeader, "omd_wrong")] in
  match (n mod 5)%nat with
  | 0%nat => (Through Api, e, r)
  | 1%nat => (Through Relay, e, r)
  | 2%nat => (Through Agents, e, r)
  | 3%nat => (Redeem supplied, e, form "/api/v1/enrollment/redeem" [("code", "one_wrong"); ("platform", "linux")])
  | _ => (Portal supplied, e, form "/install" [("platform", "linux"); ("passcode", "guess")])
  end.

Definition guesses_made : list entry * hub := visits (guess <$> seq 1 30) home.


(** After nineteen wrong credentials, and one more at the portal, the right
    ones are of no use. *)
Definition nineteen : list entry * hub := visits (guess <$> seq 1 19) home.

Definition twentieth : visit * env * request := (Portal supplied, at_ 20, form "/install" [("platform", "linux"); ("passcode", "guess")]).

Definition right_ones : list (visit * env * request) :=
  [(Through Api, at_ 21, plain "GET" "/api/v1/endpoints" [("X-API-Key", "k-admin")]);
   (Through Agents, at_ 22, honest);
   (Redeem supplied, at_ 23, form "/api/v1/enrollment/redeem" [("code", enrolment.code_of "q"); ("platform", "linux")]);
   (Portal supplied, at_ 24, form "/install" [("platform", "linux"); ("passcode", "sesame")])].

Definition locked_hub : hub := (serve twentieth.1.1 twentieth.1.2 twentieth.2 nineteen.2).1.


(** ** Sessions *)

Definition bo : access.accessOperator := access.mkAccessOperator "bo@example.com" "admin" "" "".
Definition signed_in : cookie := setConsoleSession (at_ 10) (plain "GET" "/" []) bo home.
Definition with_cookie : request := (plain "GET" "/api/v1/endpoints" []) <| rq_Cookies := [(consoleSessionCookie, ck_Value signed_in)] |>.
Definition demoted : hub := home <| h_operators ::= operators.apply_all [operators.Upsert "bo@example.com" "auditor" "" 20] |>.
Definition removed : hub := home <| h_operators ::= operators.apply_all [operators.Delete "bo@example.com"] |>.

Lemma console_session_current_witness :
  consoleSession (at_ 30) with_cookie demoted = Some (access.mkAccessOperator "bo@example.com" "auditor" "" "")
  /\ consoleSession (at_ 30) with_cookie removed = None
  /\ consoleSession (at_ 50000) with_cookie home = None.
Proof.
  assert (Ve : valid_utf8 "bo@example.com") by (apply valid_ascii; vm_compute; reflexivity).
  assert (Vr : valid_utf8 "admin") by (apply valid_ascii; vm_compute; reflexivity).
  assert (Cl : in_clock (at_ 10)) by (split; vm_compute; discriminate).
  assert (Q : forall t h, h_adminKey h = h_adminKey home -> consoleSession (at_ t) with_cookie h = _)
    by (intros t h A; exact (console_session_current (at_ 10) (at_ t) (plain "GET" "/" []) with_cookie bo home h eq_refl Ve Vr Cl A eq_refl)).
  split; [|split]; rewrite Q by reflexivity; vm_compute; reflexivity.
Defined.

(** Removed from the list, Bo shows the value of the cookie as a bearer token. *)
Definition with_bearer (method : string) : request := plain method "/api/v1/operators" [("Authorization", "Bearer " ++ ck_Value signed_in)].

Lemma removed_keeps_role :
  consoleSession (at_ 30) with_cookie removed = None
  /\ match (authMiddleware (at_ 30) (with_bearer "POST") removed).2 with
     | Ok r => header_of r "X-Role" = "admin" /\ header_of r "X-Username" = "bo@example.com"
     | Err _ => False
     end.
Proof. vm_compute. repeat split. Qed.

(** ** Behaviours worth knowing *)

(** A device may acknowledge a job and report its result, not its progress. *)
Lemma device_progress_refused :
  isAllowedDeviceRoute "POST" "/api/v1/response/jobs/ack" = true /\ isAllowedDeviceRoute "POST" "/api/v1/response/jobs/progress" = false
  /\ (deviceOrLegacyMiddleware (at_ 5) (plain "POST" "/api/v1/response/jobs/progress" [(deviceCredentialHeader, device_key)]) home).2
     = Err (writeJSONError 403 "device credentials may only access permitted agent endpoints").
Proof. vm_compute. repeat split. Qed.

(** With a device credential, the method of authentication is what the client
    says. *)
Lemma device_names_method :
  match (deviceOrLegacyMiddleware (at_ 5) (plain "POST" "/api/v1/events" [(deviceCredentialHeader, device_key); ("X-Auth-Method", "steward-key")]) home).2 with
  | Ok r => isSteward r = true
  | Err _ => False
  end.
Proof. vm_compute. reflexivity. Qed.

(** In a setup session, the tenant and the user are what the client says. *)
Lemma setup_names_tenant :
  match (setupOrAuthMiddleware (at_ 5) ((plain "GET" "/api/v1/setup/status" [("X-Tenant-ID", "other"); ("X-User-ID", "u-1")])
           <| rq_Cookies := [(setupSessionCookie, "sid")] |>) home).2 with
  | Ok r => (header_of r "X-Role", header_of r "X-Tenant-ID", header_of r "X-User-ID") = ("admin", "other", "u-1")
  | Err _ => False
  end.
Proof. vm_compute. reflexivity. Qed.

(** A guess of the admin key next to a tenant key: answered, not counted, and
    earlier failures are forgotten. *)
Definition two_keys (guess : string) : request := (plain "GET" "/api/v1/endpoints" [("X-API-Key", guess)]) <| rq_Query := [("api_key", "tk")] |>.

Lemma guess_beside_tenant_key :
  let failed := (visits (guess <$> seq 1 19) home).2 in
  match authMiddleware (at_ 20) (two_keys "wrong") failed, authMiddleware (at_ 20) (two_keys "k-admin") failed with
  | (h, Ok r), (_, Ok r') => throttle.failures (h_throttle h) = ∅ /\ header_of r "X-Role" = "tenant" /\ header_of r' "X-Role" = "admin"
  | _, _ => False
  end.
Proof. vm_compute. repeat split. Qed.

(** On a network with a window open without a passcode, a visit to the portal
    clears the failures of its address. *)
Lemma open_window_clears :
  let failed := nineteen.2 <| h_enrolments := lab "" beta_code |> in
  let '(h, a) := serve (Portal supplied) (at_ 20) (form "/install" [("platform", "linux")]) failed in
  shown "code" a = enrolment.code_of "new" /\ throttle.failures (h_throttle h) = ∅.
Proof. vm_compute. repeat split. Qed.

(** A machine of Beta redeems its code under the id of a machine of Acme: it is
    given a credential of that machine, whose own is revoked. *)
Lemma code_takes_over_endpoint :
  let '(h, a) := serve (Redeem supplied) (at_ 5)
    (form "/api/v1/enrollment/redeem" [("code", enrolment.code_of "q"); ("platform", "linux"); ("endpoint_id", "pc-1")]) home in
  rp_Status a = 200 /\ (devices.VerifyDeviceCredential (shown "device_credential" a) (6 * Second) (h_devices h)).2 = Some (devices.mkAuth "pc-1" "acme")
  /\ (devices.VerifyDeviceCredential device_key (6 * Second) (h_devices h)).2 = None.
Proof. vm_compute. repeat split. Qed.

End gate_example.
